(** * The VPATH search engine of Make-plus: [vpath.c] and [w32/pathstuff.c]

    A shallow embedding of the selective/general/GPATH search lists, of the
    builder [construct_vpath_list], of the resolver [vpath_search] with its
    per-list scan [selective_vpath_search], and of the two path-list
    conversions of [w32/pathstuff.c].

    Conventions.
    - A C string is the list of its bytes before the terminating NUL.
    - The build is the non-VMS one; [HAVE_DOS_PATHS] and [WINDOWS32] are
      boolean parameters, [PATH_SEPARATOR_CHAR] a byte parameter.
    - [assert] is compiled in: a failed assertion ends the run with
      [Fault AssertionFailed]; an access outside an object, or a read of
      bytes that were never stored, ends it with [Fault InvalidAccess].
    - The collaborators that are not part of these files ([lookup_file],
      [dir_file_exists_p], [stat], [pattern_matches], [find_percent]) and
      the constants of the missing headers are the fields of [env]. *)

From Stdlib Require Import List String Ascii Bool Arith ZArith Lia.
Import ListNotations.
Local Open Scope list_scope.

Set Implicit Arguments.

(** ** C strings *)

Definition cstring : Type := list ascii.

(** Literals: [cs "foo.o"] is the C string foo.o. *)
Definition cs (s : string) : cstring := list_ascii_of_string s.

Definition NUL : ascii := Ascii.zero.
Definition SLASH : ascii := "/"%char.
Definition BACKSLASH : ascii := "\"%char.
Definition DOT : ascii := "."%char.
Definition COLON : ascii := ":"%char.
Definition SPACE : ascii := " "%char.
Definition TAB : ascii := "009"%char.
Definition DQUOTE : ascii := "034"%char.
Definition PERCENT : ascii := "%"%char.

Definition strlen (s : cstring) : nat := List.length s.

(** [s[i]]: the byte at offset [i], the terminator at offset [strlen s],
    nothing beyond it. *)
Definition char_at (s : cstring) (i : nat) : option ascii :=
  if i <? strlen s then nth_error s i
  else if i =? strlen s then Some NUL else None.

(** Modelled from the spec: [streq] (makeint.h) holds when "the underlying
    strings are equal", [strcmp (a, b) == 0]. *)
Fixpoint streq (a b : cstring) : bool :=
  match a, b with
  | [], [] => true
  | x :: a', y :: b' => Ascii.eqb x y && streq a' b'
  | _, _ => false
  end.

(** Modelled from the spec: [strneq] (makeint.h) is the "exact,
    case-sensitive" comparison of at most [n] bytes,
    [strncmp (a, b, n) == 0]; it stops at the first difference, at a
    terminator, or after [n] bytes. *)
Fixpoint strneq (a b : cstring) (n : nat) {struct n} : bool :=
  match n with
  | 0 => true
  | S n' =>
      match a, b with
      | [], [] => true
      | x :: a', y :: b' => Ascii.eqb x y && strneq a' b' n'
      | _, _ => false
      end
  end.

(** [strchr s c]: offset of the first [c] in [s]. *)
Fixpoint strchr (s : cstring) (c : ascii) : option nat :=
  match s with
  | [] => None
  | x :: s' => if Ascii.eqb x c then Some 0
               else option_map S (strchr s' c)
  end.

(** [strrchr s c]: offset of the last [c] in [s]. *)
Fixpoint strrchr (s : cstring) (c : ascii) : option nat :=
  match s with
  | [] => None
  | x :: s' =>
      match strrchr s' c with
      | Some k => Some (S k)
      | None => if Ascii.eqb x c then Some 0 else None
      end
  end.

(** The last byte of a non-empty string, [s[strlen s - 1]]. *)
Definition last_char (s : cstring) : option ascii :=
  match s with
  | [] => None
  | _ => nth_error s (strlen s - 1)
  end.

(** [o == c] for a byte [o] that may be missing. *)
Definition is_char (o : option ascii) (c : ascii) : bool :=
  match o with
  | Some x => Ascii.eqb x c
  | None => false
  end.

(** ** Outcomes *)

Inductive fault : Type :=
| AssertionFailed
| InvalidAccess
| NullArgument.

Inductive res (A : Type) : Type :=
| Ok (a : A)
| Fault (f : fault).

Arguments Ok {A} a.
Arguments Fault {A} f.

Definition bind {A B : Type} (r : res A) (k : A -> res B) : res B :=
  match r with
  | Ok a => k a
  | Fault f => Fault f
  end.

Notation "'do' x <- r ; k" := (bind r (fun x => k))
  (at level 10, x name, r at level 100, k at level 200).
Notation "'do' ' p <- r ; k" := (bind r (fun x => match x with p => k end))
  (at level 10, p pattern, r at level 100, k at level 200).

Definition assert (b : bool) : res unit :=
  if b then Ok tt else Fault AssertionFailed.

(** ** Scratch buffers

    A buffer obtained from [alloca]: a fixed number of bytes, none of them
    stored yet. *)

Definition buffer : Type := list (option ascii).

Definition alloca (n : nat) : buffer := repeat None n.

(** [b[i] = c]. *)
Fixpoint store (b : buffer) (i : nat) (c : ascii) : res buffer :=
  match b, i with
  | [], _ => Fault InvalidAccess
  | _ :: b', 0 => Ok (Some c :: b')
  | x :: b', S i' => do b'' <- store b' i' c; Ok (x :: b'')
  end.

(** [memcpy (b + i, src, strlen src)]. *)
Fixpoint memcpy (b : buffer) (i : nat) (src : list ascii) : res buffer :=
  match src with
  | [] => Ok b
  | c :: src' => do b' <- store b i c; memcpy b' (S i) src'
  end.

(** [b[i]]. *)
Definition load (b : buffer) (i : nat) : res ascii :=
  match nth_error b i with
  | Some (Some c) => Ok c
  | _ => Fault InvalidAccess
  end.

(** The C string that starts at the head of [b]. *)
Fixpoint cstr (b : buffer) : res cstring :=
  match b with
  | Some c :: b' =>
      if Ascii.eqb c NUL then Ok []
      else do s <- cstr b'; Ok (c :: s)
  | _ => Fault InvalidAccess
  end.

(** The first [len] bytes of [b]. *)
Fixpoint bytes (b : buffer) (len : nat) {struct len} : res (list ascii) :=
  match len, b with
  | 0, _ => Ok []
  | S len', Some c :: b' => do s <- bytes b' len'; Ok (c :: s)
  | S _, _ => Fault InvalidAccess
  end.

Fixpoint until_nul (s : list ascii) : cstring :=
  match s with
  | [] => []
  | c :: s' => if Ascii.eqb c NUL then [] else c :: until_nul s'
  end.

(** Modelled from the spec: [strcache_add_len] (strcache.c) is the spec's
    [intern]: it stores the [len] bytes at [str] and returns the stored
    text, content-addressed. As a C string the result ends at the first NUL
    among those bytes. *)
Definition strcache_add_len (str : buffer) (len : nat) : res cstring :=
  do s <- bytes str len; Ok (until_nul s).

(** A C string laid out in memory, terminator included. *)
Definition in_memory (s : cstring) : buffer := map Some s ++ [Some NUL].

(** ** The search lists and their collaborators *)

(** [struct vpath] without its [next] link: the chain is a list. [percent]
    is the offset of the wildcard in [pattern]. *)
Record vpath : Type := mk_vpath {
  pattern : cstring;
  percent : option nat;
  patlen : nat;
  searchpath : list cstring;
  maxlen : nat;
  target_goal : Z
}.

(** The three file-scope variables [vpaths], [general_vpath], [gpaths]. *)
Record globals : Type := mk_globals {
  vpaths : list vpath;
  general_vpath : option vpath;
  gpaths : option vpath
}.

(** The two fields of [struct file] (filedef.h) that the search reads. *)
Module filedef.
Record file : Type := mk_file {
  is_target : bool;
  last_mtime : Z
}.
End filedef.
Import filedef.

(** What the code takes from outside these files.
    - [lookup_file name]: the target database entry of [name].
    - [dir_file_exists_p dir name]: the directory cache.
    - [stat name]: [None] when the call fails, otherwise what
      [FILE_TIMESTAMP_STAT_MODTIME] makes of the result.
    - [pattern_matches pattern percent str], [find_percent pattern]: the
      wildcard matcher and the wildcard finder; [find_percent] may rewrite
      the pattern in place, so it returns the pattern with the offset.
    - the configuration macros and the three special time stamps. *)
Record env : Type := mk_env {
  lookup_file : cstring -> option file;
  dir_file_exists_p : cstring -> cstring -> bool;
  stat : cstring -> option Z;
  pattern_matches : cstring -> option nat -> cstring -> bool;
  find_percent : cstring -> cstring * option nat;
  HAVE_DOS_PATHS : bool;
  WINDOWS32 : bool;
  PATH_SEPARATOR_CHAR : ascii;
  OLD_MTIME : Z;
  NEW_MTIME : Z;
  UNKNOWN_MTIME : Z
}.

(** Modelled from the spec: [ISBLANK] (makeint.h) is the spec's "blank", a
    space or a tab. *)
Definition ISBLANK (c : ascii) : bool :=
  Ascii.eqb c SPACE || Ascii.eqb c TAB.

(** Modelled from the spec: [STOP_SET (c, MAP_BLANK|MAP_PATHSEP)]
    (makeint.h) is the spec's "blanks/separators": a blank or the path
    separator. *)
Definition STOP_SET_BLANK_PATHSEP (E : env) (c : ascii) : bool :=
  ISBLANK c || Ascii.eqb c (PATH_SEPARATOR_CHAR E).

(** [STOP_SET (c, MAP_PATHSEP)]. *)
Definition STOP_SET_PATHSEP (E : env) (c : ascii) : bool :=
  Ascii.eqb c (PATH_SEPARATOR_CHAR E).

(** ** [gpath_search] *)

(** The loop over [gpaths->searchpath]; the byte at offset [len] of the
    entry is read only after [strneq] succeeded. *)
Fixpoint gpath_loop (gp : list cstring) (file : cstring) (len : nat)
  : res bool :=
  match gp with
  | [] => Ok false
  | e :: gp' =>
      if strneq e file len then
        match char_at e len with
        | None => Fault InvalidAccess
        | Some c => if Ascii.eqb c NUL then Ok true
                    else gpath_loop gp' file len
        end
      else gpath_loop gp' file len
  end.

Definition gpath_search (g : globals) (file : cstring) (len : nat)
  : res bool :=
  match gpaths g with
  | Some gps =>
      if len <=? maxlen gps then gpath_loop (searchpath gps) file len
      else Ok false
  | None => Ok false
  end.

(** ** [vpath_match] *)

Definition vpath_match (E : env) (v : vpath) (filename : cstring)
  : res bool :=
  if pattern_matches E (pattern v) (percent v) filename then Ok true
  else
    let length := strlen (pattern v) in
    do _ <- assert (0 <? length);
    if is_char (last_char (pattern v)) DOT
       && (match strchr filename DOT with None => true | Some _ => false end)
    then
      (* strcpy, then erase the trailing '.' *)
      let p := removelast (pattern v) in
      let '(p', pc) := find_percent E p in
      if pattern_matches E p' pc filename then Ok true else Ok false
    else Ok false.

(** ** [w32/pathstuff.c] *)

(** [while (ISBLANK (s[0])) s++]. *)
Fixpoint skip_blanks (s : list ascii) : list ascii :=
  match s with
  | c :: s' => if ISBLANK c then skip_blanks s' else s
  | [] => []
  end.

(** First pass of [convert_vpath_from_windows32]: the byte count (every
    blank counted twice) and whether a delimiter stands outside quotes. *)
Fixpoint from_windows32_count (delim : ascii) (src : cstring)
  (instring delim_found : bool) (size : nat) : bool * nat :=
  match src with
  | [] => (delim_found, size)
  | c :: src' =>
      let size' := size + (if ISBLANK c then 2 else 1) in
      if Ascii.eqb c DQUOTE then
        from_windows32_count delim src' (negb instring) delim_found size'
      else if Ascii.eqb c delim && negb instring then
        from_windows32_count delim src' instring true size'
      else from_windows32_count delim src' instring delim_found size'
  end.

(** The update of [isescaped] that ends every round of both loops. *)
Definition next_escaped (instring : bool) (c : ascii) (isescaped : bool)
  : bool :=
  if negb instring && Ascii.eqb c BACKSLASH then negb isescaped else false.

(** Second pass. [tgt] holds the bytes written so far, the last one first,
    so that [tgt--] drops its head. Every round consumes at least one byte
    of [src]; [fuel] bounds the rounds. *)
Fixpoint from_windows32_loop (fuel : nat) (delim : ascii)
  (delim_found : bool) (src : cstring) (tgt : list ascii)
  (instring isescaped : bool) : list ascii :=
  match fuel with
  | 0 => tgt
  | S fuel' =>
      match src with
      | [] => tgt
      | c :: rest =>
          if Ascii.eqb c DQUOTE then
            (* skip the double quote and toggle escaping spaces *)
            from_windows32_loop fuel' delim delim_found rest tgt
              (negb instring) (next_escaped (negb instring) c false)
          else if ISBLANK c && negb isescaped && (instring || delim_found)
          then
            (* escape the space *)
            from_windows32_loop fuel' delim delim_found rest
              (SPACE :: BACKSLASH :: tgt)
              instring (next_escaped instring c isescaped)
          else if Ascii.eqb c delim && negb instring then
            (* replace the delimiter by a space *)
            let tgt' := SPACE :: skip_blanks tgt in
            let rest' := skip_blanks rest in
            let cur := match rest with
                       | b :: _ => if ISBLANK b then b else c
                       | [] => c
                       end in
            from_windows32_loop fuel' delim delim_found rest' tgt'
              instring (next_escaped instring cur isescaped)
          else
            from_windows32_loop fuel' delim delim_found rest (c :: tgt)
              instring (next_escaped instring c isescaped)
      end
  end.

(** [None] is the NULL result. *)
Definition convert_vpath_from_windows32 (Path : cstring) (delim : ascii)
  : res (option cstring) :=
  let Path := skip_blanks Path in
  match Path with
  | [] => Ok None
  | _ =>
      let '(delim_found, size) :=
        from_windows32_count delim Path false false 0 in
      let tgt :=
        from_windows32_loop (strlen Path) delim delim_found Path []
          false false in
      do _ <- assert (List.length tgt <=? size);
      (* remove trailing spaces *)
      Ok (Some (rev (skip_blanks tgt)))
  end.

(** Dry run of [convert_Path_to_windows32]. *)
Fixpoint to_windows32_size (src : cstring) (enquote instring : bool)
  (size : nat) : nat :=
  match src with
  | [] => if enquote then size + 2 else size
  | c :: rest =>
      let other :=
        if negb instring && ISBLANK c then
          to_windows32_size rest false instring
            ((if enquote then size + 2 else size) + 1)
        else
          to_windows32_size rest enquote
            (if Ascii.eqb c DQUOTE then negb instring else instring)
            (size + 1) in
      match rest with
      | b :: rest' =>
          if negb instring && Ascii.eqb c BACKSLASH && ISBLANK b then
            to_windows32_size rest' true instring (size + 1)
          else other
      | [] => other
      end
  end.

(** The conversion proper. [done] holds the bytes before [mark], [seg] the
    bytes from [mark] to [tgt]. *)
Fixpoint to_windows32_loop (delim : ascii) (src : cstring)
  (done seg : list ascii) (enquote instring : bool) : list ascii :=
  match src with
  | [] =>
      if enquote then done ++ DQUOTE :: seg ++ [DQUOTE]
      else done ++ seg
  | c :: rest =>
      let other :=
        if negb instring && ISBLANK c then
          let seg' := if enquote then DQUOTE :: seg ++ [DQUOTE] else seg in
          to_windows32_loop delim rest (done ++ seg' ++ [delim]) []
            false instring
        else
          to_windows32_loop delim rest done (seg ++ [c]) enquote
            (if Ascii.eqb c DQUOTE then negb instring else instring) in
      match rest with
      | b :: rest' =>
          if negb instring && Ascii.eqb c BACKSLASH && ISBLANK b then
            (* escaped space: a plain space, and remember to quote *)
            to_windows32_loop delim rest' done (seg ++ [SPACE]) true instring
          else other
      | [] => other
      end
  end.

Definition convert_Path_to_windows32 (Path : cstring) (delim : ascii)
  : res (option cstring) :=
  let Path := skip_blanks Path in
  match Path with
  | [] => Ok None
  | _ =>
      let size := to_windows32_size Path false false 0 in
      let wpath := to_windows32_loop delim Path [] [] false false in
      do _ <- assert (List.length wpath =? size);
      Ok (Some wpath)
  end.

(** ** [construct_vpath_list] and [build_vpath_lists] *)

(** The wildcard test of the removal loop,
    [(percent == 0 && path->percent == 0)
     || (percent - pattern == path->percent - path->pattern)]:
    the two offsets are compared; a null [percent] on one side only is a
    difference with a null pointer, which equals no offset. *)
Definition same_percent (new_percent path_percent : option nat) : bool :=
  match new_percent, path_percent with
  | None, None => true
  | Some a, Some b => a =? b
  | _, _ => false
  end.

(** The removal condition for one listing of the chain. *)
Definition listing_matches (new_pattern : option cstring)
  (new_percent : option nat) (is_target_path : Z) (path : vpath) : bool :=
  match new_pattern with
  | None => true
  | Some pat =>
      same_percent new_percent (percent path) && streq pat (pattern path)
  end
  && (target_goal path =? is_target_path)%Z.

(** The removal loop: the chain without the listings that match. *)
Fixpoint remove_listings (new_pattern : option cstring)
  (new_percent : option nat) (is_target_path : Z) (chain : list vpath)
  : list vpath :=
  match chain with
  | [] => []
  | path :: next =>
      if listing_matches new_pattern new_percent is_target_path path
      then remove_listings new_pattern new_percent is_target_path next
      else path :: remove_listings new_pattern new_percent is_target_path next
  end.

(** [while (STOP_SET ( *p, MAP_BLANK|MAP_PATHSEP)) ++p]. *)
Fixpoint skip_separators (E : env) (p : cstring) : cstring :=
  match p with
  | c :: p' => if STOP_SET_BLANK_PATHSEP E c then skip_separators E p' else p
  | [] => []
  end.

(** "Find the end of this entry": the number of bytes from [v] to the end
    of the entry, [k] of them already passed. *)
Fixpoint entry_end (E : env) (k : nat) (isescaped : bool) (p : cstring)
  : nat :=
  match p with
  | [] => k
  | c :: p' =>
      if (negb (Ascii.eqb c (PATH_SEPARATOR_CHAR E))
          || (HAVE_DOS_PATHS E && Ascii.eqb (PATH_SEPARATOR_CHAR E) COLON
              && (k =? 1)
              && match p' with
                 | c1 :: _ => Ascii.eqb c1 SLASH || Ascii.eqb c1 BACKSLASH
                 | [] => false
                 end))
         && (negb (ISBLANK c) || isescaped)
      then entry_end E (S k)
             (if Ascii.eqb c BACKSLASH then negb isescaped else false) p'
      else k
  end.

(** "Make sure there's no trailing slash, but still allow "/" as a
    directory": the length of the entry at [v] after the test, [len] before
    it. [p[-1]] is [v[len - 1]]. The first branch is the one compiled for
    [__MSDOS__], [__EMX__] and [HAVE_DOS_PATHS], which the environment
    gathers under [HAVE_DOS_PATHS]. *)
Definition strip_trailing_slash (E : env) (v : cstring) (len : nat) : nat :=
  let last := nth_error v (len - 1) in
  if HAVE_DOS_PATHS E then
    if ((3 <? len) || ((1 <? len) && negb (is_char (nth_error v 1) COLON)))
       && (is_char last SLASH || is_char last BACKSLASH)
    then len - 1 else len
  else
    if (1 <? len) && is_char last SLASH then len - 1 else len.

(** Modelled from the spec: [dir_name] (dir.c) registers the entry with the
    directory registry and returns the entry string. *)
Definition dir_name (dir : cstring) : cstring := dir.

(** The entry loop. [vpath] is the array filled so far, [elem] its length.
    Every round passes at least one byte of [p]; [fuel] bounds the rounds.
    The array is a list: its allocation ([maxelem]) is not modelled. *)
Fixpoint parse_entries (fuel : nat) (E : env) (p : cstring)
  (vpath : list cstring) (maxvpath : nat) : list cstring * nat :=
  match fuel with
  | 0 => (vpath, maxvpath)
  | S fuel' =>
      match p with
      | [] => (vpath, maxvpath)
      | _ =>
          let v := p in
          let len := entry_end E 0 false p in
          let p := skipn len p in
          let len := strip_trailing_slash E v len in
          let '(vpath, maxvpath) :=
            if (1 <? len) || negb (is_char (nth_error v 0) DOT)
            then (vpath ++ [dir_name (firstn len v)],
                  if maxvpath <? len then len else maxvpath)
            else (vpath, maxvpath) in
          parse_entries fuel' E (skip_separators E p) vpath maxvpath
      end
  end.

Definition set_vpaths (g : globals) (chain : list vpath) : globals :=
  {| vpaths := chain;
     general_vpath := general_vpath g;
     gpaths := gpaths g |}.

(** [pattern] and [dirpath] may be null ([None]). *)
Definition construct_vpath_list (E : env) (pattern : option cstring)
  (dirpath : option cstring) (is_target_path : Z) (g : globals)
  : res globals :=
  let '(pattern, percent) :=
    match pattern with
    | Some pat => let '(pat', pc) := find_percent E pat in (Some pat', pc)
    | None => (None, None)
    end in
  match dirpath with
  | None =>
      (* Remove matching listings. *)
      Ok (set_vpaths g
            (remove_listings pattern percent is_target_path (vpaths g)))
  | Some dirpath =>
      do dirpath <- (if WINDOWS32 E
                     then convert_vpath_from_windows32 dirpath ";"%char
                     else Ok (Some dirpath));
      match dirpath with
      | None => Ok g
      | Some dirpath =>
          let dirpath := skip_separators E dirpath in
          let '(vpath, maxvpath) :=
            parse_entries (strlen dirpath) E dirpath [] 0 in
          if 0 <? List.length vpath then
            match pattern with
            | None => Fault NullArgument
            | Some pat =>
                Ok (set_vpaths g
                      ({| pattern := pat;
                          percent := percent;
                          patlen := strlen pat;
                          searchpath := vpath;
                          maxlen := maxvpath;
                          target_goal := is_target_path |} :: vpaths g))
            end
          else Ok g
      end
  end.

(** [VPATH] and [GPATH] are the two values that [variable_expand] returns
    for [$(strip $(VPATH))] and [$(strip $(GPATH))]. *)
Definition build_vpath_lists (E : env) (VPATH GPATH : cstring) (g : globals)
  : res globals :=
  (* Reverse the chain. *)
  let g := set_vpaths g (rev (vpaths g)) in
  do g <- (match VPATH with
           | [] => Ok g
           | _ =>
               let save_vpaths := vpaths g in
               do g' <- construct_vpath_list E (Some [PERCENT]) (Some VPATH) 0
                          (set_vpaths g []);
               Ok {| vpaths := save_vpaths;
                     general_vpath := hd_error (vpaths g');
                     gpaths := gpaths g' |}
           end);
  match GPATH with
  | [] => Ok g
  | _ =>
      let save_vpaths := vpaths g in
      do g' <- construct_vpath_list E (Some [PERCENT]) (Some GPATH) 0
                 (set_vpaths g []);
      Ok {| vpaths := save_vpaths;
            general_vpath := general_vpath g';
            gpaths := hd_error (vpaths g') |}
  end.

(** ** [selective_vpath_search] *)

(** The objects behind the four result pointers of [vpath_search].
    [at_mtime_ptr] lists every value stored through [mtime_ptr], the last
    one first. *)
Record mem : Type := mk_mem {
  at_mtime_ptr : list Z;
  at_target_path : Z;
  at_vpath_index : Z;
  at_path_index : Z
}.

Definition store_mtime (m : mem) (t : Z) : mem :=
  {| at_mtime_ptr := t :: at_mtime_ptr m;
     at_target_path := at_target_path m;
     at_vpath_index := at_vpath_index m;
     at_path_index := at_path_index m |}.

Definition store_target_path (m : mem) (x : Z) : mem :=
  {| at_mtime_ptr := at_mtime_ptr m;
     at_target_path := x;
     at_vpath_index := at_vpath_index m;
     at_path_index := at_path_index m |}.

Definition store_vpath_index (m : mem) (x : Z) : mem :=
  {| at_mtime_ptr := at_mtime_ptr m;
     at_target_path := at_target_path m;
     at_vpath_index := x;
     at_path_index := at_path_index m |}.

Definition store_path_index (m : mem) (x : Z) : mem :=
  {| at_mtime_ptr := at_mtime_ptr m;
     at_target_path := at_target_path m;
     at_vpath_index := at_vpath_index m;
     at_path_index := x |}.

(** The variables that live across the rounds of the directory loop.
    [mtime_live] is the local [mtime_ptr] (false once it was set to 0);
    [tgt_name] is [None] while it is NULL. *)
Record scan : Type := mk_scan {
  name : buffer;
  exists_ : bool;
  mtime_live : bool;
  tgt_name : option cstring;
  tgt_len : nat;
  out : mem
}.

(** How one round ends: with [return], or at the end of the loop body
    (also by [continue]). *)
Inductive round : Type :=
| Return (found : cstring) (m : mem)
| Continue (s : scan).

(** The first half of the loop body: [name] receives the directory, the
    prefix of [file] and the file name. The result is the buffer and the
    offset [p - name]. *)
Definition build_name (E : env) (name : buffer) (dir file0 filename : cstring)
  (name_dplen flen : nat) : res (buffer * nat) :=
  let p := 0 in
  let vlen := strlen dir in
  (* Put the next VPATH entry into NAME at P and increment P past it. *)
  do name <- memcpy name p dir;
  let p := p + vlen in
  (* Add the directory prefix already in *FILE. *)
  do '(name, p) <- (if 0 <? name_dplen then
                      do name <- store name p SLASH;
                      do name <- memcpy name (p + 1) (firstn name_dplen file0);
                      Ok (name, p + 1 + name_dplen)
                    else Ok (name, p));
  (* Cause the next if to treat backslash and slash alike. *)
  do name <- (if HAVE_DOS_PATHS E && negb (p =? 0) then
                do c <- load name (p - 1);
                if Ascii.eqb c BACKSLASH then store name (p - 1) SLASH
                else Ok name
              else Ok name);
  (* Now add the name-within-directory at the end of NAME. *)
  do slash <- (if negb (p =? 0) then
                 do c <- load name (p - 1); Ok (negb (Ascii.eqb c SLASH))
               else Ok false);
  do name <- (if slash then
                do name <- store name p SLASH;
                memcpy name (p + 1) (firstn (flen + 1) (filename ++ [NUL]))
              else memcpy name p (firstn (flen + 1) (filename ++ [NUL])));
  Ok (name, p).

(** The makefile test of the loop body, for the entry [f] that
    [lookup_file (name)] returned: the new values of [exists], of the local
    [mtime_ptr] and of the memory. *)
Definition mentioned (E : env) (is_target : bool) (f : file) (s : scan)
  : bool * bool * mem :=
  let exists_ := negb is_target || filedef.is_target f in
  if exists_ && mtime_live s
     && ((last_mtime f =? OLD_MTIME E)%Z || (last_mtime f =? NEW_MTIME E)%Z)
  then (exists_, false, store_mtime (out s) (last_mtime f))
  else (exists_, mtime_live s, out s).

(** One round of the directory loop, for [vpath[i] = dir]. *)
Definition try_directory (E : env) (is_target is_target_path : bool)
  (path_index : bool) (file0 filename : cstring) (name_dplen flen : nat)
  (i : nat) (dir : cstring) (s : scan) : res round :=
  do '(name, p) <- build_name E (name s) dir file0 filename name_dplen flen;
  (* Check if the file is mentioned in a makefile. *)
  do candidate <- cstr name;
  let '(exists_, mtime_live, m) :=
    match lookup_file E candidate with
    | Some f => mentioned E is_target f s
    | None => (exists_ s, mtime_live s, out s)
    end in
  do '(name, exists_, exists_in_cache) <-
    (if negb exists_ then
       (* Clobber a null into the name at the last slash. *)
       do name <- store name p NUL;
       do directory <- cstr name;
       let e := dir_file_exists_p E directory filename in
       Ok (name, e, e)
     else Ok (name, exists_, false));
  (* Put the slash back in NAME. *)
  do name <- store name p SLASH;
  if exists_ then
    let finish (mtime_live : bool) (m : mem) : res round :=
      let m := if mtime_live then store_mtime m (UNKNOWN_MTIME E) else m in
      let m := if path_index then store_path_index m (Z.of_nat i) else m in
      do found <- strcache_add_len name (p + 1 + flen);
      Ok (Return found m) in
    if exists_in_cache then
      do statname <- cstr name;
      match stat E statname with
      | None =>
          if negb is_target_path && negb is_target then
            Ok (Continue {| name := name; exists_ := false;
                            mtime_live := mtime_live;
                            tgt_name := tgt_name s; tgt_len := tgt_len s;
                            out := m |})
          else finish mtime_live m
      | Some modtime =>
          if mtime_live then finish false (store_mtime m modtime)
          else finish mtime_live m
      end
    else finish mtime_live m
  else
    match tgt_name s with
    | None =>
        if is_target_path then
          do _ <- assert (i =? 0);
          let tgt_len := p + 1 + flen in
          do copy <- cstr name;
          do _ <- assert (tgt_len =? strlen copy);
          Ok (Continue {| name := name; exists_ := exists_;
                          mtime_live := mtime_live;
                          tgt_name := Some copy; tgt_len := tgt_len;
                          out := m |})
        else
          Ok (Continue {| name := name; exists_ := exists_;
                          mtime_live := mtime_live;
                          tgt_name := None; tgt_len := tgt_len s;
                          out := m |})
    | Some _ =>
        Ok (Continue {| name := name; exists_ := exists_;
                        mtime_live := mtime_live;
                        tgt_name := tgt_name s; tgt_len := tgt_len s;
                        out := m |})
    end.

(** The directory loop from index [i] on, and what follows it. *)
Fixpoint scan_directories (E : env) (is_target is_target_path : bool)
  (path_index : bool) (file0 filename : cstring) (name_dplen flen : nat)
  (i : nat) (vpath : list cstring) (s : scan) : res (option cstring * mem) :=
  match vpath with
  | dir :: vpath' =>
      do r <- try_directory E is_target is_target_path path_index
                file0 filename name_dplen flen i dir s;
      match r with
      | Return found m => Ok (Some found, m)
      | Continue s' =>
          scan_directories E is_target is_target_path path_index
            file0 filename name_dplen flen (S i) vpath' s'
      end
  | [] =>
      match tgt_name s with
      | Some tgt =>
          do _ <- assert (0 <? tgt_len s);
          do _ <- assert is_target_path;
          let m := if mtime_live s
                   then store_mtime (out s) (UNKNOWN_MTIME E) else out s in
          let m := if path_index then store_path_index m 0 else m in
          do found <- strcache_add_len (in_memory tgt) (tgt_len s);
          Ok (Some found, m)
      | None => Ok (None, out s)
      end
  end.

(** The rightmost slash of [file0], or with [HAVE_DOS_PATHS] the rightmost
    slash or backslash. *)
Definition last_separator (E : env) (file0 : cstring) : option nat :=
  let n := strrchr file0 SLASH in
  if HAVE_DOS_PATHS E then
    let bslash := strrchr file0 BACKSLASH in
    match n, bslash with
    | None, _ => bslash
    | Some a, Some b => if a <? b then bslash else n
    | Some _, None => n
    end
  else n.

(** [mtime_ptr] and [path_index] tell whether the pointers are non-null;
    the result is the returned string ([None] for 0) with the memory. *)
Definition selective_vpath_search (E : env) (path : vpath) (file0 : cstring)
  (mtime_ptr path_index : bool) (m : mem) : res (option cstring * mem) :=
  let vpath := searchpath path in
  let maxvpath := maxlen path in
  let is_target_path := negb (target_goal path =? 0)%Z in
  (* Find out if *FILE is a target. *)
  let is_target :=
    match lookup_file E file0 with
    | Some f => filedef.is_target f
    | None => false
    end in
  let flen := strlen file0 in
  (* Split *FILE into a directory prefix and a name-within-directory. *)
  let n := last_separator E file0 in
  let name_dplen := match n with Some k => k | None => 0 end in
  let filename := if 0 <? name_dplen then skipn (name_dplen + 1) file0
                  else file0 in
  let flen := if 0 <? name_dplen then flen - (name_dplen + 1) else flen in
  let name := alloca (maxvpath + 1 + name_dplen + 1 + flen + 1) in
  (* Try each VPATH entry. *)
  scan_directories E is_target is_target_path path_index
    file0 filename name_dplen flen 0 vpath
    {| name := name; exists_ := false; mtime_live := mtime_ptr;
       tgt_name := None; tgt_len := 0; out := m |}.

(** ** [vpath_search] *)

(** Which of the four result pointers are non-null. *)
Record pointers : Type := mk_pointers {
  mtime_ptr : bool;
  target_path : bool;
  vpath_index : bool;
  path_index : bool
}.

(** [v->target_goal = x]. *)
Definition set_target_goal (v : vpath) (x : Z) : vpath :=
  {| pattern := pattern v;
     percent := percent v;
     patlen := patlen v;
     searchpath := searchpath v;
     maxlen := maxlen v;
     target_goal := x |}.

(** [++*vpath_index] on an [unsigned int]. *)
Definition increment_vpath_index (m : mem) : mem :=
  store_vpath_index m ((at_vpath_index m + 1) mod 2 ^ 32)%Z.

(** [*vpath_index = *path_index = 0]. *)
Definition reset_indices (m : mem) : mem :=
  store_vpath_index (store_path_index m 0) 0.

(** The first loop over the chain: every listing that matches is searched
    with its [target_goal] set to 0 and restored afterwards. The result
    carries the chain as the loop leaves it. *)
Fixpoint first_run (E : env) (file0 : cstring) (ptr : pointers)
  (chain : list vpath) (m : mem)
  : res (option cstring * list vpath * mem) :=
  match chain with
  | [] => Ok (None, [], m)
  | v :: next =>
      do matched <- vpath_match E v file0;
      do '(p, v, m) <-
        (if matched then
           let save_goal := target_goal v in
           let v := set_target_goal v 0 in
           do '(p, m) <- selective_vpath_search E v file0
                           (mtime_ptr ptr) (path_index ptr) m;
           let v := set_target_goal v save_goal in
           Ok (p, v, m)
         else Ok (None, v, m));
      match p with
      | Some found =>
          let m := if target_path ptr
                   then store_target_path m (target_goal v) else m in
          Ok (Some found, v :: next, m)
      | None =>
          let m := if vpath_index ptr then increment_vpath_index m else m in
          do '(r, next, m) <- first_run E file0 ptr next m;
          Ok (r, v :: next, m)
      end
  end.

(** The second loop: only the listings with [target_goal] set. *)
Fixpoint second_run (E : env) (file0 : cstring) (ptr : pointers)
  (chain : list vpath) (m : mem) : res (option cstring * mem) :=
  match chain with
  | [] => Ok (None, m)
  | v :: next =>
      do matched <- (if negb (target_goal v =? 0)%Z
                     then vpath_match E v file0 else Ok false);
      do '(p, m) <-
        (if matched then
           selective_vpath_search E v file0
             (mtime_ptr ptr) (path_index ptr) m
         else Ok (None, m));
      match p with
      | Some found =>
          let m := if target_path ptr
                   then store_target_path m (target_goal v) else m in
          Ok (Some found, m)
      | None =>
          let m := if vpath_index ptr then increment_vpath_index m else m in
          second_run E file0 ptr next m
      end
  end.

(** The test that opens the search:
    [file[0] == '/' || file[0] == '\\' || file[1] == ':'
     || (vpaths == NULL && general_vpath == NULL)],
    the two middle tests with [HAVE_DOS_PATHS] only. *)
Definition nothing_to_do (E : env) (file0 : cstring) (g : globals)
  : res bool :=
  let no_lists :=
    match vpaths g, general_vpath g with
    | [], None => true
    | _, _ => false
    end in
  if is_char (char_at file0 0) SLASH then Ok true
  else if HAVE_DOS_PATHS E then
    if is_char (char_at file0 0) BACKSLASH then Ok true
    else
      match char_at file0 1 with
      | None => Fault InvalidAccess
      | Some c => if Ascii.eqb c COLON then Ok true else Ok no_lists
      end
  else Ok no_lists.

Definition vpath_search (E : env) (file0 : cstring) (ptr : pointers)
  (g : globals) (m : mem) : res (option cstring * globals * mem) :=
  let m := if target_path ptr then store_target_path m 0 else m in
  do m <- (if vpath_index ptr then
             do _ <- assert (path_index ptr);
             Ok (store_path_index (store_vpath_index m 0) 0)
           else Ok m);
  do stop <- nothing_to_do E file0 g;
  if stop then Ok (None, g, m)
  else
    (* First run over the selective vpaths, ignoring the 'target goal'
       flag on each vpath. *)
    do '(r, chain, m) <- first_run E file0 ptr (vpaths g) m;
    let g := set_vpaths g chain in
    match r with
    | Some found => Ok (Some found, g, m)
    | None =>
        (* As a second step, consider only the vpaths with a 'target
           goal' set. *)
        let m := if vpath_index ptr then reset_indices m else m in
        do '(r, m) <- second_run E file0 ptr (vpaths g) m;
        match r with
        | Some found => Ok (Some found, g, m)
        | None =>
            (* Selective vpaths failed, finally try the global vpath. *)
            let m := if vpath_index ptr then reset_indices m else m in
            match general_vpath g with
            | Some general =>
                do '(p, m) <- selective_vpath_search E general file0
                                (mtime_ptr ptr) (path_index ptr) m;
                match p with
                | Some found =>
                    let m := if target_path ptr
                             then store_target_path m (target_goal general)
                             else m in
                    Ok (Some found, g, m)
                | None => Ok (None, g, m)
                end
            | None => Ok (None, g, m)
            end
        end
    end.

(** ** The order of the search, as the specification words it *)

(** One attempt of the resolver: a selective list, searched when its
    pattern matches the file name, or the general list, searched always. *)
Inductive attempt : Type :=
| Selective (v : vpath)
| General (v : vpath).

(** The string that a per-list search returns, without its stores. *)
Definition returned {A : Type} (r : res (option cstring * A))
  : res (option cstring) :=
  do x <- r; Ok (fst x).

Definition empty_mem : mem :=
  {| at_mtime_ptr := []; at_target_path := 0;
     at_vpath_index := 0; at_path_index := 0 |}.

Definition attempt_result (E : env) (file0 : cstring) (a : attempt)
  : res (option cstring) :=
  match a with
  | Selective v =>
      do matched <- vpath_match E v file0;
      if matched
      then returned (selective_vpath_search E v file0 false false empty_mem)
      else Ok None
  | General v =>
      returned (selective_vpath_search E v file0 false false empty_mem)
  end.

(** The first attempt of the list that succeeds. *)
Fixpoint first_success (E : env) (file0 : cstring) (l : list attempt)
  : res (option cstring) :=
  match l with
  | [] => Ok None
  | a :: l' =>
      do r <- attempt_result E file0 a;
      match r with
      | Some found => Ok (Some found)
      | None => first_success E file0 l'
      end
  end.

(** A listing with its target-goal flag taken as false: the flag is 0, the
    pattern and the directories are the listing's. *)
Definition flag_false (v : vpath) : vpath :=
  {| pattern := pattern v;
     percent := percent v;
     patlen := patlen v;
     searchpath := searchpath v;
     maxlen := maxlen v;
     target_goal := 0 |}.

(** The three phases: every selective list with its target-goal flag taken
    as false, then the selective lists whose flag is set, then the general
    list; each phase in the order of the chain. *)
Definition non_target_phase (g : globals) : list attempt :=
  map (fun v => Selective (flag_false v)) (vpaths g).

Definition target_phase (g : globals) : list attempt :=
  map Selective (filter (fun v => negb (target_goal v =? 0)%Z) (vpaths g)).

Definition general_phase (g : globals) : list attempt :=
  match general_vpath g with
  | Some v => [General v]
  | None => []
  end.

Definition search_order (g : globals) : list attempt :=
  non_target_phase g ++ target_phase g ++ general_phase g.

(** The stores that [vpath_search] makes before it looks at [file]. *)
Definition entry_stores (ptr : pointers) (m : mem) : mem :=
  let m := if target_path ptr then store_target_path m 0 else m in
  if vpath_index ptr then store_path_index (store_vpath_index m 0) 0 else m.

(** "FILENAME starts at the root": the first three tests of the guard of
    [vpath_search]. *)
Definition starts_at_root (E : env) (file0 : cstring) : bool :=
  is_char (char_at file0 0) SLASH
  || (HAVE_DOS_PATHS E
      && (is_char (char_at file0 0) BACKSLASH
          || is_char (char_at file0 1) COLON)).

(** ** The collaborators, for the examples *)

(** Modelled from the spec: [find_percent] (read.c) is the spec's
    [find_wildcard_offset]: the offset of the wildcard of the pattern, if
    it has one. *)
Definition find_wildcard_offset (pat : cstring) : cstring * option nat :=
  (pat, strchr pat PERCENT).

(** Modelled from the spec: [pattern_matches] (function.c) is the spec's
    [wildcard_match]: with a wildcard at offset [k], [str] matches when it
    is long enough, starts with the [k] bytes before the wildcard and ends
    with the bytes after it; without a wildcard, when it equals the
    pattern. *)
Definition wildcard_match_at (pat : cstring) (k : nat) (str : cstring)
  : bool :=
  let suffix := skipn (k + 1) pat in
  if strlen str <? k + strlen suffix then false
  else strneq pat str k
       && streq suffix (skipn (strlen str - strlen suffix) str).

Definition wildcard_match (pat : cstring) (pc : option nat) (str : cstring)
  : bool :=
  match pc with
  | Some k => wildcard_match_at pat k str
  | None =>
      match snd (find_wildcard_offset pat) with
      | Some k => wildcard_match_at pat k str
      | None => streq pat str
      end
  end.

(** A POSIX build over a given target database, directory cache and file
    system. *)
Definition posix (db : cstring -> option file)
  (cache : cstring -> cstring -> bool) (fs : cstring -> option Z) : env :=
  {| lookup_file := db;
     dir_file_exists_p := cache;
     stat := fs;
     pattern_matches := wildcard_match;
     find_percent := find_wildcard_offset;
     HAVE_DOS_PATHS := false;
     WINDOWS32 := false;
     PATH_SEPARATOR_CHAR := COLON;
     OLD_MTIME := 2;
     NEW_MTIME := 18446744073709551615;
     UNKNOWN_MTIME := 0 |}.

(** A target database with one entry. *)
Definition only (n : cstring) (f : file) : cstring -> option file :=
  fun x => if streq x n then Some f else None.

Definition no_file : cstring -> option file := fun _ => None.
Definition empty_cache : cstring -> cstring -> bool := fun _ _ => false.
Definition empty_fs : cstring -> option Z := fun _ => None.

Definition no_lists : globals :=
  {| vpaths := []; general_vpath := None; gpaths := None |}.

Definition all_pointers : pointers :=
  {| mtime_ptr := true; target_path := true;
     vpath_index := true; path_index := true |}.

(** ** Well-formed data *)

(** A C string holds no NUL. *)
Definition is_cstring (s : cstring) : Prop := ~ In NUL s.

(** A listing as [construct_vpath_list] leaves it: the entries are C
    strings and [maxlen] bounds their lengths. *)
Definition listing_ok (v : vpath) : Prop :=
  Forall (fun e => is_cstring e /\ strlen e <= maxlen v) (searchpath v).

(** An exclusion list with three entries that share a prefix. *)
Definition exclusion_example : globals :=
  {| vpaths := [];
     general_vpath := None;
     gpaths := Some {| pattern := [PERCENT];
                       percent := Some 0;
                       patlen := 1;
                       searchpath := [cs "/src/foo."; cs "/src/foo.cc";
                                      cs "/src/foo.c"];
                       maxlen := 11;
                       target_goal := 0 |} |}.

(** The selective listing of one pattern, with the wildcard at offset 0. *)
Definition listing (pat : cstring) (dirs : list cstring) (goal : Z) : vpath :=
  {| pattern := pat;
     percent := snd (find_wildcard_offset pat);
     patlen := strlen pat;
     searchpath := dirs;
     maxlen := list_max (map strlen dirs);
     target_goal := goal |}.

(** A build with nothing in the database, in the cache or on disk. *)
Definition bare : env := posix no_file empty_cache empty_fs.

(** The string that the resolver returns, without the lists and stores. *)
Definition returned_path {A B : Type} (r : res (option cstring * A * B))
  : res (option cstring) :=
  do x <- r; Ok (fst (fst x)).

(** The variables of the directory loop that decide what it returns: all
    but the local [mtime_ptr] and the memory. *)
Definition control (s : scan) : scan :=
  {| name := name s; exists_ := exists_ s; mtime_live := false;
     tgt_name := tgt_name s; tgt_len := tgt_len s; out := empty_mem |}.

Definition round_control (r : res round) : res round :=
  match r with
  | Ok (Return found _) => Ok (Return found empty_mem)
  | Ok (Continue s) => Ok (Continue (control s))
  | Fault f => Fault f
  end.

(** The result pointers are used as [vpath_search] asserts:
    [path_index] is not null when [vpath_index] is not. *)
Definition pointers_ok (ptr : pointers) : Prop :=
  vpath_index ptr = true -> path_index ptr = true.

(** ** The entries of a directory string, as the specification words them *)

(** The directory string that [construct_vpath_list] parses: on WINDOWS32
    the conversion of its argument (0 for a blank argument), elsewhere the
    argument. *)
Definition canonical_dirpath (E : env) (dirpath : cstring)
  : res (option cstring) :=
  if WINDOWS32 E then convert_vpath_from_windows32 dirpath ";"%char
  else Ok (Some dirpath).

(** The entries as the entry loop delimits them, before any stripping. *)
Fixpoint raw_entries (fuel : nat) (E : env) (p : cstring) : list cstring :=
  match fuel with
  | 0 => []
  | S fuel' =>
      match p with
      | [] => []
      | _ =>
          let len := entry_end E 0 false p in
          firstn len p
          :: raw_entries fuel' E (skip_separators E (skipn len p))
      end
  end.

(** An entry with its trailing slash stripped. *)
Definition canonical_entry (E : env) (raw : cstring) : cstring :=
  firstn (strip_trailing_slash E raw (strlen raw)) raw.

(** The entries that make the search path: each entry of the string
    stripped, the entries equal to "." dropped. *)
Definition surviving_entries (E : env) (dirpath : cstring) : list cstring :=
  let p := skip_separators E dirpath in
  filter (fun e => negb (streq e [DOT]))
    (map (canonical_entry E) (raw_entries (strlen p) E p)).

(** [p] stands at the start of an entry: not at a blank or a separator. *)
Definition at_entry (E : env) (p : cstring) : Prop :=
  match p with
  | [] => True
  | c :: _ => STOP_SET_BLANK_PATHSEP E c = false
  end.

(** The listing that a directive with pattern [pat] and the entries [es]
    puts at the head of the chain. *)
Definition new_listing (E : env) (pat : cstring) (es : list cstring)
  (goal : Z) : vpath :=
  {| pattern := fst (find_percent E pat);
     percent := snd (find_percent E pat);
     patlen := strlen (fst (find_percent E pat));
     searchpath := es;
     maxlen := list_max (map strlen es);
     target_goal := goal |}.

(** The PatternKey test of a directive with pattern [pat], in the
    category [goal]. *)
Definition same_key (E : env) (pat : option cstring) (goal : Z) (v : vpath)
  : bool :=
  listing_matches (option_map (fun p => fst (find_percent E p)) pat)
    (match pat with
     | Some p => snd (find_percent E p)
     | None => None
     end) goal v.

(** ** Examples for the per-list search *)

(** [E] without the database entry of [n]. *)
Definition without_entry (E : env) (n : cstring) : env :=
  {| lookup_file := fun x => if streq x n then None else lookup_file E x;
     dir_file_exists_p := dir_file_exists_p E;
     stat := stat E;
     pattern_matches := pattern_matches E;
     find_percent := find_percent E;
     HAVE_DOS_PATHS := HAVE_DOS_PATHS E;
     WINDOWS32 := WINDOWS32 E;
     PATH_SEPARATOR_CHAR := PATH_SEPARATOR_CHAR E;
     OLD_MTIME := OLD_MTIME E;
     NEW_MTIME := NEW_MTIME E;
     UNKNOWN_MTIME := UNKNOWN_MTIME E |}.

(** A database that mentions foo.o, as a target or not, and src/foo.o, not
    as a target; nothing is in the cache or on disk. *)
Definition mentions (foo_is_target : bool) : env :=
  posix (fun x =>
           if streq x (cs "foo.o")
           then Some {| is_target := foo_is_target; last_mtime := 0 |}
           else if streq x (cs "src/foo.o")
           then Some {| is_target := false; last_mtime := 0 |}
           else None)
    empty_cache empty_fs.

(** The chain with one selective listing. *)
Definition selective (v : vpath) : globals :=
  {| vpaths := [v]; general_vpath := None; gpaths := None |}.

(** A build where foo.o is a declared target and nothing else is known. *)
Definition foo_is_target : env :=
  posix (only (cs "foo.o") {| is_target := true; last_mtime := 0 |})
    empty_cache empty_fs.

(** ** Host-native path lists, as the specification words them *)

(** Modelled from the spec: the directory strings of a host-native path
    list, in order: the list is cut at every delimiter that stands outside
    double quotes, and the double quotes are not part of a directory. *)
Fixpoint native_dirs_from (delim : ascii) (s : cstring) (instring : bool)
  (cur : cstring) : list cstring :=
  match s with
  | [] => [cur]
  | c :: s' =>
      if Ascii.eqb c DQUOTE then native_dirs_from delim s' (negb instring) cur
      else if Ascii.eqb c delim && negb instring
      then cur :: native_dirs_from delim s' false []
      else native_dirs_from delim s' instring (cur ++ [c])
  end.

Definition native_dirs (delim : ascii) (s : cstring) : list cstring :=
  native_dirs_from delim s false [].

(** [d] in double quotes. *)
Definition quote (d : cstring) : cstring := DQUOTE :: d ++ [DQUOTE].

(** The strings of [l] with [sep] between them. *)
Fixpoint join (sep : ascii) (l : list cstring) : cstring :=
  match l with
  | [] => []
  | x :: l' =>
      match l' with
      | [] => x
      | _ => x ++ sep :: join sep l'
      end
  end.

(** One entry of a host-native list: the directory, and whether it is
    written in double quotes. *)
Definition native_entry (e : bool * cstring) : cstring :=
  if fst e then quote (snd e) else snd e.

Definition native_list (delim : ascii) (es : list (bool * cstring))
  : cstring :=
  join delim (map native_entry es).

(** The canonical form of a list of directories: every space escaped by a
    backslash, the directories separated by one space. *)
Definition escape_spaces (d : cstring) : cstring :=
  flat_map (fun c => if Ascii.eqb c SPACE then [BACKSLASH; SPACE] else [c]) d.

Definition canonical_list (ds : list cstring) : cstring :=
  join SPACE (map escape_spaces ds).

Definition has_space (d : cstring) : bool :=
  existsb (fun c => Ascii.eqb c SPACE) d.

(** A directory as [convert_Path_to_windows32] writes it: in double quotes
    when it holds a space. *)
Definition requoted (d : cstring) : cstring :=
  if has_space d then quote d else d.

(** The delimiters and directories for which the round trip is stated. *)
Definition delimiter_ok (delim : ascii) : Prop :=
  delim <> SPACE /\ delim <> TAB /\ delim <> DQUOTE /\ delim <> BACKSLASH.

Definition directory_ok (delim : ascii) (d : cstring) : Prop :=
  d <> [] /\ ~ In DQUOTE d /\ ~ In TAB d /\ ~ In delim d
  /\ last_char d <> Some SPACE /\ last_char d <> Some BACKSLASH.

(** No space of [d] stands right after a backslash; [after_backslash]
    tells whether [d] itself does. *)
Fixpoint plain_spaces (after_backslash : bool) (d : cstring) : bool :=
  match d with
  | [] => true
  | c :: d' =>
      negb (Ascii.eqb c SPACE && after_backslash)
      && plain_spaces (Ascii.eqb c BACKSLASH) d'
  end.

(** A directory that may be written without quotes: in a list of several
    directories ([several]), one that does not start with a space and has
    no space right after a backslash; alone, one without any space. *)
Definition bare_ok (several : bool) (d : cstring) : Prop :=
  if several
  then hd_error d <> Some SPACE /\ plain_spaces false d = true
  else ~ In SPACE d.

Definition entry_ok (delim : ascii) (several : bool) (e : bool * cstring)
  : Prop :=
  directory_ok delim (snd e) /\ (fst e = false -> bare_ok several (snd e)).

(** The two conversions in a row. *)
Definition round_trip (Path : cstring) (delim : ascii)
  : res (option cstring) :=
  do c <- convert_vpath_from_windows32 Path delim;
  match c with
  | Some c => convert_Path_to_windows32 c delim
  | None => Ok None
  end.

(** The byte count of the first pass: two for a blank, one for any other
    byte. *)
Definition weight (src : cstring) : nat :=
  list_sum (map (fun c => if ISBLANK c then 2 else 1) src).

(** Two selective listings of [%.o], the first a target-goal listing, and a
    general listing. *)
Definition three_lists : globals :=
  {| vpaths := [listing (cs "%.o") [cs "obj"; cs "src"] 1;
                listing (cs "%.o") [cs "lib"] 0];
     general_vpath := Some (listing (cs "%") [cs "gen"] 0);
     gpaths := None |}.

(** Result objects with something in them. *)
Definition used_mem : mem :=
  {| at_mtime_ptr := [42%Z]; at_target_path := 9;
     at_vpath_index := 9; at_path_index := 9 |}.

(** A host-native list of three directories, the first in quotes. *)
Definition three_directories : list (bool * cstring) :=
  [(true, cs "C:\Program Files"); (false, cs "D:\src");
   (false, cs "E:\My Documents\x")].

(** ** Directives *)

(** One directive of the makefiles: a pattern, a directory string, and
    whether it is a target-goal directive. *)
Record directive : Type := mk_directive {
  d_pattern : cstring;
  d_dirs : cstring;
  d_goal : Z
}.

(** The directives applied in the order of the makefiles. *)
Fixpoint apply_directives (E : env) (ds : list directive) (g : globals)
  : res globals :=
  match ds with
  | [] => Ok g
  | d :: ds' =>
      do g' <- construct_vpath_list E (Some (d_pattern d)) (Some (d_dirs d))
                 (d_goal d) g;
      apply_directives E ds' g'
  end.

(** The listing that a directive declares, when the build does not convert
    its directory string. *)
Definition declared (E : env) (d : directive) : vpath :=
  new_listing E (d_pattern d) (surviving_entries E (d_dirs d)) (d_goal d).

(** ** Regular candidates *)

(** The bytes of [name] before [p], for the directory [dir]: the directory,
    then a slash and the directory prefix of the file name if it has
    one. *)
Definition directory_part (dir file0 : cstring) (name_dplen : nat)
  : cstring :=
  dir ++ (if 0 <? name_dplen then SLASH :: firstn name_dplen file0 else []).

(** A string that is not empty and does not end in a slash: after it the
    loop body stores a slash at [p]. *)
Definition open_ended (s : cstring) : Prop :=
  exists c, last_char s = Some c /\ c <> SLASH.

(** The byte of the file name before its last slash is no slash. *)
Definition regular_name (file0 : cstring) : Prop :=
  match strrchr file0 SLASH with
  | Some k => 0 < k -> nth_error file0 (k - 1) <> Some SLASH
  | None => True
  end.

(** What the round of a directory needs, for the search to go on to the
    next one: the candidate fits the buffer of [size] bytes, a slash is
    stored after the directory part, and the candidate is neither mentioned
    in the makefile nor in the directory. *)
Definition passes_on (E : env) (file0 filename : cstring)
  (name_dplen size : nat) (dir : cstring) : Prop :=
  strlen (directory_part dir file0 name_dplen) + strlen filename + 2 <= size
  /\ open_ended (directory_part dir file0 name_dplen)
  /\ is_cstring (directory_part dir file0 name_dplen)
  /\ lookup_file E (directory_part dir file0 name_dplen ++ SLASH :: filename)
     = None
  /\ dir_file_exists_p E (directory_part dir file0 name_dplen) filename
     = false.

(** The stores that end a per-list search which returns a fallback. *)
Definition fallback_stores (E : env) (mtime_ptr path_index : bool) (m : mem)
  : mem :=
  let m := if mtime_ptr then store_mtime m (UNKNOWN_MTIME E) else m in
  if path_index then store_path_index m 0 else m.

(** ** The size of the entry array *)

(** "Figure out the maximum number of VPATH entries and put it in MAXELEM":
    the count loop of [construct_vpath_list], from the count [maxelem] on;
    one more for each separator and for each blank that is not escaped. *)
Fixpoint count_elements (E : env) (p : cstring) (isescaped : bool)
  (maxelem : nat) : nat :=
  match p with
  | [] => maxelem
  | c :: p' =>
      count_elements E p'
        (if Ascii.eqb c BACKSLASH then negb isescaped else false)
        (if (negb isescaped && ISBLANK c) || STOP_SET_PATHSEP E c
         then S maxelem else maxelem)
  end.

(** [maxelem] after the loop: "We start with 2, one before the first
    separator and one nil (the list terminator)". *)
Definition maxelem (E : env) (dirpath : cstring) : nat :=
  count_elements E dirpath false 2.

(** ** The lists of the two variables *)

(** The listing that [build_vpath_lists] makes of the value of [VPATH] or
    of [GPATH], [old] being the listing before the call: an empty value
    leaves it, a value of which no entry survives puts 0 in its place. *)
Definition variable_listing (E : env) (value : cstring) (old : option vpath)
  : option vpath :=
  match value with
  | [] => old
  | _ =>
      match surviving_entries E value with
      | [] => None
      | es => Some (new_listing E [PERCENT] es 0)
      end
  end.

(** Two selective directives, for [%.c] and for the target goal [%.o]. *)
Definition two_directives : list directive :=
  [ {| d_pattern := cs "%.c"; d_dirs := cs "src:lib/"; d_goal := 0 |};
    {| d_pattern := cs "%.o"; d_dirs := cs "obj"; d_goal := 1 |} ].

(** A build whose database mentions lib/foo.o, not as a target. *)
Definition lib_foo_mentioned : env :=
  posix (only (cs "lib/foo.o") {| is_target := false; last_mtime := 0 |})
    empty_cache empty_fs.

(** ** Regular rounds *)

(** What the round of a directory needs to run as it is meant to: the
    candidate fits the buffer of [size] bytes, the directory part is a C
    string, and it does not end in a slash, so that a slash is stored
    after it. *)
Definition regular_round (file0 filename : cstring) (name_dplen size : nat)
  (dir : cstring) : Prop :=
  strlen (directory_part dir file0 name_dplen) + strlen filename + 2 <= size
  /\ open_ended (directory_part dir file0 name_dplen)
  /\ is_cstring (directory_part dir file0 name_dplen).

(** ** Directives on WINDOWS32 *)

(** A directory that the builder stores whole: no space of it follows a
    backslash, it does not end in a slash, and it is not ".". *)
Definition kept_whole (d : cstring) : Prop :=
  plain_spaces false d = true /\ last_char d <> Some SLASH /\ d <> [DOT].

(** A WINDOWS32 build over a given target database, directory cache and
    file system. *)
Definition windows32 (db : cstring -> option file)
  (cache : cstring -> cstring -> bool) (fs : cstring -> option Z) : env :=
  {| lookup_file := db;
     dir_file_exists_p := cache;
     stat := fs;
     pattern_matches := wildcard_match;
     find_percent := find_wildcard_offset;
     HAVE_DOS_PATHS := true;
     WINDOWS32 := true;
     PATH_SEPARATOR_CHAR := ";";
     OLD_MTIME := 2;
     NEW_MTIME := 18446744073709551615;
     UNKNOWN_MTIME := 0 |}.

(** ** The time stamp of a found file *)

(** The values that a search may store through [mtime_ptr]: "unknown",
    one of the two special values that the database holds for a file, or
    what [stat] gave for some name. *)
Definition time_stamp_of (E : env) (t : Z) : Prop :=
  t = UNKNOWN_MTIME E
  \/ (exists n f, lookup_file E n = Some f /\ last_mtime f = t
                  /\ (t = OLD_MTIME E \/ t = NEW_MTIME E))
  \/ (exists n, stat E n = Some t).

(** One store through [mtime_ptr], when it is not null. *)
Definition stored_once (E : env) (mtime_ptr : bool) (before after : list Z)
  : Prop :=
  if mtime_ptr
  then exists t, after = t :: before /\ time_stamp_of E t
  else after = before.

(** ** [commands.c]: [chop_commands] *)

Definition NEWLINE : ascii := "010"%char.

(** [strstr s sub]: the offset of the first [sub] in [s]. *)
Fixpoint starts_with (sub s : cstring) : bool :=
  match sub, s with
  | [], _ => true
  | a :: sub', b :: s' => Ascii.eqb a b && starts_with sub' s'
  | _ :: _, [] => false
  end.

Fixpoint strstr (s sub : cstring) : option nat :=
  if starts_with sub s then Some 0
  else match s with
       | [] => None
       | _ :: s' => option_map S (strstr s' sub)
       end.

(** The three bits of an element of [lines_flags]. *)
Record line_flags : Type := mk_line_flags {
  COMMANDS_RECURSE : bool;
  COMMANDS_SILENT : bool;
  COMMANDS_NOERROR : bool
}.

(** The fields of [struct commands] that [chop_commands] uses.
    [command_lines] is [None] while it is null; [commands] is not null. *)
Record struct_commands : Type := mk_commands {
  commands : cstring;
  command_lines : option (list cstring);
  lines_flags : list line_flags;
  ncommand_lines : nat;
  any_recurse : bool
}.

(** The limit of an [unsigned short] of 16 bits. *)
Definition USHRT_MAX : nat := 2 ^ 16 - 1.

(** How [chop_commands] ends: it returns, or one of its two calls of
    [fatal] stops the program: the one inside the loop over the lines, or
    the one after it. *)
Inductive chopped (A : Type) : Type :=
| Chopped (a : A)
| TooManyLines (limit : nat)
| TooManyLinesAfter (nlines : nat).

Arguments Chopped {A} a.
Arguments TooManyLines {A} limit.
Arguments TooManyLinesAfter {A} nlines.

(** The loop [for (b = end - 2; b >= p && *b == '\\'; --b)
    backslash = !backslash]: [before] holds the bytes from [end - 2] down
    to [p]. *)
Fixpoint count_backslashes (before : list ascii) (backslash : bool) : bool :=
  match before with
  | c :: before' =>
      if Ascii.eqb c BACKSLASH then count_backslashes before' (negb backslash)
      else backslash
  | [] => backslash
  end.

(** The test on the newline at offset [e] of [p] that sends the search of
    the end of the line on: the byte before it is a backslash, and the
    backslashes that end there are odd in number. *)
Definition continued (p : cstring) (e : nat) : bool :=
  (0 <? e) && is_char (nth_error p (e - 1)) BACKSLASH
  && (if 1 <? e then count_backslashes (rev (firstn (e - 1) p)) true
      else true).

(** From the label [find_end] to the end of the line: the offset of the
    end, for the search at offset [e]. Every [goto] moves [e] forward;
    [fuel] bounds them. *)
Fixpoint find_end (fuel : nat) (p : cstring) (e : nat) : nat :=
  match fuel with
  | 0 => strlen p
  | S fuel' =>
      match strchr (skipn e p) NEWLINE with
      | None => strlen p
      | Some k =>
          let e := e + k in
          if continued p e then find_end fuel' p (e + 1) else e
      end
  end.

(** The loop over the lines. Every round passes a byte of [p]; [fuel]
    bounds the rounds. [lines] are the lines so far, [nlines] of them. *)
Fixpoint chop_lines (fuel : nat) (p : cstring) (lines : list cstring)
  : chopped (list cstring) :=
  match fuel with
  | 0 => Chopped lines
  | S fuel' =>
      match p with
      | [] => Chopped lines
      | _ =>
          let e := find_end (S (strlen p)) p 0 in
          if List.length lines =? USHRT_MAX then TooManyLines USHRT_MAX
          else
            let lines := lines ++ [firstn e p] in
            let p := skipn e p in
            chop_lines fuel' (match p with [] => [] | _ :: p' => p' end)
              lines
      end
  end.

(** The flags of one line: the loop over the blanks and the characters
    [-], [@] and [+] that open it; the result is the rest of the line with
    the flags. *)
Fixpoint leading_flags (p : cstring) (flags : line_flags)
  : cstring * line_flags :=
  match p with
  | c :: p' =>
      if Ascii.eqb c "+" then
        leading_flags p'
          {| COMMANDS_RECURSE := true;
             COMMANDS_SILENT := COMMANDS_SILENT flags;
             COMMANDS_NOERROR := COMMANDS_NOERROR flags |}
      else if Ascii.eqb c "@" then
        leading_flags p'
          {| COMMANDS_RECURSE := COMMANDS_RECURSE flags;
             COMMANDS_SILENT := true;
             COMMANDS_NOERROR := COMMANDS_NOERROR flags |}
      else if Ascii.eqb c "-" then
        leading_flags p'
          {| COMMANDS_RECURSE := COMMANDS_RECURSE flags;
             COMMANDS_SILENT := COMMANDS_SILENT flags;
             COMMANDS_NOERROR := true |}
      else if ISBLANK c then leading_flags p' flags
      else (p, flags)
  | [] => ([], flags)
  end.

Definition is_found (o : option nat) : bool :=
  match o with Some _ => true | None => false end.

(** The body of the loop over [lines_flags]. *)
Definition flags_of_line (line : cstring) : line_flags :=
  let '(p, flags) :=
    leading_flags line
      {| COMMANDS_RECURSE := false; COMMANDS_SILENT := false;
         COMMANDS_NOERROR := false |} in
  (* If no explicit '+' was given, look for MAKE variable references. *)
  if negb (COMMANDS_RECURSE flags)
     && (is_found (strstr p (cs "$(MAKE)"))
         || is_found (strstr p (cs "${MAKE}")))
  then {| COMMANDS_RECURSE := true;
          COMMANDS_SILENT := COMMANDS_SILENT flags;
          COMMANDS_NOERROR := COMMANDS_NOERROR flags |}
  else flags.

(** [cmds] is [None] for a null pointer; [one_shell] is the global flag. *)
Definition chop_commands (one_shell : bool) (cmds : option struct_commands)
  : chopped (option struct_commands) :=
  match cmds with
  | None => Chopped None
  | Some c =>
      match command_lines c with
      | Some _ => Chopped (Some c)
      | None =>
          let chop :=
            if one_shell then
              let l := strlen (commands c) in
              (* Strip the trailing newline. *)
              Chopped
                [if (0 <? l) && is_char (nth_error (commands c) (l - 1))
                                  NEWLINE
                 then firstn (l - 1) (commands c) else commands c]
            else chop_lines (strlen (commands c)) (commands c) [] in
          match chop with
          | Chopped lines =>
              let nlines := List.length lines in
              if USHRT_MAX <? nlines then TooManyLinesAfter nlines
              else
                Chopped
                  (Some {| commands := commands c;
                           command_lines := Some lines;
                           lines_flags := map flags_of_line lines;
                           ncommand_lines := nlines;
                           any_recurse :=
                             existsb COMMANDS_RECURSE
                               (map flags_of_line lines) |})
          | TooManyLines n => TooManyLines n
          | TooManyLinesAfter n => TooManyLinesAfter n
          end
      end
  end.

(** A recipe of three lines, the second continued over a newline. *)
Definition recipe_example : struct_commands :=
  {| commands :=
       cs "@echo one" ++ [NEWLINE]
       ++ cs "-$(MAKE) -C sub \" ++ [NEWLINE] ++ cs "  all" ++ [NEWLINE]
       ++ cs "+touch $@" ++ [NEWLINE];
     command_lines := None;
     lines_flags := [];
     ncommand_lines := 0;
     any_recurse := false |}.





(** ** [commands.c]: names with their spaces escaped *)

(** The loop of [escaped_name_length]: "Add 1 for every space in the name
    (because the escape character is put back)". *)
Fixpoint count_spaces (name : cstring) (len : nat) : nat :=
  match name with
  | [] => len
  | c :: name' =>
      count_spaces name' (if Ascii.eqb c SPACE then S len else len)
  end.

Definition escaped_name_length (name : cstring) : nat :=
  count_spaces name (strlen name).

(** [copy_escaped_name (dest + d, name, terminate)]; [dest] and [name] are
    not null. *)
Fixpoint copy_escaped_name (dest : buffer) (d : nat) (name : cstring)
  (terminate : bool) : res buffer :=
  match name with
  | [] => if terminate then store dest d NUL else Ok dest
  | c :: name' =>
      do '(dest, d) <- (if Ascii.eqb c SPACE
                        then do dest <- store dest d BACKSLASH;
                             Ok (dest, S d)
                        else Ok (dest, d));
      do dest <- store dest d c;
      copy_escaped_name dest (S d) name' terminate
  end.

(** The macro [dup_escaped_name (target, name)]; the result is the string
    that [target] points to. *)
Definition dup_escaped_name (name : cstring) : res cstring :=
  let target := alloca (escaped_name_length name + 1) in
  do target <- copy_escaped_name target 0 name true;
  cstr target.

(** ** What the per-list search finds *)

(** Whether the candidate of a directory ends the search, for the
    directory part [directory] of the candidate: the candidate is mentioned
    in a makefile and counts by the rule on targets, or the directory holds
    the file name and the candidate can be stat'ed, or cannot but the
    search is one for a target or of a target-goal listing. *)
Definition counts (E : env) (is_target is_target_path : bool)
  (directory filename : cstring) : bool :=
  match lookup_file E (directory ++ SLASH :: filename) with
  | Some f => negb is_target || filedef.is_target f
  | None => false
  end
  || (dir_file_exists_p E directory filename
      && (match stat E (directory ++ SLASH :: filename) with
          | Some _ => true
          | None => false
          end
          || is_target_path || is_target)).

(** The name that a per-list search is meant to return on a build without
    DOS paths: the candidate of the first directory that counts, or, when
    none does, the candidate of the first directory of a target-goal
    listing. *)
Definition first_found (E : env) (path : vpath) (file0 : cstring)
  : option cstring :=
  let is_target :=
    match lookup_file E file0 with
    | Some f => filedef.is_target f
    | None => false
    end in
  let is_target_path := negb (target_goal path =? 0)%Z in
  let name_dplen :=
    match strrchr file0 SLASH with Some k => k | None => 0 end in
  let filename :=
    if 0 <? name_dplen then skipn (name_dplen + 1) file0 else file0 in
  match
    find (fun d => counts E is_target is_target_path
                     (directory_part d file0 name_dplen) filename)
      (searchpath path)
  with
  | Some d => Some (d ++ SLASH :: file0)
  | None =>
      if is_target_path
      then option_map (fun d => d ++ SLASH :: file0)
             (hd_error (searchpath path))
      else None
  end.

(** A listing on which the search runs as it is meant to: its pattern is
    not empty, its entries are C strings that [maxlen] bounds, and none of
    them ends in a slash. *)
Definition regular_listing (v : vpath) : Prop :=
  pattern v <> [] /\ listing_ok v
  /\ forall d, In d (searchpath v) -> open_ended d.

(** ** [print_vpath_data_base] *)

(** [printf ("%u", n)]: the decimal digits of [n]. *)
Fixpoint decimal_digits (fuel n : nat) (acc : cstring) : cstring :=
  match fuel with
  | 0 => acc
  | S fuel' =>
      let digit := ascii_of_nat (48 + n mod 10) in
      if n <? 10 then digit :: acc
      else decimal_digits fuel' (n / 10) (digit :: acc)
  end.

Definition decimal (n : nat) : cstring := decimal_digits (S n) n [].

(** The loop over [v->searchpath]: every entry, converted on WINDOWS32,
    then the separator, or a newline after the last entry. A null result
    of the conversion is a null argument of [%s]. *)
Fixpoint print_entries (E : env) (searchpath : list cstring) : res cstring :=
  match searchpath with
  | [] => Ok []
  | e :: rest =>
      do p <- (if WINDOWS32 E then
                 do r <- convert_Path_to_windows32 e (PATH_SEPARATOR_CHAR E);
                 match r with
                 | Some p => Ok p
                 | None => Fault NullArgument
                 end
               else Ok e);
      do tail <- print_entries E rest;
      Ok (p ++ match rest with
               | [] => NEWLINE
               | _ => PATH_SEPARATOR_CHAR E
               end :: tail)
  end.

(** The loop over the chain: the lines of the listings. *)
Fixpoint print_listings (E : env) (chain : list vpath) : res cstring :=
  match chain with
  | [] => Ok []
  | v :: next =>
      let keyword :=
        if negb (target_goal v =? 0)%Z then cs ".path " else cs "vpath " in
      do entries <- print_entries E (searchpath v);
      do tail <- print_listings E next;
      Ok (keyword ++ pattern v ++ SPACE :: entries ++ tail)
  end.

(** The loop over [general_vpath->searchpath]; its entries are not
    converted. *)
Fixpoint print_general (E : env) (path : list cstring) : cstring :=
  match path with
  | [] => []
  | e :: rest =>
      e ++ match rest with
           | [] => NEWLINE
           | _ => PATH_SEPARATOR_CHAR E
           end :: print_general E rest
  end.

(** The text that [print_vpath_data_base] writes to the standard output.
    The messages are the ones of the source, not translated; [nvpaths] is
    an [unsigned int]. *)
Definition print_vpath_data_base (E : env) (g : globals) : res cstring :=
  let out := NEWLINE :: cs "# VPATH Search Paths" ++ [NEWLINE] in
  do listings <- print_listings E (vpaths g);
  let out := out ++ listings in
  let nvpaths :=
    N.to_nat (N.of_nat (List.length (vpaths g)) mod 2 ^ 32)%N in
  let out :=
    out ++ match vpaths g with
           | [] => cs "# No 'vpath' search paths." ++ [NEWLINE]
           | _ => NEWLINE :: cs "# " ++ decimal nvpaths
                  ++ cs " 'vpath' search paths." ++ [NEWLINE]
           end in
  Ok (out ++ match general_vpath g with
             | None =>
                 NEWLINE
                 :: cs "# No general ('VPATH' variable) search path."
                 ++ [NEWLINE]
             | Some general =>
                 NEWLINE
                 :: cs "# General ('VPATH' variable) search path:"
                 ++ NEWLINE :: cs "# "
                 ++ print_general E (searchpath general)
             end).

(** The line that is printed for a listing, without its newline: the
    keyword of its category, its pattern and its directories. *)
Definition printed_directive (E : env) (v : vpath) : cstring :=
  (if negb (target_goal v =? 0)%Z then cs ".path " else cs "vpath ")
  ++ pattern v ++ SPACE :: join (PATH_SEPARATOR_CHAR E) (searchpath v).

(** A string that the entry loop takes whole, as one entry. *)
Definition entry_like (E : env) (e : cstring) : Prop :=
  entry_end E 0 false e = strlen e
  /\ exists c t, e = c :: t /\ STOP_SET_BLANK_PATHSEP E c = false.

(** ** [commands.c]: the characters that open a recipe line *)

(** A character that the loop over the start of a line passes: a blank,
    [-], [@] or [+]. *)
Definition flag_char (c : ascii) : bool :=
  ISBLANK c || Ascii.eqb c "-" || Ascii.eqb c "@" || Ascii.eqb c "+".

(** The longest start of a line that is made of such characters, and the
    rest of the line. *)
Fixpoint flag_run (line : cstring) : cstring * cstring :=
  match line with
  | c :: line' =>
      if flag_char c
      then let '(run, rest) := flag_run line' in (c :: run, rest)
      else ([], line)
  | [] => ([], [])
  end.

(** The character [c] is among the characters of [s]. *)
Definition occurs (c : ascii) (s : cstring) : bool :=
  existsb (Ascii.eqb c) s.

(** The recipe [recipe_example] with its three lines and their flags. *)
Definition recipe_chopped : struct_commands :=
  {| commands := commands recipe_example;
     command_lines :=
       Some [cs "@echo one";
             cs "-$(MAKE) -C sub \" ++ [NEWLINE] ++ cs "  all";
             cs "+touch $@"];
     lines_flags :=
       [ {| COMMANDS_RECURSE := false; COMMANDS_SILENT := true;
            COMMANDS_NOERROR := false |};
         {| COMMANDS_RECURSE := true; COMMANDS_SILENT := false;
            COMMANDS_NOERROR := true |};
         {| COMMANDS_RECURSE := true; COMMANDS_SILENT := false;
            COMMANDS_NOERROR := false |} ];
     ncommand_lines := 3;
     any_recurse := true |}.

(** ** [w32/pathstuff.c]: [convert_slashes] and [getcwd_fs] *)

(** [strlcpy (dst, src, size)] of the C library: at most [size - 1] bytes
    of [src], and the terminator after them when [size] is not 0. *)
Definition strlcpy (dst : buffer) (src : cstring) (size : nat) : res buffer :=
  match size with
  | 0 => Ok dst
  | S n =>
      do dst <- memcpy dst 0 (firstn n src);
      store dst (Nat.min n (strlen src)) NUL
  end.

(** The loop over the bytes of [w32_path], up to its terminator, that
    turns every backslash to a slash. Every round moves [p] one byte on; a read behind the array is a
    fault, so that one round more than the array has bytes is fuel
    enough. *)
Fixpoint convert_slashes_loop (fuel : nat) (w32_path : buffer) (p : nat)
  : res buffer :=
  match fuel with
  | 0 => Ok w32_path
  | S fuel' =>
      do c <- load w32_path p;
      if Ascii.eqb c NUL then Ok w32_path
      else
        do w32_path <- (if Ascii.eqb c BACKSLASH
                        then store w32_path p SLASH
                        else Ok w32_path);
        convert_slashes_loop fuel' w32_path (S p)
  end.

(** [w32_path] is the static array of [FILENAME_MAX] bytes, as the call
    finds it; the result is the array as the call leaves it, and the
    pointer that is returned points to it. [_fullpath] is the function of
    the C library of Windows. *)
Definition convert_slashes (_fullpath : buffer -> cstring -> nat -> res buffer)
  (w32_path : buffer) (filename : cstring) (resolve : Z) : res buffer :=
  do w32_path <- (if negb (resolve =? 0)%Z
                  then _fullpath w32_path filename (List.length w32_path)
                  else strlcpy w32_path filename (List.length w32_path));
  convert_slashes_loop (S (List.length w32_path)) w32_path 0.

(** [getcwd] is the function of the C library: it leaves [buf] as it is
    and returns null, or fills it. The result is [buf], when the pointer
    that is returned is not null, and the static array of
    [convert_slashes]. *)
Definition getcwd_fs (_fullpath : buffer -> cstring -> nat -> res buffer)
  (getcwd : buffer -> nat -> res (option buffer))
  (w32_path buf : buffer) (len : nat) : res (option buffer * buffer) :=
  do p <- getcwd buf len;
  match p with
  | Some buf =>
      do name <- cstr buf;
      do q <- convert_slashes _fullpath w32_path name 0;
      do s <- cstr q;
      do buf <- strlcpy buf s len;
      Ok (Some buf, q)
  | None => Ok (None, w32_path)
  end.

(** A byte with its backslash turned to a slash. *)
Definition forward (c : ascii) : ascii :=
  if Ascii.eqb c BACKSLASH then SLASH else c.

(** A [getcwd] that finds the directory [cwd]: it stores it in a [buf]
    that holds it and its terminator, and returns null otherwise. *)
Definition getcwd_of (cwd : cstring) (buf : buffer) (len : nat)
  : res (option buffer) :=
  if strlen cwd <? len
  then do buf <- memcpy buf 0 cwd;
       do buf <- store buf (strlen cwd) NUL;
       Ok (Some buf)
  else Ok None.

(** A [_fullpath] that is not there: no call without [resolve] uses it. *)
Definition no_fullpath (b : buffer) (s : cstring) (n : nat) : res buffer :=
  Fault InvalidAccess.

(** ** [default.c]: the lines of the configuration file *)

(** The value of a byte in a comparison of [char]s. Whether the type
    [char] is signed is left to the build: [signed_char] tells it. *)
Definition char_value (signed_char : bool) (c : ascii) : Z :=
  let n := Z.of_N (N_of_ascii c) in
  if signed_char && (128 <=? n)%Z then (n - 256)%Z else n.

(** The test [c <= ' ']. *)
Definition at_most_space (signed_char : bool) (c : ascii) : bool :=
  (char_value signed_char c <=? 32)%Z.

(** The loop of [striptrailing]: [ptr] is the offset of the end. *)
Fixpoint striptrailing_loop (signed_char : bool) (line : buffer) (ptr : nat)
  : res buffer :=
  match ptr with
  | 0 => Ok line
  | S before =>
      do c <- load line before;
      if at_most_space signed_char c
      then do line <- store line before NUL;
           striptrailing_loop signed_char line before
      else Ok line
  end.

(** The string is changed where it is; the pointer that is returned is
    [line]. *)
Definition striptrailing (signed_char : bool) (line : buffer) : res buffer :=
  do s <- cstr line;
  striptrailing_loop signed_char line (strlen s).

(** The result points into [line]. *)
Fixpoint skipleading (signed_char : bool) (line : cstring) : cstring :=
  match line with
  | c :: line' =>
      if at_most_space signed_char c then skipleading signed_char line'
      else line
  | [] => []
  end.

(** [ISBLANK (line[0])]; the first byte of an empty string is its
    terminator. *)
Definition blank_first (line : cstring) : bool :=
  match line with
  | c :: _ => ISBLANK c
  | [] => false
  end.

(** The loop of [is_variable] over the colons at the end of [name]. *)
Fixpoint strip_colons (name : buffer) (length : nat) : res buffer :=
  match length with
  | 0 => Ok name
  | S before =>
      do c <- load name before;
      if Ascii.eqb c COLON
      then do name <- store name before NUL; strip_colons name before
      else Ok name
  end.

(** [name] is the array of the caller, of at least [namelength] bytes.
    The result is the pointer that is returned, null or the value, and
    [name] as the call leaves it. With [namelength] 0 the length wraps
    around and [strncpy] leaves the array. *)
Definition is_variable (signed_char : bool) (line : cstring) (name : buffer)
  (namelength : nat) : res (option cstring * buffer) :=
  match (if blank_first line then None else strchr line "=") with
  | Some ptr =>
      do length <- (if namelength <=? ptr
                    then if namelength =? 0 then Fault InvalidAccess
                         else Ok (namelength - 1)
                    else Ok ptr);
      do name <- memcpy name 0 (firstn length line);
      do name <- store name length NUL;
      do name <- strip_colons name length;
      do name <- striptrailing signed_char name;
      Ok (Some (skipleading signed_char (skipn (S ptr) line)), name)
  | None => Ok (None, name)
  end.

(** [textroot] holds the lines of the list that starts at
    [textroot.next]; [vname] is an array of 128 bytes. *)
Fixpoint get_default_variable (signed_char : bool) (textroot : list cstring)
  (name : cstring) : res (option cstring) :=
  match textroot with
  | [] => Ok None
  | line :: next =>
      do '(ptr, vname) <- is_variable signed_char line (alloca 128) 128;
      match ptr with
      | Some ptr =>
          do vname <- cstr vname;
          if streq vname name then Ok (Some ptr)
          else get_default_variable signed_char next name
      | None => get_default_variable signed_char next name
      end
  end.

(** The table [default_variables]. *)
Definition default_variables : list (cstring * cstring) :=
  [ (cs "GNUMAKEFLAGS", []);
    (cs ".RECIPEINDENT", cs "4");
    (cs ".space", cs " ") ].

(** The loop of [define_default_variables] over the lines: the names and
    the values of its calls of [define_variable], in their order. *)
Fixpoint define_config_variables (signed_char : bool)
  (textroot : list cstring) : res (list (cstring * cstring)) :=
  match textroot with
  | [] => Ok []
  | line :: next =>
      do '(ptr, vname) <- is_variable signed_char line (alloca 128) 128;
      match ptr with
      | Some ptr =>
          do vname <- cstr vname;
          do defined <- define_config_variables signed_char next;
          Ok ((vname, ptr) :: defined)
      | None => define_config_variables signed_char next
      end
  end.

(** The names and the values of all the calls of [define_variable]. *)
Definition define_default_variables (signed_char : bool)
  (no_builtin_variables_flag : bool) (textroot : list cstring)
  : res (list (cstring * cstring)) :=
  if no_builtin_variables_flag then Ok default_variables
  else
    do defined <- define_config_variables signed_char textroot;
    Ok (default_variables ++ defined).

(** The loop of [undefine_default_variables] over the colons and the
    spaces before [ptr]. *)
Fixpoint undefine_name_end (line : cstring) (ptr : nat) : nat :=
  match ptr with
  | 0 => 0
  | S before =>
      if is_char (nth_error line before) COLON
         || is_char (nth_error line before) SPACE
      then undefine_name_end line before
      else ptr
  end.

(** The names of the calls of [undefine_variable_global], in their
    order. *)
Fixpoint undefine_default_variables (textroot : list cstring)
  : list cstring :=
  match textroot with
  | [] => []
  | line :: next =>
      match (if blank_first line then None else strchr line "=") with
      | Some ptr =>
          firstn (undefine_name_end line ptr) line
          :: undefine_default_variables next
      | None => undefine_default_variables next
      end
  end.

(** What is left of a string when the bytes at its end that pass [test]
    are taken away. *)
Fixpoint strip_end (test : ascii -> bool) (s : cstring) : cstring :=
  match s with
  | [] => []
  | c :: s' =>
      match strip_end test s' with
      | [] => if test c then [] else [c]
      | rest => c :: rest
      end
  end.

(** The name that [is_variable] takes from a line whose first [=] is at
    the offset [ptr], for an array of [namelength] bytes. *)
Definition variable_name (signed_char : bool) (line : cstring)
  (ptr namelength : nat) : cstring :=
  strip_end (at_most_space signed_char)
    (strip_end (fun c => Ascii.eqb c COLON)
       (firstn (Nat.min ptr (namelength - 1)) line)).

(** Four lines of a configuration file. *)
Definition config_example : list cstring :=
  [ cs "CC := gcc"; cs "%.o : %.c"; cs "CFLAGS = -O2"; cs "CC = cc" ].

(** An assignment of the usual form: a name, spaces, colons and [=]. The
    name holds no [=] and ends neither in a colon nor in a byte that is at
    most a space; what stands before the [=] fits the array of 128
    bytes. *)
Definition assignment_line (signed_char : bool) (line : cstring) : Prop :=
  exists name spaces colons rest : cstring,
    line = name ++ spaces ++ colons ++ "="%char :: rest
    /\ ~ In "="%char name
    /\ Forall (fun c => c = SPACE) spaces
    /\ Forall (fun c => c = COLON) colons
    /\ strlen (name ++ spaces ++ colons) < 128
    /\ forall c, last_char name = Some c ->
                 c <> COLON /\ at_most_space signed_char c = false.

(** ** [default.c]: the recipe of a rule of the configuration file *)








(** ** [default.c]: the list of the default suffixes *)











(** ** [commands.c]: [print_commands] *)

(** The loop over [end], from [s] on, that looks for a newline that is
    not escaped: the offset of [end] from [s], for the value of [bs] at
    [s]. *)
Fixpoint logical_line_end (s : cstring) (bs : bool) : nat :=
  match s with
  | [] => 0
  | c :: s' =>
      if Ascii.eqb c NEWLINE && negb bs then 0
      else S (logical_line_end s'
                (if Ascii.eqb c BACKSLASH then negb bs else false))
  end.

(** The loop over [s], up to the terminator: what it prints. Every
    round passes a byte of [s]; [fuel] bounds the rounds. *)
Fixpoint print_lines (fuel : nat) (s : cstring) : cstring :=
  match fuel with
  | 0 => []
  | S fuel' =>
      match s with
      | [] => []
      | _ =>
          let e := logical_line_end s false in
          cs "    " ++ firstn e s ++ NEWLINE
          :: print_lines fuel'
               (skipn (e + (if is_char (char_at s e) NEWLINE then 1 else 0))
                  s)
      end
  end.

(** What [print_commands] writes to [stdout]. [filenm] and [lineno] are
    the fields of [cmds->fileinfo]; [filenm] is [None] for a null
    pointer. *)
Definition print_commands (filenm : option cstring) (lineno : nat)
  (cmds : struct_commands) : cstring :=
  cs "#  recipe to execute"
  ++ match filenm with
     | None => cs " (built-in):" ++ [NEWLINE]
     | Some f =>
         cs " (from '" ++ f ++ cs "', line " ++ decimal lineno
         ++ cs "):" ++ [NEWLINE]
     end
  ++ print_lines (strlen (commands cmds)) (commands cmds).

(** The backslashes at the head of a list are odd in number. *)
Fixpoint odd_run (l : list ascii) : bool :=
  match l with
  | c :: l' => if Ascii.eqb c BACKSLASH then negb (odd_run l') else false
  | [] => false
  end.

(** * Properties *)

Unset Implicit Arguments.

(** ** C strings *)

Lemma ascii_eqb_true (a b : ascii) : Ascii.eqb a b = true <-> a = b.
Proof. apply Ascii.eqb_eq. Qed.

Lemma ascii_eqb_false (a b : ascii) : Ascii.eqb a b = false <-> a <> b.
Proof. apply Ascii.eqb_neq. Qed.

Lemma streq_eq (a b : cstring) : streq a b = true <-> a = b.
Proof.
  revert b; induction a as [|x a IH]; intros [|y b]; simpl;
    try (split; [discriminate | discriminate]); [split; reflexivity|].
  rewrite andb_true_iff, ascii_eqb_true, IH.
  split; [intros [-> ->]; reflexivity | intros [= -> ->]; auto].
Qed.

Lemma streq_refl (a : cstring) : streq a a = true.
Proof. apply streq_eq; reflexivity. Qed.

(** [strneq] on a length within the second string compares the first
    [n] bytes. *)
Lemma strneq_firstn (a b : cstring) (n : nat) :
  n <= strlen b -> (strneq a b n = true <-> firstn n a = firstn n b).
Proof.
  unfold strlen; revert a b; induction n as [|n IH]; intros a b Hn.
  - simpl; split; reflexivity.
  - destruct b as [|y b]; [simpl in Hn; lia|].
    destruct a as [|x a]; simpl.
    + split; discriminate.
    + rewrite andb_true_iff, ascii_eqb_true, IH by (simpl in Hn; lia).
      split; [intros [-> ->]; reflexivity | intros [= -> ->]; auto].
Qed.

Lemma char_at_length (e : cstring) : char_at e (strlen e) = Some NUL.
Proof.
  unfold char_at. rewrite Nat.ltb_irrefl, Nat.eqb_refl. reflexivity.
Qed.

Lemma char_at_inside (e : cstring) (n : nat) :
  is_cstring e -> n < strlen e ->
  exists c, char_at e n = Some c /\ c <> NUL.
Proof.
  intros He Hn. unfold char_at.
  destruct (Nat.ltb_spec n (strlen e)) as [_|]; [|lia].
  destruct (nth_error e n) as [c|] eqn:Hc.
  - exists c; split; [reflexivity|].
    intros ->. apply He. eapply nth_error_In; eassumption.
  - apply nth_error_None in Hc. unfold strlen in Hn. lia.
Qed.

Lemma last_char_nth (s : cstring) :
  last_char s = nth_error s (strlen s - 1).
Proof. destruct s; reflexivity. Qed.

(** A string that is not empty ends with its last byte. *)
Lemma last_char_split (d : cstring) :
  d <> [] -> exists d0 c, d = d0 ++ [c] /\ last_char d = Some c.
Proof.
  intros Hd. destruct (exists_last Hd) as [d0 [c ->]].
  exists d0, c. split; [reflexivity|].
  rewrite last_char_nth. unfold strlen. rewrite length_app. simpl.
  rewrite nth_error_app2 by lia.
  replace (List.length d0 + 1 - 1 - List.length d0) with 0 by lia.
  reflexivity.
Qed.

Lemma last_char_cons (c : ascii) (d : cstring) :
  d <> [] -> last_char (c :: d) = last_char d.
Proof.
  intros Hd. rewrite !last_char_nth. unfold strlen.
  destruct d as [|c' d]; [congruence|]. simpl. rewrite Nat.sub_0_r.
  reflexivity.
Qed.


Lemma last_char_app (a b : cstring) :
  b <> [] -> last_char (a ++ b) = last_char b.
Proof.
  intros Hb. rewrite !last_char_nth. unfold strlen. rewrite length_app.
  destruct b as [|c b]; [congruence|]. simpl List.length.
  rewrite nth_error_app2 by lia. f_equal. lia.
Qed.

Lemma firstn_incl (n : nat) (p : cstring) (c : ascii) :
  In c (firstn n p) -> In c p.
Proof.
  intros H. rewrite <- (firstn_skipn n p). apply in_or_app. left. exact H.
Qed.

Lemma skipn_incl (n : nat) (p : cstring) (c : ascii) :
  In c (skipn n p) -> In c p.
Proof.
  intros H. rewrite <- (firstn_skipn n p). apply in_or_app. right. exact H.
Qed.

(** ** [gpath_search] (C8) *)

Lemma gpath_loop_exact (gp : list cstring) (file0 : cstring) (len : nat) :
  len <= strlen file0 ->
  Forall is_cstring gp ->
  (gpath_loop gp file0 len = Ok true
   <-> exists e, In e gp /\ e = firstn len file0)
  /\ (gpath_loop gp file0 len = Ok true
      \/ gpath_loop gp file0 len = Ok false).
Proof.
  intros Hlen Hgp.
  induction Hgp as [|e gp He Hgp [IH1 IH2]]; simpl.
  - split; [|auto]. split; [discriminate | intros [e [[] _]]].
  - assert (Hskip : e <> firstn len file0 ->
              (gpath_loop gp file0 len = Ok true
               <-> exists e0, (e = e0 \/ In e0 gp) /\ e0 = firstn len file0)).
    { intros Hne. rewrite IH1. split.
      - intros [e0 [Hin Heq]]; exists e0; auto.
      - intros [e0 [[<-|Hin] Heq]]; [contradiction | exists e0; auto]. }
    destruct (strneq e file0 len) eqn:Hcmp.
    + apply strneq_firstn in Hcmp; [|assumption].
      assert (Hle : len <= strlen e).
      { unfold strlen in *.
        assert (H : List.length (firstn len e) = len)
          by (rewrite Hcmp, length_firstn; lia).
        rewrite length_firstn in H. lia. }
      destruct (Nat.eq_dec len (strlen e)) as [->|Hne].
      * rewrite char_at_length. simpl. split; [|auto].
        split; [intros _|reflexivity].
        exists e; split; [auto|].
        rewrite <- Hcmp. unfold strlen. symmetry. apply firstn_all.
      * destruct (@char_at_inside e len He) as [c [-> Hc]]; [lia|].
        apply ascii_eqb_false in Hc. rewrite Hc.
        split; [|assumption]. apply Hskip.
        intros ->. apply Hne. unfold strlen in *.
        rewrite length_firstn. lia.
    + split; [|assumption]. apply Hskip.
      intros ->.
      assert (H : strneq (firstn len file0) file0 len = true).
      { apply strneq_firstn; [assumption|].
        rewrite firstn_firstn. f_equal. lia. }
      congruence.
Qed.

(** C8. Exclusion membership is exact: for a length within the name,
    [gpath_search] answers true exactly when some entry of the exclusion
    list is the string made of the first [len] bytes of the name, hence
    exactly [len] bytes long; it always answers; entries of any other
    length never match; and without an exclusion list the answer is
    false. *)
Theorem gpath_search_exact (g : globals) (file0 : cstring) (len : nat) :
  len <= strlen file0 ->
  (forall gps, gpaths g = Some gps -> listing_ok gps) ->
  (gpath_search g file0 len = Ok true
   <-> exists gps e, gpaths g = Some gps /\ In e (searchpath gps)
                     /\ strlen e = len /\ e = firstn len file0)
  /\ (gpath_search g file0 len = Ok true
      \/ gpath_search g file0 len = Ok false)
  /\ (forall gps, gpaths g = Some gps ->
      (forall e, In e (searchpath gps) -> strlen e = len ->
                 e <> firstn len file0) ->
      gpath_search g file0 len = Ok false)
  /\ (gpaths g = None -> gpath_search g file0 len = Ok false).
Proof.
  intros Hlen Hok. unfold gpath_search.
  destruct (gpaths g) as [gps|] eqn:Hg.
  - specialize (Hok gps eq_refl).
    assert (Hcs : Forall is_cstring (searchpath gps)).
    { eapply Forall_impl; [|exact Hok]. intros e [He _]; exact He. }
    destruct (gpath_loop_exact (searchpath gps) file0 len Hlen Hcs)
      as [Hiff Htot].
    assert (Hlong : maxlen gps < len ->
              forall e, In e (searchpath gps) -> e <> firstn len file0).
    { intros Hlt e Hin ->.
      unfold listing_ok in Hok. rewrite Forall_forall in Hok.
      destruct (Hok _ Hin) as [_ Hbound].
      unfold strlen in *. rewrite length_firstn in Hbound. lia. }
    assert (Hmain :
      (if len <=? maxlen gps then gpath_loop (searchpath gps) file0 len
       else Ok false) = Ok true
      <-> exists e, In e (searchpath gps) /\ e = firstn len file0).
    { destruct (Nat.leb_spec len (maxlen gps)) as [_|Hlt]; [exact Hiff|].
      split; [discriminate|].
      intros [e [Hin Heq]]. exfalso. exact (Hlong Hlt e Hin Heq). }
    assert (Htotal :
      (if len <=? maxlen gps then gpath_loop (searchpath gps) file0 len
       else Ok false) = Ok true
      \/ (if len <=? maxlen gps then gpath_loop (searchpath gps) file0 len
          else Ok false) = Ok false).
    { destruct (len <=? maxlen gps); auto. }
    split; [split|split; [|split]].
    + intros H. apply Hmain in H. destruct H as [e [Hin Heq]].
      exists gps, e. repeat split; auto.
      subst e. unfold strlen in *. rewrite length_firstn. lia.
    + intros [gps' [e [[= <-] [Hin [_ Heq]]]]]. apply Hmain. eauto.
    + exact Htotal.
    + intros gps' [= <-] Hnone.
      destruct Htotal as [Ht|Hf]; [|exact Hf].
      apply Hmain in Ht. destruct Ht as [e [Hin Heq]].
      exfalso. apply (Hnone e Hin); [|exact Heq].
      subst e. unfold strlen in *. rewrite length_firstn. lia.
    + discriminate.
  - split; [split|split; [|split]]; auto.
    + discriminate.
    + intros [gps [e [[=] _]]].
Qed.

(** The name /src/foo.c with length 10 against the entries /src/foo.,
    /src/foo.cc and /src/foo.c. *)
Lemma gpath_search_exact_witness :
  gpath_search exclusion_example (cs "/src/foo.c") 10 = Ok true
  <-> exists gps e,
        gpaths exclusion_example = Some gps /\ In e (searchpath gps)
        /\ strlen e = 10 /\ e = firstn 10 (cs "/src/foo.c").
Proof.
  apply (gpath_search_exact exclusion_example (cs "/src/foo.c") 10).
  - simpl. lia.
  - intros gps [= <-]. unfold listing_ok. simpl.
    repeat constructor; simpl; try lia;
      intros H; repeat (destruct H as [H|H]; [discriminate H|]);
      exact H.
Defined.

(** ** [vpath_match] (C4) *)

Lemma strchr_None (s : cstring) (c : ascii) :
  strchr s c = None <-> ~ In c s.
Proof.
  induction s as [|x s IH]; simpl.
  - split; [intros _ [] | reflexivity].
  - destruct (Ascii.eqb x c) eqn:Hx.
    + apply ascii_eqb_true in Hx. split; [discriminate | intros H].
      exfalso. apply H. auto.
    + apply ascii_eqb_false in Hx.
      destruct (strchr s c); simpl.
      * split; [discriminate | intros H].
        assert (Hs : ~ In c s) by (intros Hin; apply H; auto).
        apply IH in Hs. discriminate Hs.
      * split; [|reflexivity].
        intros _ [H|H]; [contradiction|].
        destruct IH as [IH _]. exact (IH eq_refl H).
Qed.

(** A name that matches a pattern at its wildcard ends with the text that
    follows the wildcard. *)
Lemma wildcard_match_at_suffix (pat : cstring) (k : nat) (str : cstring) :
  wildcard_match_at pat k str = true ->
  exists stem, str = stem ++ skipn (k + 1) pat.
Proof.
  unfold wildcard_match_at.
  destruct (strlen str <? k + strlen (skipn (k + 1) pat)); [discriminate|].
  rewrite andb_true_iff. intros [_ H]. apply streq_eq in H.
  exists (firstn (strlen str - strlen (skipn (k + 1) pat)) str).
  rewrite H at 2. symmetry. apply firstn_skipn.
Qed.

Lemma wildcard_match_at_needs (pat : cstring) (k : nat) (str : cstring)
  (c : ascii) :
  In c (skipn (k + 1) pat) -> ~ In c str ->
  wildcard_match_at pat k str = false.
Proof.
  intros Hc Hstr.
  destruct (wildcard_match_at pat k str) eqn:H; [|reflexivity].
  apply wildcard_match_at_suffix in H. destruct H as [stem ->].
  exfalso. apply Hstr. apply in_or_app. auto.
Qed.

(** C4, as amended. A file name matches a listing with a non-empty pattern
    when the wildcard match of the pattern succeeds, or when the pattern
    ends in a dot, the file name holds no dot, and the wildcard match of
    the pattern without its last byte succeeds. So the pattern "%." matches
    the dotless name foo through the retry only; the pattern "%.o." matches
    no dotless name, since "%.o" still asks for a dot. *)
Theorem vpath_match_dot_fallback :
  (forall (E : env) (v : vpath) (filename : cstring),
      pattern v <> [] ->
      vpath_match E v filename
      = Ok (pattern_matches E (pattern v) (percent v) filename
            || (is_char (last_char (pattern v)) DOT
                && match strchr filename DOT with
                   | None => true
                   | Some _ => false
                   end
                && pattern_matches E
                     (fst (find_percent E (removelast (pattern v))))
                     (snd (find_percent E (removelast (pattern v))))
                     filename)))
  /\ (wildcard_match (cs "%.") (Some 0) (cs "foo") = false
      /\ vpath_match bare (listing (cs "%.") [cs "src"] 0) (cs "foo")
         = Ok true)
  /\ (forall filename : cstring,
        strchr filename DOT = None ->
        vpath_match bare (listing (cs "%.o.") [cs "src"] 0) filename
        = Ok false).
Proof.
  split; [|split].
  - intros E v filename Hpat. unfold vpath_match.
    destruct (pattern_matches E (pattern v) (percent v) filename);
      [reflexivity|].
    assert (Hlen : (0 <? strlen (pattern v)) = true).
    { apply Nat.ltb_lt. destruct (pattern v); [congruence | simpl; lia]. }
    rewrite Hlen. simpl.
    destruct (is_char (last_char (pattern v)) DOT); [|reflexivity].
    destruct (strchr filename DOT); [reflexivity|]. simpl.
    destruct (find_percent E (removelast (pattern v))) as [p' pc]. simpl.
    destruct (pattern_matches E p' pc filename); reflexivity.
  - split; reflexivity.
  - intros filename Hdot. apply strchr_None in Hdot.
    assert (H1 : wildcard_match_at (cs "%.o.") 0 filename = false)
      by (apply (wildcard_match_at_needs _ _ _ DOT);
          [simpl; auto | exact Hdot]).
    assert (H2 : wildcard_match_at (cs "%.o") 0 filename = false)
      by (apply (wildcard_match_at_needs _ _ _ DOT);
          [simpl; auto | exact Hdot]).
    cbv [cs list_ascii_of_string] in H1, H2.
    unfold vpath_match. simpl. rewrite H1, H2.
    destruct (strchr filename DOT); reflexivity.
Qed.

(** The claim as stated fails: the dotless names foo, o and Makefile do not
    match the pattern "%.o.", and the retry without the dot is what
    rejects them. *)
Lemma dot_fallback_counterexample :
  vpath_match bare (listing (cs "%.o.") [cs "src"] 0) (cs "foo") = Ok false
  /\ vpath_match bare (listing (cs "%.o.") [cs "src"] 0) (cs "o") = Ok false
  /\ vpath_match bare (listing (cs "%.o.") [cs "src"] 0) (cs "Makefile")
     = Ok false
  /\ wildcard_match (cs "%.o") (Some 0) (cs "foo") = false.
Proof. repeat split; reflexivity. Qed.


(** ** The guard of [vpath_search] (C5) *)

Lemma entry_stores_run (ptr : pointers) (m : mem) :
  pointers_ok ptr ->
  (if vpath_index ptr
   then do _ <- assert (path_index ptr);
        Ok (store_path_index
              (store_vpath_index
                 (if target_path ptr then store_target_path m 0 else m) 0) 0)
   else Ok (if target_path ptr then store_target_path m 0 else m))
  = Ok (entry_stores ptr m).
Proof.
  unfold pointers_ok, entry_stores. intros Hok.
  destruct (vpath_index ptr); [|reflexivity].
  rewrite (Hok eq_refl). reflexivity.
Qed.

Lemma starts_at_root_stops (E : env) (file0 : cstring) (g : globals) :
  starts_at_root E file0 = true -> nothing_to_do E file0 g = Ok true.
Proof.
  unfold starts_at_root, nothing_to_do.
  destruct (is_char (char_at file0 0) SLASH); [reflexivity|].
  destruct (HAVE_DOS_PATHS E); [|discriminate]. simpl.
  destruct (is_char (char_at file0 0) BACKSLASH); [reflexivity|]. simpl.
  destruct (char_at file0 1) as [c|]; simpl; [|discriminate].
  intros ->. reflexivity.
Qed.

Lemma no_lists_stops (E : env) (file0 : cstring) (g : globals) :
  vpaths g = [] -> general_vpath g = None ->
  (HAVE_DOS_PATHS E = true -> file0 <> []) ->
  nothing_to_do E file0 g = Ok true.
Proof.
  intros Hv Hg Hdos. unfold nothing_to_do. rewrite Hv, Hg.
  destruct (is_char (char_at file0 0) SLASH); [reflexivity|].
  destruct (HAVE_DOS_PATHS E); [|reflexivity].
  destruct (is_char (char_at file0 0) BACKSLASH); [reflexivity|].
  destruct file0 as [|a [|b file1]]; [exfalso; apply Hdos; reflexivity| |].
  - reflexivity.
  - unfold char_at. simpl. destruct (Ascii.eqb b COLON); reflexivity.
Qed.

(** C5. Resolver guard: for a file name that starts at the root (a slash
    first, or with DOS paths a backslash first or a colon second), and for
    any file name when there is neither a selective list nor a general list,
    [vpath_search] returns "not found" at once: the result is determined
    without the lists or the collaborators, the lists are left as they are,
    only the stores made on entry are done, and the run ends normally. *)
Theorem vpath_search_guard (E : env) (file0 : cstring) (ptr : pointers)
  (g : globals) (m : mem) :
  pointers_ok ptr ->
  starts_at_root E file0 = true
  \/ (vpaths g = [] /\ general_vpath g = None
      /\ (HAVE_DOS_PATHS E = true -> file0 <> [])) ->
  vpath_search E file0 ptr g m = Ok (None, g, entry_stores ptr m).
Proof.
  intros Hptr Hguard. unfold vpath_search.
  rewrite (entry_stores_run ptr m Hptr). simpl.
  assert (Hstop : nothing_to_do E file0 g = Ok true).
  { destruct Hguard as [Hroot | [Hv [Hg Hdos]]].
    - apply starts_at_root_stops; assumption.
    - apply no_lists_stops; assumption. }
  rewrite Hstop. reflexivity.
Qed.

(** The absolute name /usr/lib/foo.o, with lists that would match it. *)
Lemma vpath_search_guard_witness :
  vpath_search (mentions false) (cs "/usr/lib/foo.o") all_pointers
    three_lists used_mem
  = Ok (None, three_lists, entry_stores all_pointers used_mem).
Proof.
  apply (vpath_search_guard (mentions false) (cs "/usr/lib/foo.o")
           all_pointers three_lists used_mem).
  - intros _. reflexivity.
  - left. reflexivity.
Defined.

(** ** Stores through [mtime_ptr] (C10) *)

(** When the makefile test leaves [exists] at 0 it has stored nothing. *)
Lemma mentioned_not_exists (E : env) (is_target : bool) (f : file)
  (s : scan) (live : bool) (m : mem) :
  mentioned E is_target f s = (false, live, m) -> m = out s.
Proof.
  unfold mentioned.
  destruct (negb is_target || filedef.is_target f); simpl.
  - destruct (mtime_live s && _); discriminate.
  - intros [= _ <-]. reflexivity.
Qed.

(** A round that does not return has stored nothing through [mtime_ptr]. *)
Lemma try_directory_continue_frame (E : env) (is_target is_target_path : bool)
  (path_index : bool) (file0 filename : cstring) (name_dplen flen : nat)
  (i : nat) (dir : cstring) (s s' : scan) :
  try_directory E is_target is_target_path path_index file0 filename
    name_dplen flen i dir s = Ok (Continue s') ->
  at_mtime_ptr (out s') = at_mtime_ptr (out s).
Proof.
  unfold try_directory, bind. intros H.
  destruct (build_name E (name s) dir file0 filename name_dplen flen)
    as [[nm p]|]; [|discriminate H].
  destruct (cstr nm) as [candidate|]; [|discriminate H].
  assert (Hstage :
    forall live m,
      match lookup_file E candidate with
      | Some f => mentioned E is_target f s
      | None => (exists_ s, mtime_live s, out s)
      end = (false, live, m) -> m = out s).
  { intros live m. destruct (lookup_file E candidate) as [f|].
    - apply mentioned_not_exists.
    - intros [= _ _ <-]. reflexivity. }
  destruct (match lookup_file E candidate with
            | Some f => mentioned E is_target f s
            | None => (exists_ s, mtime_live s, out s)
            end) as [[ex live] m].
  destruct ex; simpl in H.
  - (* mentioned in the makefile: the round returns *)
    destruct (store nm p SLASH) as [nm'|]; [|discriminate H].
    cbv zeta in H.
    destruct (strcache_add_len nm' (p + 1 + flen)); discriminate H.
  - rewrite (Hstage live m eq_refl) in H. clear Hstage.
    unfold assert in H.
    repeat match type of H with
           | context [match ?x with _ => _ end] =>
               destruct x; try discriminate H
           end;
      injection H as <-; reflexivity.
Qed.

Lemma scan_directories_frame (E : env) (is_target is_target_path : bool)
  (path_index : bool) (file0 filename : cstring) (name_dplen flen : nat)
  (vpath : list cstring) :
  forall (i : nat) (s : scan) (m' : mem),
    scan_directories E is_target is_target_path path_index file0 filename
      name_dplen flen i vpath s = Ok (None, m') ->
    at_mtime_ptr m' = at_mtime_ptr (out s).
Proof.
  induction vpath as [|dir vpath IH]; intros i s m'; simpl.
  - unfold bind, assert. destruct (tgt_name s).
    + destruct (0 <? tgt_len s); [|discriminate].
      destruct is_target_path; [|discriminate].
      destruct (strcache_add_len _ _); discriminate.
    + intros [= <-]. reflexivity.
  - unfold bind.
    destruct (try_directory E is_target is_target_path path_index file0
                filename name_dplen flen i dir s) as [[found m|s']|] eqn:Hr;
      [discriminate| |discriminate].
    intros H. apply IH in H. rewrite H.
    eapply try_directory_continue_frame; eassumption.
Qed.

Lemma selective_vpath_search_frame (E : env) (path : vpath)
  (file0 : cstring) (mtime_ptr path_index : bool) (m m' : mem) :
  selective_vpath_search E path file0 mtime_ptr path_index m = Ok (None, m') ->
  at_mtime_ptr m' = at_mtime_ptr m.
Proof.
  unfold selective_vpath_search. intros H.
  apply scan_directories_frame in H. exact H.
Qed.

Lemma first_run_frame (E : env) (file0 : cstring) (ptr : pointers)
  (chain : list vpath) :
  forall (m : mem) (chain' : list vpath) (m' : mem),
    first_run E file0 ptr chain m = Ok (None, chain', m') ->
    at_mtime_ptr m' = at_mtime_ptr m.
Proof.
  induction chain as [|v next IH]; intros m chain' m'; simpl.
  - intros [= _ <-]. reflexivity.
  - unfold bind.
    destruct (vpath_match E v file0) as [matched|]; [|discriminate].
    destruct matched.
    + destruct (selective_vpath_search E (set_target_goal v 0) file0
                  (mtime_ptr ptr) (path_index ptr) m)
        as [[[found|] m1]|] eqn:Hs; [discriminate| |discriminate].
      apply selective_vpath_search_frame in Hs.
      destruct (first_run E file0 ptr next _)
        as [[[r next'] m2]|] eqn:Hn; [|discriminate].
      intros [= -> _ <-]. apply IH in Hn. rewrite Hn, <- Hs.
      destruct (vpath_index ptr); reflexivity.
    + destruct (first_run E file0 ptr next _)
        as [[[r next'] m2]|] eqn:Hn; [|discriminate].
      intros [= -> _ <-]. apply IH in Hn. rewrite Hn.
      destruct (vpath_index ptr); reflexivity.
Qed.

Lemma second_run_frame (E : env) (file0 : cstring) (ptr : pointers)
  (chain : list vpath) :
  forall (m m' : mem),
    second_run E file0 ptr chain m = Ok (None, m') ->
    at_mtime_ptr m' = at_mtime_ptr m.
Proof.
  induction chain as [|v next IH]; intros m m'; simpl.
  - intros [= <-]. reflexivity.
  - unfold bind.
    destruct (if negb (target_goal v =? 0)%Z
              then vpath_match E v file0 else Ok false)
      as [matched|]; [|discriminate].
    destruct matched.
    + destruct (selective_vpath_search E v file0
                  (mtime_ptr ptr) (path_index ptr) m)
        as [[[found|] m1]|] eqn:Hs; [discriminate| |discriminate].
      apply selective_vpath_search_frame in Hs.
      intros Hn. apply IH in Hn. rewrite Hn, <- Hs.
      destruct (vpath_index ptr); reflexivity.
    + intros Hn. apply IH in Hn. rewrite Hn.
      destruct (vpath_index ptr); reflexivity.
Qed.

Lemma entry_stores_frame (ptr : pointers) (m : mem) :
  at_mtime_ptr (entry_stores ptr m) = at_mtime_ptr m.
Proof.
  unfold entry_stores.
  destruct (target_path ptr), (vpath_index ptr); reflexivity.
Qed.

(** C10. Frame condition on failure: a call of [vpath_search] that returns
    "not found" has stored nothing through [mtime_ptr]; the list of the
    values stored there is the one the call found. *)
Theorem vpath_search_not_found_frame (E : env) (file0 : cstring)
  (ptr : pointers) (g g' : globals) (m m' : mem) :
  vpath_search E file0 ptr g m = Ok (None, g', m') ->
  at_mtime_ptr m' = at_mtime_ptr m.
Proof.
  unfold vpath_search, bind.
  set (m0 := if target_path ptr then store_target_path m 0 else m).
  assert (H0 : at_mtime_ptr m0 = at_mtime_ptr m)
    by (unfold m0; destruct (target_path ptr); reflexivity).
  destruct (if vpath_index ptr
            then match assert (path_index ptr) with
                 | Ok _ => Ok (store_path_index (store_vpath_index m0 0) 0)
                 | Fault f => Fault f
                 end
            else Ok m0) as [m1|] eqn:H1; [|discriminate].
  assert (Hm1 : at_mtime_ptr m1 = at_mtime_ptr m).
  { rewrite <- H0. destruct (vpath_index ptr).
    - destruct (assert (path_index ptr)); [|discriminate H1].
      injection H1 as <-. reflexivity.
    - injection H1 as <-. reflexivity. }
  clear H1.
  destruct (nothing_to_do E file0 g) as [stop|]; [|discriminate].
  destruct stop.
  { intros [= _ <-]. exact Hm1. }
  destruct (first_run E file0 ptr (vpaths g) m1)
    as [[[r chain] m2]|] eqn:Hf; [|discriminate].
  destruct r as [found|]; [discriminate|].
  apply first_run_frame in Hf. simpl.
  destruct (second_run E file0 ptr chain _)
    as [[r m3]|] eqn:Hs; [|discriminate].
  destruct r as [found|]; [discriminate|].
  apply second_run_frame in Hs.
  assert (Hm3 : at_mtime_ptr m3 = at_mtime_ptr m).
  { rewrite Hs, <- Hm1, <- Hf. destruct (vpath_index ptr); reflexivity. }
  destruct (general_vpath g) as [general|].
  - destruct (selective_vpath_search E general file0 _ _ _)
      as [[[found|] m4]|] eqn:Hg; [discriminate| |discriminate].
    apply selective_vpath_search_frame in Hg.
    intros [= _ <-]. rewrite Hg, <- Hm3.
    destruct (vpath_index ptr); reflexivity.
  - intros [= _ <-]. rewrite <- Hm3.
    destruct (vpath_index ptr); reflexivity.
Qed.

(** The search of foo.c, which no list finds: the value 42 stored earlier
    through [mtime_ptr] is still the last one. *)
Lemma vpath_search_not_found_frame_witness :
  vpath_search bare (cs "foo.c") all_pointers three_lists used_mem
  = Ok (None, three_lists,
        {| at_mtime_ptr := [42%Z]; at_target_path := 0;
           at_vpath_index := 0; at_path_index := 0 |})
  /\ at_mtime_ptr
       {| at_mtime_ptr := [42%Z]; at_target_path := 0;
          at_vpath_index := 0; at_path_index := 0 |}
     = at_mtime_ptr used_mem.
Proof.
  split.
  - vm_compute. reflexivity.
  - apply (vpath_search_not_found_frame bare (cs "foo.c") all_pointers
             three_lists three_lists used_mem).
    vm_compute. reflexivity.
Defined.

(** ** The order of the search (C1) *)

(** What a round decides does not depend on the result pointers. *)
Lemma mentioned_control (E : env) (is_target : bool) (f : file) (s : scan) :
  fst (fst (mentioned E is_target f (control s)))
  = fst (fst (mentioned E is_target f s)).
Proof.
  unfold mentioned. simpl.
  destruct (negb is_target || filedef.is_target f); simpl; [|reflexivity].
  destruct (mtime_live s && _); reflexivity.
Qed.

Lemma try_directory_control (E : env) (is_target is_target_path : bool)
  (path_index : bool) (file0 filename : cstring) (name_dplen flen : nat)
  (i : nat) (dir : cstring) (s : scan) :
  round_control
    (try_directory E is_target is_target_path path_index file0 filename
       name_dplen flen i dir s)
  = round_control
      (try_directory E is_target is_target_path false file0 filename
         name_dplen flen i dir (control s)).
Proof.
  unfold try_directory, bind. simpl.
  destruct (build_name E (name s) dir file0 filename name_dplen flen)
    as [[nm p]|]; [|reflexivity].
  destruct (cstr nm) as [candidate|]; [|reflexivity].
  assert (Hstage :
    fst (fst (match lookup_file E candidate with
              | Some f => mentioned E is_target f (control s)
              | None => (exists_ s, false, empty_mem)
              end))
    = fst (fst (match lookup_file E candidate with
                | Some f => mentioned E is_target f s
                | None => (exists_ s, mtime_live s, out s)
                end))).
  { destruct (lookup_file E candidate); [apply mentioned_control|reflexivity]. }
  destruct (match lookup_file E candidate with
            | Some f => mentioned E is_target f (control s)
            | None => (exists_ s, false, empty_mem)
            end) as [[ex0 live0] m0].
  destruct (match lookup_file E candidate with
            | Some f => mentioned E is_target f s
            | None => (exists_ s, mtime_live s, out s)
            end) as [[ex live] m].
  simpl in Hstage. subst ex0. unfold assert.
  repeat match goal with
         | |- context [match ?x with _ => _ end] => destruct x; simpl
         end; reflexivity.
Qed.

Lemma try_directory_same_control (E : env) (is_target is_target_path : bool)
  (pi1 pi2 : bool) (file0 filename : cstring) (name_dplen flen : nat)
  (i : nat) (dir : cstring) (s1 s2 : scan) :
  control s1 = control s2 ->
  round_control
    (try_directory E is_target is_target_path pi1 file0 filename
       name_dplen flen i dir s1)
  = round_control
      (try_directory E is_target is_target_path pi2 file0 filename
         name_dplen flen i dir s2).
Proof.
  intros H.
  rewrite (try_directory_control E is_target is_target_path pi1).
  rewrite (try_directory_control E is_target is_target_path pi2).
  rewrite H. reflexivity.
Qed.

Lemma scan_directories_control (E : env) (is_target is_target_path : bool)
  (pi1 pi2 : bool) (file0 filename : cstring) (name_dplen flen : nat)
  (vpath : list cstring) :
  forall (i : nat) (s1 s2 : scan),
    control s1 = control s2 ->
    returned (scan_directories E is_target is_target_path pi1
                file0 filename name_dplen flen i vpath s1)
    = returned (scan_directories E is_target is_target_path pi2
                  file0 filename name_dplen flen i vpath s2).
Proof.
  induction vpath as [|dir vpath IH]; intros i s1 s2 Hc; simpl.
  - assert (Ht : tgt_name s1 = tgt_name s2 /\ tgt_len s1 = tgt_len s2).
    { unfold control in Hc. injection Hc as _ _ Ht Hl. auto. }
    destruct Ht as [-> ->].
    unfold returned, bind, assert.
    destruct (tgt_name s2); [|reflexivity].
    destruct (0 <? tgt_len s2); [|reflexivity].
    destruct is_target_path; [|reflexivity].
    destruct (strcache_add_len _ _); reflexivity.
  - pose proof (try_directory_same_control E is_target is_target_path
                  pi1 pi2 file0 filename name_dplen flen i dir s1 s2 Hc)
      as H.
    unfold bind.
    destruct (try_directory E is_target is_target_path pi1 file0
                filename name_dplen flen i dir s1) as [[found m|s1']|];
      destruct (try_directory E is_target is_target_path pi2 file0
                  filename name_dplen flen i dir s2)
        as [[found' m'|s2']|];
      simpl in H; try discriminate H.
    + injection H as ->. reflexivity.
    + apply IH. congruence.
    + injection H as ->. reflexivity.
Qed.

(** The string a per-list search returns is the one it returns with null
    result pointers. *)
Lemma selective_vpath_search_returned (E : env) (path : vpath)
  (file0 : cstring) (mtime_ptr path_index : bool) (m : mem) :
  returned (selective_vpath_search E path file0 mtime_ptr path_index m)
  = returned (selective_vpath_search E path file0 false false empty_mem).
Proof.
  unfold selective_vpath_search.
  apply scan_directories_control. reflexivity.
Qed.

Lemma set_target_goal_restore (v : vpath) :
  set_target_goal (set_target_goal v 0) (target_goal v) = v.
Proof. destruct v; reflexivity. Qed.

Lemma first_success_app (E : env) (file0 : cstring) (l1 l2 : list attempt) :
  first_success E file0 (l1 ++ l2)
  = do r <- first_success E file0 l1;
    match r with
    | Some found => Ok (Some found)
    | None => first_success E file0 l2
    end.
Proof.
  induction l1 as [|a l1 IH]; simpl.
  - reflexivity.
  - unfold bind in *. destruct (attempt_result E file0 a) as [[found|]|];
      [reflexivity | exact IH | reflexivity].
Qed.

(** The first loop tries the listings in chain order, each with its flag
    cleared, and leaves the chain as it was. *)
Lemma first_run_order (E : env) (file0 : cstring) (ptr : pointers)
  (chain : list vpath) :
  forall m : mem,
    returned_path (first_run E file0 ptr chain m)
    = first_success E file0
        (map (fun v => Selective (set_target_goal v 0)) chain)
    /\ (forall r chain' m',
          first_run E file0 ptr chain m = Ok (r, chain', m') ->
          chain' = chain).
Proof.
  induction chain as [|v next IH]; intros m; simpl.
  - split; [reflexivity | intros r chain' m' [= _ <- _]; reflexivity].
  - change (vpath_match E (set_target_goal v 0) file0)
      with (vpath_match E v file0).
    unfold returned_path, bind in *.
    destruct (vpath_match E v file0) as [[|]|].
    + pose proof (selective_vpath_search_returned E (set_target_goal v 0)
                    file0 (mtime_ptr ptr) (path_index ptr) m) as Hs.
      unfold returned, bind in Hs.
      destruct (selective_vpath_search E (set_target_goal v 0) file0
                  (mtime_ptr ptr) (path_index ptr) m) as [[p m1]|];
        destruct (selective_vpath_search E (set_target_goal v 0) file0
                    false false empty_mem) as [[p' m1']|];
        simpl in Hs; try discriminate Hs.
      * injection Hs as <-. rewrite set_target_goal_restore.
        destruct p as [found|]; simpl.
        { split; [reflexivity|]. intros r chain' m' [= _ <- _]. reflexivity. }
        destruct (IH (if vpath_index ptr then increment_vpath_index m1
                      else m1)) as [IH1 IH2].
        destruct (first_run E file0 ptr next _) as [[[r next'] m2]|].
        { split; [exact IH1|]. intros r0 chain' m' [= _ <- _].
          f_equal. eapply IH2. reflexivity. }
        split; [exact IH1 | discriminate].
      * injection Hs as ->. split; [reflexivity | discriminate].
    + destruct (IH (if vpath_index ptr then increment_vpath_index m
                    else m)) as [IH1 IH2].
      destruct (first_run E file0 ptr next _) as [[[r next'] m2]|].
      { split; [exact IH1|]. intros r0 chain' m' [= _ <- _].
        f_equal. eapply IH2. reflexivity. }
      split; [exact IH1 | discriminate].
    + split; [reflexivity | discriminate].
Qed.

(** The second loop tries, in chain order, the listings whose flag is
    set. *)
Lemma second_run_order (E : env) (file0 : cstring) (ptr : pointers)
  (chain : list vpath) :
  forall m : mem,
    returned (second_run E file0 ptr chain m)
    = first_success E file0
        (map Selective
           (filter (fun v => negb (target_goal v =? 0)%Z) chain)).
Proof.
  induction chain as [|v next IH]; intros m; simpl.
  - reflexivity.
  - destruct (negb (target_goal v =? 0)%Z); simpl.
    + unfold returned, bind in *.
      destruct (vpath_match E v file0) as [[|]|].
      * pose proof (selective_vpath_search_returned E v file0
                      (mtime_ptr ptr) (path_index ptr) m) as Hs.
        unfold returned, bind in Hs.
        destruct (selective_vpath_search E v file0
                    (mtime_ptr ptr) (path_index ptr) m) as [[p m1]|];
          destruct (selective_vpath_search E v file0
                      false false empty_mem) as [[p' m1']|];
          simpl in Hs; try discriminate Hs.
        -- injection Hs as <-. destruct p as [found|]; simpl;
             [reflexivity | apply IH].
        -- injection Hs as ->. reflexivity.
      * apply IH.
      * reflexivity.
    + unfold returned, bind in *. apply IH.
Qed.

(** C1. Three-phase search order: when the guard lets the search start,
    [vpath_search] returns the first success among, in this order, every
    selective list of the chain searched with its target-goal flag taken as
    false (the listing with 0 for its flag, whatever the flag is), then the
    selective lists whose flag is set searched with their flag, then the
    general list; within a phase the lists are tried in chain order, a list
    only when its pattern matches the file name; and the chain, flags
    included, is after the call what it was before. *)
Theorem vpath_search_order (E : env) (file0 : cstring) (ptr : pointers)
  (g : globals) (m : mem) :
  pointers_ok ptr ->
  nothing_to_do E file0 g = Ok false ->
  returned_path (vpath_search E file0 ptr g m)
  = first_success E file0 (search_order g)
  /\ (forall r g' m',
        vpath_search E file0 ptr g m = Ok (r, g', m') -> g' = g)
  /\ search_order g
     = map (fun v => Selective (flag_false v)) (vpaths g)
       ++ map Selective
            (filter (fun v => negb (target_goal v =? 0)%Z) (vpaths g))
       ++ match general_vpath g with
          | Some v => [General v]
          | None => []
          end
  /\ (forall v, target_goal (flag_false v) = 0%Z
                /\ pattern (flag_false v) = pattern v
                /\ percent (flag_false v) = percent v
                /\ searchpath (flag_false v) = searchpath v).
Proof.
  intros Hptr Hgo.
  cut (returned_path (vpath_search E file0 ptr g m)
       = first_success E file0 (search_order g)
       /\ (forall r g' m',
             vpath_search E file0 ptr g m = Ok (r, g', m') -> g' = g)).
  { intros [H1 H2]. split; [exact H1|]. split; [exact H2|].
    split; [reflexivity|]. intros v. repeat split. }
  unfold vpath_search.
  rewrite (entry_stores_run ptr m Hptr). simpl. rewrite Hgo. simpl.
  unfold search_order, non_target_phase, target_phase, general_phase.
  change (map (fun v => Selective (flag_false v)) (vpaths g))
    with (map (fun v => Selective (set_target_goal v 0)) (vpaths g)).
  rewrite first_success_app.
  destruct (first_run_order E file0 ptr (vpaths g) (entry_stores ptr m))
    as [H1 Hchain].
  rewrite <- H1. clear H1.
  unfold returned_path, bind in *.
  destruct (first_run E file0 ptr (vpaths g) (entry_stores ptr m))
    as [[[r chain] m1]|]; [|split; [reflexivity | discriminate]].
  rewrite (Hchain r chain m1 eq_refl). clear Hchain.
  assert (Hg : set_vpaths g (vpaths g) = g) by (destruct g; reflexivity).
  rewrite Hg. simpl.
  destruct r as [found|].
  { split; [reflexivity | intros r g' m' [= _ <- _]; reflexivity]. }
  rewrite first_success_app.
  pose proof (second_run_order E file0 ptr (vpaths g)
                (if vpath_index ptr then reset_indices m1 else m1)) as H2.
  rewrite <- H2. clear H2. unfold returned, bind.
  destruct (second_run E file0 ptr (vpaths g) _) as [[r m2]|];
    [|split; [reflexivity | discriminate]].
  simpl. destruct r as [found|].
  { split; [reflexivity | intros r g' m' [= _ <- _]; reflexivity]. }
  destruct (general_vpath g) as [general|]; simpl.
  - pose proof (selective_vpath_search_returned E general file0
                  (mtime_ptr ptr) (path_index ptr)
                  (if vpath_index ptr then reset_indices m2 else m2)) as Hs.
    unfold returned, bind in Hs.
    destruct (selective_vpath_search E general file0
                (mtime_ptr ptr) (path_index ptr) _) as [[p m3]|];
      destruct (selective_vpath_search E general file0
                  false false empty_mem) as [[p' m3']|];
      simpl in Hs; try discriminate Hs.
    + injection Hs as <-. destruct p as [found|]; simpl;
        (split; [reflexivity | intros r g' m' [= _ <- _]; reflexivity]).
    + injection Hs as ->. split; [reflexivity | discriminate].
  - split; [reflexivity | intros r g' m' [= _ <- _]; reflexivity].
Qed.

(** The search of foo.o in two selective listings and a general one, with
    lib/foo.o mentioned in the makefile. The first listing, of obj and src,
    is a target-goal listing: taken with its flag it would give obj/foo.o;
    in the first phase its flag is false, it gives nothing, and the second
    listing gives lib/foo.o. *)
Lemma vpath_search_order_witness :
  (returned_path
     (vpath_search lib_foo_mentioned (cs "foo.o") all_pointers three_lists
        empty_mem)
   = first_success lib_foo_mentioned (cs "foo.o") (search_order three_lists)
   /\ (forall r g' m',
         vpath_search lib_foo_mentioned (cs "foo.o") all_pointers three_lists
           empty_mem = Ok (r, g', m') ->
         g' = three_lists)
   /\ search_order three_lists
      = map (fun v => Selective (flag_false v)) (vpaths three_lists)
        ++ map Selective
             (filter (fun v => negb (target_goal v =? 0)%Z)
                (vpaths three_lists))
        ++ match general_vpath three_lists with
           | Some v => [General v]
           | None => []
           end
   /\ (forall v, target_goal (flag_false v) = 0%Z
                 /\ pattern (flag_false v) = pattern v
                 /\ percent (flag_false v) = percent v
                 /\ searchpath (flag_false v) = searchpath v))
  /\ returned_path
       (vpath_search lib_foo_mentioned (cs "foo.o") all_pointers three_lists
          empty_mem)
     = Ok (Some (cs "lib/foo.o"))
  /\ attempt_result lib_foo_mentioned (cs "foo.o")
       (Selective (flag_false (listing (cs "%.o") [cs "obj"; cs "src"] 1)))
     = Ok None
  /\ attempt_result lib_foo_mentioned (cs "foo.o")
       (Selective (listing (cs "%.o") [cs "obj"; cs "src"] 1))
     = Ok (Some (cs "obj/foo.o")).
Proof.
  split.
  - apply (vpath_search_order lib_foo_mentioned (cs "foo.o") all_pointers
             three_lists empty_mem).
    + intros _. reflexivity.
    + reflexivity.
  - split; [vm_compute; reflexivity|].
    split; vm_compute; reflexivity.
Defined.

(** ** The entries of [construct_vpath_list] (C7) *)

Lemma skip_separators_at_entry (E : env) (p : cstring) :
  at_entry E (skip_separators E p).
Proof.
  induction p as [|c p IH]; simpl; [exact I|].
  destruct (STOP_SET_BLANK_PATHSEP E c) eqn:Hc; [exact IH|].
  simpl. exact Hc.
Qed.

Lemma skip_separators_length (E : env) (p : cstring) :
  strlen (skip_separators E p) <= strlen p.
Proof.
  unfold strlen. induction p as [|c p IH]; simpl; [lia|].
  destruct (STOP_SET_BLANK_PATHSEP E c); simpl; lia.
Qed.

Lemma entry_end_bounds (E : env) (p : cstring) :
  forall (k : nat) (isescaped : bool),
    k <= entry_end E k isescaped p <= k + strlen p.
Proof.
  unfold strlen. induction p as [|c p IH]; intros k isescaped; simpl.
  - lia.
  - destruct (_ && _); [|lia].
    specialize (IH (S k) (if Ascii.eqb c BACKSLASH then negb isescaped
                          else false)). lia.
Qed.

(** At the start of an entry the entry loop passes at least one byte. *)
Lemma entry_end_at_entry (E : env) (p : cstring) :
  at_entry E p -> p <> [] -> 1 <= entry_end E 0 false p <= strlen p.
Proof.
  destruct p as [|c p]; [congruence|]. intros Hc _.
  pose proof (entry_end_bounds E (c :: p) 0 false) as Hb.
  split; [|lia]. simpl in *.
  unfold STOP_SET_BLANK_PATHSEP in Hc. apply orb_false_iff in Hc.
  destruct Hc as [Hblank Hsep]. rewrite Hblank, Hsep. simpl.
  pose proof (entry_end_bounds E p 1
                (if Ascii.eqb c BACKSLASH then true else false)). lia.
Qed.

Lemma strip_trailing_slash_bounds (E : env) (v : cstring) (len : nat) :
  len - 1 <= strip_trailing_slash E v len <= len
  /\ (1 <= len -> 1 <= strip_trailing_slash E v len).
Proof.
  unfold strip_trailing_slash.
  destruct (HAVE_DOS_PATHS E).
  - destruct (Nat.ltb_spec 3 len), (Nat.ltb_spec 1 len); simpl;
      repeat match goal with
             | |- context [if ?b then _ else _] => destruct b
             end; lia.
  - destruct (Nat.ltb_spec 1 len); simpl;
      [destruct (is_char _ _)|]; lia.
Qed.

(** The test reads the entry only: it gives the same on the string that
    starts at [v] and on the [len] bytes of the entry. *)
Lemma strip_trailing_slash_firstn (E : env) (v : cstring) (len : nat) :
  strip_trailing_slash E (firstn len v) len = strip_trailing_slash E v len.
Proof.
  unfold strip_trailing_slash. rewrite !nth_error_firstn.
  destruct len as [|[|len]].
  - destruct (HAVE_DOS_PATHS E); reflexivity.
  - destruct (HAVE_DOS_PATHS E); reflexivity.
  - assert (H1 : (1 <? S (S len)) = true) by (apply Nat.ltb_lt; lia).
    assert (H2 : (S (S len) - 1 <? S (S len)) = true)
      by (apply Nat.ltb_lt; lia).
    rewrite H1, H2. reflexivity.
Qed.

Lemma canonical_entry_of_round (E : env) (v : cstring) (len : nat) :
  len <= strlen v ->
  firstn (strip_trailing_slash E v len) v
  = canonical_entry E (firstn len v).
Proof.
  intros Hlen. unfold canonical_entry, strlen in *.
  rewrite firstn_length_le by exact Hlen.
  rewrite strip_trailing_slash_firstn, firstn_firstn.
  f_equal. pose proof (strip_trailing_slash_bounds E v len). lia.
Qed.

(** The entry is dropped exactly when what is left of it is ".". *)
Lemma dropped_is_dot (v : cstring) (len : nat) :
  1 <= len <= strlen v ->
  (1 <? len) || negb (is_char (nth_error v 0) DOT)
  = negb (streq (firstn len v) [DOT]).
Proof.
  unfold strlen. intros [H1 H2].
  destruct v as [|c v]; [simpl in H2; lia|].
  destruct len as [|[|len]]; [lia| |].
  - simpl. destruct (Ascii.eqb c DOT); reflexivity.
  - simpl in H2. destruct v as [|d v]; [simpl in H2; lia|].
    simpl. destruct (Ascii.eqb c DOT); reflexivity.
Qed.

(** One round of the entry loop, for a string that is not empty. *)
Lemma parse_entries_round (E : env) (fuel : nat) (v : cstring)
  (vpath : list cstring) (maxvpath : nat) :
  v <> [] ->
  parse_entries (S fuel) E v vpath maxvpath
  = let len := entry_end E 0 false v in
    let len' := strip_trailing_slash E v len in
    let '(vpath', maxvpath') :=
      if (1 <? len') || negb (is_char (nth_error v 0) DOT)
      then (vpath ++ [dir_name (firstn len' v)],
            if maxvpath <? len' then len' else maxvpath)
      else (vpath, maxvpath) in
    parse_entries fuel E (skip_separators E (skipn len v)) vpath' maxvpath'.
Proof. destruct v; [congruence | reflexivity]. Qed.

Lemma raw_entries_round (E : env) (fuel : nat) (v : cstring) :
  v <> [] ->
  raw_entries (S fuel) E v
  = firstn (entry_end E 0 false v) v
    :: raw_entries fuel E
         (skip_separators E (skipn (entry_end E 0 false v) v)).
Proof. destruct v; [congruence | reflexivity]. Qed.

(** The entry loop builds the surviving entries of what it reads, after
    those it was given, and the greatest of their lengths. *)
Lemma parse_entries_surviving (E : env) (fuel : nat) :
  forall (p : cstring) (vpath : list cstring) (maxvpath : nat),
    at_entry E p ->
    parse_entries fuel E p vpath maxvpath
    = (vpath ++ filter (fun e => negb (streq e [DOT]))
                  (map (canonical_entry E) (raw_entries fuel E p)),
       Nat.max maxvpath
         (list_max
            (map strlen
               (filter (fun e => negb (streq e [DOT]))
                  (map (canonical_entry E) (raw_entries fuel E p)))))).
Proof.
  induction fuel as [|fuel IH]; intros p vpath maxvpath Hp.
  - simpl. rewrite app_nil_r, Nat.max_0_r. reflexivity.
  - destruct (list_eq_dec Ascii.ascii_dec p []) as [->|Hv].
    { simpl. rewrite app_nil_r, Nat.max_0_r. reflexivity. }
    rewrite parse_entries_round, raw_entries_round by exact Hv.
    pose proof (entry_end_at_entry E p Hp Hv) as Hlen.
    set (len := entry_end E 0 false p) in *.
    pose proof (strip_trailing_slash_bounds E p len) as [Hs1 Hs2].
    cbv zeta.
    rewrite (dropped_is_dot p (strip_trailing_slash E p len))
      by (unfold strlen in *; lia).
    rewrite (canonical_entry_of_round E p len) by lia.
    unfold dir_name. simpl map. simpl filter.
    assert (Hl : strlen (canonical_entry E (firstn len p))
                 = strip_trailing_slash E p len).
    { rewrite <- canonical_entry_of_round by lia.
      unfold strlen in *. apply firstn_length_le. lia. }
    destruct (negb (streq (canonical_entry E (firstn len p)) [DOT])).
    + rewrite IH by apply skip_separators_at_entry.
      f_equal.
      * rewrite <- app_assoc. reflexivity.
      * simpl map. simpl list_max. rewrite Hl.
        destruct (Nat.ltb_spec maxvpath
                    (strip_trailing_slash E p len)); lia.
    + rewrite IH by apply skip_separators_at_entry. reflexivity.
Qed.

(** With fuel for every byte the entry loop reaches the end of the string:
    more fuel changes nothing. *)
Lemma raw_entries_fuel (E : env) :
  forall (fuel1 fuel2 : nat) (p : cstring),
    at_entry E p -> strlen p <= fuel1 -> strlen p <= fuel2 ->
    raw_entries fuel1 E p = raw_entries fuel2 E p.
Proof.
  induction fuel1 as [|fuel1 IH]; intros fuel2 p Hp H1 H2.
  - destruct p; [|simpl in H1; lia]. destruct fuel2; reflexivity.
  - destruct (list_eq_dec Ascii.ascii_dec p []) as [->|Hv].
    { destruct fuel2; reflexivity. }
    destruct fuel2 as [|fuel2].
    { destruct p; [congruence | simpl in H2; lia]. }
    rewrite !raw_entries_round by exact Hv. f_equal.
    pose proof (entry_end_at_entry E p Hp Hv) as Hlen.
    pose proof (skip_separators_length E
                  (skipn (entry_end E 0 false p) p)) as Hs.
    unfold strlen in *. rewrite length_skipn in Hs.
    apply IH; [apply skip_separators_at_entry | unfold strlen; lia
              | unfold strlen; lia].
Qed.

(** What [construct_vpath_list] does with a directory string. *)
Lemma construct_vpath_list_adds (E : env) (pat dirpath : cstring) (goal : Z)
  (g : globals) :
  construct_vpath_list E (Some pat) (Some dirpath) goal g
  = do d <- canonical_dirpath E dirpath;
    match d with
    | None => Ok g
    | Some d =>
        match surviving_entries E d with
        | [] => Ok g
        | es => Ok (set_vpaths g (new_listing E pat es goal :: vpaths g))
        end
    end.
Proof.
  unfold construct_vpath_list, canonical_dirpath, new_listing.
  destruct (find_percent E pat) as [pat' pc]. simpl fst. simpl snd.
  unfold bind.
  destruct (if WINDOWS32 E
            then convert_vpath_from_windows32 dirpath ";"%char
            else Ok (Some dirpath)) as [[d|]|]; try reflexivity.
  rewrite parse_entries_surviving by apply skip_separators_at_entry.
  simpl app. fold (surviving_entries E d).
  destruct (surviving_entries E d) as [|e es]; reflexivity.
Qed.

(** The stripped entry is the entry, or the entry without its last byte. *)
Lemma canonical_entry_cases (E : env) (raw : cstring) :
  canonical_entry E raw
  = if strip_trailing_slash E raw (strlen raw) <? strlen raw
    then removelast raw else raw.
Proof.
  unfold canonical_entry.
  pose proof (strip_trailing_slash_bounds E raw (strlen raw)) as [Hb _].
  destruct (Nat.ltb_spec (strip_trailing_slash E raw (strlen raw))
              (strlen raw)) as [Hlt|Hge].
  - rewrite removelast_firstn_len. f_equal. unfold strlen in *. lia.
  - apply firstn_all2. unfold strlen in *. lia.
Qed.

Lemma canonical_entry_not_empty (E : env) (raw : cstring) :
  raw <> [] -> canonical_entry E raw <> [].
Proof.
  intros Hraw Hnil. apply (f_equal strlen) in Hnil.
  unfold canonical_entry, strlen in Hnil. rewrite length_firstn in Hnil.
  pose proof (strip_trailing_slash_bounds E raw (List.length raw))
    as [_ Hb].
  destruct raw; [congruence|]. simpl in *. lia.
Qed.

(** C7. Directory-entry canonicalization. The builder stores, for the
    directory string it parses, the entries of the string each with one
    trailing slash stripped, less the entries equal to "."; a trailing slash
    is stripped from an entry of more than one byte (with DOS paths: of more
    than three bytes, or of more than one whose second byte is not a colon,
    a backslash counting as a slash), so "/" and "C:/" stay whole and no
    entry becomes empty; and when no entry survives, the lists are left as
    they were and the call ends normally. The entry loop reads the whole
    string. *)
Theorem directory_entries_canonical :
  (forall (E : env) (pat dirpath : cstring) (goal : Z) (g : globals),
      construct_vpath_list E (Some pat) (Some dirpath) goal g
      = do d <- canonical_dirpath E dirpath;
        match d with
        | None => Ok g
        | Some d =>
            match surviving_entries E d with
            | [] => Ok g
            | es => Ok (set_vpaths g (new_listing E pat es goal :: vpaths g))
            end
        end)
  /\ (forall (E : env) (raw : cstring),
        HAVE_DOS_PATHS E = false ->
        canonical_entry E raw
        = if (1 <? strlen raw) && is_char (last_char raw) SLASH
          then removelast raw else raw)
  /\ (forall (E : env) (raw : cstring),
        HAVE_DOS_PATHS E = true ->
        canonical_entry E raw
        = if ((3 <? strlen raw)
              || ((1 <? strlen raw)
                  && negb (is_char (nth_error raw 1) COLON)))
             && (is_char (last_char raw) SLASH
                 || is_char (last_char raw) BACKSLASH)
          then removelast raw else raw)
  /\ (forall E : env, canonical_entry E [SLASH] = [SLASH])
  /\ (forall (E : env) (drive : ascii),
        HAVE_DOS_PATHS E = true ->
        canonical_entry E [drive; COLON; SLASH] = [drive; COLON; SLASH])
  /\ (forall (E : env) (raw : cstring),
        raw <> [] -> canonical_entry E raw <> [])
  /\ (forall (E : env) (dirpath : cstring),
        ~ In [DOT] (surviving_entries E dirpath))
  /\ (forall (E : env) (pat dirpath d : cstring) (goal : Z) (g : globals),
        canonical_dirpath E dirpath = Ok (Some d) ->
        surviving_entries E d = [] ->
        construct_vpath_list E (Some pat) (Some dirpath) goal g = Ok g)
  /\ (forall (E : env) (dirpath : cstring) (fuel : nat),
        strlen (skip_separators E dirpath) <= fuel ->
        raw_entries fuel E (skip_separators E dirpath)
        = raw_entries (strlen (skip_separators E dirpath)) E
            (skip_separators E dirpath)).
Proof.
  repeat apply conj.
  - exact construct_vpath_list_adds.
  - intros E raw Hdos. rewrite canonical_entry_cases.
    unfold strip_trailing_slash. rewrite Hdos, <- last_char_nth.
    destruct ((1 <? strlen raw) && is_char (last_char raw) SLASH) eqn:Hc.
    + apply andb_true_iff in Hc. destruct Hc as [Hc _].
      apply Nat.ltb_lt in Hc.
      destruct (Nat.ltb_spec (strlen raw - 1) (strlen raw));
        [reflexivity | lia].
    + rewrite Nat.ltb_irrefl. reflexivity.
  - intros E raw Hdos. rewrite canonical_entry_cases.
    unfold strip_trailing_slash. rewrite Hdos, <- last_char_nth.
    destruct (((3 <? strlen raw)
               || ((1 <? strlen raw)
                   && negb (is_char (nth_error raw 1) COLON)))
              && (is_char (last_char raw) SLASH
                  || is_char (last_char raw) BACKSLASH)) eqn:Hc.
    + assert (Hlen : 1 < strlen raw).
      { apply andb_true_iff in Hc. destruct Hc as [Hc _].
        apply orb_true_iff in Hc. destruct Hc as [Hc|Hc].
        - apply Nat.ltb_lt in Hc. lia.
        - apply andb_true_iff in Hc. destruct Hc as [Hc _].
          apply Nat.ltb_lt in Hc. lia. }
      destruct (Nat.ltb_spec (strlen raw - 1) (strlen raw));
        [reflexivity | lia].
    + rewrite Nat.ltb_irrefl. reflexivity.
  - intros E. unfold canonical_entry, strip_trailing_slash. simpl.
    destruct (HAVE_DOS_PATHS E); reflexivity.
  - intros E drive Hdos.
    unfold canonical_entry, strip_trailing_slash. rewrite Hdos. simpl.
    reflexivity.
  - exact canonical_entry_not_empty.
  - intros E dirpath Hin. unfold surviving_entries in Hin.
    apply filter_In in Hin. destruct Hin as [_ Hin].
    rewrite streq_refl in Hin. discriminate Hin.
  - intros E pat dirpath d goal g Hd Hnone.
    rewrite construct_vpath_list_adds, Hd. simpl. rewrite Hnone.
    reflexivity.
  - intros E dirpath fuel Hfuel.
    apply raw_entries_fuel;
      [apply skip_separators_at_entry | exact Hfuel | apply Nat.le_refl].
Qed.

(** ** Stacking and removal in [construct_vpath_list] (C6) *)

(** The removal loop keeps, in order, the listings that do not match. *)
Lemma remove_listings_filter (pat : option cstring) (pc : option nat)
  (goal : Z) (chain : list vpath) :
  remove_listings pat pc goal chain
  = filter (fun v => negb (listing_matches pat pc goal v)) chain.
Proof.
  induction chain as [|v chain IH]; simpl; [reflexivity|].
  destruct (listing_matches pat pc goal v); simpl; rewrite IH; reflexivity.
Qed.

(** What [construct_vpath_list] does without a directory string. *)
Lemma construct_vpath_list_removes (E : env) (pat : option cstring)
  (goal : Z) (g : globals) :
  construct_vpath_list E pat None goal g
  = Ok (set_vpaths g
          (filter (fun v => negb (same_key E pat goal v)) (vpaths g))).
Proof.
  unfold construct_vpath_list, same_key.
  destruct pat as [pat|]; simpl.
  - destruct (find_percent E pat) as [pat' pc]. simpl.
    rewrite remove_listings_filter. reflexivity.
  - rewrite remove_listings_filter. reflexivity.
Qed.

(** A listing has the key of the directive that made it. *)
Lemma new_listing_same_key (E : env) (pat : cstring) (es : list cstring)
  (goal : Z) :
  same_key E (Some pat) goal (new_listing E pat es goal) = true.
Proof.
  unfold same_key, listing_matches, new_listing. simpl.
  rewrite streq_refl, Z.eqb_refl.
  destruct (snd (find_percent E pat)); simpl;
    [rewrite Nat.eqb_refl|]; reflexivity.
Qed.

Lemma filter_unchanged {A : Type} (f : A -> bool) (l : list A) :
  (forall x, In x l -> f x = true) -> filter f l = l.
Proof.
  induction l as [|x l IH]; simpl; intros H; [reflexivity|].
  rewrite (H x) by auto. f_equal. apply IH. auto.
Qed.

Lemma set_vpaths_same (g : globals) : set_vpaths g (vpaths g) = g.
Proof. destruct g; reflexivity. Qed.



(** ** The makefile test of the per-list search (C3) *)

Lemma build_name_without_entry (E : env) (n : cstring) (nm : buffer)
  (dir file0 filename : cstring) (name_dplen flen : nat) :
  build_name (without_entry E n) nm dir file0 filename name_dplen flen
  = build_name E nm dir file0 filename name_dplen flen.
Proof. reflexivity. Qed.

(** C3. Asymmetric target rule. A candidate that the target database
    mentions counts as existing exactly when the file searched for is not a
    target or the mentioned entry is one. When it counts, the round of its
    directory does not go on to the next directory. When it does not count,
    the round runs as if the database had no entry for the candidate. So
    with foo.o a target and src/foo.o mentioned but not a target, the search
    of a plain list finds nothing and the search of a target-goal list
    returns its fallback obj/foo.o, not src/foo.o; with foo.o not a target
    both return src/foo.o. *)
Theorem asymmetric_target_rule :
  (forall (E : env) (is_target : bool) (f : file) (s : scan),
      fst (fst (mentioned E is_target f s)) = true
      <-> (is_target = false \/ filedef.is_target f = true))
  /\ (forall (E : env) (is_target is_target_path path_index : bool)
             (file0 filename : cstring) (name_dplen flen i : nat)
             (dir : cstring) (s : scan) (nm : buffer) (p : nat)
             (candidate : cstring) (f : file),
        build_name E (name s) dir file0 filename name_dplen flen
        = Ok (nm, p) ->
        cstr nm = Ok candidate ->
        lookup_file E candidate = Some f ->
        is_target = false \/ filedef.is_target f = true ->
        forall s',
          try_directory E is_target is_target_path path_index file0
            filename name_dplen flen i dir s <> Ok (Continue s'))
  /\ (forall (E : env) (is_target_path path_index : bool)
             (file0 filename : cstring) (name_dplen flen i : nat)
             (dir : cstring) (s : scan) (nm : buffer) (p : nat)
             (candidate : cstring) (f : file),
        build_name E (name s) dir file0 filename name_dplen flen
        = Ok (nm, p) ->
        cstr nm = Ok candidate ->
        lookup_file E candidate = Some f ->
        filedef.is_target f = false ->
        exists_ s = false ->
        try_directory E true is_target_path path_index file0
          filename name_dplen flen i dir s
        = try_directory (without_entry E candidate) true is_target_path
            path_index file0 filename name_dplen flen i dir s)
  /\ (returned_path
        (vpath_search (mentions true) (cs "foo.o") all_pointers
           (selective (listing (cs "%.o") [cs "src"] 0)) empty_mem)
      = Ok None
      /\ vpath_search (mentions true) (cs "foo.o") all_pointers
           (selective (listing (cs "%.o") [cs "obj"; cs "src"] 1)) empty_mem
         = Ok (Some (cs "obj/foo.o"),
               selective (listing (cs "%.o") [cs "obj"; cs "src"] 1),
               {| at_mtime_ptr := [0%Z]; at_target_path := 1;
                  at_vpath_index := 0; at_path_index := 0 |})
      /\ returned_path
           (vpath_search (mentions false) (cs "foo.o") all_pointers
              (selective (listing (cs "%.o") [cs "src"] 0)) empty_mem)
         = Ok (Some (cs "src/foo.o"))
      /\ vpath_search (mentions false) (cs "foo.o") all_pointers
           (selective (listing (cs "%.o") [cs "obj"; cs "src"] 1)) empty_mem
         = Ok (Some (cs "src/foo.o"),
               selective (listing (cs "%.o") [cs "obj"; cs "src"] 1),
               {| at_mtime_ptr := [0%Z]; at_target_path := 1;
                  at_vpath_index := 0; at_path_index := 1 |})).
Proof.
  repeat apply conj.
  - intros E is_target f s. unfold mentioned.
    destruct is_target, (filedef.is_target f); simpl;
      try (destruct (mtime_live s && _); simpl);
      split; auto; try discriminate; intros [H|H]; discriminate H.
  - intros E is_target is_target_path path_index file0 filename name_dplen
      flen i dir s nm p candidate f Hname Hcand Hdb Hcounts s'.
    unfold try_directory, bind. rewrite Hname, Hcand, Hdb.
    assert (Hex : fst (fst (mentioned E is_target f s)) = true).
    { unfold mentioned.
      assert (H : negb is_target || filedef.is_target f = true)
        by (destruct Hcounts as [-> | ->];
            [reflexivity | apply orb_true_r]).
      rewrite H. simpl. destruct (mtime_live s && _); reflexivity. }
    destruct (mentioned E is_target f s) as [[ex live] m].
    simpl in Hex. subst ex. simpl.
    destruct (store nm p SLASH) as [nm'|]; [|discriminate].
    cbv zeta.
    destruct (strcache_add_len nm' (p + 1 + flen)); discriminate.
  - intros E is_target_path path_index file0 filename name_dplen flen i
      dir s nm p candidate f Hname Hcand Hdb Hf Hex.
    unfold try_directory. rewrite build_name_without_entry.
    unfold bind. rewrite Hname, Hcand, Hdb.
    assert (Hnone : lookup_file (without_entry E candidate) candidate = None)
      by (simpl; rewrite streq_refl; reflexivity).
    rewrite Hnone. unfold mentioned. rewrite Hf, Hex. reflexivity.
  - vm_compute. reflexivity.
  - vm_compute. reflexivity.
  - vm_compute. reflexivity.
  - vm_compute. reflexivity.
Qed.

(** ** Buffers *)

Lemma store_app (l1 l2 : buffer) (y : option ascii) (c : ascii) :
  store (l1 ++ y :: l2) (List.length l1) c = Ok (l1 ++ Some c :: l2).
Proof.
  induction l1 as [|x l1 IH]; simpl; [reflexivity|].
  rewrite IH. reflexivity.
Qed.

Lemma memcpy_app (src : list ascii) :
  forall (l1 l2 : buffer),
    List.length src <= List.length l2 ->
    memcpy (l1 ++ l2) (List.length l1) src
    = Ok (l1 ++ map Some src ++ skipn (List.length src) l2).
Proof.
  induction src as [|c src IH]; intros l1 l2 Hlen; simpl.
  - reflexivity.
  - destruct l2 as [|y l2]; [simpl in Hlen; lia|].
    rewrite store_app. cbn [bind].
    replace (l1 ++ Some c :: l2) with ((l1 ++ [Some c]) ++ l2)
      by (rewrite <- app_assoc; reflexivity).
    replace (S (List.length l1)) with (List.length (l1 ++ [Some c]))
      by (rewrite length_app; simpl; lia).
    rewrite IH by (simpl in Hlen; lia).
    rewrite <- app_assoc. reflexivity.
Qed.

Lemma load_app (l1 l2 : buffer) (c : ascii) :
  load (l1 ++ Some c :: l2) (List.length l1) = Ok c.
Proof.
  unfold load. rewrite nth_error_app2 by lia.
  rewrite Nat.sub_diag. reflexivity.
Qed.

Lemma cstr_app (s : cstring) (t : buffer) :
  is_cstring s -> cstr (map Some s ++ Some NUL :: t) = Ok s.
Proof.
  induction s as [|c s IH]; intros Hs; simpl; [reflexivity|].
  assert (Hc : Ascii.eqb c NUL = false)
    by (apply ascii_eqb_false; intros ->; apply Hs; left; reflexivity).
  rewrite Hc, IH; [reflexivity|].
  intros H. apply Hs. right. exact H.
Qed.

Lemma bytes_app (s : list ascii) (t : buffer) :
  bytes (map Some s ++ t) (List.length s) = Ok s.
Proof.
  induction s as [|c s IH]; simpl; [reflexivity|].
  rewrite IH. reflexivity.
Qed.

Lemma until_nul_cstring (s : cstring) : is_cstring s -> until_nul s = s.
Proof.
  induction s as [|c s IH]; intros Hs; simpl; [reflexivity|].
  assert (Hc : Ascii.eqb c NUL = false)
    by (apply ascii_eqb_false; intros ->; apply Hs; left; reflexivity).
  rewrite Hc, IH; [reflexivity|].
  intros H. apply Hs. right. exact H.
Qed.

Lemma is_cstring_app (s t : cstring) :
  is_cstring s -> is_cstring t -> is_cstring (s ++ t).
Proof.
  unfold is_cstring. intros Hs Ht H. apply in_app_or in H. tauto.
Qed.

Lemma strrchr_Some (s : cstring) (c : ascii) :
  forall k, strrchr s c = Some k -> nth_error s k = Some c.
Proof.
  induction s as [|x s IH]; intros k; simpl; [discriminate|].
  destruct (strrchr s c) as [j|].
  - intros [= <-]. simpl. apply IH. reflexivity.
  - destruct (Ascii.eqb x c) eqn:Hx; [|discriminate].
    intros [= <-]. apply ascii_eqb_true in Hx. subst. reflexivity.
Qed.

(** Writing at the end of what was written so far: [w] are the bytes
    already stored at the head of the buffer [b]. *)
Lemma memcpy_written (w src : list ascii) (b : buffer) :
  List.length w + List.length src <= List.length b ->
  memcpy (map Some w ++ skipn (List.length w) b) (List.length w) src
  = Ok (map Some (w ++ src)
        ++ skipn (List.length w + List.length src) b).
Proof.
  intros Hlen.
  rewrite <- (length_map Some w) at 2.
  rewrite memcpy_app by (rewrite length_skipn; lia).
  rewrite skipn_skipn, map_app, <- app_assoc.
  rewrite (Nat.add_comm (List.length src)). reflexivity.
Qed.

Lemma store_written (w : list ascii) (c : ascii) (b : buffer) :
  List.length w < List.length b ->
  store (map Some w ++ skipn (List.length w) b) (List.length w) c
  = Ok (map Some (w ++ [c]) ++ skipn (List.length w + 1) b).
Proof.
  intros Hlen.
  destruct (skipn (List.length w) b) as [|y l2] eqn:Hs.
  - apply (f_equal (@List.length _)) in Hs.
    rewrite length_skipn in Hs. simpl in Hs. lia.
  - assert (Hl2 : l2 = skipn (List.length w + 1) b).
    { rewrite (Nat.add_comm (List.length w) 1), <- skipn_skipn, Hs.
      reflexivity. }
    pose proof (store_app (map Some w) l2 y c) as H.
    rewrite length_map in H. rewrite H, map_app, <- app_assoc, Hl2.
    reflexivity.
Qed.

Lemma load_written (w : list ascii) (c : ascii) (t : buffer) :
  load (map Some (w ++ [c]) ++ t) (List.length w) = Ok c.
Proof.
  rewrite map_app, <- app_assoc. simpl.
  pose proof (load_app (map Some w) t c) as H.
  rewrite length_map in H. exact H.
Qed.

(** Overwriting one of the bytes written so far. *)
Lemma store_inside (w1 w2 : list ascii) (x c : ascii) (t : buffer) :
  store (map Some (w1 ++ x :: w2) ++ t) (List.length w1) c
  = Ok (map Some (w1 ++ c :: w2) ++ t).
Proof.
  rewrite !map_app, <- !app_assoc. simpl.
  pose proof (store_app (map Some w1) (map Some w2 ++ t) (Some x) c) as H.
  rewrite length_map in H. exact H.
Qed.

(** [build_name] for a directory part after which a slash is stored: the
    buffer holds the directory part, a slash, the file name and the
    terminator, and [p] is at the slash. *)
Lemma build_name_regular (E : env) (b : buffer) (dir file0 filename : cstring)
  (name_dplen flen : nat) :
  HAVE_DOS_PATHS E = false ->
  flen = strlen filename ->
  name_dplen <= strlen file0 ->
  strlen (directory_part dir file0 name_dplen) + strlen filename + 2
  <= List.length b ->
  open_ended (directory_part dir file0 name_dplen) ->
  build_name E b dir file0 filename name_dplen flen
  = Ok (map Some (directory_part dir file0 name_dplen
                  ++ SLASH :: filename ++ [NUL])
        ++ skipn (strlen (directory_part dir file0 name_dplen)
                  + strlen filename + 2) b,
        strlen (directory_part dir file0 name_dplen)).
Proof.
  intros Hdos Hflen Hk Hfit [c [Hlast Hc]].
  set (pre := directory_part dir file0 name_dplen) in *.
  assert (Hpre : exists pre0, pre = pre0 ++ [c]).
  { destruct (list_eq_dec Ascii.ascii_dec pre []) as [Hnil|Hne].
    - rewrite Hnil in Hlast. discriminate Hlast.
    - destruct (last_char_split pre Hne) as [pre0 [c' [Heq Hc']]].
      exists pre0. rewrite Heq. congruence. }
  destruct Hpre as [pre0 Hpre0].
  (* the bytes before [p] *)
  assert (Hfirst :
    (do name <- memcpy b 0 dir;
     do ' (name, p) <- (if 0 <? name_dplen
                        then do name0 <- store name (0 + strlen dir) SLASH;
                             do name1 <- memcpy name0 (0 + strlen dir + 1)
                                           (firstn name_dplen file0);
                             Ok (name1, 0 + strlen dir + 1 + name_dplen)
                        else Ok (name, 0 + strlen dir));
     Ok (name, p))
    = Ok (map Some pre ++ skipn (strlen pre) b, strlen pre)).
  { unfold pre, directory_part, strlen in *.
    change b with (map Some [] ++ skipn (List.length (@nil ascii)) b) at 1.
    change 0 with (List.length (@nil ascii)) at 1.
    rewrite memcpy_written
      by (rewrite length_app in Hfit; simpl in *; lia).
    cbn [bind app List.length Nat.add].
    destruct (0 <? name_dplen) eqn:Hdp.
    - rewrite length_app in Hfit. simpl in Hfit.
      rewrite length_firstn in Hfit.
      rewrite store_written by lia. cbn [bind].
      replace (List.length dir + 1) with (List.length (dir ++ [SLASH]))
        by (rewrite length_app; reflexivity).
      rewrite memcpy_written
        by (rewrite length_app, length_firstn; simpl; lia).
      cbn [bind]. rewrite <- app_assoc. simpl app.
      rewrite !length_app. simpl List.length.
      rewrite length_firstn, Nat.min_l by exact Hk.
      replace (List.length dir + 1 + name_dplen)
        with (List.length dir + S name_dplen) by lia.
      reflexivity.
    - cbn [bind]. rewrite app_nil_r. reflexivity. }
  unfold build_name. unfold bind in *.
  destruct (memcpy b 0 dir) as [name1|]; [|discriminate Hfirst].
  destruct (if 0 <? name_dplen
            then match store name1 (0 + strlen dir) SLASH with
                 | Ok name0 =>
                     match memcpy name0 (0 + strlen dir + 1)
                             (firstn name_dplen file0) with
                     | Ok name2 => Ok (name2, 0 + strlen dir + 1 + name_dplen)
                     | Fault f => Fault f
                     end
                 | Fault f => Fault f
                 end
            else Ok (name1, 0 + strlen dir)) as [[name2 p]|];
    [|discriminate Hfirst].
  injection Hfirst as -> ->. rewrite Hdos. cbn [andb].
  assert (Hp : (strlen pre =? 0) = false).
  { apply Nat.eqb_neq. rewrite Hpre0. unfold strlen.
    rewrite length_app. simpl. lia. }
  rewrite Hp. cbn [negb].
  assert (Hload : load (map Some pre ++ skipn (strlen pre) b)
                    (strlen pre - 1) = Ok c).
  { rewrite Hpre0. unfold strlen. rewrite length_app. simpl.
    replace (List.length pre0 + 1 - 1) with (List.length pre0) by lia.
    apply load_written. }
  rewrite Hload. apply ascii_eqb_false in Hc. rewrite Hc. cbn [negb].
  unfold strlen in *.
  rewrite store_written by lia.
  replace (List.length pre + 1) with (List.length (pre ++ [SLASH]))
    by (rewrite length_app; reflexivity).
  rewrite Hflen.
  replace (firstn (List.length filename + 1) (filename ++ [NUL]))
    with (filename ++ [NUL])
    by (symmetry; apply firstn_all2; rewrite length_app; simpl; lia).
  rewrite memcpy_written
    by (rewrite !length_app; simpl; lia).
  rewrite <- app_assoc. simpl app.
  rewrite !length_app. simpl List.length.
  replace (List.length pre + 1 + (List.length filename + 1))
    with (List.length pre + List.length filename + 2) by lia.
  reflexivity.
Qed.

Lemma candidate_cstring (pre filename : cstring) :
  is_cstring pre -> is_cstring filename ->
  is_cstring (pre ++ SLASH :: filename).
Proof.
  intros Hp Hf. apply is_cstring_app; [exact Hp|].
  intros [H|H]; [discriminate H | exact (Hf H)].
Qed.

(** A round for a regular candidate that is neither mentioned in the
    makefile nor in the directory: the loop goes on, and a target-goal list
    records the candidate in its first round. *)
Lemma try_directory_nothing (E : env) (is_target is_target_path : bool)
  (path_index : bool) (file0 filename : cstring) (name_dplen flen : nat)
  (i : nat) (dir : cstring) (s : scan) :
  HAVE_DOS_PATHS E = false ->
  flen = strlen filename ->
  name_dplen <= strlen file0 ->
  strlen (directory_part dir file0 name_dplen) + strlen filename + 2
  <= List.length (name s) ->
  open_ended (directory_part dir file0 name_dplen) ->
  is_cstring (directory_part dir file0 name_dplen) ->
  is_cstring filename ->
  lookup_file E (directory_part dir file0 name_dplen ++ SLASH :: filename)
  = None ->
  dir_file_exists_p E (directory_part dir file0 name_dplen) filename
  = false ->
  exists_ s = false ->
  (is_target_path = true -> tgt_name s = None -> i = 0) ->
  exists nm,
    List.length nm = List.length (name s)
    /\ try_directory E is_target is_target_path path_index file0 filename
         name_dplen flen i dir s
       = Ok (Continue
               {| name := nm;
                  exists_ := false;
                  mtime_live := mtime_live s;
                  tgt_name :=
                    match tgt_name s with
                    | None =>
                        if is_target_path
                        then Some (directory_part dir file0 name_dplen
                                   ++ SLASH :: filename)
                        else None
                    | Some t => Some t
                    end;
                  tgt_len :=
                    match tgt_name s with
                    | None =>
                        if is_target_path
                        then strlen (directory_part dir file0 name_dplen)
                             + 1 + flen
                        else tgt_len s
                    | Some _ => tgt_len s
                    end;
                  out := out s |}).
Proof.
  intros Hdos Hflen Hk Hfit Hopen Hpre Hfile Hdb Hcache Hex Hfirst.
  set (pre := directory_part dir file0 name_dplen) in *.
  set (tail := skipn (strlen pre + strlen filename + 2) (name s)).
  exists (map Some (pre ++ SLASH :: filename ++ [NUL]) ++ tail).
  split.
  { unfold tail, strlen in *. rewrite length_app, length_map, length_skipn.
    rewrite !length_app. simpl. rewrite length_app. simpl. lia. }
  unfold try_directory.
  rewrite (build_name_regular E (name s) dir file0 filename name_dplen flen)
    by assumption.
  fold pre. fold tail. cbn [bind].
  assert (Hcand : cstr (map Some (pre ++ SLASH :: filename ++ [NUL]) ++ tail)
                  = Ok (pre ++ SLASH :: filename)).
  { replace (map Some (pre ++ SLASH :: filename ++ [NUL]) ++ tail)
      with (map Some (pre ++ SLASH :: filename) ++ Some NUL :: tail).
    - apply cstr_app. apply candidate_cstring; assumption.
    - rewrite !map_app. simpl. rewrite map_app, <- !app_assoc. simpl.
      rewrite <- app_assoc. reflexivity. }
  rewrite Hcand. cbn [bind]. rewrite Hdb, Hex. cbn [negb].
  unfold strlen at 1. rewrite store_inside. cbn [bind].
  assert (Hdir : cstr (map Some (pre ++ NUL :: filename ++ [NUL]) ++ tail)
                 = Ok pre).
  { rewrite map_app, <- app_assoc. simpl. apply cstr_app. exact Hpre. }
  rewrite Hdir. cbn [bind]. rewrite Hcache.
  unfold strlen at 1. rewrite store_inside. cbn [bind].
  destruct (tgt_name s) as [t|] eqn:Ht; [reflexivity|].
  destruct is_target_path; [|reflexivity].
  rewrite (Hfirst eq_refl eq_refl). cbn [Nat.eqb assert bind].
  rewrite Hcand. cbn [bind].
  assert (Hlen : (strlen pre + 1 + flen =? strlen (pre ++ SLASH :: filename))
                 = true).
  { apply Nat.eqb_eq. unfold strlen. rewrite length_app. simpl.
    rewrite Hflen. unfold strlen. lia. }
  rewrite Hlen. reflexivity.
Qed.

(** The directory loop of a target-goal list when every round passes on:
    the candidate recorded first is returned, with the time stamp "unknown"
    and the directory index 0. *)
Lemma scan_directories_nothing (E : env) (is_target path_index : bool)
  (file0 filename : cstring) (name_dplen flen size : nat) :
  HAVE_DOS_PATHS E = false ->
  flen = strlen filename ->
  name_dplen <= strlen file0 ->
  is_cstring filename ->
  forall vpath : list cstring,
    Forall (passes_on E file0 filename name_dplen size) vpath ->
    forall (i : nat) (s : scan),
      List.length (name s) = size ->
      exists_ s = false ->
      (tgt_name s = None -> i = 0) ->
      (forall t, tgt_name s = Some t ->
                 is_cstring t /\ tgt_len s = strlen t /\ t <> []) ->
      scan_directories E is_target true path_index file0 filename
        name_dplen flen i vpath s
      = match
          match tgt_name s, vpath with
          | Some t, _ => Some t
          | None, dir :: _ =>
              Some (directory_part dir file0 name_dplen ++ SLASH :: filename)
          | None, [] => None
          end
        with
        | Some t =>
            Ok (Some t, fallback_stores E (mtime_live s) path_index (out s))
        | None => Ok (None, out s)
        end.
Proof.
  intros Hdos Hflen Hk Hfile vpath Hall.
  induction Hall as [|dir vpath Hdir Hall IH]; intros i s Hsize Hex Hi Ht.
  - simpl. destruct (tgt_name s) as [t|] eqn:Htgt; [|reflexivity].
    destruct (Ht t eq_refl) as [Hcs [Hlen Hne]].
    assert (Hpos : (0 <? tgt_len s) = true).
    { apply Nat.ltb_lt. rewrite Hlen. unfold strlen.
      destruct t; [congruence | simpl; lia]. }
    rewrite Hpos. cbn [assert bind].
    unfold strcache_add_len, in_memory. rewrite Hlen. unfold strlen.
    rewrite bytes_app. cbn [bind]. rewrite until_nul_cstring by exact Hcs.
    reflexivity.
  - destruct Hdir as [Hfit [Hopen [Hpre [Hdb Hcache]]]].
    rewrite <- Hsize in Hfit.
    destruct (try_directory_nothing E is_target true path_index file0
                filename name_dplen flen i dir s Hdos Hflen Hk Hfit Hopen
                Hpre Hfile Hdb Hcache Hex (fun _ => Hi))
      as [nm [Hnm Hround]].
    simpl scan_directories. rewrite Hround. cbn [bind].
    rewrite IH.
    + cbn [tgt_name mtime_live out].
      destruct (tgt_name s) as [t|]; reflexivity.
    + cbn [name]. congruence.
    + reflexivity.
    + cbn [tgt_name]. destruct (tgt_name s); discriminate.
    + cbn [tgt_name tgt_len]. intros t Heq.
      destruct (tgt_name s) as [t0|] eqn:Htgt.
      * injection Heq as <-. apply Ht. reflexivity.
      * injection Heq as <-. split; [|split].
        -- apply candidate_cstring; assumption.
        -- unfold strlen. rewrite length_app. simpl. rewrite Hflen.
           unfold strlen. lia.
        -- destruct (directory_part dir file0 name_dplen); discriminate.
Qed.

(** The candidate of a directory is the directory, a slash and the file
    name as it was given. *)
Lemma split_candidate (dir file0 : cstring) (k : nat) :
  (0 < k -> nth_error file0 k = Some SLASH) ->
  directory_part dir file0 k
  ++ SLASH :: (if 0 <? k then skipn (k + 1) file0 else file0)
  = dir ++ SLASH :: file0.
Proof.
  intros Hk. unfold directory_part.
  destruct (Nat.ltb_spec 0 k) as [Hpos|_].
  - rewrite <- app_assoc. simpl. rewrite Nat.add_1_r.
    rewrite (firstn_skipn_middle k file0 (Hk Hpos)). reflexivity.
  - rewrite app_nil_r. reflexivity.
Qed.

Lemma directory_part_open (dir file0 : cstring) (k : nat) :
  open_ended dir ->
  (0 < k -> k <= strlen file0
            /\ exists c, nth_error file0 (k - 1) = Some c /\ c <> SLASH) ->
  open_ended (directory_part dir file0 k).
Proof.
  intros Hdir Hk. unfold directory_part.
  destruct (Nat.ltb_spec 0 k) as [Hpos|_].
  - destruct (Hk Hpos) as [Hle [c [Hc Hne]]]. exists c. split; [|exact Hne].
    assert (Hnz : firstn k file0 <> []).
    { intros H. apply (f_equal (@List.length _)) in H.
      rewrite length_firstn in H. unfold strlen in Hle. simpl in H. lia. }
    change (SLASH :: firstn k file0) with ([SLASH] ++ firstn k file0).
    rewrite app_assoc, last_char_app by exact Hnz.
    rewrite last_char_nth. unfold strlen in *.
    rewrite length_firstn, Nat.min_l by exact Hle.
    rewrite nth_error_firstn.
    destruct (Nat.ltb_spec (k - 1) k); [exact Hc | lia].
  - rewrite app_nil_r. exact Hdir.
Qed.

(** C2 on regular candidates. For a target-goal list whose directories are
    not empty and do not end in a slash, and a file name whose last slash
    does not follow another slash, when no candidate is mentioned in the
    makefile and the directory cache has none of them, the per-list search
    returns the candidate of the first directory with the time stamp
    "unknown" and the directory index 0. *)
Lemma target_goal_fallback_regular (E : env) (path : vpath)
  (file0 : cstring) (mtime_ptr path_index : bool) (m : mem)
  (d0 : cstring) (ds : list cstring) :
  HAVE_DOS_PATHS E = false ->
  target_goal path <> 0%Z ->
  searchpath path = d0 :: ds ->
  listing_ok path ->
  (forall d, In d (searchpath path) -> open_ended d) ->
  is_cstring file0 ->
  regular_name file0 ->
  (forall d, In d (searchpath path) ->
             lookup_file E (d ++ SLASH :: file0) = None) ->
  (forall dir n, dir_file_exists_p E dir n = false) ->
  selective_vpath_search E path file0 mtime_ptr path_index m
  = Ok (Some (d0 ++ SLASH :: file0),
        fallback_stores E mtime_ptr path_index m).
Proof.
  intros Hdos Hgoal Hpath Hok Hopen Hfile Hreg Hdb Hcache.
  unfold selective_vpath_search, last_separator. rewrite Hdos.
  assert (Hg : negb (target_goal path =? 0)%Z = true)
    by (apply negb_true_iff; apply Z.eqb_neq; exact Hgoal).
  rewrite Hg.
  set (k := match strrchr file0 SLASH with Some k => k | None => 0 end).
  assert (Hslash : 0 < k -> nth_error file0 k = Some SLASH).
  { unfold k. destruct (strrchr file0 SLASH) as [j|] eqn:Hj; [|lia].
    intros _. apply strrchr_Some. exact Hj. }
  assert (Hklt : 0 < k -> k < strlen file0).
  { intros Hpos. unfold strlen. apply nth_error_Some.
    rewrite (Hslash Hpos). discriminate. }
  assert (Hbefore : 0 < k -> k <= strlen file0
                    /\ exists c, nth_error file0 (k - 1) = Some c
                                 /\ c <> SLASH).
  { intros Hpos. split; [specialize (Hklt Hpos); lia|].
    destruct (nth_error file0 (k - 1)) as [c|] eqn:Hc.
    - exists c. split; [reflexivity|]. intros ->.
      unfold regular_name, k in *.
      destruct (strrchr file0 SLASH) as [j|]; [|lia].
      exact (Hreg Hpos Hc).
    - apply nth_error_None in Hc. specialize (Hklt Hpos).
      unfold strlen in Hklt. lia. }
  set (filename := if 0 <? k then skipn (k + 1) file0 else file0).
  set (flen := if 0 <? k then strlen file0 - (k + 1) else strlen file0).
  assert (Hflen : flen = strlen filename).
  { unfold flen, filename, strlen. destruct (0 <? k); [|reflexivity].
    rewrite length_skipn. reflexivity. }
  assert (Hfn : is_cstring filename).
  { unfold filename. destruct (0 <? k); [|exact Hfile].
    intros H. apply Hfile. eapply skipn_incl. exact H. }
  assert (Hkle : k <= strlen file0).
  { destruct (Nat.eq_dec k 0) as [->|Hnz]; [lia|].
    assert (Hpos : 0 < k) by lia. specialize (Hklt Hpos). lia. }
  rewrite (scan_directories_nothing E _ path_index file0 filename k flen
             (maxlen path + 1 + k + 1 + flen + 1) Hdos Hflen Hkle Hfn).
  - cbn [tgt_name mtime_live out]. rewrite Hpath.
    unfold filename. rewrite split_candidate by exact Hslash. reflexivity.
  - apply Forall_forall. intros d Hd.
    unfold listing_ok in Hok. rewrite Forall_forall in Hok.
    destruct (Hok d Hd) as [Hdcs Hdlen].
    assert (Hpart : is_cstring (directory_part d file0 k)).
    { unfold directory_part. apply is_cstring_app; [exact Hdcs|].
      destruct (0 <? k); [|intros []].
      intros [H|H]; [discriminate H|].
      apply Hfile. eapply firstn_incl. exact H. }
    unfold passes_on. repeat split.
    + unfold directory_part, strlen in *. rewrite length_app.
      rewrite <- Hflen. unfold flen.
      destruct (Nat.ltb_spec 0 k) as [Hpos|Hz].
      * simpl List.length. rewrite length_firstn.
        specialize (Hklt Hpos). unfold strlen in Hklt. lia.
      * simpl. lia.
    + apply directory_part_open; [apply Hopen; exact Hd | exact Hbefore].
    + exact Hpart.
    + unfold filename. rewrite split_candidate by exact Hslash.
      apply Hdb. exact Hd.
    + apply Hcache.
  - cbn [name]. unfold alloca. apply repeat_length.
  - reflexivity.
  - reflexivity.
  - cbn [tgt_name]. discriminate.
Qed.

(** ** The fallback of a target-goal list (C2) *)

(** The scenario of the specification: the target-goal list of [%.o] with
    the directories /build and /alt, and foo.o a target that is nowhere.
    The search returns /build/foo.o with the time stamp "unknown" and the
    directory index 0. *)
Lemma target_goal_fallback_example :
  vpath_search foo_is_target (cs "foo.o") all_pointers
    (selective (listing (cs "%.o") [cs "/build"; cs "/alt"] 1)) empty_mem
  = Ok (Some (cs "/build/foo.o"),
        selective (listing (cs "%.o") [cs "/build"; cs "/alt"] 1),
        {| at_mtime_ptr := [UNKNOWN_MTIME foo_is_target];
           at_target_path := 1;
           at_vpath_index := 0;
           at_path_index := 0 |}).
Proof. vm_compute. reflexivity. Qed.

(** C2, where the code departs from it. The target-goal list of [%.o] has
    the root directory as its first entry (the list that the directive with
    the directory string / builds), foo.o is a target that is nowhere. The candidate that is looked up is /foo.o; since the entry
    already ends in a slash no slash was stored at [p], and "Put the slash
    back in NAME" overwrites the first byte of the file name: the buffer
    reads //oo.o, of 6 bytes, while [tgt_len] is 7, and the assertion
    [tgt_len == strlen (name)] stops the run. No fallback is returned. *)
Theorem target_goal_fallback_at_root :
  (do x <- build_name foo_is_target (alloca 9) (cs "/") (cs "foo.o")
             (cs "foo.o") 0 5;
   do candidate <- cstr (fst x);
   do nm <- store (fst x) (snd x) NUL;
   do nm <- store nm (snd x) SLASH;
   do copy <- cstr nm;
   Ok (candidate, copy, strlen copy, snd x + 1 + 5))
  = Ok (cs "/foo.o", cs "//oo.o", 6, 7)
  /\ construct_vpath_list foo_is_target (Some (cs "%.o")) (Some (cs "/")) 1
       no_lists
     = Ok (selective (listing (cs "%.o") [cs "/"] 1))
  /\ selective_vpath_search foo_is_target (listing (cs "%.o") [cs "/"] 1)
       (cs "foo.o") true true empty_mem
     = Fault AssertionFailed
  /\ vpath_search foo_is_target (cs "foo.o") all_pointers
       (selective (listing (cs "%.o") [cs "/"] 1)) empty_mem
     = Fault AssertionFailed.
Proof. repeat apply conj; vm_compute; reflexivity. Qed.

(** ** The two conversions of [w32/pathstuff.c] (C9) *)

Lemma skip_blanks_none (c : ascii) (s : list ascii) :
  ISBLANK c = false -> skip_blanks (c :: s) = c :: s.
Proof. intros H. simpl. rewrite H. reflexivity. Qed.

Lemma not_blank (c : ascii) : c <> SPACE -> c <> TAB -> ISBLANK c = false.
Proof.
  intros H1 H2. unfold ISBLANK.
  apply ascii_eqb_false in H1. apply ascii_eqb_false in H2.
  rewrite H1, H2. reflexivity.
Qed.

Lemma blank_space : ISBLANK SPACE = true.
Proof. reflexivity. Qed.

Lemma escape_spaces_app (d1 d2 : cstring) :
  escape_spaces (d1 ++ d2) = escape_spaces d1 ++ escape_spaces d2.
Proof. unfold escape_spaces. apply flat_map_app. Qed.

Lemma escape_spaces_none (d : cstring) :
  ~ In SPACE d -> escape_spaces d = d.
Proof.
  induction d as [|c d IH]; intros H; [reflexivity|].
  unfold escape_spaces in *. simpl.
  assert (Hc : Ascii.eqb c SPACE = false)
    by (apply ascii_eqb_false; intros ->; apply H; left; reflexivity).
  rewrite Hc. simpl. f_equal. apply IH. intros Hin. apply H. right. exact Hin.
Qed.

(** *** From the host-native form to the canonical form *)

(** Bytes outside quotes that are no tab, quote or delimiter are copied,
    the spaces that do not follow a backslash with a backslash before them
    when the list has a delimiter. *)
Lemma from_loop_bare (delim : ascii) (df : bool) (rest : cstring)
  (d : cstring) :
  forall (fuel : nat) (tgt : list ascii) (isescaped after_backslash : bool),
    (isescaped = true -> after_backslash = true) ->
    plain_spaces after_backslash d = true ->
    (In SPACE d -> df = true) ->
    (forall c, In c d -> c <> DQUOTE /\ c <> TAB /\ c <> delim) ->
    from_windows32_loop (List.length d + fuel) delim df (d ++ rest) tgt
      false isescaped
    = from_windows32_loop fuel delim df rest (rev (escape_spaces d) ++ tgt)
        false (fold_left (fun e c => next_escaped false c e) d isescaped).
Proof.
  induction d as [|c d IH];
    intros fuel tgt isescaped after_backslash Hesc Hplain Hdf Hd;
    [reflexivity|].
  destruct (Hd c (or_introl eq_refl)) as [Hq [Ht Hdelim]].
  apply ascii_eqb_false in Hq. apply ascii_eqb_false in Hdelim.
  apply ascii_eqb_false in Ht.
  simpl in Hplain. apply andb_true_iff in Hplain.
  destruct Hplain as [Hhere Hplain].
  assert (Hd' : forall x, In x d -> x <> DQUOTE /\ x <> TAB /\ x <> delim)
    by (intros x Hx; apply Hd; right; exact Hx).
  assert (Hdf' : In SPACE d -> df = true)
    by (intros Hx; apply Hdf; right; exact Hx).
  simpl from_windows32_loop. rewrite Hq. unfold ISBLANK. rewrite Ht.
  rewrite orb_false_r.
  unfold escape_spaces. simpl flat_map. fold (escape_spaces d).
  destruct (Ascii.eqb c SPACE) eqn:Hcs.
  - assert (Hnot : isescaped = false).
    { destruct isescaped; [|reflexivity].
      rewrite (Hesc eq_refl) in Hhere. discriminate Hhere. }
    assert (Hfound : df = true).
    { apply Hdf. left. apply ascii_eqb_true in Hcs. auto. }
    rewrite Hnot. destruct df; [|discriminate Hfound]. simpl.
    rewrite (IH fuel _ _ (Ascii.eqb c BACKSLASH)); try assumption.
    + rewrite <- !app_assoc. reflexivity.
    + unfold next_escaped. simpl. apply ascii_eqb_true in Hcs. subst c.
      discriminate.
  - simpl. rewrite Hdelim. simpl.
    rewrite (IH fuel _ _ (Ascii.eqb c BACKSLASH)); try assumption.
    + rewrite <- !app_assoc. reflexivity.
    + unfold next_escaped. simpl.
      destruct (Ascii.eqb c BACKSLASH); [reflexivity | discriminate].
Qed.

(** Bytes inside quotes are copied, the spaces with a backslash before
    them. *)
Lemma from_loop_quoted (delim : ascii) (df : bool) (rest : cstring)
  (d : cstring) :
  forall (fuel : nat) (tgt : list ascii),
    ~ In DQUOTE d -> ~ In TAB d ->
    from_windows32_loop (List.length d + fuel) delim df (d ++ rest) tgt
      true false
    = from_windows32_loop fuel delim df rest
        (rev (escape_spaces d) ++ tgt) true false.
Proof.
  induction d as [|c d IH]; intros fuel tgt Hq Ht; [reflexivity|].
  assert (Hcq : Ascii.eqb c DQUOTE = false)
    by (apply ascii_eqb_false; intros ->; apply Hq; left; reflexivity).
  assert (Hct : Ascii.eqb c TAB = false)
    by (apply ascii_eqb_false; intros ->; apply Ht; left; reflexivity).
  assert (Hq' : ~ In DQUOTE d) by (intros H; apply Hq; right; exact H).
  assert (Ht' : ~ In TAB d) by (intros H; apply Ht; right; exact H).
  simpl. rewrite Hcq. unfold ISBLANK. rewrite Hct, orb_false_r.
  unfold escape_spaces. simpl flat_map. fold (escape_spaces d).
  rewrite andb_false_r.
  destruct (Ascii.eqb c SPACE) eqn:Hcs; simpl.
  - rewrite IH by assumption. rewrite <- !app_assoc. reflexivity.
  - rewrite IH by assumption. rewrite <- !app_assoc. reflexivity.
Qed.

Lemma escaped_after (d : cstring) (isescaped : bool) :
  d <> [] -> last_char d <> Some BACKSLASH ->
  fold_left (fun e c => next_escaped false c e) d isescaped = false.
Proof.
  intros Hd Hlast. destruct (last_char_split d Hd) as [d0 [c [-> Hc]]].
  rewrite fold_left_app. simpl. unfold next_escaped. simpl.
  assert (H : Ascii.eqb c BACKSLASH = false)
    by (apply ascii_eqb_false; intros ->; apply Hlast; exact Hc).
  rewrite H. reflexivity.
Qed.

Lemma plain_spaces_none (d : cstring) (after_backslash : bool) :
  ~ In SPACE d -> plain_spaces after_backslash d = true.
Proof.
  revert after_backslash. induction d as [|c d IH];
    intros after_backslash H; [reflexivity|].
  simpl. assert (Hc : Ascii.eqb c SPACE = false)
    by (apply ascii_eqb_false; intros ->; apply H; left; reflexivity).
  rewrite Hc. simpl. apply IH. intros Hin. apply H. right. exact Hin.
Qed.

(** One entry of the host-native list becomes the directory with its spaces
    escaped. *)
Lemma from_loop_entry (delim : ascii) (df several : bool) (rest : cstring)
  (e : bool * cstring) (fuel : nat) (tgt : list ascii) :
  entry_ok delim several e -> (several = true -> df = true) ->
  from_windows32_loop (List.length (native_entry e) + fuel) delim df
    (native_entry e ++ rest) tgt false false
  = from_windows32_loop fuel delim df rest
      (rev (escape_spaces (snd e)) ++ tgt) false false.
Proof.
  destruct e as [quoted d]. unfold entry_ok, directory_ok, native_entry.
  simpl fst. simpl snd.
  intros [[Hd [Hq [Ht [Hdelim [Hsp Hbs]]]]] Hbare] Hdf.
  destruct quoted.
  - unfold quote.
    replace (List.length (DQUOTE :: d ++ [DQUOTE]) + fuel)
      with (S (List.length d + S fuel))
      by (simpl; rewrite length_app; simpl; lia).
    change ((DQUOTE :: d ++ [DQUOTE]) ++ rest)
      with (DQUOTE :: (d ++ [DQUOTE]) ++ rest).
    rewrite <- app_assoc.
    change (from_windows32_loop (S (List.length d + S fuel)) delim df
              (DQUOTE :: d ++ [DQUOTE] ++ rest) tgt false false)
      with (from_windows32_loop (List.length d + S fuel) delim df
              (d ++ DQUOTE :: rest) tgt true false).
    rewrite from_loop_quoted by assumption. reflexivity.
  - specialize (Hbare eq_refl). unfold bare_ok in Hbare.
    rewrite (from_loop_bare delim df rest d fuel tgt false false).
    + rewrite escaped_after by assumption. reflexivity.
    + discriminate.
    + destruct several; [exact (proj2 Hbare)|].
      apply plain_spaces_none. exact Hbare.
    + intros Hin. destruct several; [apply Hdf; reflexivity|].
      contradiction.
    + intros c Hc. repeat split; intros ->; contradiction.
Qed.

Lemma delimiter_tests (delim : ascii) :
  delimiter_ok delim ->
  Ascii.eqb delim DQUOTE = false /\ ISBLANK delim = false
  /\ Ascii.eqb delim BACKSLASH = false /\ Ascii.eqb delim delim = true.
Proof.
  intros [H1 [H2 [H3 H4]]]. repeat split.
  - apply ascii_eqb_false. exact H3.
  - apply not_blank; assumption.
  - apply ascii_eqb_false. exact H4.
  - apply Ascii.eqb_refl.
Qed.

(** A delimiter between two entries becomes one space. *)
Lemma from_loop_delimiter (delim : ascii) (df : bool) (fuel : nat)
  (b : ascii) (rest : cstring) (c : ascii) (tgt : list ascii) :
  delimiter_ok delim -> ISBLANK b = false -> ISBLANK c = false ->
  from_windows32_loop (S fuel) delim df (delim :: b :: rest) (c :: tgt)
    false false
  = from_windows32_loop fuel delim df (b :: rest) (SPACE :: c :: tgt)
      false false.
Proof.
  intros Hdelim Hb Hc.
  destruct (delimiter_tests delim Hdelim) as [H1 [H2 [H3 H4]]].
  simpl. rewrite H1, H2, H4, Hb, Hc. simpl.
  unfold next_escaped. rewrite H3. reflexivity.
Qed.

(** The canonical form of a directory ends with a byte that is no blank. *)
Lemma escape_spaces_last (delim : ascii) (d : cstring) :
  directory_ok delim d ->
  exists c t, rev (escape_spaces d) = c :: t /\ ISBLANK c = false.
Proof.
  intros [Hd [_ [Ht [_ [Hsp _]]]]].
  destruct (last_char_split d Hd) as [d0 [c [-> Hc]]].
  assert (Hcs : c <> SPACE) by (intros ->; apply Hsp; exact Hc).
  assert (Hct : c <> TAB)
    by (intros ->; apply Ht; apply in_or_app; right; left; reflexivity).
  exists c, (rev (escape_spaces d0)). split.
  - rewrite escape_spaces_app, rev_app_distr.
    unfold escape_spaces at 1. simpl.
    apply ascii_eqb_false in Hcs. rewrite Hcs. reflexivity.
  - apply not_blank; assumption.
Qed.

(** A host-native entry starts with a byte that is no blank. *)
Lemma native_entry_head (delim : ascii) (several : bool)
  (e : bool * cstring) :
  entry_ok delim several e ->
  exists c t, native_entry e = c :: t /\ ISBLANK c = false.
Proof.
  destruct e as [quoted d]. unfold entry_ok, directory_ok, native_entry.
  simpl. intros [[Hd [_ [Ht _]]] Hbare].
  destruct quoted.
  - exists DQUOTE, (d ++ [DQUOTE]). split; reflexivity.
  - destruct d as [|c d]; [congruence|]. exists c, d. split; [reflexivity|].
    specialize (Hbare eq_refl). unfold bare_ok in Hbare.
    apply not_blank.
    + intros ->. destruct several.
      * apply (proj1 Hbare). reflexivity.
      * apply Hbare. left. reflexivity.
    + intros ->. apply Ht. left. reflexivity.
Qed.

Lemma join_cons (sep : ascii) (x y : cstring) (l : list cstring) :
  join sep (x :: y :: l) = x ++ sep :: join sep (y :: l).
Proof. reflexivity. Qed.

Lemma native_list_head (delim : ascii) (several : bool)
  (e : bool * cstring) (es : list (bool * cstring)) :
  entry_ok delim several e ->
  exists c t, native_list delim (e :: es) = c :: t /\ ISBLANK c = false.
Proof.
  intros He.
  destruct (native_entry_head delim several e He) as [c [t [Heq Hc]]].
  unfold native_list. destruct es as [|e' es].
  - exists c, t. split; [exact Heq | exact Hc].
  - simpl map. rewrite join_cons, Heq.
    exists c, (t ++ delim :: join delim (native_entry e' :: map native_entry es)).
    split; [reflexivity | exact Hc].
Qed.

(** The second pass on a host-native list writes its canonical form. *)
Lemma from_loop_list (delim : ascii) (df several : bool) :
  delimiter_ok delim -> (several = true -> df = true) ->
  forall (es : list (bool * cstring)),
    es <> [] -> Forall (entry_ok delim several) es ->
    forall (fuel : nat) (tgt : list ascii),
      from_windows32_loop (List.length (native_list delim es) + fuel) delim
        df (native_list delim es) tgt false false
      = rev (canonical_list (map snd es)) ++ tgt.
Proof.
  intros Hdelim Hdf es. induction es as [|e es IH]; [congruence|].
  intros _ Hok fuel tgt. inversion Hok as [|e0 es0 He Hes]; subst.
  destruct es as [|e' es].
  - unfold native_list, canonical_list. simpl map. simpl join.
    rewrite <- (app_nil_r (native_entry e)) at 2.
    rewrite (from_loop_entry delim df several) by assumption.
    destruct fuel; reflexivity.
  - unfold native_list, canonical_list in *. simpl map in *.
    rewrite !join_cons.
    rewrite length_app, <- Nat.add_assoc.
    rewrite (from_loop_entry delim df several) by assumption.
    destruct (escape_spaces_last delim (snd e) (proj1 He))
      as [c [t [Hrev Hc]]].
    destruct (native_list_head delim several e' es
                ltac:(inversion Hes; assumption)) as [b [r [Hhead Hb]]].
    unfold native_list in Hhead. simpl map in Hhead.
    rewrite Hrev. change ((c :: t) ++ tgt) with (c :: t ++ tgt).
    assert (Hlen : List.length
                     (delim :: join delim
                                 (native_entry e' :: map native_entry es))
                   + fuel
                   = S (List.length
                          (join delim (native_entry e' :: map native_entry es))
                        + fuel)) by reflexivity.
    rewrite Hlen. rewrite Hhead at 2.
    rewrite from_loop_delimiter by assumption.
    rewrite <- Hhead.
    rewrite IH by (congruence || assumption).
    rewrite rev_app_distr, Hrev. simpl rev.
    rewrite <- !app_assoc. reflexivity.
Qed.

(** The first pass counts two bytes for a blank and one for any other. *)
Lemma from_count_size (delim : ascii) (src : cstring) :
  forall (instring delim_found : bool) (size : nat),
    snd (from_windows32_count delim src instring delim_found size)
    = size + weight src.
Proof.
  unfold weight. induction src as [|c src IH];
    intros instring delim_found size; simpl; [lia|].
  destruct (Ascii.eqb c DQUOTE); [rewrite IH; lia|].
  destruct (Ascii.eqb c delim && negb instring); rewrite IH; lia.
Qed.

Lemma skip_blanks_length (s : list ascii) :
  List.length (skip_blanks s) <= List.length s.
Proof.
  induction s as [|c s IH]; simpl; [lia|].
  destruct (ISBLANK c); simpl; lia.
Qed.

Lemma skip_blanks_weight (s : list ascii) :
  weight (skip_blanks s) <= weight s.
Proof.
  unfold weight. induction s as [|c s IH]; simpl; [lia|].
  destruct (ISBLANK c) eqn:Hc; simpl; rewrite ?Hc; lia.
Qed.

(** The second pass never writes more than the first pass counted: the
    assertion of [convert_vpath_from_windows32] holds on every input. *)
Lemma from_loop_length (delim : ascii) (df : bool) (fuel : nat) :
  forall (src : cstring) (tgt : list ascii) (instring isescaped : bool),
    List.length
      (from_windows32_loop fuel delim df src tgt instring isescaped)
    <= List.length tgt + weight src.
Proof.
  induction fuel as [|fuel IH]; intros src tgt instring isescaped;
    [simpl; lia|].
  destruct src as [|c rest]; [simpl; lia|].
  simpl from_windows32_loop.
  assert (Hw : weight (c :: rest)
               = (if ISBLANK c then 2 else 1) + weight rest) by reflexivity.
  destruct (Ascii.eqb c DQUOTE).
  { etransitivity; [apply IH|]. rewrite Hw. destruct (ISBLANK c); lia. }
  destruct (ISBLANK c && negb isescaped && (instring || df)) eqn:Hesc.
  { etransitivity; [apply IH|]. rewrite Hw.
    apply andb_true_iff in Hesc. destruct Hesc as [Hesc _].
    apply andb_true_iff in Hesc. destruct Hesc as [-> _]. simpl. lia. }
  destruct (Ascii.eqb c delim && negb instring).
  { etransitivity; [apply IH|]. rewrite Hw.
    pose proof (skip_blanks_length tgt).
    pose proof (skip_blanks_weight rest).
    simpl. destruct (ISBLANK c); lia. }
  etransitivity; [apply IH|]. rewrite Hw. simpl. destruct (ISBLANK c); lia.
Qed.

Lemma canonical_list_last (delim : ascii) (several : bool)
  (es : list (bool * cstring)) :
  es <> [] -> Forall (entry_ok delim several) es ->
  exists c t, rev (canonical_list (map snd es)) = c :: t
              /\ ISBLANK c = false.
Proof.
  induction es as [|e es IH]; [congruence|]. intros _ Hok.
  inversion Hok as [|e0 es0 He Hes]; subst.
  destruct es as [|e' es].
  - apply (escape_spaces_last delim). exact (proj1 He).
  - destruct IH as [c [t [Hrev Hc]]]; [congruence | exact Hes|].
    unfold canonical_list in *. simpl map in *. rewrite join_cons.
    rewrite rev_app_distr. cbn [rev]. rewrite Hrev.
    exists c, ((t ++ [SPACE]) ++ rev (escape_spaces (snd e))).
    split; [reflexivity | exact Hc].
Qed.

(** Once a delimiter was found the first pass keeps it found. *)
Lemma from_count_found_stays (delim : ascii) (src : cstring) :
  forall (instring : bool) (size : nat),
    fst (from_windows32_count delim src instring true size) = true.
Proof.
  induction src as [|c src IH]; intros instring size; simpl; [reflexivity|].
  destruct (Ascii.eqb c DQUOTE); [apply IH|].
  destruct (Ascii.eqb c delim && negb instring); apply IH.
Qed.

(** The first pass over bytes that are no quote and no delimiter outside
    quotes changes its count only. *)
Lemma from_count_bytes (delim : ascii) (rest : cstring) (d : cstring) :
  forall (instring delim_found : bool) (size : nat),
    ~ In DQUOTE d -> (instring = true \/ ~ In delim d) ->
    exists size',
      from_windows32_count delim (d ++ rest) instring delim_found size
      = from_windows32_count delim rest instring delim_found size'.
Proof.
  induction d as [|c d IH]; intros instring delim_found size Hq Hdelim.
  - exists size. reflexivity.
  - assert (Hcq : Ascii.eqb c DQUOTE = false)
      by (apply ascii_eqb_false; intros ->; apply Hq; left; reflexivity).
    assert (Hcd : Ascii.eqb c delim && negb instring = false).
    { destruct Hdelim as [-> | Hdelim]; [apply andb_false_r|].
      apply andb_false_iff. left. apply ascii_eqb_false.
      intros ->. apply Hdelim. left. reflexivity. }
    simpl. rewrite Hcq, Hcd. apply IH.
    + intros H. apply Hq. right. exact H.
    + destruct Hdelim as [H|H]; [left; exact H|].
      right. intros Hin. apply H. right. exact Hin.
Qed.

Lemma from_count_entry (delim : ascii) (several : bool) (rest : cstring)
  (e : bool * cstring) (delim_found : bool) (size : nat) :
  entry_ok delim several e ->
  exists size',
    from_windows32_count delim (native_entry e ++ rest) false delim_found
      size
    = from_windows32_count delim rest false delim_found size'.
Proof.
  destruct e as [quoted d]. unfold entry_ok, directory_ok, native_entry.
  simpl fst. simpl snd. intros [[_ [Hq [_ [Hdelim _]]]] _].
  destruct quoted.
  - unfold quote. simpl. rewrite <- app_assoc.
    destruct (from_count_bytes delim ([DQUOTE] ++ rest) d true delim_found
                (size + 1) Hq (or_introl eq_refl)) as [size' Heq].
    rewrite Heq. simpl. eexists. reflexivity.
  - apply from_count_bytes; auto.
Qed.

(** In a host-native list of several directories the first pass finds a
    delimiter. *)
Lemma from_count_found (delim : ascii) (several : bool)
  (e e' : bool * cstring) (es : list (bool * cstring)) :
  delimiter_ok delim -> entry_ok delim several e ->
  fst (from_windows32_count delim (native_list delim (e :: e' :: es))
         false false 0)
  = true.
Proof.
  intros Hdelim He. unfold native_list. simpl map. rewrite join_cons.
  destruct (from_count_entry delim several
              (delim :: join delim (native_entry e' :: map native_entry es))
              e false 0 He) as [size' Heq].
  rewrite Heq.
  destruct (delimiter_tests delim Hdelim) as [H1 [_ [_ H4]]].
  simpl. rewrite H1, H4. simpl. apply from_count_found_stays.
Qed.

(** [convert_vpath_from_windows32] on a host-native list. *)
Lemma convert_from_native (delim : ascii) (es : list (bool * cstring)) :
  delimiter_ok delim -> es <> [] ->
  Forall (entry_ok delim (1 <? List.length es)) es ->
  convert_vpath_from_windows32 (native_list delim es) delim
  = Ok (Some (canonical_list (map snd es))).
Proof.
  intros Hdelim Hes Hok. unfold convert_vpath_from_windows32.
  set (several := 1 <? List.length es) in *.
  assert (Hfound : several = true ->
            fst (from_windows32_count delim (native_list delim es)
                   false false 0) = true).
  { unfold several. destruct es as [|e [|e' es']]; try discriminate.
    intros _. apply (from_count_found delim true).
    - exact Hdelim.
    - inversion Hok; assumption. }
  clearbody several.
  destruct es as [|e es]; [congruence|].
  destruct (native_list_head delim several e es
              ltac:(inversion Hok; assumption)) as [b [r [Hhead Hb]]].
  rewrite Hhead, (skip_blanks_none b r Hb), <- Hhead.
  destruct (native_list delim (e :: es)) as [|b' r'] eqn:Hnl;
    [discriminate Hhead|].
  rewrite <- Hnl in *.
  destruct (from_windows32_count delim (native_list delim (e :: es))
              false false 0) as [df size] eqn:Hcount.
  simpl in Hfound.
  assert (Hsize : size = weight (native_list delim (e :: es))).
  { pose proof (from_count_size delim (native_list delim (e :: es))
                  false false 0) as H. rewrite Hcount in H. exact H. }
  pose proof (from_loop_length delim df
                (strlen (native_list delim (e :: es)))
                (native_list delim (e :: es)) [] false false) as Hbound.
  pose proof (from_loop_list delim df several Hdelim Hfound (e :: es) Hes
                Hok 0 []) as Hloop.
  rewrite Nat.add_0_r, app_nil_r in Hloop. unfold strlen in *.
  rewrite Hloop in *.
  assert (Hle : (List.length (rev (canonical_list (map snd (e :: es))))
                 <=? size) = true)
    by (apply Nat.leb_le; rewrite Hsize; exact Hbound).
  rewrite Hle. cbn [assert bind].
  destruct (canonical_list_last delim several (e :: es) Hes Hok)
    as [c [t [Hrev Hc]]].
  rewrite Hrev, (skip_blanks_none c t Hc), <- Hrev, rev_involutive.
  reflexivity.
Qed.

(** *** From the canonical form to the host-native form *)

(** An escaped space becomes a plain space, and the entry is marked for
    quoting. *)
Lemma to_loop_escaped_space (delim : ascii) (rest : cstring)
  (done seg : list ascii) (enquote : bool) :
  to_windows32_loop delim (BACKSLASH :: SPACE :: rest) done seg enquote false
  = to_windows32_loop delim rest done (seg ++ [SPACE]) true false.
Proof. reflexivity. Qed.

(** A byte that is no blank and no quote is copied, unless it is a
    backslash before a blank. *)
Lemma to_loop_copy (delim : ascii) (c : ascii) (rest : cstring)
  (done seg : list ascii) (enquote : bool) :
  ISBLANK c = false -> c <> DQUOTE ->
  (c = BACKSLASH ->
   exists b r, rest = b :: r /\ ISBLANK b = false) ->
  to_windows32_loop delim (c :: rest) done seg enquote false
  = to_windows32_loop delim rest done (seg ++ [c]) enquote false.
Proof.
  intros Hb Hq Hbs. apply ascii_eqb_false in Hq.
  simpl. rewrite Hb, Hq. simpl.
  destruct rest as [|b r]; [reflexivity|].
  destruct (Ascii.eqb c BACKSLASH) eqn:Hc; [|reflexivity].
  apply ascii_eqb_true in Hc.
  destruct (Hbs Hc) as [b' [r' [[= <- <-] Hb']]].
  rewrite Hb'. reflexivity.
Qed.

(** A space that is not escaped ends the entry: the entry goes out, in
    quotes when it was marked, and the delimiter after it. *)
Lemma to_loop_separator (delim : ascii) (rest : cstring)
  (done seg : list ascii) (enquote : bool) :
  to_windows32_loop delim (SPACE :: rest) done seg enquote false
  = to_windows32_loop delim rest
      (done ++ (if enquote then quote seg else seg) ++ [delim]) []
      false false.
Proof. destruct rest; reflexivity. Qed.

(** The canonical form of a directory is read back as the directory. *)
Lemma to_loop_directory (delim : ascii) (rest : cstring) (d : cstring) :
  forall (done seg : list ascii) (enquote : bool),
    ~ In DQUOTE d -> ~ In TAB d ->
    (d <> [] -> last_char d <> Some BACKSLASH) ->
    to_windows32_loop delim (escape_spaces d ++ rest) done seg enquote false
    = to_windows32_loop delim rest done (seg ++ d)
        (enquote || has_space d) false.
Proof.
  induction d as [|c d IH]; intros done seg enquote Hq Ht Hlast.
  - simpl. rewrite app_nil_r, orb_false_r. reflexivity.
  - assert (Hq' : ~ In DQUOTE d) by (intros H; apply Hq; right; exact H).
    assert (Ht' : ~ In TAB d) by (intros H; apply Ht; right; exact H).
    assert (Hcq : c <> DQUOTE) by (intros ->; apply Hq; left; reflexivity).
    assert (Hct : c <> TAB) by (intros ->; apply Ht; left; reflexivity).
    assert (Hlast' : d <> [] -> last_char d <> Some BACKSLASH).
    { intros Hd. rewrite <- (last_char_cons c d Hd). apply Hlast.
      discriminate. }
    unfold escape_spaces. simpl flat_map. fold (escape_spaces d).
    unfold has_space. simpl existsb. fold (has_space d).
    destruct (Ascii.eqb c SPACE) eqn:Hcs.
    + apply ascii_eqb_true in Hcs. subst c.
      simpl app. rewrite to_loop_escaped_space, IH by assumption.
      rewrite <- app_assoc, orb_true_r. reflexivity.
    + apply ascii_eqb_false in Hcs. simpl app.
      rewrite to_loop_copy.
      * rewrite IH by assumption. rewrite <- app_assoc. reflexivity.
      * apply not_blank; assumption.
      * exact Hcq.
      * intros ->. destruct d as [|c' d].
        { exfalso. apply Hlast; [discriminate | reflexivity]. }
        unfold escape_spaces. simpl flat_map.
        destruct (Ascii.eqb c' SPACE) eqn:Hc'.
        -- eexists _, _. split; [reflexivity | reflexivity].
        -- eexists _, _. split; [reflexivity|].
           apply not_blank.
           ++ apply ascii_eqb_false. exact Hc'.
           ++ intros ->. apply Ht'. left. reflexivity.
Qed.

(** The conversion proper on a canonical list writes the directories, those
    with a space in quotes, with the delimiter between them. *)
Lemma to_loop_list (delim : ascii) :
  forall (ds : list cstring),
    ds <> [] -> Forall (directory_ok delim) ds ->
    forall done : list ascii,
      to_windows32_loop delim (canonical_list ds) done [] false false
      = done ++ join delim (map requoted ds).
Proof.
  induction ds as [|d ds IH]; [congruence|]. intros _ Hok done.
  inversion Hok as [|d0 ds0 Hd Hds]; subst.
  destruct Hd as [Hne [Hq [Ht [_ [_ Hbs]]]]].
  destruct ds as [|d' ds].
  - unfold canonical_list. simpl map. simpl join.
    rewrite <- (app_nil_r (escape_spaces d)).
    rewrite to_loop_directory by auto.
    simpl. unfold requoted, quote. destruct (has_space d); reflexivity.
  - unfold canonical_list in *. simpl map in *. rewrite !join_cons.
    rewrite to_loop_directory by auto.
    rewrite to_loop_separator. simpl app at 2. simpl orb.
    rewrite IH by (congruence || assumption).
    unfold requoted at 2. rewrite <- !app_assoc. reflexivity.
Qed.

(** The dry run counts what the conversion proper writes: the assertion of
    [convert_Path_to_windows32] holds on every input. *)
Lemma to_size_length (delim : ascii) (n : nat) :
  forall (src : cstring) (done seg : list ascii) (enquote instring : bool)
         (size : nat),
    List.length src <= n ->
    size = List.length done + List.length seg ->
    to_windows32_size src enquote instring size
    = List.length (to_windows32_loop delim src done seg enquote instring).
Proof.
  induction n as [|n IH]; intros src done seg enquote instring size Hn Hsize.
  - destruct src; [|simpl in Hn; lia]. simpl.
    destruct enquote; rewrite !length_app; simpl;
      rewrite ?length_app; simpl; lia.
  - destruct src as [|c rest].
    { simpl. destruct enquote; rewrite !length_app; simpl;
        rewrite ?length_app; simpl; lia. }
    simpl in Hn.
    assert (Hother :
      (if negb instring && ISBLANK c
       then to_windows32_size rest false instring
              ((if enquote then size + 2 else size) + 1)
       else to_windows32_size rest enquote
              (if Ascii.eqb c DQUOTE then negb instring else instring)
              (size + 1))
      = List.length
          (if negb instring && ISBLANK c
           then to_windows32_loop delim rest
                  (done ++ (if enquote then DQUOTE :: seg ++ [DQUOTE]
                            else seg) ++ [delim]) [] false instring
           else to_windows32_loop delim rest done (seg ++ [c]) enquote
                  (if Ascii.eqb c DQUOTE then negb instring
                   else instring))).
    { destruct (negb instring && ISBLANK c).
      - apply IH; [lia|]. destruct enquote; rewrite !length_app; simpl;
          rewrite ?length_app; simpl; lia.
      - apply IH; [lia|]. rewrite length_app. simpl. lia. }
    simpl. destruct rest as [|b rest']; [exact Hother|].
    destruct (negb instring && Ascii.eqb c BACKSLASH && ISBLANK b);
      [|exact Hother].
    apply IH; [simpl in Hn; lia|]. rewrite length_app. simpl. lia.
Qed.

Lemma escape_spaces_head (delim : ascii) (d : cstring) :
  directory_ok delim d ->
  exists c t, escape_spaces d = c :: t /\ ISBLANK c = false.
Proof.
  intros [Hd [_ [Ht _]]]. destruct d as [|c d]; [congruence|].
  unfold escape_spaces. simpl flat_map.
  destruct (Ascii.eqb c SPACE) eqn:Hc.
  - eexists _, _. split; reflexivity.
  - eexists _, _. split; [reflexivity|]. apply not_blank.
    + apply ascii_eqb_false. exact Hc.
    + intros ->. apply Ht. left. reflexivity.
Qed.

(** [convert_Path_to_windows32] on a canonical list. *)
Lemma convert_to_native (delim : ascii) (ds : list cstring) :
  ds <> [] -> Forall (directory_ok delim) ds ->
  convert_Path_to_windows32 (canonical_list ds) delim
  = Ok (Some (join delim (map requoted ds))).
Proof.
  intros Hds Hok. unfold convert_Path_to_windows32.
  assert (Hhead : exists c t, canonical_list ds = c :: t
                              /\ ISBLANK c = false).
  { destruct ds as [|d ds]; [congruence|].
    inversion Hok as [|d0 ds0 Hd _]; subst.
    destruct (escape_spaces_head delim d Hd) as [c [t [Heq Hc]]].
    unfold canonical_list. simpl map. destruct ds as [|d' ds].
    - exists c, t. split; [exact Heq | exact Hc].
    - simpl map. rewrite join_cons, Heq.
      eexists _, _. split; [reflexivity | exact Hc]. }
  destruct Hhead as [c [t [Heq Hc]]].
  rewrite Heq, (skip_blanks_none c t Hc), <- Heq.
  destruct (canonical_list ds) as [|c' t'] eqn:Hcl; [discriminate Heq|].
  rewrite <- Hcl.
  rewrite (to_size_length delim (List.length (canonical_list ds))
             (canonical_list ds) [] [] false false 0)
    by (simpl; lia).
  rewrite Nat.eqb_refl. cbn [assert bind].
  rewrite (to_loop_list delim ds Hds Hok []). reflexivity.
Qed.

(** *** The directory strings of a host-native list *)

Lemma native_dirs_bytes (delim : ascii) (rest : cstring) (d : cstring) :
  forall (cur : cstring) (instring : bool),
    ~ In DQUOTE d -> (instring = true \/ ~ In delim d) ->
    native_dirs_from delim (d ++ rest) instring cur
    = native_dirs_from delim rest instring (cur ++ d).
Proof.
  induction d as [|c d IH]; intros cur instring Hq Hdelim.
  - simpl. rewrite app_nil_r. reflexivity.
  - assert (Hcq : Ascii.eqb c DQUOTE = false)
      by (apply ascii_eqb_false; intros ->; apply Hq; left; reflexivity).
    assert (Hcd : Ascii.eqb c delim && negb instring = false).
    { destruct Hdelim as [-> | Hdelim]; [apply andb_false_r|].
      apply andb_false_iff. left. apply ascii_eqb_false.
      intros ->. apply Hdelim. left. reflexivity. }
    simpl. rewrite Hcq, Hcd. rewrite IH.
    + rewrite <- app_assoc. reflexivity.
    + intros H. apply Hq. right. exact H.
    + destruct Hdelim as [H|H]; [left; exact H|].
      right. intros Hin. apply H. right. exact Hin.
Qed.

(** A directory, bare or in quotes, is read as the directory. *)
Lemma native_dirs_rendered (delim : ascii) (rest : cstring)
  (d r cur : cstring) :
  r = d \/ r = quote d -> ~ In DQUOTE d -> ~ In delim d ->
  native_dirs_from delim (r ++ rest) false cur
  = native_dirs_from delim rest false (cur ++ d).
Proof.
  intros [-> | ->] Hq Hdelim.
  - apply native_dirs_bytes; auto.
  - unfold quote. simpl. rewrite <- app_assoc.
    rewrite native_dirs_bytes by auto. reflexivity.
Qed.

Lemma native_dirs_join {A : Type} (delim : ascii) (f g : A -> cstring) :
  delim <> DQUOTE ->
  forall l : list A,
    l <> [] ->
    (forall x, In x l ->
       (f x = g x \/ f x = quote (g x))
       /\ ~ In DQUOTE (g x) /\ ~ In delim (g x)) ->
    native_dirs delim (join delim (map f l)) = map g l.
Proof.
  intros Hdelim l. unfold native_dirs.
  induction l as [|x l IH]; [congruence|]. intros _ Hl.
  destruct (Hl x (or_introl eq_refl)) as [Hf [Hq Hd]].
  destruct l as [|y l].
  - simpl map. simpl join. rewrite <- (app_nil_r (f x)).
    rewrite (native_dirs_rendered delim [] (g x) (f x) []) by assumption.
    reflexivity.
  - simpl map in *. rewrite join_cons.
    rewrite (native_dirs_rendered delim _ (g x) (f x) []) by assumption.
    simpl app. simpl native_dirs_from.
    apply ascii_eqb_false in Hdelim. rewrite Hdelim, Ascii.eqb_refl.
    simpl. f_equal. apply IH; [congruence|].
    intros z Hz. apply Hl. right. exact Hz.
Qed.

(** C9, as amended. Canonicalization round trip: take one or more
    directories, each not empty, without double quote, tab or delimiter, and
    not ending in a space or a backslash, written as a host-native list: the
    delimiter between them, each in double quotes or bare; a bare directory
    does not start with a space and has no space right after a backslash,
    and holds no space at all when it is the only one. Then
    [convert_vpath_from_windows32] gives the canonical list of these
    directories (spaces escaped, one space between them), and
    [convert_Path_to_windows32] gives back a host-native list of the same
    directories in the same order, those with a space in double quotes. *)
Theorem path_list_round_trip (delim : ascii) (es : list (bool * cstring)) :
  delimiter_ok delim -> es <> [] ->
  Forall (entry_ok delim (1 <? List.length es)) es ->
  convert_vpath_from_windows32 (native_list delim es) delim
  = Ok (Some (canonical_list (map snd es)))
  /\ round_trip (native_list delim es) delim
     = Ok (Some (join delim (map requoted (map snd es))))
  /\ native_dirs delim (native_list delim es) = map snd es
  /\ native_dirs delim (join delim (map requoted (map snd es)))
     = map snd es.
Proof.
  intros Hdelim Hes Hok.
  assert (Hds : Forall (directory_ok delim) (map snd es)).
  { apply Forall_map. eapply Forall_impl; [|exact Hok].
    intros e He. exact (proj1 He). }
  assert (Hne : map snd es <> [])
    by (destruct es; [congruence | discriminate]).
  assert (Hq : delim <> DQUOTE) by (destruct Hdelim as [_ [_ [H _]]]; exact H).
  rewrite Forall_forall in Hok, Hds.
  repeat apply conj.
  - apply convert_from_native; [assumption | assumption|].
    apply Forall_forall. exact Hok.
  - unfold round_trip. rewrite convert_from_native;
      [|assumption | assumption | apply Forall_forall; exact Hok].
    cbn [bind]. apply convert_to_native; [assumption|].
    apply Forall_forall. exact Hds.
  - unfold native_list. apply native_dirs_join; [assumption | assumption|].
    intros e He. destruct (Hok e He) as [[_ [H1 [_ [H2 _]]]] _].
    split; [|split; assumption].
    unfold native_entry. destruct (fst e); auto.
  - rewrite <- (map_id (map snd es)) at 2.
    apply native_dirs_join; [assumption | assumption|].
    intros d Hd. destruct (Hds d Hd) as [_ [H1 [_ [H2 _]]]].
    split; [|split; assumption].
    unfold requoted. destruct (has_space d); auto.
Qed.

(** The claim as stated fails: the host-native list of the one directory
    C:\Program Files, written without quotes, comes back as the list of the
    two directories C:\Program and Files. *)
Lemma round_trip_counterexample :
  native_dirs ";" (cs "C:\Program Files") = [cs "C:\Program Files"]
  /\ round_trip (cs "C:\Program Files") ";"
     = Ok (Some (cs "C:\Program;Files"))
  /\ native_dirs ";" (cs "C:\Program;Files")
     = [cs "C:\Program"; cs "Files"].
Proof. repeat apply conj; vm_compute; reflexivity. Qed.

(** The list "C:\Program Files";D:\src;E:\My Documents\x. *)
Lemma path_list_round_trip_witness :
  convert_vpath_from_windows32 (native_list ";" three_directories) ";"
  = Ok (Some (canonical_list (map snd three_directories)))
  /\ round_trip (native_list ";" three_directories) ";"
     = Ok (Some (join ";" (map requoted (map snd three_directories))))
  /\ native_dirs ";" (native_list ";" three_directories)
     = map snd three_directories
  /\ native_dirs ";" (join ";" (map requoted (map snd three_directories)))
     = map snd three_directories.
Proof.
  apply (path_list_round_trip ";" three_directories).
  - repeat split; discriminate.
  - discriminate.
  - unfold three_directories.
    apply Forall_cons;
      [|apply Forall_cons; [|apply Forall_cons; [|apply Forall_nil]]];
      unfold entry_ok, directory_ok, bare_ok; simpl; repeat split;
      first [ discriminate
            | intros H; discriminate H
            | intros H; repeat (destruct H as [H|H]; [discriminate H|]);
              exact H
            | intros _ H; repeat (destruct H as [H|H]; [discriminate H|]);
              exact H ].
Defined.

(** ** The lists as the builder leaves them *)

Lemma skip_separators_incl (E : env) (p : cstring) (c : ascii) :
  In c (skip_separators E p) -> In c p.
Proof.
  induction p as [|x p IH]; simpl; [auto|].
  destruct (STOP_SET_BLANK_PATHSEP E x); simpl; auto.
Qed.

(** The entries hold bytes of the directory string only. *)
Lemma raw_entries_incl (E : env) (fuel : nat) :
  forall (p e : cstring) (c : ascii),
    In e (raw_entries fuel E p) -> In c e -> In c p.
Proof.
  induction fuel as [|fuel IH]; intros p e c He Hc; [destruct He|].
  destruct p as [|x p]; [destruct He|].
  rewrite raw_entries_round in He by discriminate.
  destruct He as [<- | He].
  - eapply firstn_incl. exact Hc.
  - eapply skipn_incl. eapply skip_separators_incl.
    eapply IH; eassumption.
Qed.

Lemma surviving_entries_cstrings (E : env) (dirpath : cstring) :
  is_cstring dirpath -> Forall is_cstring (surviving_entries E dirpath).
Proof.
  intros Hd. apply Forall_forall. intros e He Hnul. apply Hd.
  unfold surviving_entries in He. apply filter_In in He.
  destruct He as [He _]. apply in_map_iff in He.
  destruct He as [raw [<- Hraw]].
  apply skip_separators_incl with (E := E).
  eapply raw_entries_incl; [exact Hraw|].
  unfold canonical_entry in Hnul. eapply firstn_incl. exact Hnul.
Qed.

(** A listing that the builder makes from a C string is well formed: its
    entries are C strings and [maxlen] bounds their lengths. *)
Lemma new_listing_ok (E : env) (pat dirpath : cstring) (goal : Z) :
  is_cstring dirpath ->
  listing_ok (new_listing E pat (surviving_entries E dirpath) goal).
Proof.
  intros Hd. unfold listing_ok, new_listing. simpl.
  pose proof (surviving_entries_cstrings E dirpath Hd) as Hcs.
  rewrite Forall_forall in *. intros e He. split; [apply Hcs; exact He|].
  assert (H : Forall (fun k => k <= list_max
                                      (map strlen (surviving_entries E dirpath)))
                (map strlen (surviving_entries E dirpath)))
    by (apply list_max_le; apply Nat.le_refl).
  rewrite Forall_forall in H. apply H. apply in_map. exact He.
Qed.

(** The GPATH list that [build_vpath_lists] makes is well formed. *)
Lemma build_vpath_lists_gpaths_ok (E : env) (VPATH GPATH : cstring)
  (g g' : globals) (gps : vpath) :
  WINDOWS32 E = false -> is_cstring GPATH -> GPATH <> [] ->
  build_vpath_lists E VPATH GPATH g = Ok g' ->
  gpaths g' = Some gps -> listing_ok gps.
Proof.
  intros Hw Hcs Hne. unfold build_vpath_lists, bind.
  destruct (match VPATH with
            | [] => _
            | _ :: _ => _
            end) as [g1|]; [|discriminate].
  destruct GPATH as [|c GPATH]; [congruence|].
  rewrite construct_vpath_list_adds. unfold canonical_dirpath.
  rewrite Hw. unfold bind.
  destruct (surviving_entries E (c :: GPATH)) as [|e es] eqn:Hes.
  - intros H. injection H as H. subst g'. simpl. discriminate.
  - intros H. injection H as H. subst g'. simpl.
    intros H. injection H as H. subst gps. rewrite <- Hes.
    apply new_listing_ok. exact Hcs.
Qed.

(** [build_vpath_lists] puts the chain in the order of the directives:
    each directive pushes its listing at the head, and the chain is
    reversed once. *)
Lemma apply_directives_chain (E : env) (ds : list directive) :
  WINDOWS32 E = false ->
  Forall (fun d => surviving_entries E (d_dirs d) <> []) ds ->
  forall g : globals,
    apply_directives E ds g
    = Ok (set_vpaths g (rev (map (declared E) ds) ++ vpaths g)).
Proof.
  intros Hw Hds. induction Hds as [|d ds Hd Hds IH]; intros g.
  - simpl. rewrite set_vpaths_same. reflexivity.
  - simpl apply_directives. rewrite construct_vpath_list_adds.
    unfold canonical_dirpath. rewrite Hw. unfold bind.
    destruct (surviving_entries E (d_dirs d)) as [|e es] eqn:Hes;
      [congruence|].
    assert (Hdecl : declared E d
                    = new_listing E (d_pattern d) (e :: es) (d_goal d))
      by (unfold declared; rewrite Hes; reflexivity).
    rewrite IH. cbn [map rev]. rewrite Hdecl, <- app_assoc. reflexivity.
Qed.

Lemma declaration_order (E : env) (ds : list directive) (g : globals) :
  WINDOWS32 E = false ->
  Forall (fun d => surviving_entries E (d_dirs d) <> []) ds ->
  vpaths g = [] ->
  (do g' <- apply_directives E ds g; build_vpath_lists E [] [] g')
  = Ok (set_vpaths g (map (declared E) ds)).
Proof.
  intros Hw Hds Hg. rewrite apply_directives_chain by assumption.
  unfold bind, build_vpath_lists. simpl.
  rewrite Hg, app_nil_r, rev_involutive. reflexivity.
Qed.
(** ** The entry array of [construct_vpath_list] is large enough *)

Lemma count_elements_acc (E : env) (p : cstring) :
  forall (esc : bool) (n : nat),
    count_elements E p esc n = n + count_elements E p esc 0.
Proof.
  induction p as [|c p IH]; intros esc n; simpl.
  - lia.
  - destruct ((negb esc && ISBLANK c) || STOP_SET_PATHSEP E c).
    + rewrite (IH _ (S n)), (IH _ 1). lia.
    + apply IH.
Qed.

Lemma stop_not_backslash (E : env) (c : ascii) :
  STOP_SET_BLANK_PATHSEP E c = true -> c = BACKSLASH ->
  PATH_SEPARATOR_CHAR E = BACKSLASH.
Proof.
  intros Hstop ->. unfold STOP_SET_BLANK_PATHSEP in Hstop.
  change (ISBLANK BACKSLASH) with false in Hstop. cbn [orb] in Hstop.
  apply ascii_eqb_true in Hstop. congruence.
Qed.

(** From a position inside an entry, with the same escape state in both
    loops: the byte that ends the entry is counted. *)
Lemma entry_end_counted (E : env) (p : cstring) :
  forall (k : nat) (esc : bool) (n : nat),
    match skipn (entry_end E k esc p - k) p with
    | [] => True
    | t :: r =>
        STOP_SET_BLANK_PATHSEP E t = true
        /\ exists esc',
             S n + count_elements E r esc' 0 <= count_elements E p esc n
             /\ (esc' = true -> t = BACKSLASH)
    end.
Proof.
  induction p as [|c p IH]; intros k esc n.
  - simpl. rewrite Nat.sub_diag. exact I.
  - cbn [entry_end].
    destruct ((negb (Ascii.eqb c (PATH_SEPARATOR_CHAR E))
               || (HAVE_DOS_PATHS E && Ascii.eqb (PATH_SEPARATOR_CHAR E) COLON
                   && (k =? 1)
                   && match p with
                      | c1 :: _ => Ascii.eqb c1 SLASH || Ascii.eqb c1 BACKSLASH
                      | [] => false
                      end))
              && (negb (ISBLANK c) || esc)) eqn:Hgo.
    + pose proof (entry_end_bounds E p (S k)
                    (if Ascii.eqb c BACKSLASH then negb esc else false))
        as [Hlo _].
      replace (entry_end E (S k)
                 (if Ascii.eqb c BACKSLASH then negb esc else false) p - k)
        with (S (entry_end E (S k)
                   (if Ascii.eqb c BACKSLASH then negb esc else false) p
                 - S k)) by lia.
      cbn [skipn].
      specialize (IH (S k) (if Ascii.eqb c BACKSLASH then negb esc else false)
                    (if (negb esc && ISBLANK c) || STOP_SET_PATHSEP E c
                     then S n else n)).
      destruct (skipn _ p) as [|t r]; [exact I|].
      destruct IH as [Hstop [esc' [Hle Hesc]]].
      split; [exact Hstop|]. exists esc'. split; [|exact Hesc].
      cbn [count_elements].
      destruct ((negb esc && ISBLANK c) || STOP_SET_PATHSEP E c); lia.
    + rewrite Nat.sub_diag. cbn [skipn].
      assert (Hcount : (negb esc && ISBLANK c) || STOP_SET_PATHSEP E c = true).
      { unfold STOP_SET_PATHSEP.
        destruct (Ascii.eqb c (PATH_SEPARATOR_CHAR E)); [apply orb_true_r|].
        simpl in Hgo. destruct (ISBLANK c), esc; simpl in *;
          try discriminate; reflexivity. }
      split.
      * unfold STOP_SET_BLANK_PATHSEP. unfold STOP_SET_PATHSEP in Hcount.
        destruct (ISBLANK c); [reflexivity|].
        rewrite andb_false_r in Hcount. exact Hcount.
      * exists (if Ascii.eqb c BACKSLASH then negb esc else false).
        split.
        -- cbn [count_elements]. rewrite Hcount.
           rewrite (count_elements_acc E p _ (S n)). lia.
        -- destruct (Ascii.eqb c BACKSLASH) eqn:Hc; [|discriminate].
           intros _. apply ascii_eqb_true. exact Hc.
Qed.

(** Over the blanks and separators between two entries the count does not
    go down. *)
Lemma skip_separators_counted (E : env) (r : cstring) :
  forall esc : bool,
    (esc = true -> PATH_SEPARATOR_CHAR E = BACKSLASH) ->
    exists esc',
      count_elements E (skip_separators E r) esc' 0
      <= count_elements E r esc 0
      /\ (esc' = true -> PATH_SEPARATOR_CHAR E = BACKSLASH).
Proof.
  induction r as [|g r IH]; intros esc Hesc.
  - exists esc. split; [simpl; lia|exact Hesc].
  - cbn [skip_separators].
    destruct (STOP_SET_BLANK_PATHSEP E g) eqn:Hg.
    + destruct (IH (if Ascii.eqb g BACKSLASH then negb esc else false))
        as [esc' [Hle Hesc']].
      { destruct (Ascii.eqb g BACKSLASH) eqn:Hb; [|discriminate].
        intros _. apply (stop_not_backslash E g Hg).
        apply ascii_eqb_true. exact Hb. }
      exists esc'. split; [|exact Hesc'].
      cbn [count_elements].
      destruct ((negb esc && ISBLANK g) || STOP_SET_PATHSEP E g);
        [rewrite (count_elements_acc E r _ 1)|]; lia.
    + exists esc. split; [lia|exact Hesc].
Qed.

Lemma raw_entries_counted (E : env) (fuel : nat) :
  forall (p : cstring) (esc : bool),
    at_entry E p ->
    (esc = true -> PATH_SEPARATOR_CHAR E = BACKSLASH) ->
    List.length (raw_entries fuel E p) <= 1 + count_elements E p esc 0.
Proof.
  induction fuel as [|fuel IH]; intros p esc Hat Hesc; [simpl; lia|].
  destruct p as [|c p]; [simpl; lia|].
  rewrite raw_entries_round by discriminate.
  cbn [List.length].
  (* the first byte belongs to the entry *)
  simpl in Hat.
  assert (Hblank : ISBLANK c = false /\
                   Ascii.eqb c (PATH_SEPARATOR_CHAR E) = false).
  { unfold STOP_SET_BLANK_PATHSEP in Hat.
    apply orb_false_iff in Hat. exact Hat. }
  destruct Hblank as [Hblank Hsep].
  cbn [entry_end]. rewrite Hsep, Hblank. cbn [negb orb andb].
  set (esc1 := if Ascii.eqb c BACKSLASH then true else false).
  assert (Hsame : (if Ascii.eqb c BACKSLASH then negb esc else false) = esc1).
  { unfold esc1. destruct (Ascii.eqb c BACKSLASH) eqn:Hc; [|reflexivity].
    destruct esc; [|reflexivity].
    apply ascii_eqb_true in Hc. apply ascii_eqb_false in Hsep.
    rewrite (Hesc eq_refl) in Hsep. congruence. }
  pose proof (entry_end_bounds E p 1 esc1) as [Hlo _].
  pose proof (entry_end_counted E p 1 esc1 0) as Hend.
  replace (entry_end E 1 esc1 p) with (S (entry_end E 1 esc1 p - 1)) by lia.
  cbn [skipn].
  clearbody esc1.
  assert (Hc0 : count_elements E (c :: p) esc 0 = count_elements E p esc1 0).
  { cbn [count_elements]. rewrite Hsame.
    unfold STOP_SET_PATHSEP. rewrite Hsep, Hblank, andb_false_r.
    reflexivity. }
  rewrite Hc0.
  destruct (skipn (entry_end E 1 esc1 p - 1) p) as [|t r].
  - destruct fuel; simpl; lia.
  - destruct Hend as [Hstop [esc' [Hle Hesc']]].
    cbn [skip_separators]. rewrite Hstop.
    destruct (skip_separators_counted E r esc') as [esc'' [Hle' Hesc'']].
    { intros H. apply (stop_not_backslash E t Hstop). exact (Hesc' H). }
    specialize (IH (skip_separators E r) esc''
                  (skip_separators_at_entry E r) Hesc'').
    lia.
Qed.

(** X1. The array of the entries is large enough: for every directory
    string, the entries that the entry loop of [construct_vpath_list]
    stores, and the nil that ends them, are at most [maxelem], the number
    of pointers that were allocated. *)
Theorem entry_array_fits (E : env) (dirpath : cstring) :
  let p := skip_separators E dirpath in
  List.length (fst (parse_entries (strlen p) E p [] 0)) + 1 <= maxelem E p.
Proof.
  intros p. unfold maxelem.
  rewrite (parse_entries_surviving E (strlen p) p [] 0)
    by apply skip_separators_at_entry.
  cbn [fst app].
  pose proof (filter_length_le (fun e => negb (streq e [DOT]))
                (map (canonical_entry E) (raw_entries (strlen p) E p))) as Hf.
  rewrite length_map in Hf.
  pose proof (raw_entries_counted E (strlen p) p false
                (skip_separators_at_entry E dirpath)) as Hr.
  rewrite (count_elements_acc E p false 2).
  assert (false = true -> PATH_SEPARATOR_CHAR E = BACKSLASH) as H
      by discriminate.
  specialize (Hr H). lia.
Qed.
(** ** The two conversions of [w32/pathstuff.c] always return *)

Lemma skip_blanks_incl (s : list ascii) (c : ascii) :
  In c (skip_blanks s) -> In c s.
Proof.
  induction s as [|x s IH]; simpl; [tauto|].
  destruct (ISBLANK x); [intros H; right; apply IH; exact H|].
  simpl. tauto.
Qed.

Lemma skip_blanks_head (s : list ascii) (c : ascii) (t : list ascii) :
  skip_blanks s = c :: t -> ISBLANK c = false.
Proof.
  induction s as [|x s IH]; simpl; [discriminate|].
  destruct (ISBLANK x) eqn:Hx; [exact IH|].
  intros H. injection H as <- _. exact Hx.
Qed.

Lemma skip_blanks_idem (s : list ascii) :
  skip_blanks (skip_blanks s) = skip_blanks s.
Proof.
  destruct (skip_blanks s) as [|c t] eqn:Hs; [reflexivity|].
  apply skip_blanks_none. apply (skip_blanks_head s c t Hs).
Qed.

Lemma from_loop_no_quote (delim : ascii) (df : bool) (fuel : nat) :
  forall (src : cstring) (tgt : list ascii) (instring isescaped : bool),
    ~ In DQUOTE tgt ->
    ~ In DQUOTE
        (from_windows32_loop fuel delim df src tgt instring isescaped).
Proof.
  induction fuel as [|fuel IH]; intros src tgt instring isescaped Htgt;
    [exact Htgt|].
  destruct src as [|c rest]; [exact Htgt|].
  cbn [from_windows32_loop].
  destruct (Ascii.eqb c DQUOTE) eqn:Hq; [apply IH; exact Htgt|].
  destruct (ISBLANK c && negb isescaped && (instring || df)).
  - apply IH. simpl. intros [H|[H|H]]; [discriminate H|discriminate H|].
    exact (Htgt H).
  - destruct (Ascii.eqb c delim && negb instring).
    + apply IH. simpl. intros [H|H]; [discriminate H|].
      apply Htgt. apply skip_blanks_incl. exact H.
    + apply IH. simpl. intros [H|H]; [|exact (Htgt H)].
      apply ascii_eqb_false in Hq. congruence.
Qed.

Lemma last_char_rev (c : ascii) (t : list ascii) :
  last_char (rev (c :: t)) = Some c.
Proof.
  simpl. rewrite last_char_app by discriminate. reflexivity.
Qed.

(** X2. [convert_vpath_from_windows32] returns for every input: after
    every round of the conversion loop the bytes written are at most the
    count of the first pass, so they fit the allocation and the assertion
    holds. The result is null exactly for an empty or blank string;
    otherwise it holds no double quote, does not end in a blank, and is no
    longer than the count. *)
Theorem convert_vpath_from_windows32_fits (Path : cstring) (delim : ascii) :
  let src := skip_blanks Path in
  let count := from_windows32_count delim src false false 0 in
  (forall rounds : nat,
      List.length
        (from_windows32_loop rounds delim (fst count) src [] false false)
      <= snd count)
  /\ exists r,
       convert_vpath_from_windows32 Path delim = Ok r
       /\ (r = None <-> src = [])
       /\ (forall c, r = Some c ->
             ~ In DQUOTE c /\ strlen c <= snd count
             /\ forall b, last_char c = Some b -> ISBLANK b = false).
Proof.
  intros src count.
  assert (Hfit : forall rounds : nat,
             List.length
               (from_windows32_loop rounds delim (fst count) src [] false
                  false)
             <= snd count).
  { intros rounds. unfold count. rewrite from_count_size.
    apply (from_loop_length delim (fst count) rounds src [] false false). }
  split; [exact Hfit|].
  unfold convert_vpath_from_windows32. fold src.
  destruct src as [|c0 src0] eqn:Hsrc.
  - exists None. repeat split; auto; discriminate.
  - fold count. destruct count as [df size] eqn:Hcount.
    cbn [fst snd] in Hfit |- *.
    set (tgt := from_windows32_loop (strlen (c0 :: src0)) delim df
                  (c0 :: src0) [] false false).
    pose proof (Hfit (strlen (c0 :: src0))) as Hlen. fold tgt in Hlen.
    apply Nat.leb_le in Hlen. unfold bind, assert. rewrite Hlen.
    exists (Some (rev (skip_blanks tgt))).
    split; [reflexivity|]. split; [split; discriminate|].
    intros c Hc. injection Hc as <-.
    split; [|split].
    + intros H. apply in_rev in H. apply skip_blanks_incl in H.
      revert H. apply from_loop_no_quote. simpl. tauto.
    + unfold strlen. rewrite length_rev.
      pose proof (skip_blanks_length tgt). apply Nat.leb_le in Hlen. lia.
    + intros b Hb. destruct (skip_blanks tgt) as [|x t] eqn:Ht;
        [discriminate Hb|].
      rewrite last_char_rev in Hb. injection Hb as <-.
      apply (skip_blanks_head tgt x t Ht).
Qed.

(** X3. [convert_Path_to_windows32] returns for every input: the dry run
    counts exactly the bytes that the conversion writes, so the assertion
    on the size holds and the allocation is neither too small nor too
    large. The result is null exactly for an empty or blank string. *)
Theorem convert_Path_to_windows32_fits (Path : cstring) (delim : ascii) :
  exists r,
    convert_Path_to_windows32 Path delim = Ok r
    /\ (r = None <-> skip_blanks Path = [])
    /\ (forall w, r = Some w ->
          strlen w = to_windows32_size (skip_blanks Path) false false 0
          /\ w = to_windows32_loop delim (skip_blanks Path) [] [] false
                   false).
Proof.
  unfold convert_Path_to_windows32.
  destruct (skip_blanks Path) as [|c0 src0] eqn:Hsrc.
  - exists None. repeat split; auto; discriminate.
  - pose proof (to_size_length delim (List.length (c0 :: src0)) (c0 :: src0)
                  [] [] false false 0 (le_n _) eq_refl) as Hsize.
    unfold bind, assert. rewrite Hsize, Nat.eqb_refl.
    eexists. split; [reflexivity|]. split; [split; discriminate|].
    intros w Hw. injection Hw as <-. split; reflexivity.
Qed.

Lemma from_count_no_delimiter (delim : ascii) (src : cstring) :
  forall size : nat,
    ~ In DQUOTE src -> ~ In delim src ->
    fst (from_windows32_count delim src false false size) = false.
Proof.
  induction src as [|c src IH]; intros size Hq Hd; [reflexivity|].
  cbn [from_windows32_count].
  assert (Hc : Ascii.eqb c DQUOTE = false).
  { apply ascii_eqb_false. intros ->. apply Hq. left. reflexivity. }
  assert (Hc' : Ascii.eqb c delim = false).
  { apply ascii_eqb_false. intros ->. apply Hd. left. reflexivity. }
  rewrite Hc, Hc'. cbn [andb].
  apply IH; intros H; [apply Hq|apply Hd]; right; exact H.
Qed.

Lemma from_loop_plain (delim : ascii) (fuel : nat) :
  forall (src : cstring) (tgt : list ascii) (isescaped : bool),
    ~ In DQUOTE src -> ~ In delim src -> List.length src <= fuel ->
    from_windows32_loop fuel delim false src tgt false isescaped
    = rev src ++ tgt.
Proof.
  induction fuel as [|fuel IH]; intros src tgt isescaped Hq Hd Hlen.
  - destruct src; [reflexivity|simpl in Hlen; lia].
  - destruct src as [|c src]; [reflexivity|].
    cbn [from_windows32_loop].
    assert (Hc : Ascii.eqb c DQUOTE = false).
    { apply ascii_eqb_false. intros ->. apply Hq. left. reflexivity. }
    assert (Hc' : Ascii.eqb c delim = false).
    { apply ascii_eqb_false. intros ->. apply Hd. left. reflexivity. }
    rewrite Hc, Hc'. cbn [orb andb]. rewrite andb_false_r.
    rewrite IH.
    + simpl. rewrite <- app_assoc. reflexivity.
    + intros H. apply Hq. right. exact H.
    + intros H. apply Hd. right. exact H.
    + simpl in Hlen. lia.
Qed.

(** The conversion of a string without a double quote and without the
    delimiter. *)
Lemma convert_plain_path (Path : cstring) (delim : ascii) :
  ~ In DQUOTE Path -> ~ In delim Path ->
  convert_vpath_from_windows32 Path delim
  = Ok (match skip_blanks Path with
        | [] => None
        | s => Some (rev (skip_blanks (rev s)))
        end).
Proof.
  intros Hq Hd.
  unfold convert_vpath_from_windows32.
  assert (Hq' : ~ In DQUOTE (skip_blanks Path))
    by (intros H; apply Hq; apply skip_blanks_incl; exact H).
  assert (Hd' : ~ In delim (skip_blanks Path))
    by (intros H; apply Hd; apply skip_blanks_incl; exact H).
  destruct (skip_blanks Path) as [|c0 src0]; [reflexivity|].
  pose proof (from_count_no_delimiter delim (c0 :: src0) 0 Hq' Hd') as Hdf.
  pose proof (from_count_size delim (c0 :: src0) false false 0) as Hsize.
  destruct (from_windows32_count delim (c0 :: src0) false false 0)
    as [df size].
  cbn [fst snd] in Hdf, Hsize. subst df.
  pose proof (from_loop_length delim false (strlen (c0 :: src0)) (c0 :: src0)
                [] false false) as Hlen.
  rewrite (from_loop_plain delim (strlen (c0 :: src0)) (c0 :: src0) []
             false Hq' Hd' (le_n _)) in Hlen |- *.
  rewrite app_nil_r in Hlen |- *.
  assert (Hle : (List.length (rev (c0 :: src0)) <=? size) = true).
  { apply Nat.leb_le. change (List.length (@nil ascii)) with 0 in Hlen.
    lia. }
  unfold bind, assert. rewrite Hle. reflexivity.
Qed.

(** X4. "Strings already in canonical format (no change)": a string
    without a double quote and without the delimiter comes back from
    [convert_vpath_from_windows32] as it is, less the blanks at its start
    and at its end; no space is escaped and none is removed inside. *)
Theorem canonical_path_unchanged (Path : cstring) (delim : ascii) :
  ~ In DQUOTE Path -> ~ In delim Path ->
  convert_vpath_from_windows32 Path delim
  = Ok (match skip_blanks Path with
        | [] => None
        | s => Some (rev (skip_blanks (rev s)))
        end).
Proof.
  intros Hq Hd. apply convert_plain_path; assumption.
Qed.

(** A list of two directories in canonical format, between blanks. *)
Lemma canonical_path_unchanged_witness :
  convert_vpath_from_windows32 (cs "  /usr/include /opt/my\ dir  ") ";"
  = Ok (match skip_blanks (cs "  /usr/include /opt/my\ dir  ") with
        | [] => None
        | s => Some (rev (skip_blanks (rev s)))
        end).
Proof.
  apply (canonical_path_unchanged (cs "  /usr/include /opt/my\ dir  ") ";").
  - simpl. intros H.
    repeat (destruct H as [H|H]; [discriminate H|]). exact H.
  - simpl. intros H.
    repeat (destruct H as [H|H]; [discriminate H|]). exact H.
Defined.
(** ** The lists that the builder and [build_vpath_lists] leave *)

Lemma build_vpath_lists_result (E : env) (VPATH GPATH : cstring)
  (g : globals) :
  WINDOWS32 E = false ->
  build_vpath_lists E VPATH GPATH g
  = Ok {| vpaths := rev (vpaths g);
          general_vpath := variable_listing E VPATH (general_vpath g);
          gpaths := variable_listing E GPATH (gpaths g) |}.
Proof.
  intros Hw. unfold build_vpath_lists.
  assert (Hadd : forall (value : cstring) (g0 : globals),
             construct_vpath_list E (Some [PERCENT]) (Some value) 0
               (set_vpaths g0 [])
             = Ok (set_vpaths g0
                     match surviving_entries E value with
                     | [] => []
                     | es => [new_listing E [PERCENT] es 0]
                     end)).
  { intros value g0. rewrite construct_vpath_list_adds.
    unfold canonical_dirpath. rewrite Hw. unfold bind.
    destruct (surviving_entries E value); reflexivity. }
  destruct VPATH as [|v VPATH]; destruct GPATH as [|p GPATH];
    unfold bind; rewrite ?Hadd; unfold variable_listing;
    try (destruct (surviving_entries E (v :: VPATH)));
    try (destruct (surviving_entries E (p :: GPATH)));
    reflexivity.
Qed.

(** X5. The lists after the makefiles are read: the directives, each with
    a directory string of which an entry survives, leave their listings in
    the order of their declaration once [build_vpath_lists] has reversed
    the chain; the general listing and the GPATH listing are built from the
    values of the two variables, with the pattern [%] and no target goal,
    and a value that is not empty but has no surviving entry leaves no
    listing. *)
Theorem lists_after_reading (E : env) (ds : list directive)
  (VPATH GPATH : cstring) (g : globals) :
  WINDOWS32 E = false ->
  Forall (fun d => surviving_entries E (d_dirs d) <> []) ds ->
  vpaths g = [] ->
  (do g' <- apply_directives E ds g; build_vpath_lists E VPATH GPATH g')
  = Ok {| vpaths := map (declared E) ds;
          general_vpath := variable_listing E VPATH (general_vpath g);
          gpaths := variable_listing E GPATH (gpaths g) |}.
Proof.
  intros Hw Hds Hg. rewrite apply_directives_chain by assumption.
  unfold bind. rewrite build_vpath_lists_result by exact Hw.
  simpl. rewrite Hg, app_nil_r, rev_involutive. reflexivity.
Qed.

(** Two directives, a [VPATH] of two entries and a [GPATH] of "." only. *)
Lemma lists_after_reading_witness :
  (do g' <- apply_directives bare two_directives no_lists;
   build_vpath_lists bare (cs "gen:.") (cs ".") g')
  = Ok {| vpaths := map (declared bare) two_directives;
          general_vpath :=
            variable_listing bare (cs "gen:.") (general_vpath no_lists);
          gpaths := variable_listing bare (cs ".") (gpaths no_lists) |}.
Proof.
  apply (lists_after_reading bare two_directives (cs "gen:.") (cs ".")
           no_lists).
  - reflexivity.
  - unfold two_directives.
    apply Forall_cons; [|apply Forall_cons; [|apply Forall_nil]];
      vm_compute; discriminate.
  - reflexivity.
Defined.

Lemma gpath_loop_bool (gp : list cstring) (file0 : cstring) (len : nat) :
  len <= strlen file0 -> Forall is_cstring gp ->
  gpath_loop gp file0 len
  = Ok (existsb (fun e => streq e (firstn len file0)) gp).
Proof.
  intros Hlen Hgp.
  destruct (gpath_loop_exact gp file0 len Hlen Hgp) as [Hiff Hor].
  destruct (existsb (fun e => streq e (firstn len file0)) gp) eqn:Hex.
  - apply Hiff. apply existsb_exists in Hex. destruct Hex as [e [He Heq]].
    exists e. split; [exact He|]. apply streq_eq. exact Heq.
  - destruct Hor as [Hor|Hor]; [|exact Hor].
    apply Hiff in Hor. destruct Hor as [e [He Heq]].
    assert (existsb (fun e => streq e (firstn len file0)) gp = true).
    { apply existsb_exists. exists e. split; [exact He|].
      apply streq_eq. exact Heq. }
    congruence.
Qed.

Lemma list_max_In (l : list nat) (x : nat) : In x l -> x <= list_max l.
Proof.
  intros Hx. pose proof (proj1 (list_max_le l (list_max l)) (le_n _)) as H.
  rewrite Forall_forall in H. apply H. exact Hx.
Qed.

(** X6. The exclusion test on the list of the [GPATH] variable: after
    [build_vpath_lists] has read a non-empty [GPATH], [gpath_search] says
    of the first [len] bytes of a name whether they are, byte for byte, one
    of the entries that survive the parsing of [GPATH]; it never reads
    outside an entry. *)
Theorem gpath_of_variable (E : env) (VPATH GPATH : cstring) (g : globals)
  (file0 : cstring) (len : nat) :
  WINDOWS32 E = false -> is_cstring GPATH -> GPATH <> [] ->
  len <= strlen file0 ->
  (do g' <- build_vpath_lists E VPATH GPATH g; gpath_search g' file0 len)
  = Ok (existsb (fun e => streq e (firstn len file0))
          (surviving_entries E GPATH)).
Proof.
  intros Hw Hcs Hne Hlen.
  rewrite build_vpath_lists_result by exact Hw.
  unfold bind, gpath_search. cbn [gpaths].
  pose proof (surviving_entries_cstrings E GPATH Hcs) as Hes.
  unfold variable_listing.
  destruct GPATH as [|c GPATH]; [congruence|].
  destruct (surviving_entries E (c :: GPATH)) as [|e es]; [reflexivity|].
  cbn [maxlen searchpath new_listing].
  destruct (len <=? list_max (map strlen (e :: es))) eqn:Hmax.
  - apply gpath_loop_bool; assumption.
  - apply Nat.leb_gt in Hmax.
    destruct (existsb (fun e0 => streq e0 (firstn len file0)) (e :: es))
      eqn:Hex; [|reflexivity].
    apply existsb_exists in Hex. destruct Hex as [x [Hx Heq]].
    apply streq_eq in Heq.
    assert (Hin : In (strlen x) (map strlen (e :: es)))
      by (apply in_map; exact Hx).
    apply list_max_In in Hin.
    rewrite Heq in Hin. unfold strlen in Hin at 1.
    rewrite length_firstn in Hin. unfold strlen in Hlen. lia.
Qed.

(** The names src/foo and lib/ against the [GPATH] value "src/foo:lib/". *)
Lemma gpath_of_variable_witness :
  (do g' <- build_vpath_lists bare [] (cs "src/foo:lib/") no_lists;
   gpath_search g' (cs "src/foo.c") 7)
  = Ok (existsb (fun e => streq e (firstn 7 (cs "src/foo.c")))
          (surviving_entries bare (cs "src/foo:lib/"))).
Proof.
  apply (gpath_of_variable bare [] (cs "src/foo:lib/") no_lists
           (cs "src/foo.c") 7).
  - reflexivity.
  - unfold is_cstring. simpl. intros H.
    repeat (destruct H as [H|H]; [discriminate H|]). exact H.
  - discriminate.
  - simpl. lia.
Defined.

Lemma canonical_dirpath_returns (E : env) (dirpath : cstring) :
  exists d, canonical_dirpath E dirpath = Ok d.
Proof.
  unfold canonical_dirpath. destruct (WINDOWS32 E); [|eexists; reflexivity].
  unfold convert_vpath_from_windows32.
  destruct (skip_blanks dirpath) as [|c0 src0]; [eexists; reflexivity|].
  pose proof (from_count_size ";" (c0 :: src0) false false 0) as Hsize.
  destruct (from_windows32_count ";" (c0 :: src0) false false 0)
    as [df size].
  cbn [snd] in Hsize.
  pose proof (from_loop_length ";" df (strlen (c0 :: src0)) (c0 :: src0)
                [] false false) as Hlen.
  change (List.length (@nil ascii)) with 0 in Hlen.
  assert (Hle : (List.length
                   (from_windows32_loop (strlen (c0 :: src0)) ";" df
                      (c0 :: src0) [] false false) <=? size) = true)
    by (apply Nat.leb_le; lia).
  unfold bind, assert. rewrite Hle. eexists. reflexivity.
Qed.

Lemma filter_idem {A : Type} (f : A -> bool) (l : list A) :
  filter f (filter f l) = filter f l.
Proof.
  apply filter_unchanged. intros x Hx. apply filter_In in Hx. tauto.
Qed.

Lemma new_listing_same_category (E : env) (pat : cstring)
  (es : list cstring) (goal : Z) :
  same_key E None goal (new_listing E pat es goal) = true.
Proof.
  unfold same_key, listing_matches, new_listing. simpl.
  apply Z.eqb_refl.
Qed.

(** X7. A directive and its removal: a directive with a directory string,
    followed by the removal of its pattern in its category, leaves what
    the removal alone leaves, whatever the directory string was; so does
    the removal of the whole category; and a removal done twice is the
    removal done once. None of them fails. *)
Theorem directive_then_removal (E : env) (pat dirpath : cstring) (goal : Z)
  (g : globals) :
  (do g1 <- construct_vpath_list E (Some pat) (Some dirpath) goal g;
   construct_vpath_list E (Some pat) None goal g1)
  = construct_vpath_list E (Some pat) None goal g
  /\ (do g1 <- construct_vpath_list E (Some pat) (Some dirpath) goal g;
      construct_vpath_list E None None goal g1)
     = construct_vpath_list E None None goal g
  /\ (do g1 <- construct_vpath_list E (Some pat) None goal g;
      construct_vpath_list E (Some pat) None goal g1)
     = construct_vpath_list E (Some pat) None goal g
  /\ exists g', construct_vpath_list E (Some pat) None goal g = Ok g'.
Proof.
  assert (Hadd : forall po : option cstring,
             same_key E po goal
               (new_listing E pat (surviving_entries E []) goal) = true ->
             (forall es, same_key E po goal (new_listing E pat es goal)
                         = true) ->
             (do g1 <- construct_vpath_list E (Some pat) (Some dirpath) goal
                         g;
              construct_vpath_list E po None goal g1)
             = construct_vpath_list E po None goal g).
  { intros po _ Hkey. rewrite construct_vpath_list_adds.
    destruct (canonical_dirpath_returns E dirpath) as [d ->].
    unfold bind. destruct d as [d|]; [|reflexivity].
    destruct (surviving_entries E d) as [|e es]; [reflexivity|].
    rewrite !construct_vpath_list_removes.
    cbn [vpaths set_vpaths filter general_vpath gpaths].
    rewrite Hkey. reflexivity. }
  split; [|split; [|split]].
  - apply Hadd; [apply new_listing_same_key|].
    intros es. apply new_listing_same_key.
  - apply Hadd; [apply new_listing_same_category|].
    intros es. apply new_listing_same_category.
  - rewrite !construct_vpath_list_removes. unfold bind.
    rewrite construct_vpath_list_removes.
    cbn [vpaths set_vpaths general_vpath gpaths].
    rewrite filter_idem. reflexivity.
  - rewrite construct_vpath_list_removes. eexists. reflexivity.
Qed.
(** ** The result objects of [vpath_search] *)

(** The two objects that the per-list search never touches. *)
Lemma mentioned_keeps (E : env) (is_target : bool) (f : file) (s : scan) :
  at_vpath_index (snd (mentioned E is_target f s)) = at_vpath_index (out s)
  /\ at_target_path (snd (mentioned E is_target f s))
     = at_target_path (out s).
Proof.
  unfold mentioned.
  destruct ((negb is_target || filedef.is_target f) && mtime_live s
            && ((last_mtime f =? OLD_MTIME E)%Z
                || (last_mtime f =? NEW_MTIME E)%Z));
    split; reflexivity.
Qed.

Lemma try_directory_keeps (E : env) (is_target is_target_path : bool)
  (path_index : bool) (file0 filename : cstring) (name_dplen flen : nat)
  (i : nat) (dir : cstring) (s : scan) (r : round) :
  try_directory E is_target is_target_path path_index file0 filename
    name_dplen flen i dir s = Ok r ->
  let m' := match r with Return _ m' => m' | Continue s' => out s' end in
  at_vpath_index m' = at_vpath_index (out s)
  /\ at_target_path m' = at_target_path (out s).
Proof.
  unfold try_directory, bind. intros H.
  destruct (build_name E (name s) dir file0 filename name_dplen flen)
    as [[nm p]|]; [|discriminate H].
  destruct (cstr nm) as [candidate|]; [|discriminate H].
  assert (Hstage :
    at_vpath_index
      (snd match lookup_file E candidate with
           | Some f => mentioned E is_target f s
           | None => (exists_ s, mtime_live s, out s)
           end) = at_vpath_index (out s)
    /\ at_target_path
         (snd match lookup_file E candidate with
              | Some f => mentioned E is_target f s
              | None => (exists_ s, mtime_live s, out s)
              end) = at_target_path (out s)).
  { destruct (lookup_file E candidate) as [f|].
    - apply mentioned_keeps.
    - split; reflexivity. }
  destruct (match lookup_file E candidate with
            | Some f => mentioned E is_target f s
            | None => (exists_ s, mtime_live s, out s)
            end) as [[ex live] m].
  cbn [snd] in Hstage. destruct Hstage as [Hv Ht]. rewrite <- Hv, <- Ht.
  clear Hv Ht. unfold assert in H. cbv zeta in H.
  repeat match type of H with
         | context [match ?x with _ => _ end] =>
             destruct x; try discriminate H
         end;
    injection H as <-; split; reflexivity.
Qed.

Lemma scan_directories_keeps (E : env) (is_target is_target_path : bool)
  (path_index : bool) (file0 filename : cstring) (name_dplen flen : nat)
  (vpath : list cstring) :
  forall (i : nat) (s : scan) (r : option cstring) (m' : mem),
    scan_directories E is_target is_target_path path_index file0 filename
      name_dplen flen i vpath s = Ok (r, m') ->
    at_vpath_index m' = at_vpath_index (out s)
    /\ at_target_path m' = at_target_path (out s).
Proof.
  induction vpath as [|dir vpath IH]; intros i s r m'; simpl.
  - unfold bind, assert. destruct (tgt_name s).
    + destruct (0 <? tgt_len s); [|discriminate].
      destruct is_target_path; [|discriminate].
      destruct (strcache_add_len _ _); [|discriminate].
      intros [= _ <-].
      destruct (mtime_live s), path_index; split; reflexivity.
    + intros [= _ <-]. split; reflexivity.
  - unfold bind.
    destruct (try_directory E is_target is_target_path path_index file0
                filename name_dplen flen i dir s) as [rd|] eqn:Hr;
      [|discriminate].
    apply try_directory_keeps in Hr.
    destruct rd as [found m|s'].
    + intros [= _ <-]. exact Hr.
    + intros H. apply IH in H. destruct H as [-> ->]. exact Hr.
Qed.

Lemma selective_vpath_search_keeps (E : env) (path : vpath)
  (file0 : cstring) (mtime_ptr path_index : bool) (m m' : mem)
  (r : option cstring) :
  selective_vpath_search E path file0 mtime_ptr path_index m = Ok (r, m') ->
  at_vpath_index m' = at_vpath_index m
  /\ at_target_path m' = at_target_path m.
Proof.
  unfold selective_vpath_search. intros H.
  apply scan_directories_keeps in H. exact H.
Qed.

(** A round that does not return leaves the result objects alone. *)
Lemma try_directory_continue_out (E : env) (is_target is_target_path : bool)
  (path_index : bool) (file0 filename : cstring) (name_dplen flen : nat)
  (i : nat) (dir : cstring) (s s' : scan) :
  try_directory E is_target is_target_path path_index file0 filename
    name_dplen flen i dir s = Ok (Continue s') ->
  out s' = out s.
Proof.
  unfold try_directory, bind. intros H.
  destruct (build_name E (name s) dir file0 filename name_dplen flen)
    as [[nm p]|]; [|discriminate H].
  destruct (cstr nm) as [candidate|]; [|discriminate H].
  assert (Hstage :
    forall live m,
      match lookup_file E candidate with
      | Some f => mentioned E is_target f s
      | None => (exists_ s, mtime_live s, out s)
      end = (false, live, m) -> m = out s).
  { intros live m. destruct (lookup_file E candidate) as [f|].
    - apply mentioned_not_exists.
    - intros [= _ _ <-]. reflexivity. }
  destruct (match lookup_file E candidate with
            | Some f => mentioned E is_target f s
            | None => (exists_ s, mtime_live s, out s)
            end) as [[ex live] m].
  destruct ex; simpl in H.
  - destruct (store nm p SLASH) as [nm'|]; [|discriminate H].
    cbv zeta in H.
    destruct (strcache_add_len nm' (p + 1 + flen)); discriminate H.
  - rewrite (Hstage live m eq_refl) in H. clear Hstage.
    unfold assert in H.
    repeat match type of H with
           | context [match ?x with _ => _ end] =>
               destruct x; try discriminate H
           end;
      injection H as <-; reflexivity.
Qed.

Lemma scan_directories_none_out (E : env) (is_target is_target_path : bool)
  (path_index : bool) (file0 filename : cstring) (name_dplen flen : nat)
  (vpath : list cstring) :
  forall (i : nat) (s : scan) (m' : mem),
    scan_directories E is_target is_target_path path_index file0 filename
      name_dplen flen i vpath s = Ok (None, m') ->
    m' = out s.
Proof.
  induction vpath as [|dir vpath IH]; intros i s m'; simpl.
  - unfold bind, assert. destruct (tgt_name s).
    + destruct (0 <? tgt_len s); [|discriminate].
      destruct is_target_path; [|discriminate].
      destruct (strcache_add_len _ _); discriminate.
    + intros [= <-]. reflexivity.
  - unfold bind.
    destruct (try_directory E is_target is_target_path path_index file0
                filename name_dplen flen i dir s) as [[found m|s']|] eqn:Hr;
      [discriminate| |discriminate].
    intros H. apply IH in H. rewrite H.
    eapply try_directory_continue_out; eassumption.
Qed.

Lemma selective_vpath_search_none (E : env) (path : vpath)
  (file0 : cstring) (mtime_ptr path_index : bool) (m m' : mem) :
  selective_vpath_search E path file0 mtime_ptr path_index m = Ok (None, m') ->
  m' = m.
Proof.
  unfold selective_vpath_search. intros H.
  apply scan_directories_none_out in H. exact H.
Qed.

(** [k] increments of [*vpath_index]. *)
Lemma increment_twice (m : mem) (a b : Z) :
  store_vpath_index (store_vpath_index m a) b = store_vpath_index m b.
Proof. reflexivity. Qed.

Lemma first_run_none (E : env) (file0 : cstring) (ptr : pointers)
  (chain : list vpath) :
  forall (m : mem) (chain' : list vpath) (m' : mem),
    first_run E file0 ptr chain m = Ok (None, chain', m') ->
    m' = m \/ (vpath_index ptr = true
               /\ exists k, m' = store_vpath_index m k).
Proof.
  induction chain as [|v next IH]; intros m chain' m'; simpl.
  - intros [= _ <-]. left. reflexivity.
  - unfold bind.
    destruct (vpath_match E v file0) as [matched|]; [|discriminate].
    assert (Hnext :
      forall m1, m1 = m ->
        match first_run E file0 ptr next
                (if vpath_index ptr then increment_vpath_index m1 else m1)
        with
        | Ok (r, next', m2) => Ok (r, set_target_goal
                                        (set_target_goal v 0) (target_goal v)
                                      :: next', m2)
        | Fault f => Fault f
        end = Ok (None, chain', m') \/
        match first_run E file0 ptr next
                (if vpath_index ptr then increment_vpath_index m1 else m1)
        with
        | Ok (r, next', m2) => Ok (r, v :: next', m2)
        | Fault f => Fault f
        end = Ok (None, chain', m') ->
        m' = m \/ (vpath_index ptr = true
                   /\ exists k, m' = store_vpath_index m k)).
    { intros m1 ->.
      destruct (first_run E file0 ptr next _)
        as [[[r next'] m2]|] eqn:Hn; [|intros [H|H]; discriminate H].
      intros H.
      assert (r = None /\ m2 = m') as [-> ->]
        by (destruct H as [H|H]; injection H as -> _ ->; split; reflexivity).
      apply IH in Hn. destruct (vpath_index ptr) eqn:Hvi.
      - right. split; [reflexivity|].
        destruct Hn as [->|[_ [k ->]]]; eexists; reflexivity.
      - destruct Hn as [->|[Hx _]]; [left; reflexivity|discriminate Hx]. }
    destruct matched.
    + destruct (selective_vpath_search E (set_target_goal v 0) file0
                  (mtime_ptr ptr) (path_index ptr) m)
        as [[[found|] m1]|] eqn:Hs; [discriminate| |discriminate].
      apply selective_vpath_search_none in Hs.
      intros H. apply (Hnext m1 Hs). left. exact H.
    + intros H. apply (Hnext m eq_refl). right. exact H.
Qed.

Lemma second_run_none (E : env) (file0 : cstring) (ptr : pointers)
  (chain : list vpath) :
  forall (m m' : mem),
    second_run E file0 ptr chain m = Ok (None, m') ->
    m' = m \/ (vpath_index ptr = true
               /\ exists k, m' = store_vpath_index m k).
Proof.
  induction chain as [|v next IH]; intros m m'; simpl.
  - intros [= <-]. left. reflexivity.
  - unfold bind.
    destruct (if negb (target_goal v =? 0)%Z
              then vpath_match E v file0 else Ok false)
      as [matched|]; [|discriminate].
    assert (Hnext :
      forall m1, m1 = m ->
        second_run E file0 ptr next
          (if vpath_index ptr then increment_vpath_index m1 else m1)
        = Ok (None, m') ->
        m' = m \/ (vpath_index ptr = true
                   /\ exists k, m' = store_vpath_index m k)).
    { intros m1 -> Hn. apply IH in Hn. destruct (vpath_index ptr) eqn:Hvi.
      - right. split; [reflexivity|].
        destruct Hn as [->|[_ [k ->]]]; eexists; reflexivity.
      - destruct Hn as [->|[Hx _]]; [left; reflexivity|discriminate Hx]. }
    destruct matched.
    + destruct (selective_vpath_search E v file0
                  (mtime_ptr ptr) (path_index ptr) m)
        as [[[found|] m1]|] eqn:Hs; [discriminate| |discriminate].
      apply selective_vpath_search_none in Hs.
      intros H. apply (Hnext m1 Hs). exact H.
    + intros H. apply (Hnext m eq_refl). exact H.
Qed.

Lemma reset_after_increments (ptr : pointers) (m m1 : mem) :
  vpath_index ptr = true ->
  m1 = entry_stores ptr m
  \/ (exists k, m1 = store_vpath_index (entry_stores ptr m) k) ->
  reset_indices m1 = entry_stores ptr m.
Proof.
  intros Hvi H. unfold entry_stores in *. rewrite Hvi in *.
  destruct H as [->|[k ->]]; reflexivity.
Qed.

(** X8. What a failed search leaves in the result objects: when
    [vpath_search] returns 0, the lists are as before, nothing was stored
    through [mtime_ptr], and the other objects hold what the entry of the
    function stored: 0 in [*target_path], and 0 in [*vpath_index] and
    [*path_index] when [vpath_index] is not null; [*path_index] is not
    written when [vpath_index] is null. *)
Theorem vpath_search_not_found_outputs (E : env) (file0 : cstring)
  (ptr : pointers) (g g' : globals) (m m' : mem) :
  vpath_search E file0 ptr g m = Ok (None, g', m') ->
  g' = g /\ m' = entry_stores ptr m.
Proof.
  unfold vpath_search. intros H.
  assert (Hentry :
    (if vpath_index ptr
     then do _ <- assert (path_index ptr);
          Ok (store_path_index
                (store_vpath_index
                   (if target_path ptr then store_target_path m 0 else m) 0)
                0)
     else Ok (if target_path ptr then store_target_path m 0 else m))
    = Ok (entry_stores ptr m)
    \/ exists f,
         (if vpath_index ptr
          then do _ <- assert (path_index ptr);
               Ok (store_path_index
                     (store_vpath_index
                        (if target_path ptr then store_target_path m 0
                         else m) 0) 0)
          else Ok (if target_path ptr then store_target_path m 0 else m))
         = Fault f).
  { unfold entry_stores. destruct (vpath_index ptr); [|left; reflexivity].
    destruct (path_index ptr); [left; reflexivity|].
    right. eexists. reflexivity. }
  destruct Hentry as [Hentry|[f Hentry]]; rewrite Hentry in H;
    [|discriminate H].
  unfold bind in H. set (m0 := entry_stores ptr m) in *.
  destruct (nothing_to_do E file0 g) as [stop|]; [|discriminate H].
  destruct stop; [injection H as <- <-; split; reflexivity|].
  destruct (first_run E file0 ptr (vpaths g) m0)
    as [[[r chain] m1]|] eqn:H1; [|discriminate H].
  pose proof (proj2 (first_run_order E file0 ptr (vpaths g) m0) _ _ _ H1)
    as Hchain.
  subst chain. rewrite set_vpaths_same in H.
  destruct r as [found|]; [discriminate H|].
  apply first_run_none in H1.
  destruct (second_run E file0 ptr (vpaths g)
              (if vpath_index ptr then reset_indices m1 else m1))
    as [[r m2]|] eqn:H2; [|discriminate H].
  destruct r as [found|]; [discriminate H|].
  apply second_run_none in H2.
  assert (Hm1 : (if vpath_index ptr then reset_indices m1 else m1) = m0).
  { destruct (vpath_index ptr) eqn:Hvi.
    - apply reset_after_increments; [exact Hvi|].
      destruct H1 as [->|[_ H1]]; [left; reflexivity|right; exact H1].
    - destruct H1 as [->|[Hx _]]; [reflexivity|discriminate Hx]. }
  rewrite Hm1 in H2.
  assert (Hm2 : (if vpath_index ptr then reset_indices m2 else m2) = m0).
  { destruct (vpath_index ptr) eqn:Hvi.
    - apply reset_after_increments; [exact Hvi|].
      destruct H2 as [->|[_ H2]]; [left; reflexivity|right; exact H2].
    - destruct H2 as [->|[Hx _]]; [reflexivity|discriminate Hx]. }
  rewrite Hm2 in H.
  destruct (general_vpath g) as [general|];
    [|injection H as <- <-; split; reflexivity].
  destruct (selective_vpath_search E general file0 (mtime_ptr ptr)
              (path_index ptr) m0) as [[[found|] m3]|] eqn:H3;
    try discriminate H.
  apply selective_vpath_search_none in H3.
  injection H as <- <-. split; [reflexivity|exact H3].
Qed.

(** A search of three lists that finds nothing. *)
Lemma vpath_search_not_found_outputs_witness :
  three_lists = three_lists
  /\ {| at_mtime_ptr := [42%Z]; at_target_path := 0;
        at_vpath_index := 0; at_path_index := 0 |}
     = entry_stores all_pointers used_mem.
Proof.
  apply (vpath_search_not_found_outputs bare (cs "foo.c") all_pointers
           three_lists three_lists used_mem
           {| at_mtime_ptr := [42%Z]; at_target_path := 0;
              at_vpath_index := 0; at_path_index := 0 |}).
  vm_compute. reflexivity.
Defined.

Lemma increments_from_zero (k : nat) :
  Nat.iter k (fun x => ((x + 1) mod 2 ^ 32)%Z) 0%Z
  = (Z.of_nat k mod 2 ^ 32)%Z.
Proof.
  induction k as [|k IH]; [reflexivity|].
  rewrite Nat.iter_succ, IH, Zplus_mod_idemp_l. f_equal. lia.
Qed.

Lemma first_run_some (E : env) (file0 : cstring) (ptr : pointers)
  (chain : list vpath) :
  forall (m : mem) (chain' : list vpath) (m' : mem) (found : cstring),
    first_run E file0 ptr chain m = Ok (Some found, chain', m') ->
    exists k v,
      nth_error chain k = Some v
      /\ vpath_match E v file0 = Ok true
      /\ returned (selective_vpath_search E (set_target_goal v 0) file0
                     false false empty_mem) = Ok (Some found)
      /\ (target_path ptr = true -> at_target_path m' = target_goal v)
      /\ (vpath_index ptr = true ->
          at_vpath_index m'
          = Nat.iter k (fun x => ((x + 1) mod 2 ^ 32)%Z) (at_vpath_index m)).
Proof.
  induction chain as [|v next IH]; intros m chain' m' found; simpl;
    [discriminate|].
  unfold bind.
  destruct (vpath_match E v file0) as [matched|] eqn:Hmatch; [|discriminate].
  assert (Hnext :
    forall (v' : vpath) (m1 : mem), m1 = m ->
      match first_run E file0 ptr next
              (if vpath_index ptr then increment_vpath_index m1 else m1)
      with
      | Ok (r, next', m2) => Ok (r, v' :: next', m2)
      | Fault f => Fault f
      end = Ok (Some found, chain', m') ->
      exists k v0,
        nth_error (v :: next) k = Some v0
        /\ vpath_match E v0 file0 = Ok true
        /\ returned (selective_vpath_search E (set_target_goal v0 0) file0
                       false false empty_mem) = Ok (Some found)
        /\ (target_path ptr = true -> at_target_path m' = target_goal v0)
        /\ (vpath_index ptr = true ->
            at_vpath_index m'
            = Nat.iter k (fun x => ((x + 1) mod 2 ^ 32)%Z)
                (at_vpath_index m))).
  { intros v' m1 ->.
    destruct (first_run E file0 ptr next _)
      as [[[r next'] m2]|] eqn:Hn; [|discriminate].
    intros H. injection H as -> _ ->.
    apply IH in Hn. destruct Hn as [k [v0 [Hk [Hm [Hr [Ht Hv]]]]]].
    exists (S k), v0. repeat split; try assumption.
    intros Hvi. rewrite (Hv Hvi), Hvi, Nat.iter_succ_r. reflexivity. }
  destruct matched.
  - destruct (selective_vpath_search E (set_target_goal v 0) file0
                (mtime_ptr ptr) (path_index ptr) m)
      as [[[p|] m1]|] eqn:Hs; [| |discriminate].
    + intros H. injection H as -> _ <-.
      exists 0, v. split; [reflexivity|]. split; [exact Hmatch|].
      split; [|split].
      * rewrite <- selective_vpath_search_returned
          with (mtime_ptr := mtime_ptr ptr) (path_index := path_index ptr)
               (m := m).
        rewrite Hs. reflexivity.
      * intros Ht. rewrite Ht. reflexivity.
      * intros _. apply selective_vpath_search_keeps in Hs.
        destruct (target_path ptr); simpl; apply Hs.
    + apply selective_vpath_search_none in Hs.
      intros H. eapply (Hnext _ m1 Hs). exact H.
  - intros H. eapply (Hnext _ m eq_refl). exact H.
Qed.

Lemma second_run_some (E : env) (file0 : cstring) (ptr : pointers)
  (chain : list vpath) :
  forall (m m' : mem) (found : cstring),
    second_run E file0 ptr chain m = Ok (Some found, m') ->
    exists k v,
      nth_error chain k = Some v
      /\ vpath_match E v file0 = Ok true
      /\ target_goal v <> 0%Z
      /\ returned (selective_vpath_search E v file0 false false empty_mem)
         = Ok (Some found)
      /\ (target_path ptr = true -> at_target_path m' = target_goal v)
      /\ (vpath_index ptr = true ->
          at_vpath_index m'
          = Nat.iter k (fun x => ((x + 1) mod 2 ^ 32)%Z) (at_vpath_index m)).
Proof.
  induction chain as [|v next IH]; intros m m' found; simpl;
    [discriminate|].
  unfold bind.
  destruct (if negb (target_goal v =? 0)%Z
            then vpath_match E v file0 else Ok false)
    as [matched|] eqn:Hmatch; [|discriminate].
  assert (Hnext :
    forall m1 : mem, m1 = m ->
      second_run E file0 ptr next
        (if vpath_index ptr then increment_vpath_index m1 else m1)
      = Ok (Some found, m') ->
      exists k v0,
        nth_error (v :: next) k = Some v0
        /\ vpath_match E v0 file0 = Ok true
        /\ target_goal v0 <> 0%Z
        /\ returned (selective_vpath_search E v0 file0 false false
                       empty_mem) = Ok (Some found)
        /\ (target_path ptr = true -> at_target_path m' = target_goal v0)
        /\ (vpath_index ptr = true ->
            at_vpath_index m'
            = Nat.iter k (fun x => ((x + 1) mod 2 ^ 32)%Z)
                (at_vpath_index m))).
  { intros m1 -> Hn.
    apply IH in Hn. destruct Hn as [k [v0 [Hk [Hm [Hg [Hr [Ht Hv]]]]]]].
    exists (S k), v0. repeat split; try assumption.
    intros Hvi. rewrite (Hv Hvi), Hvi, Nat.iter_succ_r. reflexivity. }
  destruct matched.
  - destruct (target_goal v =? 0)%Z eqn:Hgoal; [discriminate Hmatch|].
    cbn [negb] in Hmatch. apply Z.eqb_neq in Hgoal.
    destruct (selective_vpath_search E v file0
                (mtime_ptr ptr) (path_index ptr) m)
      as [[[p|] m1]|] eqn:Hs; [| |discriminate].
    + intros H. injection H as -> <-.
      exists 0, v. split; [reflexivity|]. split; [exact Hmatch|].
      split; [exact Hgoal|]. split; [|split].
      * rewrite <- selective_vpath_search_returned
          with (mtime_ptr := mtime_ptr ptr) (path_index := path_index ptr)
               (m := m).
        rewrite Hs. reflexivity.
      * intros Ht. rewrite Ht. reflexivity.
      * intros _. apply selective_vpath_search_keeps in Hs.
        destruct (target_path ptr); simpl; apply Hs.
    + apply selective_vpath_search_none in Hs.
      intros H. apply (Hnext m1 Hs). exact H.
  - intros H. apply (Hnext m eq_refl). exact H.
Qed.

Lemma entry_stores_index (ptr : pointers) (m : mem) :
  vpath_index ptr = true -> at_vpath_index (entry_stores ptr m) = 0%Z.
Proof. intros H. unfold entry_stores. rewrite H. reflexivity. Qed.

(** X9. What a successful search leaves in the result objects: the name
    that [vpath_search] returns is the result of the per-list search of a
    selective listing of the chain whose pattern matches the file name
    (searched with its target goal cleared, or as it is when it has one),
    or of the general listing; [*target_path] then holds the target goal of
    that listing, and [*vpath_index] its position in the chain, counted
    modulo 2^32, or 0 for the general listing. The lists are as before. *)
Theorem vpath_search_found_outputs (E : env) (file0 : cstring)
  (ptr : pointers) (g g' : globals) (m m' : mem) (found : cstring) :
  vpath_search E file0 ptr g m = Ok (Some found, g', m') ->
  g' = g
  /\ ((exists k v,
         nth_error (vpaths g) k = Some v
         /\ vpath_match E v file0 = Ok true
         /\ (returned (selective_vpath_search E (set_target_goal v 0) file0
                         false false empty_mem) = Ok (Some found)
             \/ (target_goal v <> 0%Z
                 /\ returned (selective_vpath_search E v file0 false false
                                empty_mem) = Ok (Some found)))
         /\ (target_path ptr = true -> at_target_path m' = target_goal v)
         /\ (vpath_index ptr = true ->
             at_vpath_index m' = (Z.of_nat k mod 2 ^ 32)%Z))
      \/ (exists v,
            general_vpath g = Some v
            /\ returned (selective_vpath_search E v file0 false false
                           empty_mem) = Ok (Some found)
            /\ (target_path ptr = true -> at_target_path m' = target_goal v)
            /\ (vpath_index ptr = true -> at_vpath_index m' = 0%Z))).
Proof.
  unfold vpath_search. intros H.
  assert (Hentry :
    (if vpath_index ptr
     then do _ <- assert (path_index ptr);
          Ok (store_path_index
                (store_vpath_index
                   (if target_path ptr then store_target_path m 0 else m) 0)
                0)
     else Ok (if target_path ptr then store_target_path m 0 else m))
    = Ok (entry_stores ptr m)
    \/ exists f,
         (if vpath_index ptr
          then do _ <- assert (path_index ptr);
               Ok (store_path_index
                     (store_vpath_index
                        (if target_path ptr then store_target_path m 0
                         else m) 0) 0)
          else Ok (if target_path ptr then store_target_path m 0 else m))
         = Fault f).
  { unfold entry_stores. destruct (vpath_index ptr); [|left; reflexivity].
    destruct (path_index ptr); [left; reflexivity|].
    right. eexists. reflexivity. }
  destruct Hentry as [Hentry|[f Hentry]]; rewrite Hentry in H;
    [|discriminate H].
  unfold bind in H.
  pose proof (entry_stores_index ptr m) as Hzero.
  set (m0 := entry_stores ptr m) in *.
  destruct (nothing_to_do E file0 g) as [stop|]; [|discriminate H].
  destruct stop; [discriminate H|].
  destruct (first_run E file0 ptr (vpaths g) m0)
    as [[[r chain] m1]|] eqn:H1; [|discriminate H].
  pose proof (proj2 (first_run_order E file0 ptr (vpaths g) m0) _ _ _ H1)
    as Hchain.
  subst chain. rewrite set_vpaths_same in H.
  destruct r as [p|].
  { injection H as -> <- <-. split; [reflexivity|]. left.
    apply first_run_some in H1.
    destruct H1 as [k [v [Hk [Hm [Hr [Ht Hv]]]]]].
    exists k, v. repeat split; try assumption.
    - left. exact Hr.
    - intros Hvi. rewrite (Hv Hvi), (Hzero Hvi).
      apply increments_from_zero. }
  clear H1.
  destruct (second_run E file0 ptr (vpaths g)
              (if vpath_index ptr then reset_indices m1 else m1))
    as [[r m2]|] eqn:H2; [|discriminate H].
  destruct r as [p|].
  { injection H as -> <- <-. split; [reflexivity|]. left.
    apply second_run_some in H2.
    destruct H2 as [k [v [Hk [Hm [Hg [Hr [Ht Hv]]]]]]].
    exists k, v. repeat split; try assumption.
    - right. split; assumption.
    - intros Hvi. rewrite (Hv Hvi), Hvi. apply increments_from_zero. }
  clear H2.
  destruct (general_vpath g) as [general|]; [|discriminate H].
  destruct (selective_vpath_search E general file0 (mtime_ptr ptr)
              (path_index ptr)
              (if vpath_index ptr then reset_indices m2 else m2))
    as [[[p|] m3]|] eqn:H3; try discriminate H.
  injection H as -> <- <-. split; [reflexivity|]. right.
  exists general. split; [reflexivity|]. split; [|split].
  - rewrite <- selective_vpath_search_returned
      with (mtime_ptr := mtime_ptr ptr) (path_index := path_index ptr)
           (m := if vpath_index ptr then reset_indices m2 else m2).
    rewrite H3. reflexivity.
  - intros Ht. rewrite Ht. reflexivity.
  - intros Hvi. apply selective_vpath_search_keeps in H3.
    rewrite Hvi in H3. destruct (target_path ptr); simpl; apply H3.
Qed.

(** The second of two selective listings supplies lib/foo.o. *)
Lemma vpath_search_found_outputs_witness :
  three_lists = three_lists
  /\ ((exists k v,
         nth_error (vpaths three_lists) k = Some v
         /\ vpath_match lib_foo_mentioned v (cs "foo.o") = Ok true
         /\ (returned (selective_vpath_search lib_foo_mentioned
                         (set_target_goal v 0) (cs "foo.o") false false
                         empty_mem) = Ok (Some (cs "lib/foo.o"))
             \/ (target_goal v <> 0%Z
                 /\ returned (selective_vpath_search lib_foo_mentioned v
                                (cs "foo.o") false false empty_mem)
                    = Ok (Some (cs "lib/foo.o"))))
         /\ (target_path all_pointers = true ->
             at_target_path
               {| at_mtime_ptr := [0%Z; 42%Z]; at_target_path := 0;
                  at_vpath_index := 1; at_path_index := 0 |}
             = target_goal v)
         /\ (vpath_index all_pointers = true ->
             at_vpath_index
               {| at_mtime_ptr := [0%Z; 42%Z]; at_target_path := 0;
                  at_vpath_index := 1; at_path_index := 0 |}
             = (Z.of_nat k mod 2 ^ 32)%Z))
      \/ (exists v,
            general_vpath three_lists = Some v
            /\ returned (selective_vpath_search lib_foo_mentioned v
                           (cs "foo.o") false false empty_mem)
               = Ok (Some (cs "lib/foo.o"))
            /\ (target_path all_pointers = true ->
                at_target_path
                  {| at_mtime_ptr := [0%Z; 42%Z]; at_target_path := 0;
                     at_vpath_index := 1; at_path_index := 0 |}
                = target_goal v)
            /\ (vpath_index all_pointers = true ->
                at_vpath_index
                  {| at_mtime_ptr := [0%Z; 42%Z]; at_target_path := 0;
                     at_vpath_index := 1; at_path_index := 0 |}
                = 0%Z))).
Proof.
  apply (vpath_search_found_outputs lib_foo_mentioned (cs "foo.o")
           all_pointers three_lists three_lists used_mem
           {| at_mtime_ptr := [0%Z; 42%Z]; at_target_path := 0;
              at_vpath_index := 1; at_path_index := 0 |}
           (cs "lib/foo.o")).
  vm_compute. reflexivity.
Defined.
(** ** The per-list search on regular names *)

Lemma store_same (w1 w2 : list ascii) (x : ascii) (t : buffer) :
  store (map Some (w1 ++ x :: w2) ++ t) (List.length w1) x
  = Ok (map Some (w1 ++ x :: w2) ++ t).
Proof. apply store_inside. Qed.

Lemma candidate_bytes (pre filename : cstring) (tail : buffer) (flen : nat) :
  flen = strlen filename ->
  is_cstring pre -> is_cstring filename ->
  strcache_add_len (map Some (pre ++ SLASH :: filename ++ [NUL]) ++ tail)
    (strlen pre + 1 + flen)
  = Ok (pre ++ SLASH :: filename).
Proof.
  intros -> Hpre Hfile. unfold strcache_add_len.
  replace (map Some (pre ++ SLASH :: filename ++ [NUL]) ++ tail)
    with (map Some (pre ++ SLASH :: filename) ++ Some NUL :: tail).
  - replace (strlen pre + 1 + strlen filename)
      with (List.length (pre ++ SLASH :: filename))
      by (unfold strlen; rewrite length_app; simpl; lia).
    rewrite bytes_app. cbn [bind].
    rewrite until_nul_cstring by (apply candidate_cstring; assumption).
    reflexivity.
  - rewrite !map_app. simpl. rewrite map_app, <- !app_assoc. simpl.
    rewrite <- app_assoc. reflexivity.
Qed.

Lemma candidate_cstr (pre filename : cstring) (tail : buffer) :
  is_cstring pre -> is_cstring filename ->
  cstr (map Some (pre ++ SLASH :: filename ++ [NUL]) ++ tail)
  = Ok (pre ++ SLASH :: filename).
Proof.
  intros Hpre Hfile.
  replace (map Some (pre ++ SLASH :: filename ++ [NUL]) ++ tail)
    with (map Some (pre ++ SLASH :: filename) ++ Some NUL :: tail).
  - apply cstr_app. apply candidate_cstring; assumption.
  - rewrite !map_app. simpl. rewrite map_app, <- !app_assoc. simpl.
    rewrite <- app_assoc. reflexivity.
Qed.

(** One round on a regular directory: it returns the candidate of the
    directory with its index, or goes on with the buffer, and with the
    fallback of a target-goal listing recorded. *)
Lemma try_directory_regular (E : env) (is_target is_target_path : bool)
  (path_index : bool) (file0 filename : cstring) (name_dplen flen : nat)
  (i : nat) (dir : cstring) (s : scan) :
  HAVE_DOS_PATHS E = false ->
  flen = strlen filename ->
  name_dplen <= strlen file0 ->
  regular_round file0 filename name_dplen (List.length (name s)) dir ->
  is_cstring filename ->
  exists_ s = false ->
  (is_target_path = true -> tgt_name s = None -> i = 0) ->
  exists r,
    try_directory E is_target is_target_path path_index file0 filename
      name_dplen flen i dir s = Ok r
    /\ match r with
       | Return found m' =>
           counts E is_target is_target_path
             (directory_part dir file0 name_dplen) filename = true
           /\ found = directory_part dir file0 name_dplen ++ SLASH :: filename
           /\ (path_index = true -> at_path_index m' = Z.of_nat i)
       | Continue s' =>
           counts E is_target is_target_path
             (directory_part dir file0 name_dplen) filename = false
           /\ List.length (name s') = List.length (name s)
           /\ exists_ s' = false
           /\ (is_target_path = true -> tgt_name s' <> None)
           /\ match tgt_name s with
              | Some t => tgt_name s' = Some t /\ tgt_len s' = tgt_len s
              | None =>
                  (is_target_path = false /\ tgt_name s' = None)
                  \/ (i = 0 /\ is_target_path = true
                      /\ tgt_name s'
                         = Some (directory_part dir file0 name_dplen
                                 ++ SLASH :: filename)
                      /\ tgt_len s'
                         = strlen (directory_part dir file0 name_dplen
                                   ++ SLASH :: filename))
              end
       end.
Proof.
  intros Hdos Hflen Hk [Hfit [Hopen Hpre]] Hfile Hex Hfirst.
  set (pre := directory_part dir file0 name_dplen) in *.
  set (tail := skipn (strlen pre + strlen filename + 2) (name s)).
  set (nm := map Some (pre ++ SLASH :: filename ++ [NUL]) ++ tail).
  assert (Hnm : List.length nm = List.length (name s)).
  { unfold nm, tail, strlen in *. rewrite length_app, length_map, length_skipn.
    rewrite !length_app. simpl. rewrite length_app. simpl. lia. }
  unfold try_directory.
  rewrite (build_name_regular E (name s) dir file0 filename name_dplen flen)
    by assumption.
  fold pre. fold tail. fold nm. cbn [bind].
  pose proof (candidate_cstr pre filename tail Hpre Hfile) as Hcand.
  fold nm in Hcand. rewrite Hcand. cbn [bind].
  pose proof (candidate_bytes pre filename tail flen Hflen Hpre Hfile)
    as Hbytes.
  fold nm in Hbytes.
  assert (Hslash : store nm (strlen pre) SLASH = Ok nm)
    by apply store_same.
  assert (Hfinish :
    forall (live : bool) (m0 : mem),
      exists m',
        (do found <- strcache_add_len nm (strlen pre + 1 + flen);
         Ok (Return found
               (if path_index
                then store_path_index
                       (if live then store_mtime m0 (UNKNOWN_MTIME E)
                        else m0) (Z.of_nat i)
                else if live then store_mtime m0 (UNKNOWN_MTIME E)
                     else m0)))
        = Ok (Return (pre ++ SLASH :: filename) m')
        /\ (path_index = true -> at_path_index m' = Z.of_nat i)).
  { intros live m0. rewrite Hbytes. cbn [bind]. eexists.
    split; [reflexivity|]. intros ->. reflexivity. }
  assert (Hmc :
    fst (fst match lookup_file E (pre ++ SLASH :: filename) with
             | Some f => mentioned E is_target f s
             | None => (exists_ s, mtime_live s, out s)
             end)
    = match lookup_file E (pre ++ SLASH :: filename) with
      | Some f => negb is_target || filedef.is_target f
      | None => false
      end).
  { destruct (lookup_file E (pre ++ SLASH :: filename)); [|exact Hex].
    unfold mentioned. destruct (_ && _ && _); reflexivity. }
  unfold counts. rewrite <- Hmc. clear Hmc.
  destruct (match lookup_file E (pre ++ SLASH :: filename) with
            | Some f => mentioned E is_target f s
            | None => (exists_ s, mtime_live s, out s)
            end) as [[ex live] m0].
  cbn [fst].
  destruct ex; cbn [negb bind orb].
  - (* mentioned in the makefile *)
    rewrite Hslash. cbn [bind].
    destruct (Hfinish live m0) as [m' [Hr Hm']].
    exists (Return (pre ++ SLASH :: filename) m').
    split; [exact Hr|]. split; [reflexivity|].
    split; [reflexivity|exact Hm'].
  - unfold nm at 1. unfold strlen at 1. rewrite store_inside. cbn [bind].
    assert (Hdir : cstr (map Some (pre ++ NUL :: filename ++ [NUL]) ++ tail)
                   = Ok pre).
    { rewrite map_app, <- app_assoc. simpl. apply cstr_app. exact Hpre. }
    rewrite Hdir. cbn [bind].
    unfold strlen at 1. rewrite store_inside. fold nm. cbn [bind].
    destruct (dir_file_exists_p E pre filename); cbn [andb].
    + (* in the directory cache *)
      rewrite Hcand. cbn [bind].
      destruct (stat E (pre ++ SLASH :: filename)) as [modtime|];
        cbn [orb].
      * destruct live.
        -- destruct (Hfinish false (store_mtime m0 modtime)) as [m' [Hr Hm']].
           exists (Return (pre ++ SLASH :: filename) m').
           split; [exact Hr|]. split; [reflexivity|].
           split; [reflexivity|exact Hm'].
        -- destruct (Hfinish false m0) as [m' [Hr Hm']].
           exists (Return (pre ++ SLASH :: filename) m').
           split; [exact Hr|]. split; [reflexivity|].
           split; [reflexivity|exact Hm'].
      * destruct (negb is_target_path && negb is_target) eqn:Hnt.
        -- eexists. split; [reflexivity|]. cbn [name exists_ tgt_name tgt_len].
           apply andb_true_iff in Hnt. destruct Hnt as [Hnt Hnt'].
           apply negb_true_iff in Hnt. apply negb_true_iff in Hnt'.
           split; [rewrite Hnt, Hnt'; reflexivity|].
           split; [exact Hnm|]. split; [reflexivity|].
           split; [intros H; congruence|].
           destruct (tgt_name s); [split; reflexivity|].
           left. split; [exact Hnt|reflexivity].
        -- destruct (Hfinish live m0) as [m' [Hr Hm']].
           exists (Return (pre ++ SLASH :: filename) m').
           split; [exact Hr|].
           split; [destruct is_target_path, is_target;
                   try reflexivity; discriminate Hnt|].
           split; [reflexivity|exact Hm'].
    + (* nowhere *)
      destruct (tgt_name s) as [t|] eqn:Ht.
      * eexists. split; [reflexivity|]. cbn [name exists_ tgt_name tgt_len].
        split; [reflexivity|].
        split; [exact Hnm|]. split; [reflexivity|].
        split; [intros _; discriminate|].
        split; reflexivity.
      * destruct is_target_path.
        -- rewrite (Hfirst eq_refl eq_refl). cbn [Nat.eqb assert bind].
           rewrite Hcand. cbn [bind].
           assert (Hlen : (strlen pre + 1 + flen
                           =? strlen (pre ++ SLASH :: filename)) = true).
           { apply Nat.eqb_eq. unfold strlen. rewrite length_app. simpl.
             rewrite Hflen. unfold strlen. lia. }
           rewrite Hlen. eexists. split; [reflexivity|].
           cbn [name exists_ tgt_name tgt_len].
           split; [reflexivity|].
           split; [exact Hnm|]. split; [reflexivity|].
           split; [intros _; discriminate|].
           right. split; [reflexivity|]. split; [reflexivity|].
           split; [reflexivity|].
           apply Nat.eqb_eq in Hlen. exact Hlen.
        -- eexists. split; [reflexivity|]. cbn [name exists_ tgt_name tgt_len].
           split; [reflexivity|].
           split; [exact Hnm|]. split; [reflexivity|].
           split; [intros H; discriminate H|].
           left. split; reflexivity.
Qed.

Lemma fallback_bytes (t : cstring) :
  is_cstring t -> strcache_add_len (in_memory t) (strlen t) = Ok t.
Proof.
  intros Ht. unfold strcache_add_len, in_memory, strlen.
  rewrite bytes_app. cbn [bind]. rewrite until_nul_cstring by exact Ht.
  reflexivity.
Qed.

(** The directory loop on regular directories: it ends, and what it
    returns is the candidate of one of the directories, with the index of
    that directory, or the fallback that was recorded before. *)
Lemma scan_directories_regular (E : env) (is_target is_target_path : bool)
  (path_index : bool) (file0 filename : cstring) (name_dplen flen size : nat) :
  HAVE_DOS_PATHS E = false ->
  flen = strlen filename ->
  name_dplen <= strlen file0 ->
  is_cstring filename ->
  forall vpath : list cstring,
    Forall (regular_round file0 filename name_dplen size) vpath ->
    forall (i : nat) (s : scan),
      List.length (name s) = size ->
      exists_ s = false ->
      (is_target_path = true -> tgt_name s = None -> i = 0) ->
      (forall t, tgt_name s = Some t ->
                 is_target_path = true /\ is_cstring t
                 /\ tgt_len s = strlen t /\ t <> []) ->
      exists r m',
        scan_directories E is_target is_target_path path_index file0 filename
          name_dplen flen i vpath s = Ok (r, m')
        /\ r = match
                 find (fun d => counts E is_target is_target_path
                                  (directory_part d file0 name_dplen)
                                  filename) vpath
               with
               | Some d =>
                   Some (directory_part d file0 name_dplen
                         ++ SLASH :: filename)
               | None =>
                   match tgt_name s with
                   | Some t => Some t
                   | None =>
                       if is_target_path
                       then option_map
                              (fun d => directory_part d file0 name_dplen
                                        ++ SLASH :: filename)
                              (hd_error vpath)
                       else None
                   end
               end
        /\ forall found, r = Some found ->
             (exists j d,
                 nth_error vpath j = Some d
                 /\ found = directory_part d file0 name_dplen
                            ++ SLASH :: filename
                 /\ (path_index = true ->
                     at_path_index m' = Z.of_nat (i + j)))
             \/ (tgt_name s = Some found
                 /\ (path_index = true -> at_path_index m' = 0%Z)).
Proof.
  intros Hdos Hflen Hk Hfile vpath Hall.
  induction Hall as [|dir vpath Hdir Hall IH];
    intros i s Hsize Hex Hfirst Htgt.
  - cbn [scan_directories find hd_error option_map].
    destruct (tgt_name s) as [t|] eqn:Ht.
    + destruct (Htgt t eq_refl) as [Hgoal [Hcs [Hlen Hne]]].
      assert (Hpos : (0 <? tgt_len s) = true).
      { apply Nat.ltb_lt. rewrite Hlen. unfold strlen.
        destruct t; [congruence|simpl; lia]. }
      rewrite Hpos, Hgoal, Hlen, fallback_bytes by exact Hcs.
      cbn [assert bind]. eexists. eexists. split; [reflexivity|].
      split; [reflexivity|].
      intros found Hf. injection Hf as <-. right.
      split; [reflexivity|]. intros ->. reflexivity.
    + eexists. eexists. split; [reflexivity|].
      split; [destruct is_target_path; reflexivity|]. discriminate.
  - cbn [scan_directories find].
    rewrite <- Hsize in Hdir.
    destruct (try_directory_regular E is_target is_target_path path_index
                file0 filename name_dplen flen i dir s Hdos Hflen Hk Hdir
                Hfile Hex Hfirst) as [r [Hr Hshape]].
    rewrite Hr. cbn [bind].
    destruct r as [found m'|s'].
    + destruct Hshape as [Hcounts [Hfound Hidx]]. rewrite Hcounts.
      eexists. eexists. split; [reflexivity|].
      split; [rewrite Hfound; reflexivity|].
      intros f Hf. injection Hf as <-. left. exists 0, dir.
      split; [reflexivity|]. split; [exact Hfound|].
      rewrite Nat.add_0_r. exact Hidx.
    + destruct Hshape as [Hcounts [Hnm [Hex' [Hsome Hcase]]]].
      rewrite Hcounts.
      destruct Hdir as [_ [_ Hpre]].
      assert (Hcand : is_cstring (directory_part dir file0 name_dplen
                                  ++ SLASH :: filename))
        by (apply candidate_cstring; assumption).
      destruct (IH (S i) s') as [r [m' [Hrest [Hfind Hres]]]].
      * congruence.
      * exact Hex'.
      * intros Hg Hn. exfalso. exact (Hsome Hg Hn).
      * intros t Ht'. destruct (tgt_name s) as [t0|] eqn:Ht0.
        -- destruct Hcase as [Hsame Hlen]. rewrite Hsame in Ht'.
           rewrite Hlen. apply Htgt. exact Ht'.
        -- destruct Hcase as [[_ Hnone]|[_ [Hg [Hnew Hlen]]]];
             [congruence|].
           rewrite Hnew in Ht'. injection Ht' as <-.
           split; [exact Hg|]. split; [exact Hcand|].
           split; [exact Hlen|]. destruct (directory_part _ _ _); discriminate.
      * exists r, m'. split; [exact Hrest|].
        split.
        { rewrite Hfind.
          destruct (find _ vpath); [reflexivity|].
          cbn [hd_error option_map].
          destruct (tgt_name s) as [t0|] eqn:Ht0.
          - destruct Hcase as [Hsame _]. rewrite Hsame. reflexivity.
          - destruct Hcase as [[Hg Hnone]|[_ [Hg [Hnew _]]]].
            + rewrite Hnone, Hg. reflexivity.
            + rewrite Hnew, Hg. reflexivity. }
        intros found Hf. destruct (Hres found Hf) as [[j [d [Hj [Hd Hidx]]]]|
                                                      [Hfall Hidx]].
        -- left. exists (S j), d. split; [exact Hj|]. split; [exact Hd|].
           intros Hp. rewrite (Hidx Hp). f_equal. lia.
        -- destruct (tgt_name s) as [t0|] eqn:Ht0.
           ++ right. destruct Hcase as [Hsame _].
              split; [congruence|exact Hidx].
           ++ destruct Hcase as [[_ Hnone]|[Hi [_ [Hnew _]]]];
                [congruence|].
              left. exists 0, dir. split; [reflexivity|].
              split; [congruence|].
              intros Hp. rewrite (Hidx Hp), Hi. reflexivity.
Qed.

(** The per-list search on regular names: it runs to its end, and returns
    the first candidate that counts, or the fallback. *)
Lemma selective_vpath_search_run (E : env) (path : vpath)
  (file0 : cstring) (mtime_ptr path_index : bool) (m : mem) :
  HAVE_DOS_PATHS E = false ->
  listing_ok path ->
  (forall d, In d (searchpath path) -> open_ended d) ->
  is_cstring file0 ->
  regular_name file0 ->
  exists r m',
    selective_vpath_search E path file0 mtime_ptr path_index m = Ok (r, m')
    /\ r = first_found E path file0
    /\ forall found, r = Some found ->
         exists j d,
           nth_error (searchpath path) j = Some d
           /\ found = d ++ SLASH :: file0
           /\ (path_index = true -> at_path_index m' = Z.of_nat j).
Proof.
  intros Hdos Hok Hopen Hfile Hreg.
  unfold selective_vpath_search, last_separator. rewrite Hdos.
  set (k := match strrchr file0 SLASH with Some k => k | None => 0 end).
  assert (Hslash : 0 < k -> nth_error file0 k = Some SLASH).
  { unfold k. destruct (strrchr file0 SLASH) as [j|] eqn:Hj; [|lia].
    intros _. apply strrchr_Some. exact Hj. }
  assert (Hklt : 0 < k -> k < strlen file0).
  { intros Hpos. unfold strlen. apply nth_error_Some.
    rewrite (Hslash Hpos). discriminate. }
  assert (Hbefore : 0 < k -> k <= strlen file0
                    /\ exists c, nth_error file0 (k - 1) = Some c
                                 /\ c <> SLASH).
  { intros Hpos. split; [specialize (Hklt Hpos); lia|].
    destruct (nth_error file0 (k - 1)) as [c|] eqn:Hc.
    - exists c. split; [reflexivity|]. intros ->.
      unfold regular_name, k in *.
      destruct (strrchr file0 SLASH) as [j|]; [|lia].
      exact (Hreg Hpos Hc).
    - apply nth_error_None in Hc. specialize (Hklt Hpos).
      unfold strlen in Hklt. lia. }
  set (filename := if 0 <? k then skipn (k + 1) file0 else file0).
  set (flen := if 0 <? k then strlen file0 - (k + 1) else strlen file0).
  assert (Hflen : flen = strlen filename).
  { unfold flen, filename, strlen. destruct (0 <? k); [|reflexivity].
    rewrite length_skipn. reflexivity. }
  assert (Hfn : is_cstring filename).
  { unfold filename. destruct (0 <? k); [|exact Hfile].
    intros H. apply Hfile. eapply skipn_incl. exact H. }
  assert (Hkle : k <= strlen file0).
  { destruct (Nat.eq_dec k 0) as [->|Hnz]; [lia|].
    assert (Hpos : 0 < k) by lia. specialize (Hklt Hpos). lia. }
  destruct (scan_directories_regular E
              match lookup_file E file0 with
              | Some f => filedef.is_target f
              | None => false
              end
              (negb (target_goal path =? 0)%Z) path_index file0 filename k
              flen (maxlen path + 1 + k + 1 + flen + 1) Hdos Hflen Hkle Hfn
              (searchpath path)) with
    (i := 0)
    (s := {| name := alloca (maxlen path + 1 + k + 1 + flen + 1);
             exists_ := false; mtime_live := mtime_ptr;
             tgt_name := None; tgt_len := 0; out := m |})
    as [r [m' [Hrun [Hfind Hres]]]].
  - apply Forall_forall. intros d Hd.
    unfold listing_ok in Hok. rewrite Forall_forall in Hok.
    destruct (Hok d Hd) as [Hdcs Hdlen].
    unfold regular_round. repeat split.
    + unfold directory_part, strlen in *. rewrite length_app.
      rewrite <- Hflen. unfold flen.
      destruct (Nat.ltb_spec 0 k) as [Hpos|Hz].
      * simpl List.length. rewrite length_firstn.
        specialize (Hklt Hpos). unfold strlen in Hklt. lia.
      * simpl. lia.
    + apply directory_part_open; [apply Hopen; exact Hd | exact Hbefore].
    + unfold directory_part. apply is_cstring_app; [exact Hdcs|].
      destruct (0 <? k); [|intros []].
      intros [H|H]; [discriminate H|].
      apply Hfile. eapply firstn_incl. exact H.
  - cbn [name]. unfold alloca. apply repeat_length.
  - reflexivity.
  - reflexivity.
  - cbn [tgt_name]. discriminate.
  - exists r, m'. split; [exact Hrun|].
    split.
    { rewrite Hfind. unfold first_found. fold k. fold filename.
      cbn [tgt_name].
      destruct (find _ (searchpath path)) as [d|];
        [unfold filename; rewrite split_candidate by exact Hslash;
         reflexivity|].
      destruct (negb (target_goal path =? 0)%Z); [|reflexivity].
      destruct (searchpath path) as [|d ds]; [reflexivity|].
      cbn [hd_error option_map]. unfold filename.
      rewrite split_candidate by exact Hslash. reflexivity. }
    intros found Hf.
    destruct (Hres found Hf) as [[j [d [Hj [Hd Hidx]]]]|[Hx _]];
      [|discriminate Hx].
    exists j, d. split; [exact Hj|]. split; [|exact Hidx].
    rewrite Hd. unfold filename. apply split_candidate. exact Hslash.
Qed.


(** X10. The per-list search on regular names: for a listing as the builder
    leaves it whose directories do not end in a slash, and a file name
    whose last slash does not follow another slash, on a build without DOS
    paths, [selective_vpath_search] fails no assertion and stays inside
    its buffer, whatever the database, the directory cache and the file
    system hold; a name that it returns is a directory of the listing, a
    slash and the file name, and [*path_index] is the index of that
    directory. *)
Theorem selective_vpath_search_regular (E : env) (path : vpath)
  (file0 : cstring) (mtime_ptr path_index : bool) (m : mem) :
  HAVE_DOS_PATHS E = false ->
  listing_ok path ->
  (forall d, In d (searchpath path) -> open_ended d) ->
  is_cstring file0 ->
  regular_name file0 ->
  exists r m',
    selective_vpath_search E path file0 mtime_ptr path_index m = Ok (r, m')
    /\ forall found, r = Some found ->
         exists j d,
           nth_error (searchpath path) j = Some d
           /\ found = d ++ SLASH :: file0
           /\ (path_index = true -> at_path_index m' = Z.of_nat j).
Proof.
  intros Hdos Hok Hopen Hfile Hreg.
  destruct (selective_vpath_search_run E path file0 mtime_ptr path_index m
              Hdos Hok Hopen Hfile Hreg) as [r [m' [Hrun [_ Hres]]]].
  exists r, m'. split; [exact Hrun|exact Hres].
Qed.

(** The listing of [%.o] with the directories obj and src, searched for
    sub/foo.o. *)
Lemma selective_vpath_search_regular_witness :
  exists r m',
    selective_vpath_search (mentions false)
      (listing (cs "%.o") [cs "obj"; cs "src"] 1) (cs "sub/foo.o") true true
      empty_mem = Ok (r, m')
    /\ forall found, r = Some found ->
         exists j d,
           nth_error (searchpath (listing (cs "%.o") [cs "obj"; cs "src"] 1))
             j = Some d
           /\ found = d ++ SLASH :: cs "sub/foo.o"
           /\ (true = true -> at_path_index m' = Z.of_nat j).
Proof.
  apply (selective_vpath_search_regular (mentions false)
           (listing (cs "%.o") [cs "obj"; cs "src"] 1) (cs "sub/foo.o")
           true true empty_mem).
  - reflexivity.
  - unfold listing_ok, is_cstring.
    apply Forall_cons; [|apply Forall_cons; [|apply Forall_nil]];
      (split; [|simpl; lia]); simpl; intros H;
      repeat (destruct H as [H|H]; [discriminate H|]); exact H.
  - simpl. intros d [<-|[<-|[]]]; eexists; (split; [reflexivity|]);
      discriminate.
  - unfold is_cstring. simpl. intros H.
    repeat (destruct H as [H|H]; [discriminate H|]). exact H.
  - unfold regular_name. simpl. intros _. discriminate.
Defined.

(** X15. What the per-list search returns on regular names: under the
    conditions of the theorem before, [selective_vpath_search] returns the
    candidate of the first directory of the listing that counts: one whose
    candidate is mentioned in a makefile and passes the rule on targets,
    or that holds the file name according to the directory cache, the
    candidate being stat'ed with success, or without it when the file is a
    target or the listing has a target goal. When no directory counts it
    returns the candidate of the first directory if the listing has a
    target goal, and 0 otherwise. *)
Theorem selective_vpath_search_first_found (E : env) (path : vpath)
  (file0 : cstring) (mtime_ptr path_index : bool) (m : mem) :
  HAVE_DOS_PATHS E = false ->
  listing_ok path ->
  (forall d, In d (searchpath path) -> open_ended d) ->
  is_cstring file0 ->
  regular_name file0 ->
  returned (selective_vpath_search E path file0 mtime_ptr path_index m)
  = Ok (first_found E path file0).
Proof.
  intros Hdos Hok Hopen Hfile Hreg.
  destruct (selective_vpath_search_run E path file0 mtime_ptr path_index m
              Hdos Hok Hopen Hfile Hreg) as [r [m' [Hrun [Hfind _]]]].
  unfold returned. rewrite Hrun. cbn [bind fst]. rewrite Hfind. reflexivity.
Qed.

(** The database mentions src/foo.o: the second directory counts. *)
Lemma selective_vpath_search_first_found_witness :
  returned (selective_vpath_search (mentions false)
              (listing (cs "%.o") [cs "obj"; cs "src"] 1) (cs "foo.o")
              true true empty_mem)
  = Ok (first_found (mentions false)
          (listing (cs "%.o") [cs "obj"; cs "src"] 1) (cs "foo.o")).
Proof.
  apply (selective_vpath_search_first_found (mentions false)
           (listing (cs "%.o") [cs "obj"; cs "src"] 1) (cs "foo.o")
           true true empty_mem).
  - reflexivity.
  - unfold listing_ok, is_cstring.
    apply Forall_cons; [|apply Forall_cons; [|apply Forall_nil]];
      (split; [|simpl; lia]); simpl; intros H;
      repeat (destruct H as [H|H]; [discriminate H|]); exact H.
  - simpl. intros d [<-|[<-|[]]]; eexists; (split; [reflexivity|]);
      discriminate.
  - unfold is_cstring. simpl. intros H.
    repeat (destruct H as [H|H]; [discriminate H|]). exact H.
  - unfold regular_name. simpl. exact I.
Defined.
(** ** A directive on WINDOWS32: from the host-native list to the entries *)

Lemma entry_end_escaped (E : env) :
  PATH_SEPARATOR_CHAR E = ";"%char ->
  forall (d rest : cstring) (k : nat) (esc ab : bool),
    (esc = true -> ab = true) ->
    plain_spaces ab d = true ->
    (forall c, In c d -> c <> TAB /\ c <> ";"%char) ->
    entry_end E k esc (escape_spaces d ++ rest)
    = entry_end E (k + strlen (escape_spaces d))
        (fold_left (fun e c => next_escaped false c e) d esc) rest.
Proof.
  intros Hsep d rest. induction d as [|c d IH]; intros k esc ab Hesc Hplain Hd.
  - simpl. rewrite Nat.add_0_r. reflexivity.
  - unfold escape_spaces. cbn [flat_map]. fold (escape_spaces d).
    cbn [plain_spaces] in Hplain. apply andb_true_iff in Hplain.
    destruct Hplain as [Hhere Hplain].
    assert (Hin : forall x, In x d -> x <> TAB /\ x <> ";"%char)
      by (intros x Hx; apply Hd; right; exact Hx).
    destruct (Hd c (or_introl eq_refl)) as [Htab Hsemi].
    destruct (Ascii.eqb c SPACE) eqn:Hc.
    + apply ascii_eqb_true in Hc. subst c.
      assert (Hesc0 : esc = false).
      { destruct esc; [|reflexivity]. rewrite (Hesc eq_refl) in Hhere.
        discriminate Hhere. }
      subst esc. cbn [app entry_end]. rewrite Hsep.
      change (Ascii.eqb BACKSLASH ";") with false.
      change (Ascii.eqb SPACE ";") with false.
      change (ISBLANK BACKSLASH) with false.
      change (Ascii.eqb BACKSLASH BACKSLASH) with true.
      change (Ascii.eqb SPACE BACKSLASH) with false.
      cbn [negb orb andb].
      rewrite (IH (S (S k)) false false) by
        (try discriminate; assumption).
      cbn [fold_left]. unfold strlen. cbn [List.length].
      rewrite orb_true_r.
      change (next_escaped false SPACE false) with false.
      f_equal. lia.
    + cbn [app entry_end]. rewrite Hsep.
      assert (Hs : Ascii.eqb c ";" = false)
        by (apply ascii_eqb_false; exact Hsemi).
      assert (Hb : ISBLANK c = false).
      { apply not_blank; [apply ascii_eqb_false; exact Hc|exact Htab]. }
      rewrite Hs, Hb. cbn [negb orb andb].
      rewrite (IH (S k) (if Ascii.eqb c BACKSLASH then negb esc else false)
                 (Ascii.eqb c BACKSLASH)).
      * cbn [fold_left]. unfold next_escaped at 2. cbn [negb andb].
        unfold strlen. cbn [List.length]. f_equal. lia.
      * destruct (Ascii.eqb c BACKSLASH); [reflexivity|discriminate].
      * exact Hplain.
      * exact Hin.
Qed.

Lemma escape_spaces_keeps_last (d : cstring) :
  last_char d <> Some SPACE -> last_char (escape_spaces d) = last_char d.
Proof.
  intros Hlast. destruct d as [|x d']; [reflexivity|].
  destruct (last_char_split (x :: d') ltac:(discriminate))
    as [d0 [c [Heq Hc]]].
  rewrite Heq in *. rewrite escape_spaces_app, Hc.
  assert (Hs : Ascii.eqb c SPACE = false)
    by (apply ascii_eqb_false; intros ->; apply Hlast; exact Hc).
  unfold escape_spaces at 2. cbn [flat_map]. rewrite Hs. cbn [app].
  apply last_char_app. discriminate.
Qed.

Lemma escape_spaces_not_dot (d : cstring) :
  d <> [DOT] -> escape_spaces d <> [DOT].
Proof.
  intros Hd. destruct d as [|c d]; [discriminate|].
  unfold escape_spaces. cbn [flat_map].
  destruct (Ascii.eqb c SPACE) eqn:Hc; [discriminate|].
  cbn [app]. intros H. injection H as -> Hrest.
  destruct d as [|c' d]; [congruence|].
  cbn [flat_map] in Hrest. destruct (Ascii.eqb c' SPACE); discriminate Hrest.
Qed.

Lemma canonical_entry_escaped (E : env) (d : cstring) :
  directory_ok ";" d -> kept_whole d ->
  canonical_entry E (escape_spaces d) = escape_spaces d.
Proof.
  intros [Hne [_ [_ [_ [Hsp Hbs]]]]] [_ [Hsl _]].
  rewrite canonical_entry_cases.
  assert (Hstrip : strip_trailing_slash E (escape_spaces d)
                     (strlen (escape_spaces d)) = strlen (escape_spaces d)).
  { unfold strip_trailing_slash.
    rewrite <- last_char_nth, escape_spaces_keeps_last by exact Hsp.
    assert (H1 : is_char (last_char d) SLASH = false).
    { destruct (last_char d) as [c|]; [|reflexivity]. simpl.
      apply ascii_eqb_false. intros ->. apply Hsl. reflexivity. }
    assert (H2 : is_char (last_char d) BACKSLASH = false).
    { destruct (last_char d) as [c|]; [|reflexivity]. simpl.
      apply ascii_eqb_false. intros ->. apply Hbs. reflexivity. }
    rewrite H1, H2. cbn [orb]. rewrite !andb_false_r.
    destruct (HAVE_DOS_PATHS E); reflexivity. }
  rewrite Hstrip, Nat.ltb_irrefl. reflexivity.
Qed.

Lemma escaped_head_at_entry (E : env) (d : cstring) :
  PATH_SEPARATOR_CHAR E = ";"%char -> directory_ok ";" d ->
  exists c t,
    escape_spaces d = c :: t /\ STOP_SET_BLANK_PATHSEP E c = false.
Proof.
  intros Hsep [Hd [_ [Ht [Hs _]]]]. destruct d as [|c d]; [congruence|].
  unfold escape_spaces. cbn [flat_map]. unfold STOP_SET_BLANK_PATHSEP.
  rewrite Hsep. destruct (Ascii.eqb c SPACE) eqn:Hc.
  - eexists _, _. split; reflexivity.
  - eexists _, _. split; [reflexivity|]. apply orb_false_iff. split.
    + apply not_blank; [apply ascii_eqb_false; exact Hc|].
      intros ->. apply Ht. left. reflexivity.
    + apply ascii_eqb_false. intros ->. apply Hs. left. reflexivity.
Qed.

Lemma directory_bytes (d : cstring) :
  directory_ok ";" d -> forall c, In c d -> c <> TAB /\ c <> ";"%char.
Proof.
  intros [_ [_ [Ht [Hs _]]]] c Hc.
  split; intros ->; [apply Ht|apply Hs]; exact Hc.
Qed.

Lemma entry_end_directory (E : env) (d rest : cstring) :
  PATH_SEPARATOR_CHAR E = ";"%char ->
  directory_ok ";" d -> kept_whole d ->
  match rest with [] => True | c :: _ => c = SPACE end ->
  entry_end E 0 false (escape_spaces d ++ rest) = strlen (escape_spaces d).
Proof.
  intros Hsep Hok [Hplain _] Hrest.
  rewrite (entry_end_escaped E Hsep d rest 0 false false)
    by (try discriminate; try assumption; apply directory_bytes; exact Hok).
  destruct Hok as [Hd [_ [_ [_ [_ Hbs]]]]].
  rewrite escaped_after by assumption.
  destruct rest as [|c rest]; [reflexivity|]. subst c.
  cbn [entry_end]. change (ISBLANK SPACE) with true.
  cbn [negb orb]. rewrite andb_false_r. reflexivity.
Qed.

Lemma skip_separators_none (E : env) (c : ascii) (t : cstring) :
  STOP_SET_BLANK_PATHSEP E c = false -> skip_separators E (c :: t) = c :: t.
Proof. intros H. cbn [skip_separators]. rewrite H. reflexivity. Qed.

Lemma canonical_list_head (E : env) (ds : list cstring) :
  PATH_SEPARATOR_CHAR E = ";"%char ->
  ds <> [] -> Forall (directory_ok ";") ds ->
  exists c t,
    canonical_list ds = c :: t /\ STOP_SET_BLANK_PATHSEP E c = false.
Proof.
  intros Hsep Hne Hok. destruct ds as [|d ds]; [congruence|].
  inversion Hok as [|d0 ds0 Hd _]; subst.
  destruct (escaped_head_at_entry E d Hsep Hd) as [c [t [Heq Hc]]].
  unfold canonical_list. cbn [map]. destruct ds as [|d' ds].
  - exists c, t. split; [exact Heq|exact Hc].
  - cbn [map]. rewrite join_cons, Heq. eexists _, _.
    split; [reflexivity|exact Hc].
Qed.

Lemma raw_entries_canonical (E : env) :
  PATH_SEPARATOR_CHAR E = ";"%char ->
  forall ds : list cstring,
    ds <> [] -> Forall (directory_ok ";") ds -> Forall kept_whole ds ->
    forall fuel : nat,
      strlen (canonical_list ds) <= fuel ->
      raw_entries fuel E (canonical_list ds) = map escape_spaces ds.
Proof.
  intros Hsep ds. induction ds as [|d ds IH]; intros Hne Hok Hkept fuel Hfuel;
    [congruence|].
  inversion Hok as [|d0 ds0 Hd Hok']; subst.
  inversion Hkept as [|d0 ds0 Hk Hkept']; subst.
  destruct (escaped_head_at_entry E d Hsep Hd) as [c [t [Heq Hc]]].
  destruct ds as [|d' ds].
  - unfold canonical_list in *. cbn [map join] in *.
    destruct fuel as [|fuel];
      [rewrite Heq in Hfuel; simpl in Hfuel; lia|].
    rewrite raw_entries_round by (rewrite Heq; discriminate).
    pose proof (entry_end_directory E d [] Hsep Hd Hk I) as Hend.
    rewrite app_nil_r in Hend. rewrite Hend.
    unfold strlen. rewrite firstn_all, skipn_all. f_equal.
    destruct fuel; reflexivity.
  - unfold canonical_list in *. cbn [map] in *.
    rewrite join_cons in *.
    destruct fuel as [|fuel];
      [rewrite Heq in Hfuel; simpl in Hfuel; lia|].
    rewrite raw_entries_round by (rewrite Heq; discriminate).
    rewrite (entry_end_directory E d
               (SPACE :: join SPACE (escape_spaces d' :: map escape_spaces ds))
               Hsep Hd Hk eq_refl).
    unfold strlen.
    rewrite firstn_app, firstn_all, Nat.sub_diag, app_nil_r.
    rewrite skipn_app, skipn_all, Nat.sub_diag. cbn [app skipn firstn].
    cbn [skip_separators]. unfold STOP_SET_BLANK_PATHSEP at 1.
    change (ISBLANK SPACE) with true. cbn [orb].
    destruct (canonical_list_head E (d' :: ds) Hsep ltac:(discriminate) Hok')
      as [c' [t' [Heq' Hc']]].
    unfold canonical_list in Heq'. cbn [map] in Heq'.
    rewrite Heq', skip_separators_none by exact Hc'. rewrite <- Heq'.
    apply (f_equal (cons (escape_spaces d))).
    apply IH; [discriminate|exact Hok'|exact Hkept'|].
    unfold strlen in Hfuel. rewrite length_app in Hfuel.
    cbn [List.length] in Hfuel. unfold strlen. lia.
Qed.

Lemma surviving_entries_canonical (E : env) (ds : list cstring) :
  PATH_SEPARATOR_CHAR E = ";"%char ->
  ds <> [] -> Forall (directory_ok ";") ds -> Forall kept_whole ds ->
  surviving_entries E (canonical_list ds) = map escape_spaces ds.
Proof.
  intros Hsep Hne Hok Hkept. unfold surviving_entries.
  destruct (canonical_list_head E ds Hsep Hne Hok) as [c [t [Heq Hc]]].
  rewrite Heq, skip_separators_none by exact Hc. rewrite <- Heq.
  rewrite (raw_entries_canonical E Hsep ds Hne Hok Hkept _ (le_n _)).
  clear Heq Hc Hne. induction ds as [|d ds IH]; [reflexivity|].
  inversion Hok as [|d0 ds0 Hd Hok']; subst.
  inversion Hkept as [|d0 ds0 Hk Hkept']; subst.
  cbn [map filter]. rewrite canonical_entry_escaped by assumption.
  assert (Hdot : streq (escape_spaces d) [DOT] = false).
  { destruct (streq (escape_spaces d) [DOT]) eqn:Hs; [|reflexivity].
    apply streq_eq in Hs. destruct Hk as [_ [_ Hk]].
    exfalso. exact (escape_spaces_not_dot d Hk Hs). }
  rewrite Hdot. cbn [negb]. f_equal. apply IH; assumption.
Qed.

(** X11. A directive on WINDOWS32 with the semicolon for path separator:
    for a host-native list of one directory or more, written with
    semicolons between them, each in double quotes or bare, where
    - every directory is not empty, holds no double quote, no tab and no
      semicolon, and ends neither in a space nor in a backslash;
    - a bare directory of a list of several does not start with a space,
      and a bare directory that stands alone holds no space at all;
    - in no directory a space follows a backslash, none ends in a slash
      and none is ".",
    [construct_vpath_list] puts at the head of the chain the listing whose
    entries are these directories, in order, each space escaped by a
    backslash. A directory string without a double quote and without a
    semicolon, such as a bare directory that stands alone, is not
    converted: it is read as a list in canonical form, without the blanks
    at its start and at its end, and cut at its blanks like any such
    list. *)
Theorem windows32_directive (E : env) (pat : cstring)
  (es : list (bool * cstring)) (goal : Z) (g : globals) :
  WINDOWS32 E = true ->
  PATH_SEPARATOR_CHAR E = ";"%char ->
  es <> [] ->
  Forall (entry_ok ";" (1 <? List.length es)) es ->
  Forall kept_whole (map snd es) ->
  construct_vpath_list E (Some pat) (Some (native_list ";" es)) goal g
  = Ok (set_vpaths g
          (new_listing E pat (map escape_spaces (map snd es)) goal
           :: vpaths g))
  /\ forall d : cstring,
       ~ In DQUOTE d -> ~ In ";"%char d ->
       construct_vpath_list E (Some pat) (Some d) goal g
       = Ok (match skip_blanks d with
             | [] => g
             | s =>
                 match surviving_entries E (rev (skip_blanks (rev s))) with
                 | [] => g
                 | entries =>
                     set_vpaths g
                       (new_listing E pat entries goal :: vpaths g)
                 end
             end).
Proof.
  intros Hw Hsep Hne Hok Hkept. split.
  - rewrite construct_vpath_list_adds. unfold canonical_dirpath. rewrite Hw.
    assert (Hdelim : delimiter_ok ";") by (repeat split; discriminate).
    rewrite (convert_from_native ";" es Hdelim Hne Hok). cbn [bind].
    assert (Hds : Forall (directory_ok ";") (map snd es)).
    { apply Forall_forall. intros d Hd. apply in_map_iff in Hd.
      destruct Hd as [e [<- He]]. rewrite Forall_forall in Hok.
      apply (Hok e He). }
    assert (Hne' : map snd es <> [])
      by (destruct es; [congruence|discriminate]).
    rewrite (surviving_entries_canonical E (map snd es) Hsep Hne' Hds Hkept).
    destruct (map escape_spaces (map snd es)) eqn:Hm; [|reflexivity].
    destruct es; [congruence|discriminate Hm].
  - intros d Hq Hd. rewrite construct_vpath_list_adds.
    unfold canonical_dirpath. rewrite Hw.
    rewrite (convert_plain_path d ";" Hq Hd). cbn [bind].
    destruct (skip_blanks d) as [|c s]; [reflexivity|].
    destruct (surviving_entries E (rev (skip_blanks (rev (c :: s)))));
      reflexivity.
Qed.

(** The list "C:\Program Files";D:\src;E:\My Documents\x. *)
Lemma windows32_directive_witness :
  (construct_vpath_list (windows32 no_file empty_cache empty_fs)
     (Some (cs "%.h")) (Some (native_list ";" three_directories)) 0 no_lists
   = Ok (set_vpaths no_lists
           (new_listing (windows32 no_file empty_cache empty_fs) (cs "%.h")
              (map escape_spaces (map snd three_directories)) 0
            :: vpaths no_lists))
   /\ forall d : cstring,
        ~ In DQUOTE d -> ~ In ";"%char d ->
        construct_vpath_list (windows32 no_file empty_cache empty_fs)
          (Some (cs "%.h")) (Some d) 0 no_lists
        = Ok (match skip_blanks d with
              | [] => no_lists
              | s =>
                  match surviving_entries
                          (windows32 no_file empty_cache empty_fs)
                          (rev (skip_blanks (rev s))) with
                  | [] => no_lists
                  | entries =>
                      set_vpaths no_lists
                        (new_listing
                           (windows32 no_file empty_cache empty_fs)
                           (cs "%.h") entries 0
                         :: vpaths no_lists)
                  end
              end))
  /\ construct_vpath_list (windows32 no_file empty_cache empty_fs)
       (Some (cs "%.h")) (Some (cs "C:\Program Files")) 0 no_lists
     = Ok (set_vpaths no_lists
             (new_listing (windows32 no_file empty_cache empty_fs)
                (cs "%.h") [cs "C:\Program"; cs "Files"] 0
              :: vpaths no_lists)).
Proof.
  split; [|vm_compute; reflexivity].
  apply (windows32_directive (windows32 no_file empty_cache empty_fs)
           (cs "%.h") three_directories 0 no_lists).
  - reflexivity.
  - reflexivity.
  - discriminate.
  - unfold three_directories.
    apply Forall_cons;
      [|apply Forall_cons; [|apply Forall_cons; [|apply Forall_nil]]];
      unfold entry_ok, directory_ok, bare_ok; simpl; repeat split;
      first [ discriminate
            | intros H; discriminate H
            | intros H; repeat (destruct H as [H|H]; [discriminate H|]);
              exact H
            | intros _ H; repeat (destruct H as [H|H]; [discriminate H|]);
              exact H ].
  - unfold three_directories. cbn [map snd].
    apply Forall_cons;
      [|apply Forall_cons; [|apply Forall_cons; [|apply Forall_nil]]];
      unfold kept_whole; (split; [reflexivity|split; discriminate]).
Defined.
(** ** The time stamp that a successful search stores *)

Lemma mentioned_stores (E : env) (is_target : bool) (f : file) (s : scan)
  (n : cstring) :
  lookup_file E n = Some f ->
  let r := mentioned E is_target f s in
  (snd (fst r) = mtime_live s /\ snd r = out s)
  \/ (fst (fst r) = true /\ mtime_live s = true /\ snd (fst r) = false
      /\ exists t, at_mtime_ptr (snd r) = t :: at_mtime_ptr (out s)
                   /\ time_stamp_of E t).
Proof.
  intros Hn. unfold mentioned.
  destruct (negb is_target || filedef.is_target f); cbn [andb];
    [|left; split; reflexivity].
  destruct (mtime_live s) eqn:Hlive; cbn [andb];
    [|left; split; reflexivity].
  destruct ((last_mtime f =? OLD_MTIME E)%Z || (last_mtime f =? NEW_MTIME E)%Z)
    eqn:Hspecial; [|left; split; reflexivity].
  right. cbn [fst snd]. repeat split.
  exists (last_mtime f). split; [reflexivity|].
  right. left. exists n, f. repeat split; try assumption.
  apply orb_true_iff in Hspecial.
  destruct Hspecial as [H|H]; apply Z.eqb_eq in H; [left|right]; exact H.
Qed.

(** A round that returns has stored one time stamp, if [mtime_ptr] is not
    null; a round that goes on has stored none. *)
Lemma try_directory_mtime (E : env) (is_target is_target_path : bool)
  (path_index : bool) (file0 filename : cstring) (name_dplen flen : nat)
  (i : nat) (dir : cstring) (s : scan) (r : round) :
  try_directory E is_target is_target_path path_index file0 filename
    name_dplen flen i dir s = Ok r ->
  match r with
  | Return _ m' =>
      stored_once E (mtime_live s) (at_mtime_ptr (out s)) (at_mtime_ptr m')
  | Continue s' => out s' = out s /\ mtime_live s' = mtime_live s
  end.
Proof.
  unfold try_directory, bind. intros H.
  destruct (build_name E (name s) dir file0 filename name_dplen flen)
    as [[nm p]|]; [|discriminate H].
  destruct (cstr nm) as [candidate|]; [|discriminate H].
  assert (Hstage :
    let r := match lookup_file E candidate with
             | Some f => mentioned E is_target f s
             | None => (exists_ s, mtime_live s, out s)
             end in
    (snd (fst r) = mtime_live s /\ snd r = out s)
    \/ (fst (fst r) = true /\ mtime_live s = true /\ snd (fst r) = false
        /\ exists t, at_mtime_ptr (snd r) = t :: at_mtime_ptr (out s)
                     /\ time_stamp_of E t)).
  { destruct (lookup_file E candidate) as [f|] eqn:Hf.
    - apply (mentioned_stores E is_target f s candidate Hf).
    - left. split; reflexivity. }
  destruct (match lookup_file E candidate with
            | Some f => mentioned E is_target f s
            | None => (exists_ s, mtime_live s, out s)
            end) as [[ex live] m].
  cbn [fst snd] in Hstage.
  assert (Hunknown : time_stamp_of E (UNKNOWN_MTIME E))
    by (left; reflexivity).
  destruct Hstage as [[-> ->]|[-> [Hlive [-> [t [Ht Hts]]]]]].
  - (* nothing stored so far *)
    unfold assert in H. cbv zeta in H.
    destruct ex; cbn [negb] in H.
    + destruct (store nm p SLASH) as [nm'|]; [|discriminate H].
      destruct (strcache_add_len nm' (p + 1 + flen)); [|discriminate H].
      injection H as <-. unfold stored_once.
      destruct (mtime_live s), path_index; cbn; eauto.
    + destruct (store nm p NUL) as [nm0|]; [|discriminate H].
      destruct (cstr nm0) as [directory|]; [|discriminate H].
      destruct (store nm0 p SLASH) as [nm'|]; [|discriminate H].
      destruct (dir_file_exists_p E directory filename).
      * destruct (cstr nm') as [statname|]; [|discriminate H].
        destruct (stat E statname) as [modtime|] eqn:Hstat.
        -- assert (Hmod : time_stamp_of E modtime)
             by (right; right; exists statname; exact Hstat).
           destruct (mtime_live s);
             destruct (strcache_add_len nm' (p + 1 + flen));
             try discriminate H; injection H as <-; unfold stored_once;
             destruct path_index; cbn; eauto.
        -- destruct (negb is_target_path && negb is_target).
           ++ injection H as <-. split; reflexivity.
           ++ destruct (strcache_add_len nm' (p + 1 + flen));
                [|discriminate H].
              injection H as <-. unfold stored_once.
              destruct (mtime_live s), path_index; cbn; eauto.
      * repeat match type of H with
               | context [match ?x with _ => _ end] =>
                   destruct x; try discriminate H
               end;
          injection H as <-; split; reflexivity.
  - (* the makefile test stored the time stamp of the database *)
    cbn [negb] in H.
    destruct (store nm p SLASH) as [nm'|]; [|discriminate H].
    cbv zeta in H.
    destruct (strcache_add_len nm' (p + 1 + flen)); [|discriminate H].
    injection H as <-. unfold stored_once. rewrite Hlive.
    exists t. split; [|exact Hts].
    destruct path_index; cbn; exact Ht.
Qed.

Lemma scan_directories_mtime (E : env) (is_target is_target_path : bool)
  (path_index : bool) (file0 filename : cstring) (name_dplen flen : nat)
  (vpath : list cstring) :
  forall (i : nat) (s : scan) (found : cstring) (m' : mem),
    scan_directories E is_target is_target_path path_index file0 filename
      name_dplen flen i vpath s = Ok (Some found, m') ->
    stored_once E (mtime_live s) (at_mtime_ptr (out s)) (at_mtime_ptr m').
Proof.
  induction vpath as [|dir vpath IH]; intros i s found m'; simpl.
  - unfold bind, assert. destruct (tgt_name s); [|discriminate].
    destruct (0 <? tgt_len s); [|discriminate].
    destruct is_target_path; [|discriminate].
    destruct (strcache_add_len _ _); [|discriminate].
    intros [= _ <-]. unfold stored_once.
    destruct (mtime_live s), path_index; cbn;
      try reflexivity; (eexists; split; [reflexivity|left; reflexivity]).
  - unfold bind.
    destruct (try_directory E is_target is_target_path path_index file0
                filename name_dplen flen i dir s) as [rd|] eqn:Hr;
      [|discriminate].
    apply try_directory_mtime in Hr.
    destruct rd as [f m|s'].
    + intros [= _ <-]. exact Hr.
    + intros H. apply IH in H. destruct Hr as [Hout Hlive].
      rewrite Hout, Hlive in H. exact H.
Qed.

Lemma selective_vpath_search_mtime (E : env) (path : vpath)
  (file0 : cstring) (mtime_ptr path_index : bool) (m m' : mem)
  (found : cstring) :
  selective_vpath_search E path file0 mtime_ptr path_index m
  = Ok (Some found, m') ->
  stored_once E mtime_ptr (at_mtime_ptr m) (at_mtime_ptr m').
Proof.
  unfold selective_vpath_search. intros H.
  apply scan_directories_mtime in H. exact H.
Qed.

Lemma first_run_mtime (E : env) (file0 : cstring) (ptr : pointers)
  (chain : list vpath) :
  forall (m : mem) (chain' : list vpath) (m' : mem) (found : cstring),
    first_run E file0 ptr chain m = Ok (Some found, chain', m') ->
    stored_once E (mtime_ptr ptr) (at_mtime_ptr m) (at_mtime_ptr m').
Proof.
  induction chain as [|v next IH]; intros m chain' m' found; simpl;
    [discriminate|].
  unfold bind.
  destruct (vpath_match E v file0) as [matched|]; [|discriminate].
  assert (Hnext :
    forall (v' : vpath) (m1 : mem), m1 = m ->
      match first_run E file0 ptr next
              (if vpath_index ptr then increment_vpath_index m1 else m1)
      with
      | Ok (r, next', m2) => Ok (r, v' :: next', m2)
      | Fault f => Fault f
      end = Ok (Some found, chain', m') ->
      stored_once E (mtime_ptr ptr) (at_mtime_ptr m) (at_mtime_ptr m')).
  { intros v' m1 ->.
    destruct (first_run E file0 ptr next _)
      as [[[r next'] m2]|] eqn:Hn; [|discriminate].
    intros H. injection H as -> _ ->.
    apply IH in Hn. destruct (vpath_index ptr); exact Hn. }
  destruct matched.
  - destruct (selective_vpath_search E (set_target_goal v 0) file0
                (mtime_ptr ptr) (path_index ptr) m)
      as [[[p|] m1]|] eqn:Hs; [| |discriminate].
    + intros H. injection H as -> _ <-.
      apply selective_vpath_search_mtime in Hs.
      destruct (target_path ptr); exact Hs.
    + apply selective_vpath_search_none in Hs.
      intros H. eapply (Hnext _ m1 Hs). exact H.
  - intros H. eapply (Hnext _ m eq_refl). exact H.
Qed.

Lemma second_run_mtime (E : env) (file0 : cstring) (ptr : pointers)
  (chain : list vpath) :
  forall (m m' : mem) (found : cstring),
    second_run E file0 ptr chain m = Ok (Some found, m') ->
    stored_once E (mtime_ptr ptr) (at_mtime_ptr m) (at_mtime_ptr m').
Proof.
  induction chain as [|v next IH]; intros m m' found; simpl;
    [discriminate|].
  unfold bind.
  destruct (if negb (target_goal v =? 0)%Z
            then vpath_match E v file0 else Ok false)
    as [matched|]; [|discriminate].
  assert (Hnext :
    forall m1 : mem, m1 = m ->
      second_run E file0 ptr next
        (if vpath_index ptr then increment_vpath_index m1 else m1)
      = Ok (Some found, m') ->
      stored_once E (mtime_ptr ptr) (at_mtime_ptr m) (at_mtime_ptr m')).
  { intros m1 -> Hn. apply IH in Hn. destruct (vpath_index ptr); exact Hn. }
  destruct matched.
  - destruct (selective_vpath_search E v file0
                (mtime_ptr ptr) (path_index ptr) m)
      as [[[p|] m1]|] eqn:Hs; [| |discriminate].
    + intros H. injection H as -> <-.
      apply selective_vpath_search_mtime in Hs.
      destruct (target_path ptr); exact Hs.
    + apply selective_vpath_search_none in Hs.
      intros H. apply (Hnext m1 Hs). exact H.
  - intros H. apply (Hnext m eq_refl). exact H.
Qed.

(** X12. The time stamp of a found file: when [vpath_search] returns a
    name and [mtime_ptr] is not null, exactly one value was stored through
    it: the time stamp "unknown", one of the two special time stamps that
    the database holds for a file, or the modification time that [stat]
    gave for a name. When [mtime_ptr] is null nothing is stored. *)
Theorem vpath_search_found_mtime (E : env) (file0 : cstring)
  (ptr : pointers) (g g' : globals) (m m' : mem) (found : cstring) :
  vpath_search E file0 ptr g m = Ok (Some found, g', m') ->
  stored_once E (mtime_ptr ptr) (at_mtime_ptr m) (at_mtime_ptr m').
Proof.
  unfold vpath_search. intros H.
  assert (Hentry :
    (if vpath_index ptr
     then do _ <- assert (path_index ptr);
          Ok (store_path_index
                (store_vpath_index
                   (if target_path ptr then store_target_path m 0 else m) 0)
                0)
     else Ok (if target_path ptr then store_target_path m 0 else m))
    = Ok (entry_stores ptr m)
    \/ exists f,
         (if vpath_index ptr
          then do _ <- assert (path_index ptr);
               Ok (store_path_index
                     (store_vpath_index
                        (if target_path ptr then store_target_path m 0
                         else m) 0) 0)
          else Ok (if target_path ptr then store_target_path m 0 else m))
         = Fault f).
  { unfold entry_stores. destruct (vpath_index ptr); [|left; reflexivity].
    destruct (path_index ptr); [left; reflexivity|].
    right. eexists. reflexivity. }
  destruct Hentry as [Hentry|[f Hentry]]; rewrite Hentry in H;
    [|discriminate H].
  unfold bind in H.
  rewrite <- (entry_stores_frame ptr m).
  set (m0 := entry_stores ptr m) in *.
  destruct (nothing_to_do E file0 g) as [stop|]; [|discriminate H].
  destruct stop; [discriminate H|].
  destruct (first_run E file0 ptr (vpaths g) m0)
    as [[[r chain] m1]|] eqn:H1; [|discriminate H].
  destruct r as [p|].
  { injection H as -> _ <-. apply first_run_mtime in H1. exact H1. }
  apply first_run_frame in H1.
  destruct (second_run E file0 ptr (vpaths (set_vpaths g chain))
              (if vpath_index ptr then reset_indices m1 else m1))
    as [[r m2]|] eqn:H2; [|discriminate H].
  assert (Hm1 : at_mtime_ptr (if vpath_index ptr then reset_indices m1
                              else m1) = at_mtime_ptr m0)
    by (destruct (vpath_index ptr); exact H1).
  destruct r as [p|].
  { injection H as -> _ <-. apply second_run_mtime in H2.
    rewrite Hm1 in H2. exact H2. }
  apply second_run_frame in H2. rewrite Hm1 in H2.
  destruct (general_vpath (set_vpaths g chain)) as [general|];
    [|discriminate H].
  destruct (selective_vpath_search E general file0 (mtime_ptr ptr)
              (path_index ptr)
              (if vpath_index ptr then reset_indices m2 else m2))
    as [[[p|] m3]|] eqn:H3; try discriminate H.
  injection H as -> _ <-. apply selective_vpath_search_mtime in H3.
  assert (Hm2 : at_mtime_ptr (if vpath_index ptr then reset_indices m2
                              else m2) = at_mtime_ptr m0)
    by (destruct (vpath_index ptr); exact H2).
  rewrite Hm2 in H3. destruct (target_path ptr); exact H3.
Qed.

(** The search that finds lib/foo.o stores the time stamp "unknown". *)
Lemma vpath_search_found_mtime_witness :
  stored_once lib_foo_mentioned (mtime_ptr all_pointers)
    (at_mtime_ptr used_mem)
    (at_mtime_ptr
       {| at_mtime_ptr := [0%Z; 42%Z]; at_target_path := 0;
          at_vpath_index := 1; at_path_index := 0 |}).
Proof.
  apply (vpath_search_found_mtime lib_foo_mentioned (cs "foo.o")
           all_pointers three_lists three_lists used_mem
           {| at_mtime_ptr := [0%Z; 42%Z]; at_target_path := 0;
              at_vpath_index := 1; at_path_index := 0 |}
           (cs "lib/foo.o")).
  vm_compute. reflexivity.
Defined.
(** ** [chop_commands]: the lines of a recipe *)

Lemma strchr_first (s : cstring) (c : ascii) :
  forall k,
    strchr s c = Some k ->
    nth_error s k = Some c /\ forall j, j < k -> nth_error s j <> Some c.
Proof.
  induction s as [|x s IH]; intros k; simpl; [discriminate|].
  destruct (Ascii.eqb x c) eqn:Hx.
  - intros [= <-]. apply ascii_eqb_true in Hx. subst x.
    split; [reflexivity|]. intros j Hj. lia.
  - destruct (strchr s c) as [k'|]; [|discriminate].
    simpl. intros [= <-]. destruct (IH k' eq_refl) as [Hk Hbefore].
    split; [exact Hk|]. intros [|j] Hj; simpl.
    + intros [= ->]. rewrite (proj2 (ascii_eqb_true c c) eq_refl) in Hx.
      discriminate Hx.
    + apply Hbefore. lia.
Qed.

Lemma strchr_nowhere (s : cstring) (c : ascii) :
  strchr s c = None -> forall j, nth_error s j <> Some c.
Proof.
  induction s as [|x s IH]; simpl; intros H j.
  - destruct j; discriminate.
  - destruct (Ascii.eqb x c) eqn:Hx; [discriminate|].
    destruct (strchr s c); [discriminate|].
    destruct j as [|j]; simpl.
    + intros [= ->]. rewrite (proj2 (ascii_eqb_true c c) eq_refl) in Hx.
      discriminate Hx.
    + apply IH. reflexivity.
Qed.



(** The end of a line: a newline that is not continued, or the end of the
    text; every newline before it is continued. *)
Lemma find_end_spec (p : cstring) :
  forall (fuel e0 : nat),
    e0 <= strlen p ->
    strlen p < fuel + e0 ->
    (forall i, i < e0 -> nth_error p i = Some NEWLINE ->
               continued p i = true) ->
    e0 <= find_end fuel p e0 <= strlen p
    /\ (find_end fuel p e0 < strlen p ->
        nth_error p (find_end fuel p e0) = Some NEWLINE
        /\ continued p (find_end fuel p e0) = false)
    /\ (forall i, i < find_end fuel p e0 -> nth_error p i = Some NEWLINE ->
                  continued p i = true).
Proof.
  induction fuel as [|fuel IH]; intros e0 He0 Hfuel Hbefore; [lia|].
  cbn [find_end].
  destruct (strchr (skipn e0 p) NEWLINE) as [k|] eqn:Hk.
  - destruct (strchr_first _ _ k Hk) as [Hat Hfirst].
    rewrite nth_error_skipn in Hat.
    assert (Hin : e0 + k < strlen p).
    { unfold strlen. apply nth_error_Some. rewrite Hat. discriminate. }
    assert (Hupto : forall i, i < e0 + k -> nth_error p i = Some NEWLINE ->
                              continued p i = true).
    { intros i Hi Hnl. destruct (Nat.lt_ge_cases i e0) as [Hlt|Hge].
      - apply Hbefore; assumption.
      - exfalso. apply (Hfirst (i - e0)); [lia|].
        rewrite nth_error_skipn. replace (e0 + (i - e0)) with i by lia.
        exact Hnl. }
    destruct (continued p (e0 + k)) eqn:Hcont.
    + destruct (IH (e0 + k + 1)) as [Hrange [Hend Hall]]; [lia|lia| |].
      * intros i Hi Hnl. destruct (Nat.eq_dec i (e0 + k)) as [->|Hne].
        -- exact Hcont.
        -- apply Hupto; [lia|exact Hnl].
      * split; [lia|]. split; assumption.
    + split; [lia|]. split; [intros _; split; assumption|exact Hupto].
  - pose proof (strchr_nowhere _ _ Hk) as Hnone.
    split; [lia|]. split; [lia|].
    intros i Hi Hnl. destruct (Nat.lt_ge_cases i e0) as [Hlt|Hge].
    + apply Hbefore; assumption.
    + exfalso. apply (Hnone (i - e0)). rewrite nth_error_skipn.
      replace (e0 + (i - e0)) with i by lia. exact Hnl.
Qed.












(** ** [commands.c]: names with their spaces escaped *)

Lemma count_spaces_escaped (name : cstring) :
  forall len : nat,
    count_spaces name len + strlen name = len + strlen (escape_spaces name).
Proof.
  induction name as [|c name IH]; intros len; [reflexivity|].
  cbn [count_spaces]. unfold escape_spaces. cbn [flat_map].
  fold (escape_spaces name). unfold strlen in *. rewrite length_app.
  cbn [List.length]. specialize (IH (if Ascii.eqb c SPACE then S len else len)).
  destruct (Ascii.eqb c SPACE); cbn [List.length]; lia.
Qed.

Lemma escaped_name_length_exact (name : cstring) :
  escaped_name_length name = strlen (escape_spaces name).
Proof.
  unfold escaped_name_length.
  pose proof (count_spaces_escaped name (strlen name)). lia.
Qed.

Lemma copy_escaped_written (name : cstring) (terminate : bool) (b : buffer) :
  forall w : list ascii,
    List.length w + strlen (escape_spaces name)
    + (if terminate then 1 else 0) <= List.length b ->
    copy_escaped_name (map Some w ++ skipn (List.length w) b) (List.length w)
      name terminate
    = Ok (map Some (w ++ escape_spaces name
                    ++ (if terminate then [NUL] else []))
          ++ skipn (List.length w + strlen (escape_spaces name)
                    + (if terminate then 1 else 0)) b).
Proof.
  induction name as [|c name IH]; intros w Hfit.
  - cbn [copy_escaped_name escape_spaces flat_map strlen List.length app]
      in *.
    destruct terminate.
    + rewrite store_written by lia. rewrite Nat.add_0_r. reflexivity.
    + rewrite app_nil_r, !Nat.add_0_r. reflexivity.
  - cbn [copy_escaped_name]. unfold escape_spaces in *. cbn [flat_map] in *.
    fold (escape_spaces name) in *. unfold strlen in *.
    rewrite length_app in Hfit.
    destruct (Ascii.eqb c SPACE) eqn:Hc; cbn [List.length app] in Hfit |- *.
    + rewrite store_written by lia. cbn [bind].
      replace (S (List.length w)) with (List.length (w ++ [BACKSLASH]))
        by (rewrite length_app; simpl; lia).
      replace (List.length w + 1) with (List.length (w ++ [BACKSLASH]))
        by (rewrite length_app; simpl; lia).
      rewrite store_written by (rewrite length_app; simpl; lia).
      cbn [bind].
      replace (S (List.length (w ++ [BACKSLASH])))
        with (List.length ((w ++ [BACKSLASH]) ++ [c]))
        by (rewrite !length_app; simpl; lia).
      replace (List.length (w ++ [BACKSLASH]) + 1)
        with (List.length ((w ++ [BACKSLASH]) ++ [c]))
        by (rewrite !length_app; simpl; lia).
      rewrite IH by (rewrite !length_app; simpl; lia).
      rewrite <- !app_assoc. cbn [app].
      rewrite !length_app. cbn [List.length].
      apply ascii_eqb_true in Hc. subst c.
      match goal with
      | |- Ok (_ ++ skipn ?a _) = Ok (_ ++ skipn ?b _) =>
          replace a with b by lia
      end.
      reflexivity.
    + cbn [bind]. rewrite store_written by lia. cbn [bind].
      replace (S (List.length w)) with (List.length (w ++ [c]))
        by (rewrite length_app; simpl; lia).
      replace (List.length w + 1) with (List.length (w ++ [c]))
        by (rewrite length_app; simpl; lia).
      rewrite IH by (rewrite !length_app; simpl; lia).
      rewrite <- !app_assoc. cbn [app].
      rewrite !length_app. cbn [List.length].
      match goal with
      | |- Ok (_ ++ skipn ?a _) = Ok (_ ++ skipn ?b _) =>
          replace a with b by lia
      end.
      reflexivity.
Qed.

Lemma escape_spaces_cstring (name : cstring) :
  is_cstring name -> is_cstring (escape_spaces name).
Proof.
  unfold is_cstring. intros Hname H. apply Hname.
  unfold escape_spaces in H. apply in_flat_map in H.
  destruct H as [c [Hc Hin]].
  destruct (Ascii.eqb c SPACE) eqn:Hs.
  - destruct Hin as [H|[H|[]]]; discriminate H.
  - destruct Hin as [<-|[]]. exact Hc.
Qed.

(** X14. [dup_escaped_name] stays inside the bytes that it allocates:
    [escaped_name_length] is the length of the name with a backslash put
    before each space, the copy with its terminator fills the
    [escaped_name_length (name) + 1] bytes, and the string that is left is
    the name with every space escaped, the canonical form of a directory of
    a search path. *)
Theorem dup_escaped_name_exact (name : cstring) :
  is_cstring name ->
  escaped_name_length name = strlen (escape_spaces name)
  /\ copy_escaped_name (alloca (escaped_name_length name + 1)) 0 name true
     = Ok (in_memory (escape_spaces name))
  /\ dup_escaped_name name = Ok (escape_spaces name).
Proof.
  intros Hname.
  pose proof (escaped_name_length_exact name) as Hlen.
  assert (Hcopy : copy_escaped_name (alloca (escaped_name_length name + 1)) 0
                    name true
                  = Ok (in_memory (escape_spaces name))).
  { pose proof (copy_escaped_written name true
                  (alloca (escaped_name_length name + 1)) []) as H.
    cbn [map app List.length skipn] in H. rewrite H.
    - unfold in_memory. rewrite map_app. cbn [map].
      rewrite skipn_all2; [rewrite app_nil_r; reflexivity|].
      unfold alloca. rewrite repeat_length. lia.
    - unfold alloca. rewrite repeat_length. lia. }
  split; [exact Hlen|]. split; [exact Hcopy|].
  unfold dup_escaped_name. rewrite Hcopy. cbn [bind].
  unfold in_memory. rewrite cstr_app; [reflexivity|].
  apply escape_spaces_cstring. exact Hname.
Qed.

(** The name "My Documents/a b.c". *)
Lemma dup_escaped_name_exact_witness :
  escaped_name_length (cs "My Documents/a b.c")
  = strlen (escape_spaces (cs "My Documents/a b.c"))
  /\ copy_escaped_name
       (alloca (escaped_name_length (cs "My Documents/a b.c") + 1)) 0
       (cs "My Documents/a b.c") true
     = Ok (in_memory (escape_spaces (cs "My Documents/a b.c")))
  /\ dup_escaped_name (cs "My Documents/a b.c")
     = Ok (escape_spaces (cs "My Documents/a b.c")).
Proof.
  apply (dup_escaped_name_exact (cs "My Documents/a b.c")).
  unfold is_cstring. simpl. intros H.
  repeat (destruct H as [H|H]; [discriminate H|]). exact H.
Defined.
(** ** The resolver on regular listings *)

Lemma vpath_match_returns (E : env) (v : vpath) (file0 : cstring) :
  pattern v <> [] -> exists b, vpath_match E v file0 = Ok b.
Proof.
  intros Hp. unfold vpath_match.
  destruct (pattern_matches E (pattern v) (percent v) file0);
    [eexists; reflexivity|].
  assert (Hlen : (0 <? strlen (pattern v)) = true).
  { apply Nat.ltb_lt. unfold strlen. destruct (pattern v);
      [congruence|simpl; lia]. }
  rewrite Hlen. cbn [assert bind].
  destruct (is_char (last_char (pattern v)) DOT && _);
    [|eexists; reflexivity].
  destruct (find_percent E (removelast (pattern v))) as [p' pc].
  destruct (pattern_matches E p' pc file0); eexists; reflexivity.
Qed.

Lemma regular_listing_cleared (v : vpath) :
  regular_listing v -> regular_listing (set_target_goal v 0).
Proof. intros H. exact H. Qed.

Lemma first_run_returns (E : env) (file0 : cstring) (ptr : pointers) :
  HAVE_DOS_PATHS E = false -> is_cstring file0 -> regular_name file0 ->
  forall chain : list vpath,
    Forall regular_listing chain ->
    forall m : mem,
      exists r chain' m', first_run E file0 ptr chain m = Ok (r, chain', m').
Proof.
  intros Hdos Hfile Hreg chain Hall.
  induction Hall as [|v chain Hv Hall IH]; intros m.
  - eexists _, _, _. reflexivity.
  - cbn [first_run].
    destruct (vpath_match_returns E v file0 (proj1 Hv)) as [b ->].
    cbn [bind]. destruct b.
    + destruct (regular_listing_cleared v Hv) as [_ [Hok Hopen]].
      destruct (selective_vpath_search_run E (set_target_goal v 0) file0
                  (mtime_ptr ptr) (path_index ptr) m Hdos Hok Hopen Hfile
                  Hreg) as [r [m1 [-> _]]].
      cbn [bind]. destruct r as [found|]; [eexists _, _, _; reflexivity|].
      destruct (IH (if vpath_index ptr then increment_vpath_index m1
                    else m1)) as [r [chain' [m' ->]]].
      eexists _, _, _. reflexivity.
    + cbn [bind].
      destruct (IH (if vpath_index ptr then increment_vpath_index m
                    else m)) as [r [chain' [m' ->]]].
      eexists _, _, _. reflexivity.
Qed.

Lemma second_run_returns (E : env) (file0 : cstring) (ptr : pointers) :
  HAVE_DOS_PATHS E = false -> is_cstring file0 -> regular_name file0 ->
  forall chain : list vpath,
    Forall regular_listing chain ->
    forall m : mem,
      exists r m', second_run E file0 ptr chain m = Ok (r, m').
Proof.
  intros Hdos Hfile Hreg chain Hall.
  induction Hall as [|v chain Hv Hall IH]; intros m.
  - eexists _, _. reflexivity.
  - cbn [second_run].
    assert (Hm : exists b, (if negb (target_goal v =? 0)%Z
                            then vpath_match E v file0 else Ok false)
                           = Ok b).
    { destruct (negb (target_goal v =? 0)%Z); [|eexists; reflexivity].
      apply vpath_match_returns. exact (proj1 Hv). }
    destruct Hm as [b ->]. cbn [bind]. destruct b.
    + destruct Hv as [_ [Hok Hopen]].
      destruct (selective_vpath_search_run E v file0
                  (mtime_ptr ptr) (path_index ptr) m Hdos Hok Hopen Hfile
                  Hreg) as [r [m1 [-> _]]].
      cbn [bind]. destruct r as [found|]; [eexists _, _; reflexivity|].
      apply IH.
    + cbn [bind]. apply IH.
Qed.

(** X16. The resolver returns: on a build without DOS paths, when every
    selective listing and the general listing has a pattern that is not
    empty and entries that are C strings within [maxlen] and do not end in
    a slash, [vpath_search] returns for every file name whose last slash
    does not follow another slash, whatever the database, the directory
    cache and the file system hold: it fails no assertion and reads and
    writes inside its objects only; the lists are as before. *)
Theorem vpath_search_returns (E : env) (file0 : cstring) (ptr : pointers)
  (g : globals) (m : mem) :
  HAVE_DOS_PATHS E = false ->
  pointers_ok ptr ->
  Forall regular_listing (vpaths g) ->
  (forall v, general_vpath g = Some v -> regular_listing v) ->
  is_cstring file0 ->
  regular_name file0 ->
  exists r m', vpath_search E file0 ptr g m = Ok (r, g, m').
Proof.
  intros Hdos Hptr Hall Hgen Hfile Hreg. unfold vpath_search.
  rewrite (entry_stores_run ptr m Hptr). cbn [bind].
  unfold nothing_to_do. rewrite Hdos.
  destruct (is_char (char_at file0 0) SLASH);
    [eexists _, _; reflexivity|].
  cbn [bind].
  destruct (match vpaths g, general_vpath g with
            | [], None => true
            | _, _ => false
            end); [eexists _, _; reflexivity|].
  destruct (first_run_returns E file0 ptr Hdos Hfile Hreg (vpaths g) Hall
              (entry_stores ptr m)) as [r [chain [m1 H1]]].
  rewrite H1. cbn [bind].
  pose proof (proj2 (first_run_order E file0 ptr (vpaths g)
                       (entry_stores ptr m)) _ _ _ H1) as Hchain.
  subst chain. rewrite set_vpaths_same.
  destruct r as [found|]; [eexists _, _; reflexivity|].
  destruct (second_run_returns E file0 ptr Hdos Hfile Hreg (vpaths g) Hall
              (if vpath_index ptr then reset_indices m1 else m1))
    as [r [m2 ->]].
  cbn [bind].
  destruct r as [found|]; [eexists _, _; reflexivity|].
  destruct (general_vpath g) as [general|] eqn:Hg;
    [|eexists _, _; reflexivity].
  destruct (Hgen general eq_refl) as [_ [Hok Hopen]].
  destruct (selective_vpath_search_run E general file0
              (mtime_ptr ptr) (path_index ptr)
              (if vpath_index ptr then reset_indices m2 else m2)
              Hdos Hok Hopen Hfile Hreg) as [r [m3 [-> _]]].
  cbn [bind].
  destruct r as [found|]; eexists _, _; reflexivity.
Qed.

Ltac not_among :=
  let H := fresh "H" in
  simpl; intros H; repeat (destruct H as [H|H]; [discriminate H|]); exact H.

Ltac listing_is_regular :=
  unfold regular_listing, listing_ok, is_cstring;
  split; [discriminate|];
  split;
  [ repeat (apply Forall_cons; [split; [not_among|simpl; lia]|]);
    apply Forall_nil
  | let d := fresh "d" in
    let H := fresh "H" in
    simpl; intros d H;
    repeat (destruct H as [<-|H];
            [eexists; (split; [reflexivity|discriminate])|]);
    destruct H ].

(** The three lists, searched for sub/foo.o. *)
Lemma vpath_search_returns_witness :
  exists r m',
    vpath_search (mentions false) (cs "sub/foo.o") all_pointers three_lists
      used_mem = Ok (r, three_lists, m').
Proof.
  apply (vpath_search_returns (mentions false) (cs "sub/foo.o")
           all_pointers three_lists used_mem).
  - reflexivity.
  - intros _. reflexivity.
  - unfold three_lists. cbn [vpaths].
    apply Forall_cons; [listing_is_regular|].
    apply Forall_cons; [listing_is_regular|]. apply Forall_nil.
  - unfold three_lists. cbn [general_vpath]. intros v Hv.
    injection Hv as <-. listing_is_regular.
  - unfold is_cstring. not_among.
  - unfold regular_name. simpl. intros _. discriminate.
Defined.
(** ** What [print_vpath_data_base] prints can be read back *)

Lemma entry_end_posix (E : env) (k : nat) (esc : bool) (c : ascii)
  (p : cstring) :
  HAVE_DOS_PATHS E = false ->
  entry_end E k esc (c :: p)
  = if negb (Ascii.eqb c (PATH_SEPARATOR_CHAR E))
       && (negb (ISBLANK c) || esc)
    then entry_end E (S k)
           (if Ascii.eqb c BACKSLASH then negb esc else false) p
    else k.
Proof.
  intros Hdos. cbn [entry_end]. rewrite Hdos. cbn [andb].
  rewrite orb_false_r. reflexivity.
Qed.

(** An entry that is taken whole is taken whole before a separator. *)
Lemma entry_end_before_separator (E : env) (rest : cstring) :
  HAVE_DOS_PATHS E = false ->
  forall (e : cstring) (k : nat) (esc : bool),
    entry_end E k esc e = k + strlen e ->
    entry_end E k esc (e ++ PATH_SEPARATOR_CHAR E :: rest) = k + strlen e.
Proof.
  intros Hdos e. induction e as [|c e IH]; intros k esc Hwhole.
  - cbn [app]. rewrite entry_end_posix by exact Hdos.
    rewrite (proj2 (ascii_eqb_true _ _) eq_refl). cbn [negb andb].
    simpl. lia.
  - cbn [app]. rewrite entry_end_posix in Hwhole |- * by exact Hdos.
    unfold strlen in *. cbn [List.length] in *.
    destruct (negb (Ascii.eqb c (PATH_SEPARATOR_CHAR E))
              && (negb (ISBLANK c) || esc)); [|lia].
    rewrite IH; [lia|]. rewrite Hwhole. lia.
Qed.

(** The start of a string that the scan passes is taken whole. *)
Lemma entry_end_prefix (E : env) (b : cstring) :
  HAVE_DOS_PATHS E = false ->
  forall (a : cstring) (k : nat) (esc : bool),
    k + strlen a <= entry_end E k esc (a ++ b) ->
    entry_end E k esc a = k + strlen a.
Proof.
  intros Hdos a. induction a as [|c a IH]; intros k esc Hpass.
  - simpl. lia.
  - cbn [app] in Hpass. rewrite entry_end_posix in Hpass |- * by exact Hdos.
    unfold strlen in *. cbn [List.length] in *.
    destruct (negb (Ascii.eqb c (PATH_SEPARATOR_CHAR E))
              && (negb (ISBLANK c) || esc)); [|lia].
    rewrite IH; [lia|]. lia.
Qed.

Lemma entry_like_prefix (E : env) (raw : cstring) (n : nat) :
  HAVE_DOS_PATHS E = false ->
  entry_like E raw -> 1 <= n -> entry_like E (firstn n raw).
Proof.
  intros Hdos [Hwhole [c [t [-> Hc]]]] Hn. split.
  - pose proof (firstn_skipn n (c :: t)) as Hsplit.
    rewrite <- Hsplit in Hwhole.
    apply (entry_end_prefix E (skipn n (c :: t)) Hdos).
    rewrite Hwhole. unfold strlen. rewrite length_app. lia.
  - destruct n as [|n]; [lia|]. cbn [firstn]. eexists _, _.
    split; [reflexivity|exact Hc].
Qed.

Lemma raw_entries_like (E : env) (fuel : nat) :
  HAVE_DOS_PATHS E = false ->
  forall p : cstring,
    at_entry E p -> Forall (entry_like E) (raw_entries fuel E p).
Proof.
  intros Hdos. induction fuel as [|fuel IH]; intros p Hat; [constructor|].
  destruct p as [|c p]; [constructor|].
  rewrite raw_entries_round by discriminate.
  constructor; [|apply IH; apply skip_separators_at_entry].
  pose proof (entry_end_at_entry E (c :: p) Hat ltac:(discriminate))
    as [Hlo Hhi].
  split.
  - apply (entry_end_prefix E (skipn (entry_end E 0 false (c :: p)) (c :: p))
             Hdos).
    rewrite firstn_skipn. unfold strlen. rewrite length_firstn.
    unfold strlen in Hhi. lia.
  - destruct (entry_end E 0 false (c :: p)) as [|n]; [lia|].
    cbn [firstn]. eexists _, _. split; [reflexivity|exact Hat].
Qed.

Lemma canonical_entry_like (E : env) (raw : cstring) :
  HAVE_DOS_PATHS E = false ->
  entry_like E raw -> entry_like E (canonical_entry E raw).
Proof.
  intros Hdos Hraw. unfold canonical_entry.
  apply entry_like_prefix; [exact Hdos|exact Hraw|].
  destruct Hraw as [_ [c [t [-> _]]]].
  apply (strip_trailing_slash_bounds E (c :: t) (strlen (c :: t))).
  unfold strlen. simpl. lia.
Qed.

Lemma surviving_entries_like (E : env) (d : cstring) :
  HAVE_DOS_PATHS E = false ->
  Forall (entry_like E) (surviving_entries E d).
Proof.
  intros Hdos. unfold surviving_entries.
  apply Forall_forall. intros e He. apply filter_In in He.
  destruct He as [He _]. apply in_map_iff in He.
  destruct He as [raw [<- Hraw]].
  apply canonical_entry_like; [exact Hdos|].
  pose proof (raw_entries_like E (strlen (skip_separators E d)) Hdos
                (skip_separators E d) (skip_separators_at_entry E d)) as H.
  rewrite Forall_forall in H. apply H. exact Hraw.
Qed.

Lemma join_head_like (E : env) (e : cstring) (es : list cstring) :
  entry_like E e ->
  exists c t,
    join (PATH_SEPARATOR_CHAR E) (e :: es) = c :: t
    /\ STOP_SET_BLANK_PATHSEP E c = false.
Proof.
  intros [_ [c [t [-> Hc]]]]. destruct es as [|e' es].
  - eexists _, _. split; [reflexivity|exact Hc].
  - rewrite join_cons. eexists _, _. split; [reflexivity|exact Hc].
Qed.

Lemma separator_stops (E : env) :
  STOP_SET_BLANK_PATHSEP E (PATH_SEPARATOR_CHAR E) = true.
Proof.
  unfold STOP_SET_BLANK_PATHSEP.
  rewrite (proj2 (ascii_eqb_true _ _) eq_refl). apply orb_true_r.
Qed.

(** The entries joined by the separator are read back one by one. *)
Lemma raw_entries_join (E : env) :
  HAVE_DOS_PATHS E = false ->
  forall es : list cstring,
    Forall (entry_like E) es ->
    forall fuel : nat,
      strlen (join (PATH_SEPARATOR_CHAR E) es) <= fuel ->
      raw_entries fuel E (join (PATH_SEPARATOR_CHAR E) es) = es.
Proof.
  intros Hdos es Hall.
  induction Hall as [|e es He Hall IH]; intros fuel Hfuel.
  - destruct fuel; reflexivity.
  - destruct (join_head_like E e es He) as [c [t [Heq Hc]]].
    destruct fuel as [|fuel];
      [rewrite Heq in Hfuel; simpl in Hfuel; lia|].
    rewrite raw_entries_round by (rewrite Heq; discriminate).
    destruct He as [Hwhole _].
    destruct es as [|e' es].
    + cbn [join]. rewrite Hwhole. unfold strlen.
      rewrite firstn_all, skipn_all. f_equal. destruct fuel; reflexivity.
    + rewrite join_cons in Hfuel |- *.
      rewrite (entry_end_before_separator E _ Hdos e 0 false Hwhole).
      cbn [Nat.add]. unfold strlen.
      rewrite firstn_app, firstn_all, Nat.sub_diag, app_nil_r.
      rewrite skipn_app, skipn_all, Nat.sub_diag. cbn [app skipn firstn].
      cbn [skip_separators]. rewrite separator_stops.
      inversion Hall as [|x xs Hx Hxs]; subst.
      destruct (join_head_like E e' es Hx) as [c' [t' [Heq' Hc']]].
      rewrite Heq', skip_separators_none by exact Hc'. rewrite <- Heq'.
      apply (f_equal (cons e)). apply IH.
      unfold strlen in Hfuel. rewrite length_app in Hfuel.
      cbn [List.length] in Hfuel. unfold strlen. lia.
Qed.

Lemma surviving_entries_join (E : env) (es : list cstring) :
  HAVE_DOS_PATHS E = false ->
  Forall (entry_like E) es ->
  Forall (fun e => canonical_entry E e = e) es ->
  ~ In [DOT] es ->
  surviving_entries E (join (PATH_SEPARATOR_CHAR E) es) = es.
Proof.
  intros Hdos Hlike Hstable Hdot. unfold surviving_entries.
  assert (Hskip : skip_separators E (join (PATH_SEPARATOR_CHAR E) es)
                  = join (PATH_SEPARATOR_CHAR E) es).
  { destruct es as [|e es]; [reflexivity|].
    inversion Hlike as [|x xs Hx _]; subst.
    destruct (join_head_like E e es Hx) as [c [t [Heq Hc]]].
    rewrite Heq. apply skip_separators_none. exact Hc. }
  rewrite Hskip, (raw_entries_join E Hdos es Hlike _ (le_n _)).
  clear Hskip Hlike. induction Hstable as [|e es He Hstable IH];
    [reflexivity|].
  cbn [map filter]. rewrite He.
  assert (Hnot : streq e [DOT] = false).
  { destruct (streq e [DOT]) eqn:Hs; [|reflexivity].
    apply streq_eq in Hs. exfalso. apply Hdot. left. exact Hs. }
  rewrite Hnot. cbn [negb]. f_equal. apply IH.
  intros H. apply Hdot. right. exact H.
Qed.

Lemma print_entries_posix (E : env) (es : list cstring) :
  WINDOWS32 E = false ->
  print_entries E es
  = Ok match es with
       | [] => []
       | _ => join (PATH_SEPARATOR_CHAR E) es ++ [NEWLINE]
       end.
Proof.
  intros Hw. induction es as [|e es IH]; [reflexivity|].
  cbn [print_entries]. rewrite Hw, IH. cbn [bind].
  destruct es as [|e' es]; [reflexivity|].
  rewrite join_cons, <- app_assoc. reflexivity.
Qed.

Lemma print_listings_posix (E : env) (chain : list vpath) :
  WINDOWS32 E = false ->
  Forall (fun v => searchpath v <> []) chain ->
  print_listings E chain
  = Ok (List.concat
          (map (fun v => printed_directive E v ++ [NEWLINE]) chain)).
Proof.
  intros Hw Hall. induction Hall as [|v chain Hv Hall IH]; [reflexivity|].
  cbn [print_listings]. rewrite print_entries_posix, IH by exact Hw.
  cbn [bind map List.concat]. unfold printed_directive.
  destruct (searchpath v) as [|e es]; [congruence|].
  repeat (rewrite <- app_assoc; cbn [app]). reflexivity.
Qed.

(** X17. What is printed can be read back: on a build without DOS paths
    and without conversion, [print_vpath_data_base] prints, after its
    heading, one line for each listing of the chain: the keyword of the
    category, the pattern, and the entries with the path separator between
    them. For the listing of a directive whose entries do not change when
    they are stripped once more, a directive with the printed directory
    string leaves the same listing as the directive that was read. *)
Theorem printed_listing_read_back (E : env) (pat d : cstring) (goal : Z)
  (g : globals) :
  WINDOWS32 E = false ->
  HAVE_DOS_PATHS E = false ->
  Forall (fun e => canonical_entry E e = e) (surviving_entries E d) ->
  (Forall (fun v => searchpath v <> []) (vpaths g) ->
   exists tail,
     print_vpath_data_base E g
     = Ok (NEWLINE :: cs "# VPATH Search Paths" ++ [NEWLINE]
           ++ List.concat
                (map (fun v => printed_directive E v ++ [NEWLINE]) (vpaths g))
           ++ tail))
  /\ printed_directive E (new_listing E pat (surviving_entries E d) goal)
     = (if negb (goal =? 0)%Z then cs ".path " else cs "vpath ")
       ++ fst (find_percent E pat)
       ++ SPACE :: join (PATH_SEPARATOR_CHAR E) (surviving_entries E d)
  /\ construct_vpath_list E (Some pat)
       (Some (join (PATH_SEPARATOR_CHAR E) (surviving_entries E d))) goal g
     = construct_vpath_list E (Some pat) (Some d) goal g.
Proof.
  intros Hw Hdos Hstable. split; [|split].
  - intros Hall. unfold print_vpath_data_base.
    rewrite print_listings_posix by assumption. cbn [bind].
    eexists. rewrite <- !app_assoc. cbn [app]. rewrite <- !app_assoc.
    reflexivity.
  - reflexivity.
  - rewrite !construct_vpath_list_adds. unfold canonical_dirpath.
    rewrite Hw. cbn [bind].
    rewrite surviving_entries_join; try assumption.
    + reflexivity.
    + apply surviving_entries_like. exact Hdos.
    + unfold surviving_entries. intros H. apply filter_In in H.
      destruct H as [_ H]. rewrite streq_refl in H. discriminate H.
Qed.

(** The directory string "src/ lib:/: obj//x". *)
Lemma printed_listing_read_back_witness :
  (Forall (fun v => searchpath v <> []) (vpaths three_lists) ->
   exists tail,
     print_vpath_data_base bare three_lists
     = Ok (NEWLINE :: cs "# VPATH Search Paths" ++ [NEWLINE]
           ++ List.concat
                (map (fun v => printed_directive bare v ++ [NEWLINE])
                   (vpaths three_lists))
           ++ tail))
  /\ printed_directive bare
       (new_listing bare (cs "%.c")
          (surviving_entries bare (cs "src/ lib:/: obj//x")) 1)
     = (if negb (1 =? 0)%Z then cs ".path " else cs "vpath ")
       ++ fst (find_percent bare (cs "%.c"))
       ++ SPACE :: join (PATH_SEPARATOR_CHAR bare)
                     (surviving_entries bare (cs "src/ lib:/: obj//x"))
  /\ construct_vpath_list bare (Some (cs "%.c"))
       (Some (join (PATH_SEPARATOR_CHAR bare)
                (surviving_entries bare (cs "src/ lib:/: obj//x")))) 1
       three_lists
     = construct_vpath_list bare (Some (cs "%.c"))
         (Some (cs "src/ lib:/: obj//x")) 1 three_lists.
Proof.
  apply (printed_listing_read_back bare (cs "%.c")
           (cs "src/ lib:/: obj//x") 1 three_lists).
  - reflexivity.
  - reflexivity.
  - vm_compute. repeat constructor.
Defined.

(** ** The flags of the lines of a recipe *)

(** The loop over the start of a line, from any flags. *)
Lemma leading_flags_run (p : cstring) :
  forall flags : line_flags,
    leading_flags p flags
    = (snd (flag_run p),
       {| COMMANDS_RECURSE :=
            COMMANDS_RECURSE flags || occurs "+" (fst (flag_run p));
          COMMANDS_SILENT :=
            COMMANDS_SILENT flags || occurs "@" (fst (flag_run p));
          COMMANDS_NOERROR :=
            COMMANDS_NOERROR flags || occurs "-" (fst (flag_run p)) |}).
Proof.
  induction p as [|c p IH]; intros [r s n].
  - cbn. rewrite !orb_false_r. reflexivity.
  - cbn [leading_flags flag_run]. unfold flag_char.
    destruct (Ascii.eqb c "+") eqn:Hplus.
    + apply Ascii.eqb_eq in Hplus. subst c. rewrite IH.
      change (ISBLANK "+") with false. cbn [orb Ascii.eqb Bool.eqb andb].
      destruct (flag_run p) as [run rest].
      cbn [fst snd occurs existsb COMMANDS_RECURSE COMMANDS_SILENT
             COMMANDS_NOERROR Ascii.eqb Bool.eqb andb orb].
      rewrite orb_true_r. reflexivity.
    + destruct (Ascii.eqb c "@") eqn:Hat.
      * apply Ascii.eqb_eq in Hat. subst c. rewrite IH.
        change (ISBLANK "@") with false. cbn [orb Ascii.eqb Bool.eqb andb].
        destruct (flag_run p) as [run rest].
        cbn [fst snd occurs existsb COMMANDS_RECURSE COMMANDS_SILENT
               COMMANDS_NOERROR Ascii.eqb Bool.eqb andb orb].
        rewrite orb_true_r. reflexivity.
      * destruct (Ascii.eqb c "-") eqn:Hminus.
        -- apply Ascii.eqb_eq in Hminus. subst c. rewrite IH.
           change (ISBLANK "-") with false.
           cbn [orb Ascii.eqb Bool.eqb andb].
           destruct (flag_run p) as [run rest].
           cbn [fst snd occurs existsb COMMANDS_RECURSE COMMANDS_SILENT
                  COMMANDS_NOERROR Ascii.eqb Bool.eqb andb orb].
           rewrite orb_true_r. reflexivity.
        -- rewrite !orb_false_r. destruct (ISBLANK c) eqn:Hb.
           ++ rewrite IH. destruct (flag_run p) as [run rest].
              cbn [fst snd occurs existsb COMMANDS_RECURSE COMMANDS_SILENT
                     COMMANDS_NOERROR].
              rewrite (Ascii.eqb_sym "+" c), (Ascii.eqb_sym "@" c),
                (Ascii.eqb_sym "-" c), Hplus, Hat, Hminus.
              reflexivity.
           ++ cbn [fst snd occurs existsb COMMANDS_RECURSE COMMANDS_SILENT
                     COMMANDS_NOERROR].
              rewrite !orb_false_r. reflexivity.
Qed.

(** The flags of a line, by the characters that open it and the rest. *)
Lemma flags_of_line_run (line : cstring) :
  COMMANDS_SILENT (flags_of_line line) = occurs "@" (fst (flag_run line))
  /\ COMMANDS_NOERROR (flags_of_line line) = occurs "-" (fst (flag_run line))
  /\ COMMANDS_RECURSE (flags_of_line line)
     = occurs "+" (fst (flag_run line))
       || is_found (strstr (snd (flag_run line)) (cs "$(MAKE)"))
       || is_found (strstr (snd (flag_run line)) (cs "${MAKE}")).
Proof.
  unfold flags_of_line. rewrite leading_flags_run.
  cbn [COMMANDS_RECURSE COMMANDS_SILENT COMMANDS_NOERROR orb].
  destruct (occurs "+" (fst (flag_run line))); cbn [negb andb orb].
  - cbn [COMMANDS_RECURSE COMMANDS_SILENT COMMANDS_NOERROR]. auto.
  - destruct (is_found (strstr (snd (flag_run line)) (cs "$(MAKE)")));
      destruct (is_found (strstr (snd (flag_run line)) (cs "${MAKE}")));
      cbn [COMMANDS_RECURSE COMMANDS_SILENT COMMANDS_NOERROR orb]; auto.
Qed.

(** X18. The flags of a recipe: after [chop_commands] on commands that are
    not chopped yet, every line has its element of [lines_flags]: the line
    is silent when [@] is among the blanks and the characters [-], [@] and
    [+] that open it, it ignores errors when [-] is among them, and it is
    recursive when [+] is among them or the rest of the line holds
    [$(MAKE)] or [${MAKE}]; the order of the opening characters makes no
    difference. [any_recurse] is set exactly when a line is recursive, and
    a second call of [chop_commands] changes nothing. *)
Theorem chop_commands_flags (one_shell : bool) (c c' : struct_commands) :
  command_lines c = None ->
  chop_commands one_shell (Some c) = Chopped (Some c') ->
  chop_commands one_shell (Some c') = Chopped (Some c')
  /\ (any_recurse c' = true
      <-> exists f, In f (lines_flags c') /\ COMMANDS_RECURSE f = true)
  /\ exists lines,
       command_lines c' = Some lines
       /\ forall (i : nat) (line : cstring),
            nth_error lines i = Some line ->
            exists f,
              nth_error (lines_flags c') i = Some f
              /\ COMMANDS_SILENT f = occurs "@" (fst (flag_run line))
              /\ COMMANDS_NOERROR f = occurs "-" (fst (flag_run line))
              /\ COMMANDS_RECURSE f
                 = occurs "+" (fst (flag_run line))
                   || is_found (strstr (snd (flag_run line)) (cs "$(MAKE)"))
                   || is_found (strstr (snd (flag_run line)) (cs "${MAKE}")).
Proof.
  intros Hnone. unfold chop_commands at 1. rewrite Hnone.
  destruct (if one_shell then _ else _) as [lines|n|n]; try discriminate.
  destruct (USHRT_MAX <? List.length lines); [discriminate|].
  intros H. injection H as H. subst c'.
  cbn [chop_commands command_lines lines_flags any_recurse].
  split; [reflexivity|]. split.
  - rewrite existsb_exists. reflexivity.
  - exists lines. split; [reflexivity|]. intros i line Hi.
    exists (flags_of_line line). split.
    + rewrite nth_error_map, Hi. reflexivity.
    + apply flags_of_line_run.
Qed.

(** The recipe of three lines: [@echo one], the continued line that
    holds [$(MAKE)], and [+touch $@]. *)
Lemma chop_commands_flags_witness :
  chop_commands false (Some recipe_chopped) = Chopped (Some recipe_chopped)
  /\ (any_recurse recipe_chopped = true
      <-> exists f,
            In f (lines_flags recipe_chopped) /\ COMMANDS_RECURSE f = true)
  /\ exists lines,
       command_lines recipe_chopped = Some lines
       /\ forall (i : nat) (line : cstring),
            nth_error lines i = Some line ->
            exists f,
              nth_error (lines_flags recipe_chopped) i = Some f
              /\ COMMANDS_SILENT f = occurs "@" (fst (flag_run line))
              /\ COMMANDS_NOERROR f = occurs "-" (fst (flag_run line))
              /\ COMMANDS_RECURSE f
                 = occurs "+" (fst (flag_run line))
                   || is_found (strstr (snd (flag_run line)) (cs "$(MAKE)"))
                   || is_found (strstr (snd (flag_run line)) (cs "${MAKE}")).
Proof.
  apply (chop_commands_flags false recipe_example recipe_chopped).
  - reflexivity.
  - reflexivity.
Defined.

(** ** Slashes for backslashes *)

Lemma strlcpy_written (dst : buffer) (src : cstring) (size : nat) :
  0 < size -> size <= List.length dst ->
  strlcpy dst src size
  = Ok (map Some (firstn (size - 1) src)
        ++ Some NUL :: skipn (S (Nat.min (size - 1) (strlen src))) dst).
Proof.
  intros Hpos Hsize. destruct size as [|n]; [lia|].
  unfold strlcpy. replace (S n - 1) with n by lia.
  assert (Hlen : List.length (firstn n src) = Nat.min n (strlen src))
    by apply length_firstn.
  pose proof (memcpy_written [] (firstn n src) dst) as Hcopy.
  cbn [map app List.length skipn Nat.add] in Hcopy.
  rewrite Hcopy by lia. cbn [bind].
  pose proof (store_written (firstn n src) NUL dst) as Hstore.
  rewrite Hlen in *. rewrite Hstore by lia.
  rewrite map_app, <- app_assoc. cbn [map app].
  replace (Nat.min n (strlen src) + 1) with (S (Nat.min n (strlen src)))
    by lia.
  reflexivity.
Qed.

Lemma forward_not_nul (c : ascii) : c <> NUL -> forward c <> NUL.
Proof.
  intros Hc. unfold forward.
  destruct (Ascii.eqb c BACKSLASH); [discriminate|exact Hc].
Qed.

Lemma forward_cstring (s : cstring) : is_cstring s -> is_cstring (map forward s).
Proof.
  unfold is_cstring. intros Hs Hin. apply in_map_iff in Hin.
  destruct Hin as [c [Hc Hin]].
  destruct (ascii_dec c NUL) as [->|Hne]; [exact (Hs Hin)|].
  exact (forward_not_nul c Hne Hc).
Qed.

Lemma forward_no_backslash (s : cstring) : ~ In BACKSLASH (map forward s).
Proof.
  intros Hin. apply in_map_iff in Hin. destruct Hin as [c [Hc _]].
  unfold forward in Hc. destruct (Ascii.eqb c BACKSLASH) eqn:Hb.
  - discriminate Hc.
  - subst c. rewrite Ascii.eqb_refl in Hb. discriminate Hb.
Qed.

(** The loop, from a byte of the string on. *)
Lemma convert_slashes_loop_forward (rest : cstring) :
  forall (fuel : nat) (done : list ascii) (t : buffer),
    is_cstring rest -> strlen rest < fuel ->
    convert_slashes_loop fuel (map Some (done ++ rest) ++ Some NUL :: t)
      (List.length done)
    = Ok (map Some (done ++ map forward rest) ++ Some NUL :: t).
Proof.
  induction rest as [|c rest IH]; intros fuel done t Hcs Hfuel;
    (destruct fuel as [|fuel]; [cbn in Hfuel; lia|]).
  - cbn [convert_slashes_loop map]. rewrite app_nil_r.
    pose proof (load_app (map Some done) t NUL) as Hload.
    rewrite length_map in Hload. rewrite Hload. cbn [bind].
    rewrite Ascii.eqb_refl. reflexivity.
  - cbn [convert_slashes_loop].
    assert (Hc : Ascii.eqb c NUL = false).
    { apply Ascii.eqb_neq. intros ->. apply Hcs. left. reflexivity. }
    assert (Hrest : is_cstring rest)
      by (intros Hin; apply Hcs; right; exact Hin).
    pose proof (load_app (map Some done) (map Some rest ++ Some NUL :: t) c)
      as Hload.
    rewrite length_map in Hload.
    replace (map Some (done ++ c :: rest) ++ Some NUL :: t)
      with (map Some done ++ Some c :: map Some rest ++ Some NUL :: t)
      by (rewrite map_app, <- app_assoc; reflexivity).
    rewrite Hload. cbn [bind]. rewrite Hc.
    assert (Hstep : (if Ascii.eqb c BACKSLASH
                     then store (map Some done ++ Some c :: map Some rest
                                 ++ Some NUL :: t) (List.length done) SLASH
                     else Ok (map Some done ++ Some c :: map Some rest
                              ++ Some NUL :: t))
                    = Ok (map Some ((done ++ [forward c]) ++ rest)
                          ++ Some NUL :: t)).
    { unfold forward. destruct (Ascii.eqb c BACKSLASH).
      - pose proof (store_app (map Some done)
                      (map Some rest ++ Some NUL :: t) (Some c) SLASH) as Hs.
        rewrite length_map in Hs. rewrite Hs.
        rewrite <- !app_assoc, !map_app, <- !app_assoc. reflexivity.
      - rewrite <- !app_assoc, !map_app, <- !app_assoc. reflexivity. }
    match goal with
    | |- bind ?x _ = _ =>
        replace x with (Ok (map Some ((done ++ [forward c]) ++ rest)
                            ++ Some NUL :: t))
          by (symmetry; exact Hstep)
    end.
    cbn [bind].
    replace (S (List.length done)) with (List.length (done ++ [forward c]))
      by (rewrite length_app; cbn; lia).
    rewrite IH; [|exact Hrest|cbn in Hfuel; unfold strlen in *; lia].
    rewrite <- !app_assoc. reflexivity.
Qed.

(** [convert_slashes] without [resolve]: the array as it is left. *)
Lemma convert_slashes_run
  (_fullpath : buffer -> cstring -> nat -> res buffer)
  (w32_path : buffer) (filename : cstring) :
  w32_path <> [] -> is_cstring filename ->
  convert_slashes _fullpath w32_path filename 0
  = Ok (map Some (map forward (firstn (List.length w32_path - 1) filename))
        ++ Some NUL
           :: skipn (S (Nat.min (List.length w32_path - 1) (strlen filename)))
                w32_path).
Proof.
  intros Hne Hcs. unfold convert_slashes.
  change (negb (0 =? 0)%Z) with false. cbv iota.
  assert (Hpos : 0 < List.length w32_path)
    by (destruct w32_path; [congruence|cbn; lia]).
  rewrite strlcpy_written by lia. cbn [bind].
  pose proof (convert_slashes_loop_forward
                (firstn (List.length w32_path - 1) filename)) as Hloop.
  specialize (Hloop
    (S (List.length
          (map Some (firstn (List.length w32_path - 1) filename)
           ++ Some NUL
              :: skipn (S (Nat.min (List.length w32_path - 1)
                             (strlen filename))) w32_path)))
    [] (skipn (S (Nat.min (List.length w32_path - 1) (strlen filename)))
          w32_path)).
  cbn [app List.length] in Hloop. apply Hloop.
  - intros Hin. apply Hcs. eapply firstn_incl. exact Hin.
  - rewrite length_app, length_map. unfold strlen. lia.
Qed.

Lemma cstr_inv (b : buffer) :
  forall s : cstring,
    cstr b = Ok s ->
    is_cstring s /\ exists t, b = map Some s ++ Some NUL :: t.
Proof.
  induction b as [|x b IH]; intros s H; [discriminate H|].
  destruct x as [c|]; [|discriminate H]. cbn [cstr] in H.
  destruct (Ascii.eqb c NUL) eqn:Hc.
  - injection H as <-. apply Ascii.eqb_eq in Hc. subst c.
    split; [intros []|]. exists b. reflexivity.
  - destruct (cstr b) as [s'|f] eqn:Hs; [|discriminate H].
    cbn [bind] in H. injection H as <-.
    destruct (IH s' eq_refl) as [Hcs [t Ht]]. split.
    + intros [Hin|Hin]; [|exact (Hcs Hin)].
      subst c. rewrite Ascii.eqb_refl in Hc. discriminate Hc.
    + exists t. rewrite Ht. reflexivity.
Qed.

(** X19. [convert_slashes] without [resolve] leaves in its static array,
    whatever the array held, the file name with every backslash turned to
    a slash and nothing else changed, cut to the bytes that the array
    holds beside the terminator; no access leaves the array, and the
    result holds no backslash. *)
Theorem convert_slashes_forward
  (_fullpath : buffer -> cstring -> nat -> res buffer)
  (w32_path : buffer) (filename : cstring) :
  w32_path <> [] -> is_cstring filename ->
  exists w : buffer,
    convert_slashes _fullpath w32_path filename 0 = Ok w
    /\ List.length w = List.length w32_path
    /\ cstr w
       = Ok (map forward (firstn (List.length w32_path - 1) filename))
    /\ ~ In BACKSLASH
         (map forward (firstn (List.length w32_path - 1) filename))
    /\ (strlen filename < List.length w32_path ->
        cstr w = Ok (map forward filename)).
Proof.
  intros Hne Hcs. eexists. split; [apply convert_slashes_run; assumption|].
  assert (Hpos : 0 < List.length w32_path)
    by (destruct w32_path; [congruence|cbn; lia]).
  assert (Hcut : is_cstring
                   (map forward (firstn (List.length w32_path - 1) filename))).
  { apply forward_cstring. intros Hin. apply Hcs. eapply firstn_incl.
    exact Hin. }
  split; [|split; [|split]].
  - rewrite length_app, !length_map, length_firstn. cbn [List.length].
    rewrite length_skipn. unfold strlen. lia.
  - apply cstr_app. exact Hcut.
  - apply forward_no_backslash.
  - intros Hshort. rewrite cstr_app by exact Hcut.
    rewrite firstn_all2 by (unfold strlen in Hshort; lia). reflexivity.
Qed.

(** The name [a\b\cdefghijk] and an array of 8 bytes. *)
Lemma convert_slashes_forward_witness :
  exists w : buffer,
    convert_slashes no_fullpath (alloca 8) (cs "a\b\cdefghijk") 0 = Ok w
    /\ List.length w = List.length (alloca 8)
    /\ cstr w
       = Ok (map forward
               (firstn (List.length (alloca 8) - 1) (cs "a\b\cdefghijk")))
    /\ ~ In BACKSLASH
         (map forward
            (firstn (List.length (alloca 8) - 1) (cs "a\b\cdefghijk")))
    /\ (strlen (cs "a\b\cdefghijk") < List.length (alloca 8) ->
        cstr w = Ok (map forward (cs "a\b\cdefghijk"))).
Proof.
  apply (convert_slashes_forward no_fullpath (alloca 8) (cs "a\b\cdefghijk")).
  - discriminate.
  - unfold is_cstring. cbn. intuition discriminate.
Defined.

(** X20. [getcwd_fs]: when [getcwd] returns null, so does [getcwd_fs],
    and the static array is untouched. When [getcwd] has stored the
    directory in [buf], in less than [len] bytes, [getcwd_fs] returns
    [buf] with the directory in it, every backslash turned to a slash; a
    directory that the static array of [convert_slashes] does not hold is
    cut to the bytes that the array holds beside its terminator. No
    access leaves [buf] or the array. *)
Theorem getcwd_fs_forward
  (_fullpath : buffer -> cstring -> nat -> res buffer)
  (getcwd : buffer -> nat -> res (option buffer))
  (w32_path buf : buffer) (len : nat) :
  w32_path <> [] ->
  (getcwd buf len = Ok None ->
   getcwd_fs _fullpath getcwd w32_path buf len = Ok (None, w32_path))
  /\ forall (filled : buffer) (cwd : cstring),
       getcwd buf len = Ok (Some filled) ->
       cstr filled = Ok cwd ->
       strlen cwd < len -> len <= List.length filled ->
       exists b q : buffer,
         getcwd_fs _fullpath getcwd w32_path buf len = Ok (Some b, q)
         /\ List.length b = List.length filled
         /\ cstr b
            = Ok (map forward (firstn (List.length w32_path - 1) cwd))
         /\ cstr q
            = Ok (map forward (firstn (List.length w32_path - 1) cwd))
         /\ (strlen cwd < List.length w32_path ->
             cstr b = Ok (map forward cwd)).
Proof.
  intros Hne. split.
  - intros Hnull. unfold getcwd_fs. rewrite Hnull. reflexivity.
  - intros filled cwd Hget Hcwd Hlen Hsize.
    destruct (cstr_inv _ _ Hcwd) as [Hcs _].
    assert (Hcut : is_cstring
                     (map forward (firstn (List.length w32_path - 1) cwd))).
    { apply forward_cstring. intros Hin. apply Hcs. eapply firstn_incl.
      exact Hin. }
    unfold getcwd_fs. rewrite Hget. cbn [bind]. rewrite Hcwd. cbn [bind].
    rewrite convert_slashes_run by assumption. cbn [bind].
    rewrite cstr_app by exact Hcut. cbn [bind].
    rewrite strlcpy_written by lia. cbn [bind].
    assert (Hfit : firstn (len - 1)
                     (map forward (firstn (List.length w32_path - 1) cwd))
                   = map forward (firstn (List.length w32_path - 1) cwd)).
    { apply firstn_all2. rewrite length_map, length_firstn.
      unfold strlen in Hlen. lia. }
    rewrite Hfit. do 2 eexists. split; [reflexivity|].
    split; [|split; [|split]].
    + rewrite length_app, !length_map, length_firstn. cbn [List.length].
      rewrite length_skipn. unfold strlen in *.
      rewrite length_map, length_firstn. lia.
    + apply cstr_app. exact Hcut.
    + apply cstr_app. exact Hcut.
    + intros Hshort. rewrite cstr_app by exact Hcut.
      rewrite firstn_all2 by (unfold strlen in Hshort; lia). reflexivity.
Qed.

(** The directory [C:\x\y], a [buf] of 10 bytes and an array of 5. *)
Lemma getcwd_fs_forward_witness :
  exists b q : buffer,
    getcwd_fs no_fullpath (getcwd_of (cs "C:\x\y")) (alloca 5) (alloca 10) 10
    = Ok (Some b, q)
    /\ List.length b
       = List.length (map Some (cs "C:\x\y") ++ Some NUL :: alloca 3)
    /\ cstr b
       = Ok (map forward
               (firstn (List.length (alloca 5) - 1) (cs "C:\x\y")))
    /\ cstr q
       = Ok (map forward
               (firstn (List.length (alloca 5) - 1) (cs "C:\x\y")))
    /\ (strlen (cs "C:\x\y") < List.length (alloca 5) ->
        cstr b = Ok (map forward (cs "C:\x\y"))).
Proof.
  apply (proj2 (getcwd_fs_forward no_fullpath (getcwd_of (cs "C:\x\y"))
                  (alloca 5) (alloca 10) 10 ltac:(discriminate))
           (map Some (cs "C:\x\y") ++ Some NUL :: alloca 3) (cs "C:\x\y")).
  - reflexivity.
  - reflexivity.
  - cbn. lia.
  - cbn. lia.
Defined.

(** ** The variables of the configuration file *)

Lemma strip_end_snoc (test : ascii -> bool) (w : cstring) (c : ascii) :
  strip_end test (w ++ [c]) = if test c then strip_end test w else w ++ [c].
Proof.
  destruct (test c) eqn:Hc; induction w as [|x w IH].
  - cbn. rewrite Hc. reflexivity.
  - cbn [app strip_end]. rewrite IH. reflexivity.
  - cbn. rewrite Hc. reflexivity.
  - cbn [app strip_end]. rewrite IH.
    destruct (w ++ [c]) eqn:Hw; [destruct w; discriminate|]. reflexivity.
Qed.

Lemma strip_end_split (test : ascii -> bool) (s : cstring) :
  exists t, s = strip_end test s ++ t /\ forallb test t = true.
Proof.
  induction s as [|c w IH] using rev_ind.
  - exists []. split; reflexivity.
  - rewrite strip_end_snoc. destruct (test c) eqn:Hc.
    + destruct IH as [t [Hw Ht]]. exists (t ++ [c]). split.
      * rewrite app_assoc, <- Hw. reflexivity.
      * rewrite forallb_app, Ht. cbn. rewrite Hc. reflexivity.
    + exists []. split; [rewrite app_nil_r|]; reflexivity.
Qed.


Lemma strip_end_incl (test : ascii -> bool) (s : cstring) (c : ascii) :
  In c (strip_end test s) -> In c s.
Proof.
  intros Hin. destruct (strip_end_split test s) as [t [Hs _]].
  rewrite Hs. apply in_or_app. left. exact Hin.
Qed.


(** The loop of [striptrailing], from the end of a string. *)
Lemma striptrailing_loop_strip (signed_char : bool) (w : cstring) :
  forall t : buffer,
    exists t' : buffer,
      striptrailing_loop signed_char (map Some w ++ Some NUL :: t)
        (List.length w)
      = Ok (map Some (strip_end (at_most_space signed_char) w)
            ++ Some NUL :: t')
      /\ List.length (strip_end (at_most_space signed_char) w)
         + List.length t'
         = List.length w + List.length t.
Proof.
  induction w as [|c w IH] using rev_ind; intros t.
  - exists t. split; reflexivity.
  - rewrite length_app. cbn [List.length].
    replace (List.length w + 1) with (S (List.length w)) by lia.
    cbn [striptrailing_loop]. rewrite load_written. cbn [bind].
    rewrite strip_end_snoc. destruct (at_most_space signed_char c).
    + pose proof (store_inside w [] c NUL (Some NUL :: t)) as Hs.
      rewrite Hs. cbn [bind]. rewrite map_app, <- app_assoc. cbn [map app].
      destruct (IH (Some NUL :: t)) as [t' [Hrun Hlen]]. exists t'.
      split; [exact Hrun|]. cbn [List.length] in Hlen. lia.
    + exists t. split; [reflexivity|]. rewrite length_app. cbn. lia.
Qed.

(** The loop over the colons, from the end of a string. *)
Lemma strip_colons_strip (w : cstring) :
  forall t : buffer,
    exists t' : buffer,
      strip_colons (map Some w ++ Some NUL :: t) (List.length w)
      = Ok (map Some (strip_end (fun c => Ascii.eqb c COLON) w)
            ++ Some NUL :: t')
      /\ List.length (strip_end (fun c => Ascii.eqb c COLON) w)
         + List.length t'
         = List.length w + List.length t.
Proof.
  induction w as [|c w IH] using rev_ind; intros t.
  - exists t. split; reflexivity.
  - rewrite length_app. cbn [List.length].
    replace (List.length w + 1) with (S (List.length w)) by lia.
    cbn [strip_colons]. rewrite load_written. cbn [bind].
    rewrite strip_end_snoc. destruct (Ascii.eqb c COLON).
    + pose proof (store_inside w [] c NUL (Some NUL :: t)) as Hs.
      rewrite Hs. cbn [bind]. rewrite map_app, <- app_assoc. cbn [map app].
      destruct (IH (Some NUL :: t)) as [t' [Hrun Hlen]]. exists t'.
      split; [exact Hrun|]. cbn [List.length] in Hlen. lia.
    + exists t. split; [reflexivity|]. rewrite length_app. cbn. lia.
Qed.

Lemma strchr_inside (s : cstring) (c : ascii) (k : nat) :
  strchr s c = Some k -> k < strlen s.
Proof.
  intros H. apply strchr_first in H. destruct H as [H _].
  apply nth_error_Some. rewrite H. discriminate.
Qed.

Lemma variable_name_cstring (signed_char : bool) (line : cstring)
  (ptr namelength : nat) :
  is_cstring line -> is_cstring (variable_name signed_char line ptr namelength).
Proof.
  intros Hcs Hin. apply Hcs. unfold variable_name in Hin.
  apply strip_end_incl in Hin. apply strip_end_incl in Hin.
  eapply firstn_incl. exact Hin.
Qed.

(** [is_variable] on a line that it takes for a variable. *)
Lemma is_variable_run (signed_char : bool) (line : cstring) (name : buffer)
  (namelength ptr : nat) :
  is_cstring line -> 0 < namelength -> namelength <= List.length name ->
  blank_first line = false -> strchr line "=" = Some ptr ->
  exists t : buffer,
    is_variable signed_char line name namelength
    = Ok (Some (skipleading signed_char (skipn (S ptr) line)),
          map Some (variable_name signed_char line ptr namelength)
          ++ Some NUL :: t)
    /\ List.length (variable_name signed_char line ptr namelength)
       + S (List.length t)
       = List.length name.
Proof.
  intros Hcs Hpos Hsize Hblank Hptr. unfold is_variable.
  rewrite Hblank, Hptr.
  assert (Hin : ptr < strlen line) by (eapply strchr_inside; exact Hptr).
  assert (Hlength : (if namelength <=? ptr
                     then if namelength =? 0 then Fault InvalidAccess
                          else Ok (namelength - 1)
                     else Ok ptr)
                    = Ok (Nat.min ptr (namelength - 1))).
  { destruct (Nat.leb_spec namelength ptr).
    - destruct (Nat.eqb_spec namelength 0); [lia|]. f_equal. lia.
    - f_equal. lia. }
  rewrite Hlength. cbn [bind].
  set (length := Nat.min ptr (namelength - 1)).
  assert (Hfirst : List.length (firstn length line) = length).
  { rewrite length_firstn. unfold strlen in Hin. subst length. lia. }
  pose proof (memcpy_written [] (firstn length line) name) as Hcopy.
  cbn [map app List.length skipn Nat.add] in Hcopy.
  rewrite Hcopy by (rewrite Hfirst; subst length; lia). cbn [bind].
  pose proof (store_written (firstn length line) NUL name) as Hstore.
  rewrite Hfirst in Hstore. rewrite Hfirst.
  rewrite Hstore by (subst length; lia). cbn [bind].
  rewrite map_app, <- app_assoc. cbn [map app].
  destruct (strip_colons_strip (firstn length line)
              (skipn (length + 1) name)) as [t1 [Hcolons Hlen1]].
  rewrite Hfirst in Hcolons. rewrite Hcolons. cbn [bind].
  unfold striptrailing.
  set (w1 := strip_end (fun c => Ascii.eqb c COLON) (firstn length line))
    in *.
  assert (Hw1 : is_cstring w1).
  { intros H. apply Hcs. subst w1. apply strip_end_incl in H.
    eapply firstn_incl. exact H. }
  rewrite cstr_app by exact Hw1. cbn [bind].
  destruct (striptrailing_loop_strip signed_char w1 t1) as [t2 [Hstrip Hlen2]].
  unfold strlen. rewrite Hstrip. exists t2. split; [reflexivity|].
  unfold variable_name. fold length. fold w1.
  rewrite Hfirst, length_skipn in Hlen1. subst length. lia.
Qed.

(** [is_variable] on a line that it does not take for a variable. *)
Lemma is_variable_none (signed_char : bool) (line : cstring) (name : buffer)
  (namelength : nat) :
  (if blank_first line then None else strchr line "=") = None ->
  is_variable signed_char line name namelength = Ok (None, name).
Proof. intros H. unfold is_variable. rewrite H. reflexivity. Qed.



(** ** What is defined, looked up and undefined *)

(** [is_variable] as its callers use it, with an array of 128 bytes. *)
Lemma is_variable_array (signed_char : bool) (line : cstring) :
  is_cstring line ->
  is_variable signed_char line (alloca 128) 128 = Ok (None, alloca 128)
  /\ (if blank_first line then None else strchr line "=") = None
  \/ exists (ptr : nat) (vname : buffer),
       (if blank_first line then None else strchr line "=") = Some ptr
       /\ is_variable signed_char line (alloca 128) 128
          = Ok (Some (skipleading signed_char (skipn (S ptr) line)), vname)
       /\ cstr vname = Ok (variable_name signed_char line ptr 128).
Proof.
  intros Hcs.
  destruct (if blank_first line then None else strchr line "=")
    as [ptr|] eqn:Hline.
  - right. destruct (blank_first line) eqn:Hblank; [discriminate|].
    assert (Hsize : 128 <= List.length (alloca 128))
      by (unfold alloca; rewrite repeat_length; lia).
    destruct (is_variable_run signed_char line (alloca 128) 128 ptr Hcs
                ltac:(lia) Hsize Hblank Hline) as [t [Hrun _]].
    exists ptr. eexists. split; [reflexivity|]. split; [exact Hrun|].
    apply cstr_app. apply variable_name_cstring. exact Hcs.
  - left. split; [|reflexivity]. apply is_variable_none. exact Hline.
Qed.

(** X22. The lines of the configuration file are read alike by
    [define_default_variables] and by [get_default_variable]: for lines
    that are C strings neither fails, and [get_default_variable] returns
    the value of the first call of [define_variable] for that name that
    [define_default_variables] makes for a line of the file, and null when
    it makes none. *)
Theorem get_default_variable_first (signed_char : bool)
  (textroot : list cstring) (name : cstring) :
  Forall is_cstring textroot ->
  exists defined : list (cstring * cstring),
    define_default_variables signed_char false textroot
    = Ok (default_variables ++ defined)
    /\ define_default_variables signed_char true textroot
       = Ok default_variables
    /\ List.length defined <= List.length textroot
    /\ get_default_variable signed_char textroot name
       = Ok (option_map snd (find (fun d => streq (fst d) name) defined)).
Proof.
  intros Hall. unfold define_default_variables.
  assert (H : exists defined,
             define_config_variables signed_char textroot = Ok defined
             /\ List.length defined <= List.length textroot
             /\ get_default_variable signed_char textroot name
                = Ok (option_map snd
                        (find (fun d => streq (fst d) name) defined))).
  { induction Hall as [|line next Hline Hnext IH].
    - exists []. split; [reflexivity|]. split; [apply Nat.le_refl|].
      reflexivity.
    - destruct IH as [defined [Hdef [Hlen Hget]]].
      cbn [define_config_variables get_default_variable].
      destruct (is_variable_array signed_char line Hline)
        as [[Hnone _]|[ptr [vname [_ [Hsome Hname]]]]].
      + rewrite Hnone. cbn [bind]. exists defined.
        split; [exact Hdef|]. split; [cbn [List.length]; lia|exact Hget].
      + rewrite Hsome. cbn [bind]. rewrite Hname. cbn [bind].
        rewrite Hdef. cbn [bind]. eexists. split; [reflexivity|].
        split; [cbn [List.length]; lia|]. cbn [find fst].
        destruct (streq (variable_name signed_char line ptr 128) name).
        * reflexivity.
        * exact Hget. }
  destruct H as [defined [Hdef [Hlen Hget]]]. exists defined.
  rewrite Hdef. cbn [bind]. repeat split; assumption.
Qed.

(** The four lines of [config_example] and the name [CC]. *)
Lemma get_default_variable_first_witness :
  exists defined : list (cstring * cstring),
    define_default_variables false false config_example
    = Ok (default_variables ++ defined)
    /\ define_default_variables false true config_example
       = Ok default_variables
    /\ List.length defined <= List.length config_example
    /\ get_default_variable false config_example (cs "CC")
       = Ok (option_map snd
               (find (fun d => streq (fst d) (cs "CC")) defined)).
Proof.
  apply (get_default_variable_first false config_example (cs "CC")).
  repeat constructor; unfold is_cstring; cbn; intuition discriminate.
Defined.

Lemma strchr_app_first (pre rest : cstring) (c : ascii) :
  ~ In c pre -> strchr (pre ++ c :: rest) c = Some (List.length pre).
Proof.
  induction pre as [|x pre IH]; intros Hpre.
  - cbn. rewrite Ascii.eqb_refl. reflexivity.
  - cbn [app strchr List.length].
    assert (Hx : Ascii.eqb x c = false).
    { apply Ascii.eqb_neq. intros ->. apply Hpre. left. reflexivity. }
    rewrite Hx, IH by (intros H; apply Hpre; right; exact H). reflexivity.
Qed.

Lemma strip_end_app_all (test : ascii -> bool) (s t : cstring) :
  forallb test t = true -> strip_end test (s ++ t) = strip_end test s.
Proof.
  induction t as [|c t IH] using rev_ind; intros Ht.
  - rewrite app_nil_r. reflexivity.
  - rewrite forallb_app in Ht. apply andb_true_iff in Ht.
    destruct Ht as [Ht Hc]. cbn in Hc. rewrite andb_true_r in Hc.
    rewrite app_assoc, strip_end_snoc, Hc. apply IH. exact Ht.
Qed.

Lemma strip_end_stable (test : ascii -> bool) (s : cstring) :
  (forall c, last_char s = Some c -> test c = false) ->
  strip_end test s = s.
Proof.
  destruct s as [|x s] using rev_ind; intros H; [reflexivity|].
  rewrite strip_end_snoc.
  rewrite (H x); [reflexivity|].
  rewrite last_char_app by discriminate. reflexivity.
Qed.

Lemma Forall_forallb (test : ascii -> bool) (P : ascii -> Prop)
  (s : cstring) :
  (forall c, P c -> test c = true) -> Forall P s -> forallb test s = true.
Proof.
  intros HP Hs. apply forallb_forall. rewrite Forall_forall in Hs.
  intros c Hc. apply HP. apply Hs. exact Hc.
Qed.

(** The loop of [undefine_default_variables], from the end of a text. *)
Lemma undefine_name_end_strip (w : cstring) :
  forall rest : cstring,
    undefine_name_end (w ++ rest) (List.length w)
    = List.length
        (strip_end (fun c => Ascii.eqb c COLON || Ascii.eqb c SPACE) w).
Proof.
  induction w as [|c w IH] using rev_ind; intros rest; [reflexivity|].
  rewrite length_app. cbn [List.length].
  replace (List.length w + 1) with (S (List.length w)) by lia.
  cbn [undefine_name_end]. rewrite <- app_assoc. cbn [app].
  rewrite nth_error_app2 by lia. rewrite Nat.sub_diag.
  cbn [nth_error is_char]. rewrite strip_end_snoc.
  destruct (Ascii.eqb c COLON || Ascii.eqb c SPACE).
  - apply IH.
  - rewrite length_app. cbn. lia.
Qed.

Lemma at_most_space_space (signed_char : bool) :
  at_most_space signed_char SPACE = true.
Proof. destruct signed_char; reflexivity. Qed.

(** The name that is defined and the name that is undefined, for an
    assignment of the usual form. *)
Lemma assignment_line_names (signed_char : bool) (line : cstring) :
  assignment_line signed_char line ->
  exists (ptr : nat) (name : cstring),
    strchr line "=" = Some ptr
    /\ variable_name signed_char line ptr 128 = name
    /\ firstn (undefine_name_end line ptr) line = name.
Proof.
  intros [name [spaces [colons [rest [Hline [Hname [Hsp [Hco [Hlen Hlast]]]]]]]]].
  assert (Hspaces : forall c, In c spaces -> c = SPACE)
    by (apply Forall_forall; exact Hsp).
  assert (Hcolons : forall c, In c colons -> c = COLON)
    by (apply Forall_forall; exact Hco).
  set (pre := name ++ spaces ++ colons) in *.
  assert (Hsplit : line = pre ++ "="%char :: rest).
  { rewrite Hline. subst pre. rewrite <- !app_assoc. reflexivity. }
  assert (Hpre : ~ In "="%char pre).
  { subst pre. intros H. apply in_app_or in H. destruct H as [H|H];
      [exact (Hname H)|].
    apply in_app_or in H. destruct H as [H|H].
    - apply Hspaces in H. discriminate H.
    - apply Hcolons in H. discriminate H. }
  exists (List.length pre), name. split.
  { rewrite Hsplit. apply strchr_app_first. exact Hpre. }
  assert (Hpad : forall c, last_char (name ++ spaces) = Some c ->
                           Ascii.eqb c COLON = false).
  { intros c Hc. destruct spaces as [|s spaces].
    - rewrite app_nil_r in Hc. apply Ascii.eqb_neq.
      apply (Hlast c Hc).
    - rewrite last_char_app in Hc by discriminate.
      destruct (last_char_split (s :: spaces) ltac:(discriminate))
        as [d0 [c' [Hd Hc']]].
      rewrite Hc in Hc'. injection Hc' as <-.
      assert (Hin : In c (s :: spaces))
        by (rewrite Hd; apply in_or_app; right; left; reflexivity).
      apply Hspaces in Hin. subst c. reflexivity. }
  split.
  - unfold variable_name. unfold strlen in Hlen.
    replace (Nat.min (List.length pre) (128 - 1)) with (List.length pre)
      by lia.
    rewrite Hsplit, firstn_app, Nat.sub_diag, firstn_all. cbn [firstn].
    rewrite app_nil_r. subst pre.
    rewrite app_assoc, strip_end_app_all
      by (apply (Forall_forallb _ (fun c => c = COLON)); [|exact Hco];
          intros c ->; reflexivity).
    rewrite (strip_end_stable _ (name ++ spaces)) by exact Hpad.
    rewrite strip_end_app_all
      by (apply (Forall_forallb _ (fun c => c = SPACE)); [|exact Hsp];
          intros c ->; apply at_most_space_space).
    apply strip_end_stable. intros c Hc. apply (Hlast c Hc).
  - rewrite Hsplit, undefine_name_end_strip. subst pre.
    rewrite strip_end_app_all.
    + rewrite strip_end_stable.
      * rewrite <- app_assoc, firstn_app, Nat.sub_diag, firstn_all.
        cbn [firstn]. rewrite app_nil_r. reflexivity.
      * intros c Hc. destruct (Hlast c Hc) as [Hcolon Hspace].
        apply orb_false_iff. split; [apply Ascii.eqb_neq; exact Hcolon|].
        apply Ascii.eqb_neq. intros ->.
        rewrite at_most_space_space in Hspace. discriminate Hspace.
    + rewrite forallb_app. apply andb_true_iff. split.
      * apply (Forall_forallb _ (fun c => c = SPACE)); [|exact Hsp].
        intros c ->. reflexivity.
      * apply (Forall_forallb _ (fun c => c = COLON)); [|exact Hco].
        intros c ->. reflexivity.
Qed.

(** X23. What [define_default_variables] defines,
    [undefine_default_variables] undefines: when every line of the
    configuration file that does not start with a blank and holds [=] is
    an assignment of the usual form (a name, spaces, colons and [=], the
    name ending neither in a colon nor in a byte at most a space, and less
    than 128 bytes before the [=]), the names of the calls of
    [undefine_variable_global] are the names of the calls of
    [define_variable] for the lines of the file, in the same order. *)
Theorem default_variables_undefined (signed_char : bool)
  (textroot : list cstring) :
  Forall is_cstring textroot ->
  Forall (fun line => blank_first line = false -> In "="%char line ->
                      assignment_line signed_char line) textroot ->
  exists defined : list (cstring * cstring),
    define_default_variables signed_char false textroot
    = Ok (default_variables ++ defined)
    /\ undefine_default_variables textroot = map fst defined.
Proof.
  intros Hall Hshape. unfold define_default_variables.
  assert (H : exists defined,
             define_config_variables signed_char textroot = Ok defined
             /\ undefine_default_variables textroot = map fst defined).
  { induction Hall as [|line next Hline Hnext IH].
    - exists []. split; reflexivity.
    - inversion Hshape as [|? ? Hthis Hrest]; subst.
      destruct (IH Hrest) as [defined [Hdef Hundef]].
      cbn [define_config_variables undefine_default_variables].
      destruct (is_variable_array signed_char line Hline)
        as [[Hnone Hno]|[ptr [vname [Hyes [Hsome Hname]]]]].
      + rewrite Hnone, Hno. cbn [bind]. exists defined.
        split; assumption.
      + rewrite Hsome, Hyes. cbn [bind]. rewrite Hname. cbn [bind].
        rewrite Hdef. cbn [bind]. eexists. split; [reflexivity|].
        cbn [map fst]. rewrite Hundef. f_equal.
        destruct (blank_first line) eqn:Hblank; [discriminate Hyes|].
        assert (Hin : In "="%char line).
        { apply strchr_first in Hyes. destruct Hyes as [Hyes _].
          eapply nth_error_In. exact Hyes. }
        destruct (assignment_line_names signed_char line
                    (Hthis eq_refl Hin)) as [ptr' [name [Hptr [Hv Hu]]]].
        rewrite Hyes in Hptr. injection Hptr as <-.
        rewrite Hv, Hu. reflexivity. }
  destruct H as [defined [Hdef Hundef]]. exists defined.
  rewrite Hdef. split; [reflexivity|exact Hundef].
Qed.

(** The four lines of [config_example]. *)
Lemma default_variables_undefined_witness :
  exists defined : list (cstring * cstring),
    define_default_variables false false config_example
    = Ok (default_variables ++ defined)
    /\ undefine_default_variables config_example = map fst defined.
Proof.
  apply (default_variables_undefined false config_example).
  - repeat constructor; unfold is_cstring; cbn; intuition discriminate.
  - repeat apply Forall_cons; try apply Forall_nil.
    + intros _ _. exists (cs "CC"), (cs " "), (cs ":"), (cs " gcc").
      split; [reflexivity|]. split; [cbn; intuition discriminate|].
      split; [repeat constructor|]. split; [repeat constructor|].
      split; [cbn; lia|].
      intros c H. injection H as <-. split; [discriminate|reflexivity].
    + intros _ H. exfalso. cbn in H. intuition discriminate.
    + intros _ _. exists (cs "CFLAGS"), (cs " "), [], (cs " -O2").
      split; [reflexivity|]. split; [cbn; intuition discriminate|].
      split; [repeat constructor|]. split; [constructor|].
      split; [cbn; lia|].
      intros c H. injection H as <-. split; [discriminate|reflexivity].
    + intros _ _. exists (cs "CC"), (cs " "), [], (cs " cc").
      split; [reflexivity|]. split; [cbn; intuition discriminate|].
      split; [repeat constructor|]. split; [constructor|].
      split; [cbn; lia|].
      intros c H. injection H as <-. split; [discriminate|reflexivity].
Defined.

(** ** The recipe of a rule of the configuration file *)













(** ** The list of the default suffixes *)















(** ** The lines that are printed and the lines that are chopped *)

Lemma count_backslashes_odd (l : list ascii) :
  forall b : bool,
    count_backslashes l b = if odd_run l then negb b else b.
Proof.
  induction l as [|c l IH]; intros b; [reflexivity|].
  cbn [count_backslashes odd_run].
  destruct (Ascii.eqb c BACKSLASH); [|reflexivity].
  rewrite IH. destruct (odd_run l); cbn [negb]; [|reflexivity].
  apply negb_involutive.
Qed.

Lemma firstn_snoc (p : cstring) :
  forall (k : nat) (x : ascii),
    nth_error p k = Some x -> firstn (S k) p = firstn k p ++ [x].
Proof.
  induction p as [|c p IH]; intros k x H; [destruct k; discriminate H|].
  destruct k as [|k].
  - cbn in H. injection H as <-. reflexivity.
  - cbn [nth_error] in H. cbn [firstn app]. f_equal.
    apply IH. exact H.
Qed.

(** A newline is continued when the backslashes before it are odd in
    number. *)
Lemma continued_odd (p : cstring) (e : nat) :
  e <= strlen p -> continued p e = odd_run (rev (firstn e p)).
Proof.
  intros He. destruct e as [|k]; [reflexivity|].
  destruct (nth_error p k) as [x|] eqn:Hx.
  - rewrite (firstn_snoc p k x Hx), rev_app_distr. cbn [rev app odd_run].
    unfold continued. replace (S k - 1) with k by lia. rewrite Hx.
    cbn [is_char Nat.ltb Nat.leb andb].
    destruct (Ascii.eqb x BACKSLASH); [|reflexivity]. cbn [andb].
    destruct k as [|k]; [reflexivity|].
    cbn [Nat.leb]. rewrite count_backslashes_odd.
    destruct (odd_run (rev (firstn (S k) p))); reflexivity.
  - apply nth_error_None in Hx. unfold strlen in He. lia.
Qed.

(** Where the loop of [print_commands] stops. *)
Lemma logical_line_end_spec (rest : cstring) :
  forall pre : cstring,
    logical_line_end rest (odd_run (rev pre)) <= strlen rest
    /\ (logical_line_end rest (odd_run (rev pre)) < strlen rest ->
        nth_error rest (logical_line_end rest (odd_run (rev pre)))
        = Some NEWLINE
        /\ odd_run
             (rev (pre ++ firstn (logical_line_end rest (odd_run (rev pre)))
                            rest))
           = false)
    /\ forall i, i < logical_line_end rest (odd_run (rev pre)) ->
                 nth_error rest i = Some NEWLINE ->
                 odd_run (rev (pre ++ firstn i rest)) = true.
Proof.
  induction rest as [|c r IH]; intros pre.
  - cbn. split; [lia|]. split; intros; lia.
  - cbn [logical_line_end].
    destruct (Ascii.eqb c NEWLINE && negb (odd_run (rev pre))) eqn:Hstop.
    + apply andb_true_iff in Hstop. destruct Hstop as [Hc Hbs].
      apply Ascii.eqb_eq in Hc. subst c. apply negb_true_iff in Hbs.
      split; [cbn; lia|]. split.
      * intros _. split; [reflexivity|]. cbn [firstn].
        rewrite app_nil_r. exact Hbs.
      * intros i Hi. lia.
    + assert (Hstate : (if Ascii.eqb c BACKSLASH
                        then negb (odd_run (rev pre)) else false)
                       = odd_run (rev (pre ++ [c]))).
      { rewrite rev_app_distr. reflexivity. }
      rewrite Hstate. destruct (IH (pre ++ [c])) as [Hle [Hat Hbefore]].
      unfold strlen in *. cbn [List.length].
      split; [lia|]. split.
      * intros Hlt. cbn [nth_error firstn].
        destruct (Hat ltac:(lia)) as [Hnl Hodd]. split; [exact Hnl|].
        rewrite <- app_assoc in Hodd. exact Hodd.
      * intros [|i] Hi Hnl.
        -- cbn [nth_error] in Hnl. injection Hnl as ->.
           cbn [firstn]. rewrite app_nil_r.
           rewrite Ascii.eqb_refl in Hstop. cbn [andb] in Hstop.
           apply negb_false_iff in Hstop. exact Hstop.
        -- cbn [nth_error firstn] in *.
           specialize (Hbefore i ltac:(lia) Hnl).
           rewrite <- app_assoc in Hbefore. exact Hbefore.
Qed.

(** The two searches of the end of a line stop at the same byte. *)
Lemma line_ends_agree (p : cstring) :
  logical_line_end p false = find_end (S (strlen p)) p 0.
Proof.
  destruct (logical_line_end_spec p []) as [Hle1 [Hat1 Hbefore1]].
  cbn [rev odd_run app] in *.
  destruct (find_end_spec p (S (strlen p)) 0 ltac:(lia) ltac:(lia)
              ltac:(intros i Hi; lia)) as [[_ Hle2] [Hat2 Hbefore2]].
  set (e1 := logical_line_end p false) in *.
  set (e2 := find_end (S (strlen p)) p 0) in *.
  destruct (Nat.lt_trichotomy e1 e2) as [Hlt|[Heq|Hgt]]; [|exact Heq|].
  - exfalso. destruct (Hat1 ltac:(lia)) as [Hnl Hodd].
    pose proof (Hbefore2 e1 Hlt Hnl) as Hcont.
    rewrite continued_odd in Hcont by lia. rewrite Hodd in Hcont.
    discriminate Hcont.
  - exfalso. destruct (Hat2 ltac:(lia)) as [Hnl Hcont].
    pose proof (Hbefore1 e2 Hgt Hnl) as Hodd.
    rewrite continued_odd in Hcont by lia. rewrite Hodd in Hcont.
    discriminate Hcont.
Qed.

(** The loop of [print_commands] prints the lines that the loop of
    [chop_commands] makes. *)
Lemma print_lines_chop (fuel : nat) :
  forall (p : cstring) (lines ls : list cstring),
    strlen p <= fuel ->
    chop_lines fuel p lines = Chopped ls ->
    exists new : list cstring,
      ls = lines ++ new
      /\ print_lines fuel p
         = List.concat (map (fun l => cs "    " ++ l ++ [NEWLINE]) new).
Proof.
  induction fuel as [|fuel IH]; intros p lines ls Hfuel Hchop.
  - cbn in Hchop. injection Hchop as <-. exists [].
    rewrite app_nil_r. split; reflexivity.
  - destruct p as [|c p].
    + cbn in Hchop. injection Hchop as <-. exists [].
      rewrite app_nil_r. split; reflexivity.
    + cbn [chop_lines print_lines] in *.
      rewrite line_ends_agree.
      set (q := c :: p) in *.
      destruct (find_end_spec q (S (strlen q)) 0 ltac:(lia) ltac:(lia)
                  ltac:(intros i Hi; lia)) as [[_ Hle] [Hat _]].
      set (e := find_end (S (strlen q)) q 0) in *.
      destruct (List.length lines =? USHRT_MAX); [discriminate Hchop|].
      assert (Hnext : skipn (e + (if is_char (char_at q e) NEWLINE
                                  then 1 else 0)) q
                      = match skipn e q with
                        | [] => []
                        | _ :: p' => p'
                        end).
      { destruct (Nat.eq_dec e (strlen q)) as [Hend|Hin].
        - rewrite Hend, char_at_length. cbn [is_char].
          change (Ascii.eqb NUL NEWLINE) with false.
          rewrite Nat.add_0_r. unfold strlen. rewrite skipn_all.
          reflexivity.
        - destruct (Hat ltac:(lia)) as [Hnl _].
          unfold char_at.
          destruct (Nat.ltb_spec e (strlen q)) as [_|Hge]; [|lia].
          rewrite Hnl. cbn [is_char].
          rewrite Ascii.eqb_refl.
          replace (e + 1) with (1 + e) by lia. rewrite <- skipn_skipn.
          destruct (skipn e q); reflexivity. }
      rewrite Hnext.
      assert (Hshort : strlen (match skipn e q with
                               | [] => []
                               | _ :: p' => p'
                               end) <= fuel).
      { pose proof (length_skipn e q) as Hlen. unfold strlen in *.
        subst q. cbn [List.length] in *.
        destruct (skipn e (c :: p)) as [|x t] eqn:Hskip.
        - cbn. lia.
        - cbn [List.length] in Hlen. lia. }
      destruct (IH _ _ _ Hshort Hchop) as [new [Hls Hprint]].
      exists (firstn e q :: new). split.
      * rewrite Hls, <- app_assoc. reflexivity.
      * cbn [map List.concat]. rewrite <- !app_assoc. cbn [app].
        do 3 f_equal. exact Hprint.
Qed.

(** X26. [print_commands] and [chop_commands] find the same lines:
    after [chop_commands] without [one_shell] on commands that are not
    chopped yet, what [print_commands] writes is its heading, with the
    name of the file and the line when the name is not null, and then
    every line of [command_lines], four spaces before it and a newline
    after it; it writes the same before the commands are chopped. *)
Theorem print_commands_lines (c c' : struct_commands) :
  command_lines c = None ->
  chop_commands false (Some c) = Chopped (Some c') ->
  exists lines : list cstring,
    command_lines c' = Some lines
    /\ forall (filenm : option cstring) (lineno : nat),
         print_commands filenm lineno c = print_commands filenm lineno c'
         /\ print_commands filenm lineno c'
            = cs "#  recipe to execute"
              ++ match filenm with
                 | None => cs " (built-in):" ++ [NEWLINE]
                 | Some f =>
                     cs " (from '" ++ f ++ cs "', line " ++ decimal lineno
                     ++ cs "):" ++ [NEWLINE]
                 end
              ++ List.concat
                   (map (fun l => cs "    " ++ l ++ [NEWLINE]) lines).
Proof.
  intros Hnone. unfold chop_commands. rewrite Hnone.
  destruct (chop_lines (strlen (commands c)) (commands c) [])
    as [lines|n|n] eqn:Hchop; try discriminate.
  match goal with
  | |- (if ?b then _ else _) = _ -> _ => destruct b; [discriminate|]
  end.
  intros H. injection H as H. subst c'. exists lines.
  split; [reflexivity|]. intros filenm lineno.
  split; [reflexivity|]. unfold print_commands. cbn [commands].
  destruct (print_lines_chop _ _ _ _ (Nat.le_refl _) Hchop)
    as [new [Hnew Hprint]].
  cbn [app] in Hnew. subst new. rewrite Hprint. reflexivity.
Qed.

(** The recipe of [recipe_example] and its three lines. *)
Lemma print_commands_lines_witness :
  exists lines : list cstring,
    command_lines recipe_chopped = Some lines
    /\ forall (filenm : option cstring) (lineno : nat),
         print_commands filenm lineno recipe_example
         = print_commands filenm lineno recipe_chopped
         /\ print_commands filenm lineno recipe_chopped
            = cs "#  recipe to execute"
              ++ match filenm with
                 | None => cs " (built-in):" ++ [NEWLINE]
                 | Some f =>
                     cs " (from '" ++ f ++ cs "', line " ++ decimal lineno
                     ++ cs "):" ++ [NEWLINE]
                 end
              ++ List.concat
                   (map (fun l => cs "    " ++ l ++ [NEWLINE]) lines).
Proof.
  apply (print_commands_lines recipe_example recipe_chopped).
  - reflexivity.
  - reflexivity.
Defined.
